(** * influx-proxy, package backend: the Proxy coordinator (proxy.go)

    A shallow embedding of [Proxy] and of the operations it owns: start-up
    ([NewProxy]), placement ([GetMachines]), the write path ([WriteData]),
    query admission ([CheckMeasurementQuery] and friends) and the three
    data-movement workflows (rebalance, recovery, resync) with their
    wait-group throttling, and the administration of the backends
    ([AddBackend], [DeleteBackend], [CreateDatabase], [Clear]).

    Go values are modelled as follows.
    - [int] is a 64-bit two's complement integer: a [Z] with the wrap-around
      written out in [GoInt].
    - [string] is [string]; [[]byte] is [list byte].
    - [map[string]T] is [gmap string T]; a nil map reads like the empty one.
    - a pointer to a [Backend] is an address into a heap of backends, [None] being nil;
      a pointer to a [Circle] is the position of the circle in [proxy.Circles], the only
      place that holds circles.
    - a [sync.WaitGroup] is its counter.
    - Effects (mutation, logging, go statements, panics, a Wait that never
      returns) live in the monad [M]. *)

From stdpp Require Import base numbers option list gmap strings pretty.
From Stdlib Require Import ZArith Lia Strings.Byte.

(** A Go [error], identified by its message. *)
Definition error : Type := string.

(** ** Go's [int] *)
Module GoInt.
Definition min_int : Z := - 2 ^ 63.
Definition max_int : Z := 2 ^ 63 - 1.

(** Two's complement wrap-around of an arithmetic result. *)
Definition wrap (z : Z) : Z := ((z + 2 ^ 63) mod 2 ^ 64 - 2 ^ 63)%Z.

Definition add (x y : Z) : Z := wrap (x + y).

(** [x++] *)
Definition incr (x : Z) : Z := add x 1.

(** [x % y]: the remainder has the sign of [x]; a zero divisor panics,
    which is [None] here. *)
Definition rem (x y : Z) : option Z :=
  if (y =? 0)%Z then None else Some (Z.rem x y).

(** [len(l)] *)
Definition len {A} (l : list A) : Z := Z.of_nat (length l).

(** [l[i]] for a slice: out of range is [None] (a panic in Go). *)
Definition index {A} (l : list A) (i : Z) : option A :=
  if (i <? 0)%Z then None else l !! Z.to_nat i.
End GoInt.

(** ** What the package imports

    [regexp] of the Go standard library and the consistent-hash ring of
    [stathat.com/c/consistent] are libraries, not code of this repository:
    they are interfaces here. *)

Class RegexpPkg := {
  Regexp : Type;
  (** [regexp.Compile] *)
  regexp_Compile : string → Regexp + error;
  (** the method [MatchString] of a compiled expression *)
  MatchString : Regexp → string → bool;
}.

Class ConsistentPkg := {
  Consistent : Type;
  (** [consistent.New()] *)
  consistent_New : Consistent;
  (** assignment to the field [NumberOfReplicas] *)
  set_NumberOfReplicas : Z → Consistent → Consistent;
  (** the method [Add] *)
  consistent_Add : string → Consistent → Consistent;
  (** the method [Get]: both results, as the callers read the name even
      when the error is set. *)
  consistent_Get : Consistent → string → string * option error;
}.

(** ** Data model *)

(** [LineData], the form in which a write travels. *)
Module LineData.
Record t := mk {
  Db : string;
  Line : list byte;
  Precision : string;
}.
Definition set_Line (l : list byte) (d : t) : t :=
  {| Db := Db d; Line := l; Precision := Precision d |}.
End LineData.

(** [MigrationInfo], one progress slot of a workflow. *)
Module MigrationInfo.
Record t := mk {
  CircleNum : Z;
  Database : string;
  Measurement : string;
  BackendMeasureTotal : Z;
  BMNeedMigrateCount : Z;
  BMNotMigrateCount : Z;
}.

(** [&MigrationInfo{}] *)
Definition zero : t := mk 0 "" "" 0 0 0.

Definition set_CircleNum (n : Z) (i : t) : t :=
  mk n (Database i) (Measurement i) (BackendMeasureTotal i)
     (BMNeedMigrateCount i) (BMNotMigrateCount i).
Definition set_Database (db : string) (i : t) : t :=
  mk (CircleNum i) db (Measurement i) (BackendMeasureTotal i)
     (BMNeedMigrateCount i) (BMNotMigrateCount i).
Definition set_Measurement (m : string) (i : t) : t :=
  mk (CircleNum i) (Database i) m (BackendMeasureTotal i)
     (BMNeedMigrateCount i) (BMNotMigrateCount i).
Definition set_BackendMeasureTotal (n : Z) (i : t) : t :=
  mk (CircleNum i) (Database i) (Measurement i) n
     (BMNeedMigrateCount i) (BMNotMigrateCount i).
(** [BMNeedMigrateCount++] *)
Definition incr_BMNeedMigrateCount (i : t) : t :=
  mk (CircleNum i) (Database i) (Measurement i) (BackendMeasureTotal i)
     (GoInt.incr (BMNeedMigrateCount i)) (BMNotMigrateCount i).
(** [BMNotMigrateCount++] *)
Definition incr_BMNotMigrateCount (i : t) : t :=
  mk (CircleNum i) (Database i) (Measurement i) (BackendMeasureTotal i)
     (BMNeedMigrateCount i) (GoInt.incr (BMNotMigrateCount i)).
(** The five assignments in the body of [ClearMigrateStatus]; [CircleNum]
    is not among them. *)
Definition clear (i : t) : t := mk (CircleNum i) "" "" 0 0 0.
End MigrationInfo.

(** An address of a [Backend] object; a pointer to one is an [option loc]. *)
Definition loc : Type := nat.

(** [BufferCounter] and [Backend] are declared in a file of the package that
    is not among the sources; the fields are those proxy.go touches (locks,
    HTTP client and transport carry no state of their own here). *)
Module BufferCounter.
Record t := mk {
  Buffer : list byte;
  Counter : Z;
}.
(** [&BufferCounter{Buffer: &bytes.Buffer{}}] *)
Definition fresh : t := mk [] 0.
End BufferCounter.

Module Backend.
Record t := mk {
  Name : string;
  Url : string;
  Active : bool;
  BufferMap : gmap string BufferCounter.t;
  LockDbMap : gset string;
}.
Definition set_Active (a : bool) (b : t) : t :=
  mk (Name b) (Url b) a (BufferMap b) (LockDbMap b).
Definition set_BufferMap (m : gmap string BufferCounter.t) (b : t) : t :=
  mk (Name b) (Url b) (Active b) m (LockDbMap b).
Definition set_LockDbMap (m : gset string) (b : t) : t :=
  mk (Name b) (Url b) (Active b) (BufferMap b) m.
End Backend.

(** [Circle], declared in the same absent file. *)
Module Circle.
Record t `{ConsistentPkg} := mk {
  Name : string;
  CircleNum : Z;
  Backends : list loc;
  Router : option Consistent;
  UrlToBackend : gmap string loc;
  BackendWgMap : gmap string Z;
  WgMigrate : Z;
  ReadyMigrating : bool;
  IsMigrating : bool;
}.
Global Arguments t {_}.
Global Arguments mk {_}.

Section setters.
Context `{ConsistentPkg}.
Definition set_CircleNum (n : Z) (c : t) : t :=
  mk (Name c) n (Backends c) (Router c) (UrlToBackend c) (BackendWgMap c)
     (WgMigrate c) (ReadyMigrating c) (IsMigrating c).
Definition set_Router (r : option Consistent) (c : t) : t :=
  mk (Name c) (CircleNum c) (Backends c) r (UrlToBackend c)
     (BackendWgMap c) (WgMigrate c) (ReadyMigrating c) (IsMigrating c).
Definition set_UrlToBackend (m : gmap string loc) (c : t) : t :=
  mk (Name c) (CircleNum c) (Backends c) (Router c) m (BackendWgMap c)
     (WgMigrate c) (ReadyMigrating c) (IsMigrating c).
Definition set_BackendWgMap (m : gmap string Z) (c : t) : t :=
  mk (Name c) (CircleNum c) (Backends c) (Router c) (UrlToBackend c) m
     (WgMigrate c) (ReadyMigrating c) (IsMigrating c).
Definition set_WgMigrate (n : Z) (c : t) : t :=
  mk (Name c) (CircleNum c) (Backends c) (Router c) (UrlToBackend c)
     (BackendWgMap c) n (ReadyMigrating c) (IsMigrating c).
Definition set_ReadyMigrating (b : bool) (c : t) : t :=
  mk (Name c) (CircleNum c) (Backends c) (Router c) (UrlToBackend c)
     (BackendWgMap c) (WgMigrate c) b (IsMigrating c).
Definition set_IsMigrating (b : bool) (c : t) : t :=
  mk (Name c) (CircleNum c) (Backends c) (Router c) (UrlToBackend c)
     (BackendWgMap c) (WgMigrate c) (ReadyMigrating c) b.
End setters.
End Circle.

(** The three workflows, each with a status table of its own in [Proxy]. *)
Inductive Workflow := Rebalancing | Recovering | Resyncing.

(** [Proxy]. The fields read only by the HTTP front (listen address, user,
    password, the HTTPS settings) have no part in what follows and are left
    out. *)
Module Proxy.
Record t `{RegexpPkg} `{ConsistentPkg} := mk {
  Circles : list Circle.t;
  DataDir : string;
  DbList : list string;
  DbMap : gmap string bool;
  VNodeSize : Z;
  FlushSize : Z;
  FlushTime : Z;
  MigrateMaxCpus : Z;
  ForbiddenQuery : list Regexp;
  ObligatedQuery : list Regexp;
  ClusteredQuery : list Regexp;
  BackendRebalanceStatus : list (gmap string MigrationInfo.t);
  BackendRecoveryStatus : list (gmap string MigrationInfo.t);
  BackendResyncStatus : list (gmap string MigrationInfo.t);
}.
Global Arguments t {_ _}.
Global Arguments mk {_ _}.

Section setters.
Context `{RegexpPkg} `{ConsistentPkg}.
Definition set_Circles (cs : list Circle.t) (p : t) : t :=
  mk cs (DataDir p) (DbList p) (DbMap p) (VNodeSize p) (FlushSize p)
     (FlushTime p) (MigrateMaxCpus p) (ForbiddenQuery p)
     (ObligatedQuery p) (ClusteredQuery p) (BackendRebalanceStatus p)
     (BackendRecoveryStatus p) (BackendResyncStatus p).
Definition set_DbMap (m : gmap string bool) (p : t) : t :=
  mk (Circles p) (DataDir p) (DbList p) m (VNodeSize p) (FlushSize p)
     (FlushTime p) (MigrateMaxCpus p) (ForbiddenQuery p)
     (ObligatedQuery p) (ClusteredQuery p) (BackendRebalanceStatus p)
     (BackendRecoveryStatus p) (BackendResyncStatus p).
Definition set_MigrateMaxCpus (n : Z) (p : t) : t :=
  mk (Circles p) (DataDir p) (DbList p) (DbMap p) (VNodeSize p)
     (FlushSize p) (FlushTime p) n (ForbiddenQuery p) (ObligatedQuery p)
     (ClusteredQuery p) (BackendRebalanceStatus p)
     (BackendRecoveryStatus p) (BackendResyncStatus p).
Definition set_ForbiddenQuery (l : list Regexp) (p : t) : t :=
  mk (Circles p) (DataDir p) (DbList p) (DbMap p) (VNodeSize p)
     (FlushSize p) (FlushTime p) (MigrateMaxCpus p) l (ObligatedQuery p)
     (ClusteredQuery p) (BackendRebalanceStatus p)
     (BackendRecoveryStatus p) (BackendResyncStatus p).
Definition set_ObligatedQuery (l : list Regexp) (p : t) : t :=
  mk (Circles p) (DataDir p) (DbList p) (DbMap p) (VNodeSize p)
     (FlushSize p) (FlushTime p) (MigrateMaxCpus p) (ForbiddenQuery p) l
     (ClusteredQuery p) (BackendRebalanceStatus p)
     (BackendRecoveryStatus p) (BackendResyncStatus p).
Definition set_ClusteredQuery (l : list Regexp) (p : t) : t :=
  mk (Circles p) (DataDir p) (DbList p) (DbMap p) (VNodeSize p)
     (FlushSize p) (FlushTime p) (MigrateMaxCpus p) (ForbiddenQuery p)
     (ObligatedQuery p) l (BackendRebalanceStatus p)
     (BackendRecoveryStatus p) (BackendResyncStatus p).

(** The status table of a workflow, and its replacement. *)
Definition status (w : Workflow) (p : t) : list (gmap string MigrationInfo.t) :=
  match w with
  | Rebalancing => BackendRebalanceStatus p
  | Recovering => BackendRecoveryStatus p
  | Resyncing => BackendResyncStatus p
  end.
Definition set_status (w : Workflow)
    (tb : list (gmap string MigrationInfo.t)) (p : t) : t :=
  mk (Circles p) (DataDir p) (DbList p) (DbMap p) (VNodeSize p)
     (FlushSize p) (FlushTime p) (MigrateMaxCpus p) (ForbiddenQuery p)
     (ObligatedQuery p) (ClusteredQuery p)
     (match w with Rebalancing => tb | _ => BackendRebalanceStatus p end)
     (match w with Recovering => tb | _ => BackendRecoveryStatus p end)
     (match w with Resyncing => tb | _ => BackendResyncStatus p end).
End setters.
End Proxy.

(** ** Query admission *)

Section Admission.
Context `{RegexpPkg} `{ConsistentPkg}.

(** The loop [for _, r := range rs { if r.MatchString(q) { return .. } }]:
    whether some expression of [rs] matches [q]. *)
Fixpoint anyMatch (rs : list Regexp) (q : string) : bool :=
  match rs with
  | [] => false
  | r :: rs' => if MatchString r q then true else anyMatch rs' q
  end.

Definition CheckMeasurementQuery (proxy : Proxy.t) (q : string) : bool :=
  if (negb (GoInt.len (Proxy.ForbiddenQuery proxy) =? 0)%Z
      && anyMatch (Proxy.ForbiddenQuery proxy) q)%bool
  then false
  else if negb (GoInt.len (Proxy.ObligatedQuery proxy) =? 0)%Z
  then (if anyMatch (Proxy.ObligatedQuery proxy) q then true else false)
  else true.

Definition CheckClusterQuery (proxy : Proxy.t) (q : string) : bool :=
  if negb (GoInt.len (Proxy.ClusteredQuery proxy) =? 0)%Z
  then (if anyMatch (Proxy.ClusteredQuery proxy) q then true else false)
  else true.

(** The index [len - 1] is in range under the guard, so the [None] branch
    (a panic in Go) is never taken. *)
Definition CheckCreateDatabaseQuery (proxy : Proxy.t) (q : string) : bool :=
  if negb (GoInt.len (Proxy.ClusteredQuery proxy) =? 0)%Z
  then
    match GoInt.index (Proxy.ClusteredQuery proxy)
            (GoInt.len (Proxy.ClusteredQuery proxy) - 1) with
    | Some r => MatchString r q
    | None => false
    end
  else false.
End Admission.

(** ** Calls, events and the rest of the package *)

(** The arguments of one [Proxy.Migrate] call (and of the [Circle.Migrate]
    it forwards to). *)
Record MigrateCall := mkMigrateCall {
  mc_backend : option loc;
  mc_dstBackends : list (option loc);
  mc_circle : nat;
  mc_db : string;
  mc_measure : string;
  mc_lastSeconds : Z;
}.

(** What a run leaves behind for an observer: the lines of the two loggers,
    the go statements, the waits, and the calls that leave proxy.go. *)
Inductive Event :=
  (* package log *)
  | LogCircleKey (circleNum : Z) (key : string) (err : error)
  | LogScanKey (err : error)
  | LogNoMachines (data : LineData.t)
  | LogWriteToBuffer (url : string) (data : LineData.t) (err : error)
  | LogMigrateErr (err : error)
  | LogRouterGet (circles : list (string * Z)) (db measure : string) (err : error)
  (* util.Mlog *)
  | SetMLog (file prefix : string)
  | MlogSrcDst (src dst db measure : string)
  | MlogSrcDstCount (src : string) (n : Z) (db measure : string)
  | MlogDone (what : string)
  (* methods of Backend, go statements, waits *)
  | CallWriteDataToBuffer (backend : loc) (data : LineData.t) (flushSize : Z)
      (err : option error)
  | GoMigrate (call : MigrateCall)
  | BackendWgWait (circle : nat) (url : string)
  | PathAndCreate (dir : string)
  | CacheFile (backend : loc) (dir : string)
  | GoCheckActive (backend : loc)
  | GoCheckBufferAndSync (backend : loc) (flushTime : Z)
  | GoSyncFileData (backend : loc).

(** The functions of package [backend] and the constants of package [util]
    that proxy.go calls and whose files are not among the sources. They are
    parameters of the development. *)
Class BackendPkg `{RegexpPkg} `{ConsistentPkg} := {
  (** [loadProxyJson]'s reading and decoding of the file: the decoded proxy,
      the backends the decoder allocated, and the error. *)
  decodeProxyJson : string → gmap loc Backend.t * Proxy.t * option error;
  (** [util.ForbidCmds], [util.SupportCmds], [util.ClusterCmds] *)
  util_ForbidCmds : list string;
  util_SupportCmds : list string;
  util_ClusterCmds : list string;
  (** [LineToNano] and [ScanKey] *)
  LineToNano : list byte → string → list byte;
  ScanKey : list byte → string * option error;
  (** the method [WriteDataToBuffer] of a backend: the backend after the
      call, and the error *)
  WriteDataToBuffer : Backend.t → LineData.t → Z → Backend.t * option error;
  (** the method [GetMeasurements] of a backend *)
  GetMeasurements : Backend.t → string → list string;
  (** the method [Migrate] of a circle, by its outcome *)
  Circle_Migrate : MigrateCall → option error;
}.

(** ** State and effects *)

Module State.
Record t `{RegexpPkg} `{ConsistentPkg} := mk {
  heap : gmap loc Backend.t;
  proxy : Proxy.t;
  (** [Proxy.Migrate] goroutines started and not yet run *)
  inflight : list MigrateCall;
  events : list Event;
}.
Global Arguments t {_ _}.
Global Arguments mk {_ _}.

Section setters.
Context `{RegexpPkg} `{ConsistentPkg}.
Definition set_heap (h : gmap loc Backend.t) (s : t) : t :=
  mk h (proxy s) (inflight s) (events s).
Definition set_proxy (p : Proxy.t) (s : t) : t :=
  mk (heap s) p (inflight s) (events s).
Definition set_inflight (l : list MigrateCall) (s : t) : t :=
  mk (heap s) (proxy s) l (events s).
Definition set_events (l : list Event) (s : t) : t :=
  mk (heap s) (proxy s) (inflight s) l.
End setters.
End State.

(** How a call ends: it returns, it panics, or it waits for ever on a wait
    group that is never released. *)
Inductive result (A : Type) :=
  | Ret (a : A)
  | Panic
  | Stuck.
Global Arguments Ret {_} _.
Global Arguments Panic {_}.
Global Arguments Stuck {_}.

Definition M `{RegexpPkg} `{ConsistentPkg} (A : Type) : Type :=
  State.t → result A * State.t.

Section Monad.
Context `{RegexpPkg} `{ConsistentPkg}.

Definition ret {A} (a : A) : M A := λ s, (Ret a, s).

Definition bind {A B} (m : M A) (f : A → M B) : M B := λ s,
  match m s with
  | (Ret a, s') => f a s'
  | (Panic, s') => (Panic, s')
  | (Stuck, s') => (Stuck, s')
  end.

Definition panic {A} : M A := λ s, (Panic, s).
Definition stuck {A} : M A := λ s, (Stuck, s).
Definition gets {A} (f : State.t → A) : M A := λ s, (Ret (f s), s).
Definition modify (f : State.t → State.t) : M unit := λ s, (Ret tt, f s).

(** A value that must be there: its absence is a nil dereference or an
    index out of range. *)
Definition must {A} (o : option A) : M A :=
  match o with Some a => ret a | None => panic end.
End Monad.

Notation "x <- c1 ;; c2" := (bind c1 (λ x, c2))
  (at level 100, c1 at next level, right associativity).
Notation "c1 ;; c2" := (bind c1 (λ _, c2))
  (at level 100, right associativity).

Section Loops.
Context `{RegexpPkg} `{ConsistentPkg}.

(** [for _, x := range l { body }] *)
Fixpoint forM {A} (l : list A) (body : A → M unit) : M unit :=
  match l with
  | [] => ret tt
  | x :: l' => body x ;; forM l' body
  end.

(** The same loop around a local variable that the body updates. *)
Fixpoint foldM {A B} (body : B → A → M B) (l : list A) (b : B) : M B :=
  match l with
  | [] => ret b
  | x :: l' => b' <- body b x ;; foldM body l' b'
  end.

(** [defer d] followed by [m]: [d] runs when [m] returns and when it
    panics, not while it is stuck. *)
Definition with_defer {A} (d : M unit) (m : M A) : M A := λ s,
  match m s with
  | (Ret a, s') => (d ;; ret a) s'
  | (Panic, s') => (d ;; panic) s'
  | (Stuck, s') => (Stuck, s')
  end.

(** A goroutine seen from the one that started it: if it gets stuck the
    others go on. *)
Definition goroutine (m : M unit) : M unit := λ s,
  match m s with
  | (Stuck, s') => (Ret tt, s')
  | r => r
  end.
End Loops.

(** ** Accesses to the proxy's objects *)

Section Access.
Context `{BackendPkg}.

Definition emit (e : Event) : M unit :=
  modify (λ s, State.set_events (State.events s ++ [e]) s).

Definition get_proxy : M Proxy.t := gets State.proxy.

Definition modify_proxy (f : Proxy.t → Proxy.t) : M unit :=
  modify (λ s, State.set_proxy (f (State.proxy s)) s).

(** Reading through a backend pointer; nil panics. *)
Definition deref (p : option loc) : M Backend.t :=
  l <- must p ;;
  h <- gets State.heap ;;
  must (h !! l).

(** Writing through a backend pointer. *)
Definition store (p : option loc) (f : Backend.t → Backend.t) : M unit :=
  l <- must p ;;
  b <- deref p ;;
  modify (λ s, State.set_heap (<[l := f b]> (State.heap s)) s).

(** Reading and writing through a circle pointer. *)
Definition circle_at (c : nat) : M Circle.t :=
  p <- get_proxy ;;
  must (Proxy.Circles p !! c).

Definition circle_modify (c : nat) (f : Circle.t → Circle.t) : M unit :=
  x <- circle_at c ;;
  modify_proxy (λ p, Proxy.set_Circles (<[c := f x]> (Proxy.Circles p)) p).

(** [proxy.Circles[circleNum]] *)
Definition Circles_index (circleNum : Z) : M nat :=
  p <- get_proxy ;;
  _ <- must (GoInt.index (Proxy.Circles p) circleNum) ;;
  ret (Z.to_nat circleNum).

(** [circle.Router.Get(key)] *)
Definition Router_Get (c : nat) (key : string) : M (string * option error) :=
  x <- circle_at c ;;
  r <- must (Circle.Router x) ;;
  ret (consistent_Get r key).

(** The slot [table[circleNum][url]] of a workflow's status table. *)
Definition slot (w : Workflow) (circleNum : Z) (url : string)
    (p : Proxy.t) : option MigrationInfo.t :=
  match GoInt.index (Proxy.status w p) circleNum with
  | Some tb => tb !! url
  | None => None
  end.

(** [table[circleNum] = ..] and reads of it, on the map of one circle. *)
Definition status_at (w : Workflow) (circleNum : Z)
    : M (gmap string MigrationInfo.t) :=
  p <- get_proxy ;;
  must (GoInt.index (Proxy.status w p) circleNum).

Definition status_put (w : Workflow) (circleNum : Z)
    (tb : gmap string MigrationInfo.t) : M unit :=
  _ <- status_at w circleNum ;;
  modify_proxy (λ p,
    Proxy.set_status w (<[Z.to_nat circleNum := tb]> (Proxy.status w p)) p).

(** An assignment to a field of [table[circleNum][url]]: the slot must be
    there, else the pointer read from the map is nil. *)
Definition slot_assign (w : Workflow) (circleNum : Z) (url : string)
    (f : MigrationInfo.t → MigrationInfo.t) : M unit :=
  tb <- status_at w circleNum ;;
  i <- must (tb !! url) ;;
  status_put w circleNum (<[url := f i]> tb).

(** [table[circleNum][url] = &MigrationInfo{}] *)
Definition slot_new (w : Workflow) (circleNum : Z) (url : string) : M unit :=
  tb <- status_at w circleNum ;;
  status_put w circleNum (<[url := MigrationInfo.zero]> tb).

(** [circle.BackendWgMap[url].Add(delta)]; a counter that would go below
    zero panics. *)
Definition BackendWg_Add (c : nat) (url : string) (delta : Z) : M unit :=
  x <- circle_at c ;;
  n <- must (Circle.BackendWgMap x !! url) ;;
  if (n + delta <? 0)%Z then panic
  else circle_modify c
         (λ x, Circle.set_BackendWgMap
                 (<[url := (n + delta)%Z]> (Circle.BackendWgMap x)) x).

(** [circle.BackendWgMap[url].Done()] *)
Definition BackendWg_Done (c : nat) (url : string) : M unit :=
  BackendWg_Add c url (-1).

(** [circle.WgMigrate.Add(delta)] and [circle.WgMigrate.Done()] *)
Definition WgMigrate_Add (c : nat) (delta : Z) : M unit :=
  x <- circle_at c ;;
  if (Circle.WgMigrate x + delta <? 0)%Z then panic
  else circle_modify c
         (λ x, Circle.set_WgMigrate (Circle.WgMigrate x + delta)%Z x).

Definition WgMigrate_Done (c : nat) : M unit := WgMigrate_Add c (-1).

(** Modelled from the spec: the setter [SetIsMigrating] of a circle, whose
    file is not among the sources (section 4.4: the migrating flag, set
    under its lock). *)
Definition SetIsMigrating (c : nat) (b : bool) : M unit :=
  circle_modify c (Circle.set_IsMigrating b).
End Access.

(** ** Start-up *)

Section Startup.
Context `{BackendPkg}.

(** [initMigration]: fresh status maps for the circle, one zero slot per
    backend in each. *)
Definition initMigration (circle : nat) (circleNum : Z) : M unit :=
  status_put Rebalancing circleNum ∅ ;;
  status_put Recovering circleNum ∅ ;;
  status_put Resyncing circleNum ∅ ;;
  c <- circle_at circle ;;
  forM (Circle.Backends c) (λ backend,
    b <- deref (Some backend) ;;
    slot_new Rebalancing circleNum (Backend.Url b) ;;
    slot_new Recovering circleNum (Backend.Url b) ;;
    slot_new Resyncing circleNum (Backend.Url b)).

(** The buffers and locks [initBackend] makes: one per database of
    [DbList]. *)
Definition freshBuffers (dbs : list string) : gmap string BufferCounter.t :=
  foldl (λ m db, <[db := BufferCounter.fresh]> m) ∅ dbs.

Definition freshLocks (dbs : list string) : gset string :=
  foldl (λ m db, {[db]} ∪ m) ∅ dbs.

Definition initBackend (circle : nat) (backend : loc) : M unit :=
  b <- deref (Some backend) ;;
  c <- circle_at circle ;;
  r <- must (Circle.Router c) ;;
  circle_modify circle
    (Circle.set_Router (Some (consistent_Add (Backend.Url b) r))) ;;
  circle_modify circle (λ c,
    Circle.set_UrlToBackend
      (<[Backend.Url b := backend]> (Circle.UrlToBackend c)) c) ;;
  store (Some backend) (Backend.set_BufferMap ∅) ;;
  store (Some backend) (Backend.set_LockDbMap ∅) ;;
  store (Some backend) (Backend.set_Active true) ;;
  p <- get_proxy ;;
  emit (CacheFile backend (Proxy.DataDir p)) ;;
  store (Some backend) (λ b,
    Backend.set_BufferMap (freshBuffers (Proxy.DbList p))
      (Backend.set_LockDbMap (freshLocks (Proxy.DbList p)) b)) ;;
  emit (GoCheckActive backend) ;;
  emit (GoCheckBufferAndSync backend (Proxy.FlushTime p)) ;;
  emit (GoSyncFileData backend).

(** [initCircle]: the ring, the index of backends by URL and the wait
    groups of the circle. *)
Definition initCircle (circle : nat) : M unit :=
  p <- get_proxy ;;
  circle_modify circle (Circle.set_Router (Some consistent_New)) ;;
  circle_modify circle (λ c,
    Circle.set_Router
      (set_NumberOfReplicas (Proxy.VNodeSize p) <$> Circle.Router c) c) ;;
  circle_modify circle (Circle.set_UrlToBackend ∅) ;;
  circle_modify circle (Circle.set_BackendWgMap ∅) ;;
  circle_modify circle (Circle.set_WgMigrate 0) ;;
  circle_modify circle (Circle.set_ReadyMigrating false) ;;
  circle_modify circle (Circle.set_IsMigrating false) ;;
  c <- circle_at circle ;;
  forM (Circle.Backends c) (λ backend,
    b <- deref (Some backend) ;;
    circle_modify circle (λ c,
      Circle.set_BackendWgMap
        (<[Backend.Url b := 0%Z]> (Circle.BackendWgMap c)) c) ;;
    initBackend circle backend).

(** The body shared by [ForbidQuery], [EnsureQuery] and [ClusterQuery]:
    compile each command and append it through [add]; a command that does
    not compile panics. *)
Definition compileInto (add : Regexp → Proxy.t → Proxy.t)
    (cmds : list string) : M unit :=
  forM cmds (λ cmd,
    match regexp_Compile cmd with
    | inr _ => panic
    | inl r => modify_proxy (add r)
    end).

Definition ForbidQuery (cmds : list string) : M unit :=
  compileInto (λ r p,
    Proxy.set_ForbiddenQuery (Proxy.ForbiddenQuery p ++ [r]) p) cmds.

Definition EnsureQuery (cmds : list string) : M unit :=
  compileInto (λ r p,
    Proxy.set_ObligatedQuery (Proxy.ObligatedQuery p ++ [r]) p) cmds.

Definition ClusterQuery (cmds : list string) : M unit :=
  compileInto (λ r p,
    Proxy.set_ClusteredQuery (Proxy.ClusteredQuery p ++ [r]) p) cmds.

(** [NewProxy]: the returned error; the proxy is the one of the state. *)
Definition NewProxy (file : string) : M (option error) :=
  let '(h, proxy, err) := decodeProxyJson file in
  modify (λ s, State.set_proxy proxy (State.set_heap h s)) ;;
  match err with
  | Some e => ret (Some e)
  | None =>
      let n := length (Proxy.Circles proxy) in
      modify_proxy (Proxy.set_status Rebalancing (replicate n ∅)) ;;
      modify_proxy (Proxy.set_status Recovering (replicate n ∅)) ;;
      modify_proxy (Proxy.set_status Resyncing (replicate n ∅)) ;;
      emit (PathAndCreate (Proxy.DataDir proxy)) ;;
      (if (Proxy.MigrateMaxCpus proxy =? 0)%Z
       then modify_proxy (Proxy.set_MigrateMaxCpus 1)
       else ret tt) ;;
      forM (seq 0 n) (λ circleNum,
        circle_modify circleNum (Circle.set_CircleNum (Z.of_nat circleNum)) ;;
        initMigration circleNum (Z.of_nat circleNum) ;;
        initCircle circleNum) ;;
      modify_proxy (Proxy.set_DbMap ∅) ;;
      forM (Proxy.DbList proxy) (λ db,
        modify_proxy (λ p, Proxy.set_DbMap (<[db := true]> (Proxy.DbMap p)) p)) ;;
      ForbidQuery util_ForbidCmds ;;
      EnsureQuery util_SupportCmds ;;
      ClusterQuery util_ClusterCmds ;;
      ret None
  end.
End Startup.

(** ** Placement and the write path *)

Section WritePath.
Context `{BackendPkg}.

(** [GetMachines]: the loop appends one pointer per circle whose ring
    answers, and logs and skips the others. *)
Definition GetMachines (key : string) : M (list (option loc)) :=
  p <- get_proxy ;;
  foldM (λ machines circleNum,
    r <- Router_Get circleNum key ;;
    match r.2 with
    | Some err =>
        emit (LogCircleKey (Z.of_nat circleNum) key err) ;;
        ret machines
    | None =>
        circle <- circle_at circleNum ;;
        ret (machines ++ [Circle.UrlToBackend circle !! r.1])
    end) (seq 0 (length (Proxy.Circles p))) [].

(** [bytes.HasSuffix] *)
Definition HasSuffix (s suffix : list byte) : bool :=
  (length suffix <=? length s)
  && forallb (λ p, Byte.eqb p.1 p.2)
       (zip (drop (length s - length suffix) s) suffix).

Definition newline : list byte := [x0a].

(** [backend.WriteDataToBuffer(data, flushSize)] through the pointer: the
    backend is left as the method leaves it, and the error is returned. *)
Definition call_WriteDataToBuffer (backend : option loc) (data : LineData.t)
    (flushSize : Z) : M (option error) :=
  l <- must backend ;;
  b <- deref backend ;;
  let r := WriteDataToBuffer b data flushSize in
  modify (λ s, State.set_heap (<[l := r.1]> (State.heap s)) s) ;;
  emit (CallWriteDataToBuffer l data flushSize r.2) ;;
  ret r.2.

(** The loop that ends [WriteData]: one enqueue per backend, in order; the
    first error is logged and the function returns there. *)
Fixpoint writeToBackends (backends : list (option loc)) (data : LineData.t)
    : M unit :=
  match backends with
  | [] => ret tt
  | backend :: rest =>
      p <- get_proxy ;;
      err <- call_WriteDataToBuffer backend data (Proxy.FlushSize p) ;;
      match err with
      | Some err =>
          b <- deref backend ;;
          emit (LogWriteToBuffer (Backend.Url b) data err)
      | None => writeToBackends rest data
      end
  end.

(** [WriteData]. The argument is a pointer in Go and the function assigns
    to its [Line]; the value returned here is the [LineData] it leaves
    behind. *)
Definition WriteData (data : LineData.t) : M LineData.t :=
  let data := LineData.set_Line
                (LineToNano (LineData.Line data) (LineData.Precision data))
                data in
  let r := ScanKey (LineData.Line data) in
  match r.2 with
  | Some err => emit (LogScanKey err) ;; ret data
  | None =>
      let key := LineData.Db data +:+ "," +:+ r.1 in
      backends <- GetMachines key ;;
      if (GoInt.len backends <? 1)%Z
      then emit (LogNoMachines data) ;; ret data
      else
        let data :=
          if negb (HasSuffix (LineData.Line data) newline)
          then LineData.set_Line (LineData.Line data ++ newline) data
          else data in
        writeToBackends backends data ;;
        ret data
  end.
End WritePath.

(** ** Migration workflows

    A [go proxy.Migrate(..)] statement puts the call among the in-flight
    ones. A [Wait] on the wait group of the source returns when the counter
    is back to zero, that is, when every call counted by an [Add(1)] has
    reached its [Done()]: the in-flight calls are therefore run to their end
    at the [Wait], which then returns if the counter is zero and is stuck
    otherwise. A worker that returns leaves its last calls in flight. *)

Section Workflows.
Context `{BackendPkg}.

(** [Proxy.Migrate] *)
Definition Migrate (call : MigrateCall) : M unit :=
  match Circle_Migrate call with
  | Some err => emit (LogMigrateErr err)
  | None =>
      b <- deref (mc_backend call) ;;
      BackendWg_Done (mc_circle call) (Backend.Url b)
  end.

(** [go proxy.Migrate(..)] *)
Definition go_Migrate (call : MigrateCall) : M unit :=
  emit (GoMigrate call) ;;
  modify (λ s, State.set_inflight (State.inflight s ++ [call]) s).

(** [circle.BackendWgMap[url].Wait()] *)
Definition BackendWg_Wait (c : nat) (url : string) : M unit :=
  x <- circle_at c ;;
  _ <- must (Circle.BackendWgMap x !! url) ;;
  emit (BackendWgWait c url) ;;
  calls <- gets State.inflight ;;
  modify (State.set_inflight []) ;;
  forM calls Migrate ;;
  x <- circle_at c ;;
  n <- must (Circle.BackendWgMap x !! url) ;;
  if (n =? 0)%Z then ret tt else stuck.

(** [circle.WgMigrate.Wait()] in a dispatcher that started [workers]. The
    workers run one after the other, in the order of their go statements,
    which is one of the schedules the program allows; a worker that gets
    stuck does not hold up the others, and the wait is stuck if the counter
    is not back to zero. *)
Definition WgMigrate_Wait (c : nat) (workers : list (M unit)) : M unit :=
  forM workers goroutine ;;
  x <- circle_at c ;;
  if (Circle.WgMigrate x =? 0)%Z then ret tt else stuck.

(** [ClearMigrateStatus(table[circleNum])]: every slot of the circle's
    map is cleared. *)
Definition ClearMigrateStatus (w : Workflow) (circleNum : Z) : M unit :=
  tb <- status_at w circleNum ;;
  status_put w circleNum (MigrationInfo.clear <$> tb).

(** The tail shared by the three workers once a measurement is to be
    migrated: count it, take a place in the source's wait group, start the
    migration and, every [MigrateMaxCpus] starts, wait for the group. *)
Definition startMigrate (call : MigrateCall) (url : string)
    (migrateCount : Z) : M Z :=
  let migrateCount := GoInt.incr migrateCount in
  BackendWg_Add (mc_circle call) url 1 ;;
  go_Migrate call ;;
  p <- get_proxy ;;
  r <- must (GoInt.rem migrateCount (Proxy.MigrateMaxCpus p)) ;;
  (if (r =? 0)%Z then BackendWg_Wait (mc_circle call) url else ret tt) ;;
  ret migrateCount.

(** *** Rebalance *)

(** Body of the loop over the measurements in [RebalanceBackend]. *)
Definition rebalanceMeasure (backend : option loc) (url : string)
    (circle : nat) (circleNum : Z) (db : string)
    (migrateCount : Z) (measure : string) : M Z :=
  slot_assign Rebalancing circleNum url
    (MigrationInfo.set_Measurement measure) ;;
  let dbMeasure := db +:+ "," +:+ measure in
  r <- Router_Get circle dbMeasure ;;
  let targetBackendUrl := r.1 in
  match r.2 with
  | Some err =>
      c <- circle_at circle ;;
      emit (LogRouterGet [(Circle.Name c, Circle.CircleNum c)] db measure err)
  | None => ret tt
  end ;;
  if decide (targetBackendUrl ≠ url) then
    slot_assign Rebalancing circleNum url
      MigrationInfo.incr_BMNeedMigrateCount ;;
    emit (MlogSrcDst url targetBackendUrl db measure) ;;
    c <- circle_at circle ;;
    let dstBackend := Circle.UrlToBackend c !! targetBackendUrl in
    startMigrate (mkMigrateCall backend [dstBackend] circle db measure 0)
      url migrateCount
  else
    slot_assign Rebalancing circleNum url
      MigrationInfo.incr_BMNotMigrateCount ;;
    ret migrateCount.

(** Body of a worker's loop over the databases, given the body of the
    loop over the measurements. *)
Definition scanDatabase (w : Workflow) (b : Backend.t) (circleNum : Z)
    (body : string → Z → string → M Z)
    (migrateCount : Z) (db : string) : M Z :=
  slot_assign w circleNum (Backend.Url b) (MigrationInfo.set_Database db) ;;
  let measures := GetMeasurements b db in
  slot_assign w circleNum (Backend.Url b)
    (MigrationInfo.set_BackendMeasureTotal (GoInt.len measures)) ;;
  foldM (body db) measures migrateCount.

Definition RebalanceBackend (backend : option loc) (circleNum : Z)
    (databases : list string) : M unit :=
  let migrateCount := 0%Z in
  ClearMigrateStatus Rebalancing circleNum ;;
  circle <- Circles_index circleNum ;;
  with_defer (WgMigrate_Done circle) (
    b <- deref backend ;;
    slot_assign Rebalancing circleNum (Backend.Url b)
      (MigrationInfo.set_CircleNum circleNum) ;;
    _ <- foldM
      (scanDatabase Rebalancing b circleNum
         (rebalanceMeasure backend (Backend.Url b) circle circleNum))
      databases migrateCount ;;
    ret tt).

Definition Rebalance (backends : list (option loc)) (circleNum : Z)
    (databases : list string) : M unit :=
  emit (SetMLog "./log/rebalance.log" "Rebalance: ") ;;
  circle <- Circles_index circleNum ;;
  SetIsMigrating circle true ;;
  p <- get_proxy ;;
  let databases :=
    if (GoInt.len databases =? 0)%Z then Proxy.DbList p else databases in
  forM backends (λ _, WgMigrate_Add circle 1) ;;
  WgMigrate_Wait circle
    (map (λ backend, RebalanceBackend backend circleNum databases) backends) ;;
  SetIsMigrating circle false ;;
  emit (MlogDone "rebalance done").

(** *** Recovery *)

(** Body of the loop over the measurements in [RecoveryBackend]: the ring
    is the one of [toCircle]; a failed lookup is logged and the loop
    continues with the next measurement. *)
Definition recoveryMeasure (backend : option loc) (url : string)
    (fromCircle toCircle : nat) (fromCircleNum : Z)
    (recoveryBackendUrlMap : gmap string bool) (db : string)
    (migrateCount : Z) (measure : string) : M Z :=
  slot_assign Recovering fromCircleNum url
    (MigrationInfo.set_Measurement measure) ;;
  let dbMeasure := db +:+ "," +:+ measure in
  r <- Router_Get toCircle dbMeasure ;;
  let targetBackendUrl := r.1 in
  match r.2 with
  | Some err =>
      f <- circle_at fromCircle ;;
      t <- circle_at toCircle ;;
      emit (LogRouterGet [(Circle.Name f, Circle.CircleNum f);
                          (Circle.Name t, Circle.CircleNum t)]
              db measure err) ;;
      ret migrateCount
  | None =>
      match recoveryBackendUrlMap !! targetBackendUrl with
      | Some _ =>
          slot_assign Recovering fromCircleNum url
            MigrationInfo.incr_BMNeedMigrateCount ;;
          emit (MlogSrcDst url targetBackendUrl db measure) ;;
          t <- circle_at toCircle ;;
          let dstBackend := Circle.UrlToBackend t !! targetBackendUrl in
          startMigrate
            (mkMigrateCall backend [dstBackend] fromCircle db measure 0)
            url migrateCount
      | None =>
          slot_assign Recovering fromCircleNum url
            MigrationInfo.incr_BMNotMigrateCount ;;
          ret migrateCount
      end
  end.

Definition RecoveryBackend (backend : option loc) (fromCircle toCircle : nat)
    (recoveryBackendUrlMap : gmap string bool) (databases : list string)
    : M unit :=
  let migrateCount := 0%Z in
  with_defer (WgMigrate_Done fromCircle) (
    f <- circle_at fromCircle ;;
    let fromCircleNum := Circle.CircleNum f in
    ClearMigrateStatus Recovering fromCircleNum ;;
    b <- deref backend ;;
    slot_assign Recovering fromCircleNum (Backend.Url b)
      (MigrationInfo.set_CircleNum fromCircleNum) ;;
    _ <- foldM
      (scanDatabase Recovering b fromCircleNum
         (recoveryMeasure backend (Backend.Url b) fromCircle toCircle
            fromCircleNum recoveryBackendUrlMap))
      databases migrateCount ;;
    ret tt).

(** *** Resync *)

(** The loop over [proxy.Circles] in [ResyncBackend] that collects the
    destinations in the other circles; a failed lookup is logged and that
    circle is passed over. *)
Definition resyncTargets (circle : nat) (circleNum : Z) (db measure : string)
    : M (list (option loc)) :=
  let dbMeasure := db +:+ "," +:+ measure in
  p <- get_proxy ;;
  foldM (λ dstBackends toCircle,
    t <- circle_at toCircle ;;
    if decide (Circle.CircleNum t ≠ circleNum) then
      r <- Router_Get toCircle dbMeasure ;;
      match r.2 with
      | Some err =>
          c <- circle_at circle ;;
          emit (LogRouterGet [(Circle.Name c, Circle.CircleNum c);
                              (Circle.Name t, Circle.CircleNum t)]
                  db measure err) ;;
          ret dstBackends
      | None => ret (dstBackends ++ [Circle.UrlToBackend t !! r.1])
      end
    else ret dstBackends) (seq 0 (length (Proxy.Circles p))) [].

(** Body of the loop over the measurements in [ResyncBackend]. *)
Definition resyncMeasure (backend : option loc) (url : string)
    (circle : nat) (circleNum : Z) (lastSeconds : Z) (db : string)
    (migrateCount : Z) (measure : string) : M Z :=
  slot_assign Resyncing circleNum url
    (MigrationInfo.set_Measurement measure) ;;
  dstBackends <- resyncTargets circle circleNum db measure ;;
  if (0 <? GoInt.len dstBackends)%Z then
    slot_assign Resyncing circleNum url
      MigrationInfo.incr_BMNeedMigrateCount ;;
    emit (MlogSrcDstCount url (GoInt.len dstBackends) db measure) ;;
    startMigrate
      (mkMigrateCall backend dstBackends circle db measure lastSeconds)
      url migrateCount
  else
    slot_assign Resyncing circleNum url
      MigrationInfo.incr_BMNotMigrateCount ;;
    ret migrateCount.

Definition ResyncBackend (backend : option loc) (circle : nat)
    (databases : list string) (lastSeconds : Z) : M unit :=
  let migrateCount := 0%Z in
  with_defer (WgMigrate_Done circle) (
    c <- circle_at circle ;;
    let circleNum := Circle.CircleNum c in
    ClearMigrateStatus Resyncing circleNum ;;
    b <- deref backend ;;
    slot_assign Resyncing circleNum (Backend.Url b)
      (MigrationInfo.set_CircleNum circleNum) ;;
    _ <- foldM
      (scanDatabase Resyncing b circleNum
         (resyncMeasure backend (Backend.Url b) circle circleNum lastSeconds))
      databases migrateCount ;;
    ret tt).
End Workflows.

(** *** Recovery and resync: the dispatchers

    A range over the map [UrlToBackend] visits its entries in an order Go
    leaves open; the order of [map_to_list] is one of them. *)

Section Dispatchers.
Context `{BackendPkg}.

(** The values of a circle's index, as a range over the map meets them. *)
Definition indexed (c : Circle.t) : list loc :=
  (map_to_list (Circle.UrlToBackend c)).*2.

(** The loop that fills [recoveryBackendUrlMap]. *)
Definition urlMap (recoveryBackendUrls : list string) : gmap string bool :=
  foldl (λ m v, <[v := true]> m) ∅ recoveryBackendUrls.

(** [Recovery]. The two deferred calls run in the reverse order of their
    [defer] statements: [toCircle] first, then [fromCircle]. *)
Definition Recovery (fromCircleNum toCircleNum : Z)
    (recoveryBackendUrls : list string) (databases : list string) : M unit :=
  emit (SetMLog "./log/recovery.log" "Recovery: ") ;;
  fromCircle <- Circles_index fromCircleNum ;;
  toCircle <- Circles_index toCircleNum ;;
  SetIsMigrating fromCircle true ;;
  SetIsMigrating toCircle true ;;
  with_defer (SetIsMigrating fromCircle false) (
    with_defer (SetIsMigrating toCircle false) (
      p <- get_proxy ;;
      let databases :=
        if (GoInt.len databases =? 0)%Z then Proxy.DbList p else databases in
      let recoveryBackendUrlMap := urlMap recoveryBackendUrls in
      f <- circle_at fromCircle ;;
      let backends := indexed f in
      forM backends (λ _, WgMigrate_Add fromCircle 1) ;;
      WgMigrate_Wait fromCircle
        (map (λ backend,
                RecoveryBackend (Some backend) fromCircle toCircle
                  recoveryBackendUrlMap databases) backends) ;;
      emit (MlogDone "recovery done"))).

(** [Resync]: the circles one after the other. *)
Definition Resync (databases : list string) (lastSeconds : Z) : M unit :=
  emit (SetMLog "./log/resync.log" "Resync: ") ;;
  p <- get_proxy ;;
  let databases :=
    if (GoInt.len databases =? 0)%Z then Proxy.DbList p else databases in
  forM (seq 0 (length (Proxy.Circles p))) (λ circle,
    SetIsMigrating circle true ;;
    c <- circle_at circle ;;
    let backends := indexed c in
    forM backends (λ _, WgMigrate_Add circle 1) ;;
    WgMigrate_Wait circle
      (map (λ backend,
              ResyncBackend (Some backend) circle databases lastSeconds)
         backends) ;;
    SetIsMigrating circle false ;;
    c <- circle_at circle ;;
    emit (MlogDone ("resync " +:+ Circle.Name c +:+ "(circle "
                    +:+ pretty (Circle.CircleNum c) +:+ ") done"))) ;;
  emit (MlogDone "resync done").
End Dispatchers.

(** ** Administration of the backends

    [AddBackend], [DeleteBackend], [CreateDatabase] and [Clear] with its
    worker [clearCircle]. *)

(** The methods [QueryCluster] of a circle and [DropMeasurement] of a
    backend belong to the absent part of the package and talk to the
    InfluxDB instances: they are parameters, by their outcome. [Request]
    stands for what [QueryCluster] is handed, the response writer and the
    HTTP request. *)
Class AdminPkg `{BackendPkg} := {
  Request : Type;
  (** the body and the error *)
  Circle_QueryCluster : Circle.t → Request → list byte * option error;
  (** the error; [clearCircle] drops the other result *)
  Backend_DropMeasurement : Backend.t → string → string → option error;
}.

(** What the administrative operations print and which calls of theirs
    leave proxy.go, in order. An operation is handed the lines so far and
    returns them with its own added. *)
Inductive Outcall :=
  | CallQueryCluster (circle : nat) (err : option error)
  (* fmt.Printf of the number of measurements of a database *)
  | PrintfLen (n : Z) (db : string)
  (* log.Printf of a failed ring lookup, which is given no argument *)
  | LogErrNoArg
  (* fmt.Printf of a source and a target *)
  | PrintfSrcTarget (src target : string)
  | CallDropMeasurement (backend : loc) (db measure : string)
      (err : option error)
  (* log.Printf of an error *)
  | LogErr (err : error).

Section Administration.
Context `{AdminPkg}.

(** [AddBackend]: the backends of the circle's index. *)
Definition AddBackend (circleNum : Z) : M (list (option loc) * option error) :=
  circle <- Circles_index circleNum ;;
  c <- circle_at circle ;;
  let res := foldl (λ res v, res ++ [Some v]) [] (indexed c) in
  ret (res, None).

(** [&Backend{..}]: a backend at an address that holds none. *)
Definition newBackend (b : Backend.t) : M loc := λ s,
  let l := fresh (dom (State.heap s)) in
  (Ret l, State.set_heap (<[l := b]> (State.heap s)) s).

(** [DeleteBackend]: one new backend per URL, with the URL and nothing
    else set. *)
Definition DeleteBackend (backendUrls : list string)
    : M (list (option loc) * option error) :=
  res <- foldM (λ res v,
           l <- newBackend (Backend.mk "" v false ∅ ∅) ;;
           ret (res ++ [Some l])) backendUrls [] ;;
  ret (res, None).

(** The loop of [CreateDatabase] from the circle at [circles] on, [body]
    being the variable of that name: the first error ends it. *)
Fixpoint queryCircles (circles : list nat) (req : Request)
    (body : list byte) (out : list Outcall)
    : M (list Outcall * (list byte * option error)) :=
  match circles with
  | [] => ret (out, (body, None))
  | circle :: rest =>
      c <- circle_at circle ;;
      let r := Circle_QueryCluster c req in
      let out := out ++ [CallQueryCluster circle r.2] in
      match r.2 with
      | Some err => ret (out, ([], Some err))
      | None => queryCircles rest req r.1 out
      end
  end.

Definition CreateDatabase (req : Request) (out : list Outcall)
    : M (list Outcall * (list byte * option error)) :=
  p <- get_proxy ;;
  queryCircles (seq 0 (length (Proxy.Circles p))) req [] out.

(** Body of the loop over the measurements in [clearCircle]. *)
Definition clearMeasure (circle : nat) (backend : option loc)
    (db : string) (out : list Outcall) (measure : string)
    : M (list Outcall) :=
  let key := db +:+ "," +:+ measure in
  r <- Router_Get circle key ;;
  let targetBackendUrl := r.1 in
  match r.2 with
  | Some _ => ret (out ++ [LogErrNoArg])
  | None =>
      b <- deref backend ;;
      if decide (targetBackendUrl ≠ Backend.Url b) then
        let out := out ++ [PrintfSrcTarget (Backend.Url b) targetBackendUrl] in
        l <- must backend ;;
        let e := Backend_DropMeasurement b db measure in
        let out := out ++ [CallDropMeasurement l db measure e] in
        match e with
        | Some e => ret (out ++ [LogErr e])
        | None => ret out
        end
      else ret out
  end.

Definition clearCircle (circle : nat) (backend : option loc)
    (dbs : list string) (out : list Outcall) : M (list Outcall) :=
  with_defer (WgMigrate_Done circle) (
    foldM (λ out db,
      b <- deref backend ;;
      let measures := GetMeasurements b db in
      let out := out ++ [PrintfLen (GoInt.len measures) db] in
      foldM (clearMeasure circle backend db) measures out) dbs out).

(** [Clear]. The workers hold no wait of their own; they run one after
    the other in the order of their go statements, as in
    [WgMigrate_Wait], before the wait on the circle's group. *)
Definition Clear (dbs : list string) (circleNum : Z) (out : list Outcall)
    : M (list Outcall * option error) :=
  circle <- Circles_index circleNum ;;
  c <- circle_at circle ;;
  forM (Circle.Backends c) (λ _, WgMigrate_Add circle 1) ;;
  out <- foldM (λ out backend, clearCircle circle (Some backend) dbs out)
           (Circle.Backends c) out ;;
  WgMigrate_Wait circle [] ;;
  ret (out, None).
End Administration.

(** ** A small installation, for examples

    The examples below run the definitions above on concrete inputs; they
    need concrete stand-ins for the libraries and for the absent part of
    the package. *)

Module Demo.
(** Stand-in for [regexp]: an expression is a literal that must open the
    query; every command compiles. *)
Definition starts_with (pat q : string) : bool :=
  String.prefix pat q.

#[export] Instance regexpPkg : RegexpPkg := {|
  Regexp := string;
  regexp_Compile := inl;
  MatchString := starts_with;
|}.

(** Modelled from the spec: the ring of section 4.2 as far as the spec
    fixes it. [Get] is deterministic and fails only when the ring has no
    member; which member answers a key is left to the hash, and is taken
    here from the length of the key. A ring places [replicas] points per
    member: with none, [Add] places nothing and the ring stays empty. *)
Record ring := mkRing {
  replicas : Z;
  members : list string;
}.

Definition ring_Get (r : ring) (key : string) : string * option error :=
  match members r !! (String.length key `mod` length (members r)) with
  | Some url => (url, None)
  | None => ("", Some "empty circle")
  end.

#[export] Instance consistentPkg : ConsistentPkg := {|
  Consistent := ring;
  consistent_New := mkRing 20 [];
  set_NumberOfReplicas n r := mkRing n (members r);
  consistent_Add url r :=
    if (0 <? replicas r)%Z then mkRing (replicas r) (members r ++ [url])
    else r;
  consistent_Get := ring_Get;
|}.

(** A configuration file as the decoder leaves it: the named circles with
    their backends, nothing initialised yet. *)
Definition undecodedBackend (name url : string) : Backend.t :=
  Backend.mk name url false ∅ ∅.

Definition decodedCircle (name : string) (backends : list loc) : Circle.t :=
  Circle.mk name 0 backends None ∅ ∅ 0 false false.

Definition decodedProxy (circles : list Circle.t) (dbList : list string)
    (vnodeSize migrateMaxCpus flushSize : Z) : Proxy.t :=
  Proxy.mk circles "data" dbList ∅ vnodeSize flushSize 1000 migrateMaxCpus
    [] [] [] [] [] [].

(** Modelled from the spec: [ScanKey] of section 4.1, the text up to the
    first comma or blank (escapes are not needed by the examples); no text
    is an error. *)
Fixpoint measurementOf (line : list byte) : list byte :=
  match line with
  | [] => []
  | c :: rest =>
      if (Byte.eqb c "," || Byte.eqb c " ")%bool then []
      else c :: measurementOf rest
  end.

Definition scanKey (line : list byte) : string * option error :=
  match measurementOf line with
  | [] => ("", Some "malformed line")
  | m => (String.string_of_list_byte m, None)
  end.

(** Modelled from the spec: [Enqueue] of section 4.3. The bytes are
    appended to the buffer of the database; when the buffer reaches
    [flushSize] bytes it is flushed, and the outcome of the flush, which
    depends on the disk, is given by [flushErr]. What an enqueue does for a
    database that has no buffer the spec does not say: this stand-in fails
    and leaves the backend as it is; [eagerEnqueue] below makes the
    buffer. *)
Definition enqueue (flushErr : string → option error)
    (b : Backend.t) (data : LineData.t) (flushSize : Z)
    : Backend.t * option error :=
  match Backend.BufferMap b !! LineData.Db data with
  | None => (b, Some "no buffer for database")
  | Some bc =>
      let buf := BufferCounter.Buffer bc ++ LineData.Line data in
      if (flushSize <=? GoInt.len buf)%Z
      then
        (Backend.set_BufferMap
           (<[LineData.Db data := BufferCounter.fresh]>
              (Backend.BufferMap b)) b,
         flushErr (Backend.Url b))
      else
        (Backend.set_BufferMap
           (<[LineData.Db data :=
                BufferCounter.mk buf (BufferCounter.Counter bc + 1)]>
              (Backend.BufferMap b)) b,
         None)
  end.


(** The installation: what the configuration file decodes to, what each
    backend answers to [GetMeasurements], which migrations and which
    flushes fail. The lines written in the examples carry no timestamp,
    which [LineToNano] leaves as they are. *)
Definition pkg
    (decoded : gmap loc Backend.t * Proxy.t * option error)
    (measurements : string → string → list string)
    (migrateErr : MigrateCall → option error)
    (flushErr : string → option error) : BackendPkg := {|
  decodeProxyJson _ := decoded;
  util_ForbidCmds := ["DROP DATABASE"];
  util_SupportCmds := ["SELECT"; "SHOW"];
  util_ClusterCmds := ["SHOW DATABASES"; "CREATE DATABASE"];
  LineToNano line _ := line;
  ScanKey := scanKey;
  WriteDataToBuffer := enqueue flushErr;
  GetMeasurements b db := measurements (Backend.Url b) db;
  Circle_Migrate := migrateErr;
|}.

(** The state before [NewProxy]. *)
Definition boot : State.t :=
  State.mk ∅ (decodedProxy [] [] 0 0 0) [] [].

(** The state [NewProxy] leaves, whatever way it ended. *)
Definition started (P : BackendPkg) : State.t :=
  (NewProxy "proxy.json" boot).2.

(** Two circles of one backend each. *)
Definition twoCircles : gmap loc Backend.t * Proxy.t * option error :=
  (<[0 := undecodedBackend "A" "url1"]>
     (<[1 := undecodedBackend "B" "url2"]> ∅),
   decodedProxy [decodedCircle "c0" [0]; decodedCircle "c1" [1]] ["m"]
     160 0 0,
   None).

(** One circle of two backends. *)
Definition oneCircle (vnodeSize migrateMaxCpus : Z)
    : gmap loc Backend.t * Proxy.t * option error :=
  (<[0 := undecodedBackend "A" "urlA"]>
     (<[1 := undecodedBackend "B" "urlB"]> ∅),
   decodedProxy [decodedCircle "c0" [0; 1]] ["db"; "db2"]
     vnodeSize migrateMaxCpus 0,
   None).

(** A circle of one backend and a circle without any. *)
Definition emptySecondCircle : gmap loc Backend.t * Proxy.t * option error :=
  (<[0 := undecodedBackend "A" "urlA"]> ∅,
   decodedProxy [decodedCircle "c0" [0]; decodedCircle "c1" []] ["db"]
     160 1 0,
   None).

Definition line (s : string) : list byte := String.list_byte_of_string s.
End Demo.

(** * Vocabulary of the statements

    Two judgements on runs. [steps R m]: every run of [m], however it ends,
    takes a state to one related to it by [R]; with [R] a preorder this
    composes along the program. [spec P m Q E]: from a state in [P], a run
    of [m] that returns [a] ends in [Q a], and one that panics or gets stuck
    ends in [E]. *)

Section Judgements.
Context `{RegexpPkg} `{ConsistentPkg}.

Definition steps {A} (R : relation State.t) (m : M A) : Prop :=
  ∀ s r s', m s = (r, s') → R s s'.

Definition spec {A} (P : State.t → Prop) (m : M A)
    (Q : A → State.t → Prop) (E : State.t → Prop) : Prop :=
  ∀ s r s', P s → m s = (r, s') →
    match r with Ret a => Q a s' | _ => E s' end.

(** The runs that leave an observation of the state as it was. *)
Definition same {X} (π : State.t → X) : relation State.t :=
  λ s s', π s' = π s.

Definition maxCpus (s : State.t) : Z :=
  Proxy.MigrateMaxCpus (State.proxy s).
End Judgements.

Section PlacementTerms.
Context `{BackendPkg}.
(** What a circle answers for a key: the pointer found in its index under
    the name the ring gives, or nothing when the lookup fails. *)
Definition answer (key : string) (c : Circle.t) : option (option loc) :=
  match Circle.Router c with
  | Some r =>
      match (consistent_Get r key).2 with
      | None => Some (Circle.UrlToBackend c !! (consistent_Get r key).1)
      | Some _ => None
      end
  | None => None
  end.

(** The lines [GetMachines] logs for the circles from position [i] on. *)
Fixpoint lookupLogs (key : string) (i : nat) (cs : list Circle.t)
    : list Event :=
  match cs with
  | [] => []
  | c :: cs' =>
      match Circle.Router c with
      | Some r =>
          match (consistent_Get r key).2 with
          | Some err => [LogCircleKey (Z.of_nat i) key err]
          | None => []
          end
      | None => []
      end ++ lookupLogs key (S i) cs'
  end.

Definition routersSet (p : Proxy.t) : bool :=
  forallb (λ c, bool_decide (is_Some (Circle.Router c))) (Proxy.Circles p).
End PlacementTerms.

Section WriteTerms.
Context `{BackendPkg}.

Definition noEnqueue (e : Event) : bool :=
  match e with
  | CallWriteDataToBuffer _ _ _ _ => false
  | _ => true
  end.

(** The runs that leave the backends alone and call none of them. *)
Definition withoutEnqueue : relation State.t := λ s s',
  State.heap s' = State.heap s ∧
  ∃ evs, State.events s' = State.events s ++ evs ∧
         forallb noEnqueue evs = true.

(** The backends [WriteDataToBuffer] was called on, in order. *)
Definition enqueuedTo (evs : list Event) : list loc :=
  omap (λ e, match e with
             | CallWriteDataToBuffer l _ _ _ => Some l
             | _ => None
             end) evs.
End WriteTerms.

Section DbMapTerms.
Context `{BackendPkg}.

(** The backends hold buffers for databases of [DbMap] only, which is how
    [initBackend] and [NewProxy] leave them: both are filled from
    [DbList]. *)
Definition buffersWithinDbMap (s : State.t) : Prop :=
  ∀ l b db, State.heap s !! l = Some b →
    is_Some (Backend.BufferMap b !! db) →
    is_Some (Proxy.DbMap (State.proxy s) !! db).

(** The state with [m] for [DbMap]. *)
Definition withDbMap (m : gmap string bool) (s : State.t) : State.t :=
  State.set_proxy (Proxy.set_DbMap m (State.proxy s)) s.

(** A computation that runs the same whatever [DbMap] holds, and leaves
    [DbMap] as it is. *)
Definition ignoresDbMap {A} (c : M A) : Prop :=
  ∀ m s, c (withDbMap m s) = ((c s).1, withDbMap m (c s).2).
End DbMapTerms.

Section SlotTerms.
Context `{BackendPkg}.

(** The proxy after [table[circleNum][url]] has been given the value [i]. *)
Definition slot_put (w : Workflow) (circleNum : Z) (url : string)
    (i : MigrationInfo.t) (p : Proxy.t) : Proxy.t :=
  match GoInt.index (Proxy.status w p) circleNum with
  | Some tb =>
      Proxy.set_status w
        (<[Z.to_nat circleNum := <[url := i]> tb]> (Proxy.status w p)) p
  | None => p
  end.

Definition isRouterLog (e : Event) : bool :=
  match e with
  | LogRouterGet _ _ _ _ => true
  | _ => false
  end.

(** The runs that leave the status tables as they were and only add to
    the events. *)
Definition extends : relation State.t := λ s s',
  (∀ w, Proxy.status w (State.proxy s') = Proxy.status w (State.proxy s)) ∧
  ∃ evs, State.events s' = State.events s ++ evs.

(** The same, with no line about a failed ring lookup among the events
    added. *)
Definition aside : relation State.t := λ s s',
  (∀ w, Proxy.status w (State.proxy s') = Proxy.status w (State.proxy s)) ∧
  ∃ evs, State.events s' = State.events s ++ evs ∧
         forallb (λ e, negb (isRouterLog e)) evs = true.
End SlotTerms.

Section CountTerms.
Context `{BackendPkg}.

(** The measurements a pass skipped: one logged lookup failure each. *)
Definition failedLookups (evs : list Event) : nat :=
  length (List.filter isRouterLog evs).

(** State of a worker's slot after [n] measurements of the database at
    hand: the two counters are the wrapped numbers [a] and [b] of
    measurements counted either way, which with the skipped ones (when the
    worker skips on a failed lookup) make [n]. *)
Definition counted (skipping : bool) (w : Workflow) (circleNum : Z)
    (url : string) (total : Z) (evs0 : list Event) (n : nat)
    (s : State.t) : Prop :=
  ∃ i (a b : nat) evs,
    slot w circleNum url (State.proxy s) = Some i ∧
    MigrationInfo.BMNeedMigrateCount i = GoInt.wrap (Z.of_nat a) ∧
    MigrationInfo.BMNotMigrateCount i = GoInt.wrap (Z.of_nat b) ∧
    MigrationInfo.BackendMeasureTotal i = total ∧
    State.events s = evs0 ++ evs ∧
    a + b + (if skipping then failedLookups evs else 0) = n.

(** State of a worker's slot once the table has been cleared: whatever
    the slot of the source, its two counters are zero; the events are
    those the worker started from. *)
Definition cleared (w : Workflow) (circleNum : Z) (url : string)
    (evs0 : list Event) (s : State.t) : Prop :=
  State.events s = evs0 ∧
  ∀ i, slot w circleNum url (State.proxy s) = Some i →
    MigrationInfo.BMNeedMigrateCount i = 0%Z ∧
    MigrationInfo.BMNotMigrateCount i = 0%Z.

(** The part of a worker that follows the clearing of the table and the
    reading of the source's URL, for one database. *)
Definition scanOne (w : Workflow) (b : Backend.t) (circleNum : Z)
    (body : string → Z → string → M Z) (db : string) : M unit :=
  slot_assign w circleNum (Backend.Url b)
    (MigrationInfo.set_CircleNum circleNum) ;;
  _ <- foldM (scanDatabase w b circleNum body) [db] 0%Z ;;
  ret tt.
End CountTerms.

Section StartupTerms.
Context `{BackendPkg}.

(** The lists of backends of the circles, in order. *)
Definition backendLists (s : State.t) : list (list loc) :=
  Circle.Backends <$> Proxy.Circles (State.proxy s).

(** What start-up does not change once the configuration is decoded: the
    list of databases, the backends of each circle, and which addresses
    hold a backend. *)
Definition layout (s : State.t)
    : list string * list (list loc) * gmap loc Backend.t :=
  (Proxy.DbList (State.proxy s), backendLists s, State.heap s).

(** The backend at [l], if there is one, has buffers for databases of
    [dbs] only. *)
Definition buffersAmong (dbs : list string) (s : State.t) (l : loc) : Prop :=
  ∀ b db, State.heap s !! l = Some b →
    is_Some (Backend.BufferMap b !! db) → db ∈ dbs.

(** State of start-up: the databases and the circles' backends are those of
    the decoded configuration, no address has come to hold a backend, and
    the backends that [ready] singles out have their buffers among the
    databases. *)
Definition starting (dbs : list string) (bks : list (list loc))
    (h0 : gmap loc Backend.t) (ready : loc → Prop) (s : State.t) : Prop :=
  Proxy.DbList (State.proxy s) = dbs ∧
  backendLists s = bks ∧
  (∀ l, is_Some (State.heap s !! l) → is_Some (h0 !! l)) ∧
  (∀ l, ready l → buffersAmong dbs s l).

(** The runs that keep the list of databases and the circles' backends and
    leave the heap alone. *)
Definition keepsLayout : relation State.t := λ s s',
  Proxy.DbList (State.proxy s') = Proxy.DbList (State.proxy s) ∧
  backendLists s' = backendLists s ∧
  State.heap s' = State.heap s.
End StartupTerms.

(** ** Installations of the examples *)

Module Scenario.
Import Demo.

(** Two circles of one backend each, with nothing to migrate. *)
Definition plain : BackendPkg :=
  pkg twoCircles (λ _ _, []) (λ _, None) (λ _, None).

(** The same; every enqueue flushes ([flush_size] is 0) and the disk of
    the first circle's backend is full. *)
Definition diskFull : BackendPkg :=
  pkg twoCircles (λ _ _, []) (λ _, None)
    (λ url, if decide (url = "url1") then Some "disk full" else None).

(** The same, with the full disk at the backend of the second circle. *)
Definition secondDiskFull : BackendPkg :=
  pkg twoCircles (λ _ _, []) (λ _, None)
    (λ url, if decide (url = "url2") then Some "disk full" else None).


Definition cpuLine (db : string) : LineData.t :=
  LineData.mk db (line "cpu value=1") "ns".

(** One circle of two backends, one migration at a time. Backend A holds
    [m1] and [m2] of database [db], both placed on B by the ring; the
    migration of [m1] fails. *)
Definition failingMigration : BackendPkg :=
  pkg (oneCircle 160 1)
    (λ url db, if decide (url = "urlA" ∧ db = "db") then ["m1"; "m2"] else [])
    (λ call, if decide (mc_measure call = "m1") then Some "timeout" else None)
    (λ _, None).

(** The same circle with migrations that succeed. A holds [m1], which the
    ring places on B; B holds [m2], which is in its place. *)
Definition twoSources : BackendPkg :=
  pkg (oneCircle 160 1)
    (λ url db,
       if decide (db = "db") then
         if decide (url = "urlA") then ["m1"]
         else if decide (url = "urlB") then ["m2"] else []
       else [])
    (λ _, None)
    (λ _, None).

(** The same circle; A holds one measurement in each of two databases. *)
Definition twoDatabases : BackendPkg :=
  pkg (oneCircle 160 1)
    (λ url db,
       if decide (url = "urlA") then
         if decide (db = "db") then ["m1"]
         else if decide (db = "db2") then ["n1"] else []
       else [])
    (λ _, None)
    (λ _, None).

(** The same circle configured with [vnode_size] 0, so that its ring is
    empty; A holds [m1]. *)
Definition noVnodes : BackendPkg :=
  pkg (oneCircle 0 1)
    (λ url db, if decide (url = "urlA" ∧ db = "db") then ["m1"] else [])
    (λ _, None)
    (λ _, None).

(** One circle with an empty ring ([vnode_size] 0) whose first backend
    has the empty URL; both backends hold [m1]. *)
Definition emptyUrl : BackendPkg :=
  pkg (<[0 := undecodedBackend "A" ""]>
         (<[1 := undecodedBackend "B" "urlB"]> ∅),
       decodedProxy [decodedCircle "c0" [0; 1]] ["db"] 0 1 0,
       None)
    (λ url db, if decide (db = "db") then ["m1"] else [])
    (λ _, None)
    (λ _, None).

(** A circle of one backend, which holds [m1], and an empty circle to
    recover into. *)
Definition emptyTarget : BackendPkg :=
  pkg emptySecondCircle
    (λ url db, if decide (url = "urlA" ∧ db = "db") then ["m1"] else [])
    (λ _, None)
    (λ _, None).

(** The events a run added to those of the state it started from. *)
Definition added (s s' : State.t) : list Event :=
  drop (length (State.events s)) (State.events s').

(** The migrations started, in order. *)
Definition migrations (evs : list Event) : list MigrateCall :=
  omap (λ e, match e with GoMigrate call => Some call | _ => None end) evs.

(** The counter of the wait group of a source. *)
Definition wgOf (s : State.t) (circle : nat) (url : string) : option Z :=
  match Proxy.Circles (State.proxy s) !! circle with
  | Some c => Circle.BackendWgMap c !! url
  | None => None
  end.

Definition needOf (s : State.t) (w : Workflow) (circleNum : Z)
    (url : string) : option Z :=
  MigrationInfo.BMNeedMigrateCount <$> slot w circleNum url (State.proxy s).

Definition notOf (s : State.t) (w : Workflow) (circleNum : Z)
    (url : string) : option Z :=
  MigrationInfo.BMNotMigrateCount <$> slot w circleNum url (State.proxy s).

Definition totalOf (s : State.t) (w : Workflow) (circleNum : Z)
    (url : string) : option Z :=
  MigrationInfo.BackendMeasureTotal <$> slot w circleNum url (State.proxy s).

(** Objects of a state, for naming them in examples. *)
Definition backendAt (s : State.t) (l : loc) : Backend.t :=
  default (undecodedBackend "" "") (State.heap s !! l).

Definition circleAt (s : State.t) (c : nat) : Circle.t :=
  default (decodedCircle "" []) (Proxy.Circles (State.proxy s) !! c).

Definition routerAt (s : State.t) (c : nat) : ring :=
  default (mkRing 0 []) (Circle.Router (circleAt s c)).

Definition slotAt (s : State.t) (w : Workflow) (circleNum : Z)
    (url : string) : MigrationInfo.t :=
  default MigrationInfo.zero (slot w circleNum url (State.proxy s)).
End Scenario.

(** * Vocabulary of the further properties *)

Section AdmissionTerms.
Context `{RegexpPkg} `{ConsistentPkg}.

(** The expressions [rs] are what the commands [cmds] compile to, one by
    one. *)
Definition compiled (cmds : list string) (rs : list Regexp) : Prop :=
  Forall2 (λ cmd r, regexp_Compile cmd = inl r) cmds rs.

(** The three sets of expressions of a proxy. *)
Definition querySets (p : Proxy.t)
    : list Regexp * list Regexp * list Regexp :=
  (Proxy.ForbiddenQuery p, Proxy.ObligatedQuery p, Proxy.ClusteredQuery p).
End AdmissionTerms.

Section StartupPhases.
Context `{BackendPkg}.

(** The state in which [NewProxy] enters its loop over the circles, the
    decoding having succeeded: the status tables are made, the data
    directory is looked after and [MigrateMaxCpus] is set. *)
Definition decodedState (h : gmap loc Backend.t) (p : Proxy.t)
    (s : State.t) : State.t :=
  let n := length (Proxy.Circles p) in
  let p1 :=
    Proxy.set_status Resyncing (replicate n ∅)
      (Proxy.set_status Recovering (replicate n ∅)
         (Proxy.set_status Rebalancing (replicate n ∅) p)) in
  let p2 :=
    if (Proxy.MigrateMaxCpus p =? 0)%Z then Proxy.set_MigrateMaxCpus 1 p1
    else p1 in
  State.mk h p2 (State.inflight s)
    (State.events s ++ [PathAndCreate (Proxy.DataDir p)]).

(** The loop of [NewProxy] over the circles. *)
Definition circlesLoop (n : nat) : M unit :=
  forM (seq 0 n) (λ circleNum,
    circle_modify circleNum (Circle.set_CircleNum (Z.of_nat circleNum)) ;;
    initMigration circleNum (Z.of_nat circleNum) ;;
    initCircle circleNum).

(** The loop of [NewProxy] that fills [DbMap]. *)
Definition dbMapLoop (dbs : list string) : M unit :=
  forM dbs (λ db,
    modify_proxy (λ p, Proxy.set_DbMap (<[db := true]> (Proxy.DbMap p)) p)).
End StartupPhases.

Global Instance Workflow_eq_dec : EqDecision Workflow.
Proof. solve_decision. Defined.

Section StartupShape.
Context `{BackendPkg}.

(** The URLs of the backends at the addresses [bl] of a heap, in order. *)
Definition urlsOf (h : gmap loc Backend.t) (bl : list loc) : list string :=
  omap (λ l, Backend.Url <$> h !! l) bl.

(** The URL of every backend of the heap, by address. *)
Definition urls (s : State.t) : gmap loc string :=
  Backend.Url <$> State.heap s.

(** The three status tables of a state. *)
Definition tables (s : State.t)
    : list (gmap string MigrationInfo.t) * list (gmap string MigrationInfo.t)
      * list (gmap string MigrationInfo.t) :=
  (Proxy.BackendRebalanceStatus (State.proxy s),
   Proxy.BackendRecoveryStatus (State.proxy s),
   Proxy.BackendResyncStatus (State.proxy s)).

(** The runs that keep the backends of each circle and the URL of each
    backend. *)
Definition keepsShape : relation State.t := λ s s',
  backendLists s' = backendLists s ∧ urls s' = urls s.

(** A backend as [initBackend] leaves it: active, with an empty buffer
    and a lock for each database of [dbs]. *)
Definition initialised (dbs : list string) (b : Backend.t) : Backend.t :=
  Backend.mk (Backend.Name b) (Backend.Url b) true
    (freshBuffers dbs) (freshLocks dbs).

(** What the loop of [initCircle] does to the circle for one backend, of
    URL [ul.1] at the address [ul.2]: a wait group, a point on the ring, an
    entry of the index. *)
Definition indexBackend (x : Circle.t) (ul : string * loc) : Circle.t :=
  Circle.mk (Circle.Name x) (Circle.CircleNum x) (Circle.Backends x)
    (consistent_Add ul.1 <$> Circle.Router x)
    (<[ul.1 := ul.2]> (Circle.UrlToBackend x))
    (<[ul.1 := 0%Z]> (Circle.BackendWgMap x))
    (Circle.WgMigrate x) (Circle.ReadyMigrating x) (Circle.IsMigrating x).

(** A circle as [initCircle] leaves it before its loop, at position [i]
    with [v] virtual nodes per backend. *)
Definition emptyCircle (v : Z) (i : nat) (c : Circle.t) : Circle.t :=
  Circle.mk (Circle.Name c) (Z.of_nat i) (Circle.Backends c)
    (Some (set_NumberOfReplicas v consistent_New)) ∅ ∅ 0 false false.

(** A circle as start-up leaves it: the circle of the configuration at
    position [i], indexed backend by backend. *)
Definition initialisedCircle (v : Z) (h : gmap loc Backend.t) (i : nat)
    (c : Circle.t) : Circle.t :=
  foldl indexBackend (emptyCircle v i c)
    (zip (urlsOf h (Circle.Backends c)) (Circle.Backends c)).

(** What start-up reads of a state and the status tables leave alone. *)
Definition installation (s : State.t)
    : list Circle.t * gmap loc Backend.t * list string * Z :=
  (Proxy.Circles (State.proxy s), State.heap s,
   Proxy.DbList (State.proxy s), Proxy.VNodeSize (State.proxy s)).

(** The status map [initMigration] makes for a circle whose backends have
    the URLs [us]. *)
Definition zeroSlots (us : list string) : gmap string MigrationInfo.t :=
  foldl (λ m u, <[u := MigrationInfo.zero]> m) ∅ us.
End StartupShape.

Section ServiceTerms.
Context `{BackendPkg}.

(** What is asked of the ring: the name it gives to a key is one of
    those that were added to it. *)
Definition answersMembers : Prop :=
  ∀ (v : Z) (us : list string) (key url : string),
    consistent_Get
      (foldl (λ r u, consistent_Add u r)
         (set_NumberOfReplicas v consistent_New) us) key = (url, None) →
    url ∈ us.

(** A proxy in service: every circle has its ring, and the index of the
    circle leads from any name the ring gives to a backend of the heap. *)
Definition inService (s : State.t) : Prop :=
  ∀ c, c ∈ Proxy.Circles (State.proxy s) →
    ∃ r, Circle.Router c = Some r ∧
      ∀ key url, consistent_Get r key = (url, None) →
        ∃ l, Circle.UrlToBackend c !! url = Some l ∧
             is_Some (State.heap s !! l).

(** The runs that add events, every enqueue among which is of a
    [LineData] in [P]. *)
Definition enqueues (P : LineData.t → Prop) : relation State.t := λ s s',
  ∃ evs, State.events s' = State.events s ++ evs ∧
    ∀ l d f e, CallWriteDataToBuffer l d f e ∈ evs → P d.

(** No enqueue of the trace failed. *)
Definition noFailure (evs : list Event) : Prop :=
  ∀ l d f e, CallWriteDataToBuffer l d f (Some e) ∉ evs.

(** The [LineData] that [WriteData] hands to the backends: the line in
    nanoseconds, with a newline at its end. *)
Definition written (data : LineData.t) : LineData.t :=
  let line := LineToNano (LineData.Line data) (LineData.Precision data) in
  LineData.mk (LineData.Db data)
    (if HasSuffix line newline then line else line ++ newline)
    (LineData.Precision data).
End ServiceTerms.

Section Totality.
Context `{BackendPkg}.

(** [total P m Q]: from a state in [P], [m] returns, with a value [a] and
    in a state of [Q a]; it neither panics nor waits for ever. *)
Definition total {A} (P : State.t → Prop) (m : M A)
    (Q : A → State.t → Prop) : Prop :=
  ∀ s, P s → ∃ a s', m s = (Ret a, s') ∧ Q a s'.

(** No migration fails. *)
Definition neverFails : Prop := ∀ call, Circle_Migrate call = None.

(** What a worker of the workflow [w] needs of the state, for the source
    at [l], of URL [url], in the circle at [circle] whose number is
    [circleNum]: the rings are in place, [MigrateMaxCpus] is not zero, the
    source has its slot, its wait group counts [n] and the wait group of
    the circle counts at least the worker. [N] is the number of circles. *)
Definition sourceReady (w : Workflow) (circle : nat) (circleNum : Z)
    (l : loc) (url : string) (N : nat) (n : Z) (s : State.t) : Prop :=
  routersSet (State.proxy s) = true ∧
  length (Proxy.Circles (State.proxy s)) = N ∧
  maxCpus s ≠ 0%Z ∧
  is_Some (slot w circleNum url (State.proxy s)) ∧
  ∃ c b, Proxy.Circles (State.proxy s) !! circle = Some c ∧
    State.heap s !! l = Some b ∧ Backend.Url b = url ∧
    Circle.CircleNum c = circleNum ∧
    Circle.BackendWgMap c !! url = Some n ∧
    (0 < Circle.WgMigrate c)%Z.

(** The same between two steps of the worker: the wait group of the
    source counts the migrations in flight, which are all of this
    source. *)
Definition workerReady (w : Workflow) (circle : nat) (circleNum : Z)
    (l : loc) (url : string) (N : nat) (s : State.t) : Prop :=
  sourceReady w circle circleNum l url N
    (Z.of_nat (length (State.inflight s))) s ∧
  Forall (λ call, mc_backend call = Some l ∧ mc_circle call = circle)
    (State.inflight s).
End Totality.

Section MigrationTerms.
Context `{BackendPkg}.

(** What the workflows read of the circles and never change: the number,
    the ring and the index of each. *)
Definition wiring (s : State.t)
    : list (Z * option Consistent * gmap string loc) :=
  (λ c, (Circle.CircleNum c, Circle.Router c, Circle.UrlToBackend c))
    <$> Proxy.Circles (State.proxy s).

Definition isGoMigrate (e : Event) : bool :=
  match e with GoMigrate _ => true | _ => false end.

(** The runs that keep the wiring and the backends and start no
    migration. *)
Definition quiet : relation State.t := λ s s',
  wiring s' = wiring s ∧ State.heap s' = State.heap s ∧
  ∃ evs, State.events s' = State.events s ++ evs ∧
    forallb (λ e, negb (isGoMigrate e)) evs = true.

(** The runs that keep the wiring and the backends and start migrations
    of [P] only, [P] being read with the wiring at hand. *)
Definition migrates
    (P : list (Z * option Consistent * gmap string loc) → MigrateCall → Prop)
    : relation State.t := λ s s',
  wiring s' = wiring s ∧ State.heap s' = State.heap s ∧
  ∃ evs, State.events s' = State.events s ++ evs ∧
    ∀ call, GoMigrate call ∈ evs → P (wiring s) call.

(** The migrations a rebalance of the source at [l], of URL [url], may
    start in the circle at [circle] over [databases]: of a measurement that
    the source holds (it held [measurements db] in [db]) and that the ring
    of the circle gives to another URL, to the backend the index has for
    that URL, with no limit of time. *)
Definition rebalanceCall (l : loc) (url : string) (circle : nat)
    (databases : list string) (measurements : string → list string)
    (W : list (Z * option Consistent * gmap string loc))
    (call : MigrateCall) : Prop :=
  mc_backend call = Some l ∧ mc_circle call = circle ∧
  mc_lastSeconds call = 0%Z ∧
  mc_db call ∈ databases ∧ mc_measure call ∈ measurements (mc_db call) ∧
  ∃ n r idx, W !! circle = Some (n, Some r, idx) ∧
    let target :=
      (consistent_Get r (mc_db call +:+ "," +:+ mc_measure call)).1 in
    target ≠ url ∧ mc_dstBackends call = [idx !! target].

(** The migrations a recovery may start from the circle at [fromCircle]
    to the one at [toCircle]: of a measurement that the ring of [toCircle]
    gives, without error, to a URL of [urlMap]. *)
Definition recoveryCall (l : loc) (fromCircle toCircle : nat)
    (urlMap : gmap string bool) (databases : list string)
    (measurements : string → list string)
    (W : list (Z * option Consistent * gmap string loc))
    (call : MigrateCall) : Prop :=
  mc_backend call = Some l ∧ mc_circle call = fromCircle ∧
  mc_lastSeconds call = 0%Z ∧
  mc_db call ∈ databases ∧ mc_measure call ∈ measurements (mc_db call) ∧
  ∃ n r idx target, W !! toCircle = Some (n, Some r, idx) ∧
    consistent_Get r (mc_db call +:+ "," +:+ mc_measure call)
      = (target, None) ∧
    is_Some (urlMap !! target) ∧ mc_dstBackends call = [idx !! target].

(** The destinations of a resync of a key from the circle number
    [circleNum]: for each other circle whose ring answers, the backend its
    index has for the answer. *)
Definition resyncDestinations (circleNum : Z) (key : string)
    (W : list (Z * option Consistent * gmap string loc))
    : list (option loc) :=
  omap (λ t : Z * option Consistent * gmap string loc,
          if decide (t.1.1 ≠ circleNum) then
            match t.1.2 with
            | Some r =>
                match (consistent_Get r key).2 with
                | None => Some (t.2 !! (consistent_Get r key).1)
                | Some _ => None
                end
            | None => None
            end
          else None) W.

(** The migrations a resync may start. *)
Definition resyncCall (l : loc) (circle : nat) (circleNum : Z)
    (lastSeconds : Z) (databases : list string)
    (measurements : string → list string)
    (W : list (Z * option Consistent * gmap string loc))
    (call : MigrateCall) : Prop :=
  mc_backend call = Some l ∧ mc_circle call = circle ∧
  mc_lastSeconds call = lastSeconds ∧
  mc_db call ∈ databases ∧ mc_measure call ∈ measurements (mc_db call) ∧
  mc_dstBackends call ≠ [] ∧
  mc_dstBackends call
  = resyncDestinations circleNum (mc_db call +:+ "," +:+ mc_measure call) W.
End MigrationTerms.

Section StandingTerms.
Context `{BackendPkg}.

(** A circle with its wait groups put aside. *)
Definition withoutWaitGroups (c : Circle.t) : Circle.t :=
  Circle.set_BackendWgMap ∅ (Circle.set_WgMigrate 0 c).

(** What the workers leave standing: the circles but for their wait
    groups, the backends, and of the proxy everything but the circles and
    the status tables. *)
Definition standing (s : State.t) :=
  (withoutWaitGroups <$> Proxy.Circles (State.proxy s), State.heap s,
   Proxy.set_status Rebalancing []
     (Proxy.set_status Recovering []
        (Proxy.set_status Resyncing []
           (Proxy.set_Circles [] (State.proxy s))))).

(** The migrating flag of the circle at [c], if there is one. *)
Definition migrating (s : State.t) (c : nat) : option bool :=
  Circle.IsMigrating <$> Proxy.Circles (State.proxy s) !! c.
End StandingTerms.

Section ClearTerms.
Context `{AdminPkg}.

(** The drops among the outcalls: the backend, the database and the
    measurement of each. *)
Definition drops (out : list Outcall) : list (loc * string * string) :=
  omap (λ o, match o with
             | CallDropMeasurement l db measure _ => Some (l, db, measure)
             | _ => None
             end) out.

(** The ring answers for the measurement, and with another URL than
    [url]. *)
Definition misplaced (r : Consistent) (url db measure : string) : bool :=
  let g := consistent_Get r (db +:+ "," +:+ measure) in
  match g.2 with
  | Some _ => false
  | None => bool_decide (g.1 ≠ url)
  end.

(** The misplaced measurements of the backend at [l], database by
    database. *)
Definition misplacedOn (h : gmap loc Backend.t) (r : Consistent)
    (dbs : list string) (l : loc) : list (loc * string * string) :=
  match h !! l with
  | Some b =>
      dbs ≫= λ db,
        (λ measure, (l, db, measure))
          <$> filter (λ measure, misplaced r (Backend.Url b) db measure)
                (GetMeasurements b db)
  | None => []
  end.

(** The state with the wait group of the circle at [i] at [k]. *)
Definition withCount (i : nat) (k : Z) (s : State.t) : State.t :=
  State.set_proxy
    (Proxy.set_Circles
       (alter (Circle.set_WgMigrate k) i (Proxy.Circles (State.proxy s)))
       (State.proxy s)) s.
End ClearTerms.

(** ** Installations of the further examples *)

Module Site.
Import Demo Scenario.

(** A stand-in for [regexp] that refuses an expression: one that is an
    opening parenthesis alone. *)
Definition strictCompile (cmd : string) : string + error :=
  if decide (cmd = "(") then inr "missing closing )" else inl cmd.

Definition strictRegexp : RegexpPkg := {|
  Regexp := string;
  regexp_Compile := strictCompile;
  MatchString := starts_with;
|}.

(** A state of a proxy with that [regexp], without circles. *)
Definition strictBoot : @State.t strictRegexp consistentPkg :=
  @State.mk strictRegexp consistentPkg ∅
    (@Proxy.mk strictRegexp consistentPkg [] "data" [] ∅ 0 0 0 1
       [] [] [] [] [] [])
    [] [].

(** Two circles of one backend each; the backend of the first holds the
    measurement [cpu] of the database [m]. *)
Definition oneMeasurement : BackendPkg :=
  pkg twoCircles
    (λ url db, if decide (url = "url1" ∧ db = "m") then ["cpu"] else [])
    (λ _, None) (λ _, None).

(** The installation [P] with what its circles answer to a query; no drop
    of a measurement fails. *)
Definition admin (P : BackendPkg)
    (query : Circle.t → string → list byte * option error)
    : @AdminPkg _ _ P := {|
  Request := string;
  Circle_QueryCluster := query;
  Backend_DropMeasurement _ _ _ := None;
|}.

(** Every circle answers with its name. *)
Definition answering (c : Circle.t) (req : string)
    : list byte * option error :=
  (line (Circle.Name c), None).

(** The same, but the circle [c1] is out of reach. *)
Definition secondUnreachable (c : Circle.t) (req : string)
    : list byte * option error :=
  if decide (Circle.Name c = "c1") then ([], Some "unreachable")
  else (line (Circle.Name c), None).
End Site.

(** * Properties *)

(** ** Go's [int] *)

Lemma GoInt_wrap_small z :
  (GoInt.min_int ≤ z ≤ GoInt.max_int)%Z → GoInt.wrap z = z.
Proof.
  unfold GoInt.wrap, GoInt.min_int, GoInt.max_int. intros Hz.
  rewrite Z.mod_small; lia.
Qed.

Lemma GoInt_wrap_shift z k : GoInt.wrap (GoInt.wrap z + k) = GoInt.wrap (z + k).
Proof.
  unfold GoInt.wrap.
  replace ((z + 2 ^ 63) mod 2 ^ 64 - 2 ^ 63 + k + 2 ^ 63)%Z
    with ((z + 2 ^ 63) mod 2 ^ 64 + k)%Z by lia.
  replace (z + k + 2 ^ 63)%Z with ((z + 2 ^ 63) + k)%Z by lia.
  by rewrite Zplus_mod_idemp_l.
Qed.

Lemma GoInt_incr_wrap z : GoInt.incr (GoInt.wrap z) = GoInt.wrap (z + 1).
Proof. unfold GoInt.incr, GoInt.add. apply GoInt_wrap_shift. Qed.

Lemma GoInt_index_Some {A} (l : list A) (i : Z) (x : A) :
  GoInt.index l i = Some x ↔ (0 ≤ i)%Z ∧ l !! Z.to_nat i = Some x.
Proof.
  unfold GoInt.index. destruct (Z.ltb_spec i 0); split.
  - done.
  - intros [? _]. lia.
  - intros ->. split; [lia | done].
  - by intros [_ ->].
Qed.

(** ** Query admission *)

Section AdmissionFacts.
Context `{RegexpPkg} `{ConsistentPkg}.

Lemma anyMatch_true (rs : list Regexp) (q : string) :
  anyMatch rs q = true ↔ ∃ r, r ∈ rs ∧ MatchString r q = true.
Proof.
  induction rs as [|r rs IH]; simpl.
  - split; [done | intros (r & Hr & _); by apply elem_of_nil in Hr].
  - destruct (MatchString r q) eqn:Hm.
    + split; [|done]. intros _. exists r. split; [left | done].
    + rewrite IH. split.
      * intros (r' & Hin & Hr'). exists r'. split; [by right | done].
      * intros (r' & Hin & Hr').
        apply elem_of_cons in Hin as [-> | Hin]; [congruence |].
        by exists r'.
Qed.

Lemma len_eqb_0 {A} (l : list A) : (GoInt.len l =? 0)%Z = true ↔ l = [].
Proof.
  unfold GoInt.len. destruct l; simpl; split; done.
Qed.

(** C7. [CheckMeasurementQuery q] is true exactly when no expression of
    the forbidden set matches [q] and the obligated set is empty or one of
    its expressions matches [q]. *)
Theorem CheckMeasurementQuery_iff (proxy : Proxy.t) (q : string) :
  CheckMeasurementQuery proxy q = true ↔
    (¬ ∃ r, r ∈ Proxy.ForbiddenQuery proxy ∧ MatchString r q = true) ∧
    (Proxy.ObligatedQuery proxy = [] ∨
     ∃ r, r ∈ Proxy.ObligatedQuery proxy ∧ MatchString r q = true).
Proof.
  unfold CheckMeasurementQuery.
  rewrite <- !anyMatch_true.
  destruct (anyMatch (Proxy.ForbiddenQuery proxy) q) eqn:Hf.
  - destruct (Proxy.ForbiddenQuery proxy) as [|f fs] eqn:Hfs; [done |].
    simpl. split; [done | intros [Hn _]; by destruct Hn].
  - rewrite andb_false_r.
    destruct (GoInt.len (Proxy.ObligatedQuery proxy) =? 0)%Z eqn:Hl; simpl.
    + apply len_eqb_0 in Hl. split; [|done]. intros _.
      split; [congruence | by left].
    + destruct (anyMatch (Proxy.ObligatedQuery proxy) q) eqn:Ho.
      * split; [|done]. intros _. split; [congruence | by right].
      * split; [done |]. intros [_ [He | ?]]; [|done].
        apply len_eqb_0 in He. congruence.
Qed.

(** C8. With a non-empty clustered set, whose last expression is [r],
    [CheckCreateDatabaseQuery q] is true exactly when [r] matches [q]. *)
Theorem CheckCreateDatabaseQuery_last (proxy : Proxy.t) (q : string)
    (r : Regexp) :
  last (Proxy.ClusteredQuery proxy) = Some r →
  (CheckCreateDatabaseQuery proxy q = true ↔ MatchString r q = true).
Proof.
  intros Hlast. unfold CheckCreateDatabaseQuery.
  destruct (GoInt.len (Proxy.ClusteredQuery proxy) =? 0)%Z eqn:Hl.
  { apply len_eqb_0 in Hl. by rewrite Hl in Hlast. }
  simpl.
  assert (GoInt.index (Proxy.ClusteredQuery proxy)
            (GoInt.len (Proxy.ClusteredQuery proxy) - 1) = Some r) as ->;
    [|done].
  apply GoInt_index_Some. unfold GoInt.len.
  destruct (Proxy.ClusteredQuery proxy) as [|x l] eqn:Hq; [done |].
  split; [simpl; lia |].
  rewrite last_lookup in Hlast. rewrite <- Hlast. f_equal. simpl. lia.
Qed.
End AdmissionFacts.

(** ** Reasoning about runs *)

Section Logic.
Context `{RegexpPkg} `{ConsistentPkg}.

(** The equations of [bind]. *)
Lemma bind_Ret {A B} (m : M A) (f : A → M B) s a s1 :
  m s = (Ret a, s1) → bind m f s = f a s1.
Proof. unfold bind. by intros ->. Qed.

Lemma bind_Panic {A B} (m : M A) (f : A → M B) s s1 :
  m s = (Panic, s1) → bind m f s = (Panic, s1).
Proof. unfold bind. by intros ->. Qed.

Lemma bind_Stuck {A B} (m : M A) (f : A → M B) s s1 :
  m s = (Stuck, s1) → bind m f s = (Stuck, s1).
Proof. unfold bind. by intros ->. Qed.

Lemma bind_inv {A B} (m : M A) (f : A → M B) s r s' :
  bind m f s = (r, s') →
  (∃ a s1, m s = (Ret a, s1) ∧ f a s1 = (r, s')) ∨
  (m s = (Panic, s') ∧ r = Panic) ∨
  (m s = (Stuck, s') ∧ r = Stuck).
Proof.
  unfold bind. destruct (m s) as [[a | |] s1]; intros Heq.
  - left. eauto.
  - right. left. by inversion Heq.
  - right. right. by inversion Heq.
Qed.

Section steps.
Context (R : relation State.t) `{!PreOrder R}.

Lemma steps_ret {A} (a : A) : steps R (ret a).
Proof. intros s r s' [= <- <-]. reflexivity. Qed.

Lemma steps_panic {A} : steps R (@panic _ _ A).
Proof. intros s r s' [= <- <-]. reflexivity. Qed.

Lemma steps_stuck {A} : steps R (@stuck _ _ A).
Proof. intros s r s' [= <- <-]. reflexivity. Qed.

Lemma steps_gets {A} (f : State.t → A) : steps R (gets f).
Proof. intros s r s' [= <- <-]. reflexivity. Qed.

Lemma steps_must {A} (o : option A) : steps R (must o).
Proof. destruct o; [apply steps_ret | apply steps_panic]. Qed.

Lemma steps_modify (f : State.t → State.t) :
  (∀ s, R s (f s)) → steps R (modify f).
Proof. intros Hf s r s' [= <- <-]. apply Hf. Qed.

Lemma steps_bind {A B} (m : M A) (f : A → M B) :
  steps R m → (∀ a, steps R (f a)) → steps R (bind m f).
Proof.
  intros Hm Hf s r s' Hrun.
  apply bind_inv in Hrun as [(a & s1 & Hm1 & Hf1) | [[Hm1 _] | [Hm1 _]]].
  - etrans; [by eapply Hm | by eapply Hf].
  - by eapply Hm.
  - by eapply Hm.
Qed.

Lemma steps_forM {A} (l : list A) (body : A → M unit) :
  (∀ x, steps R (body x)) → steps R (forM l body).
Proof.
  intros Hb. induction l as [|x l IH]; simpl.
  - apply steps_ret.
  - apply steps_bind; [apply Hb | intros _; apply IH].
Qed.

Lemma steps_foldM {A B} (body : B → A → M B) (l : list A) (b : B) :
  (∀ b x, steps R (body b x)) → steps R (foldM body l b).
Proof.
  intros Hb. revert b. induction l as [|x l IH]; intros b; simpl.
  - apply steps_ret.
  - apply steps_bind; [apply Hb | intros b'; apply IH].
Qed.

Lemma steps_with_defer {A} (d : M unit) (m : M A) :
  steps R d → steps R m → steps R (with_defer d m).
Proof.
  intros Hd Hm s r s' Hrun. unfold with_defer in Hrun.
  destruct (m s) as [[a | |] s1] eqn:Hm1.
  - etrans; [by eapply Hm |].
    eapply (steps_bind d (λ _, ret a)); [done | | done].
    intros _. apply steps_ret.
  - etrans; [by eapply Hm |].
    eapply (steps_bind d (λ _, panic)); [done | | done].
    intros _. apply steps_panic.
  - inversion Hrun; subst. by eapply Hm.
Qed.

Lemma steps_goroutine (m : M unit) : steps R m → steps R (goroutine m).
Proof.
  intros Hm s r s' Hrun. unfold goroutine in Hrun.
  destruct (m s) as [[a | |] s1] eqn:Hm1; inversion Hrun; subst;
    by eapply Hm.
Qed.
End steps.

Lemma spec_ret {A} (a : A) P (Q : A → State.t → Prop) E :
  (∀ s, P s → Q a s) → spec P (ret a) Q E.
Proof. intros HQ s r s' HP [= <- <-]. by apply HQ. Qed.

Lemma spec_bind {A B} (m : M A) (f : A → M B) P Q1 Q E :
  spec P m Q1 E → (∀ a, spec (Q1 a) (f a) Q E) → spec P (bind m f) Q E.
Proof.
  intros Hm Hf s r s' HP Hrun.
  apply bind_inv in Hrun as [(a & s1 & Hm1 & Hf1) | [[Hm1 ->] | [Hm1 ->]]].
  - eapply Hf; [|done]. by apply (Hm _ _ _ HP Hm1).
  - by apply (Hm _ _ _ HP Hm1).
  - by apply (Hm _ _ _ HP Hm1).
Qed.

Lemma spec_conseq {A} (m : M A) (P P' : State.t → Prop)
    (Q Q' : A → State.t → Prop) (E E' : State.t → Prop) :
  spec P' m Q' E' →
  (∀ s, P s → P' s) → (∀ a s, Q' a s → Q a s) → (∀ s, E' s → E s) →
  spec P m Q E.
Proof.
  intros Hm HP HQ HE s r s' Hs Hrun.
  specialize (Hm s r s' (HP _ Hs) Hrun). destruct r; auto.
Qed.

(** A loop with an invariant indexed by the number of elements done. *)
Lemma spec_foldM {A B} (body : B → A → M B) (l : list A)
    (I : nat → B → State.t → Prop) (E : State.t → Prop) :
  (∀ n b x, l !! n = Some x → spec (I n b) (body b x) (I (S n)) E) →
  ∀ b, spec (I 0 b) (foldM body l b) (I (length l)) E.
Proof.
  intros Hbody.
  assert (∀ k l' b, l = take k l ++ l' → k ≤ length l →
    spec (I k b) (foldM body l' b) (I (length l)) E) as Hgen.
  { intros k l'. revert k. induction l' as [|x l' IH]; intros k b Hl Hk.
    - simpl. apply spec_ret. intros s Hs.
      assert (k = length l) as <-; [|done].
      apply (f_equal length) in Hl.
      rewrite length_app, length_take in Hl. simpl in Hl. lia.
    - simpl. eapply spec_bind.
      + apply Hbody. rewrite Hl.
        rewrite lookup_app_r; rewrite length_take; [|lia].
        replace (k - k `min` length l) with 0 by lia. done.
      + intros b'. apply IH.
        * rewrite Hl at 1.
          assert (take (S k) l = take k l ++ [x]) as ->.
          { rewrite Hl at 1.
            rewrite take_app_ge; rewrite length_take; [|lia].
            replace (S k - k `min` length l) with 1 by lia.
            simpl. by rewrite take_0. }
          by rewrite <- app_assoc.
        * apply (f_equal length) in Hl.
          rewrite length_app, length_take in Hl. simpl in Hl. lia. }
  intros b. apply (Hgen 0 l b); [done | lia].
Qed.

End Logic.

Section RunFacts.
Context `{RegexpPkg} `{ConsistentPkg}.

Global Instance same_preorder {X} (π : State.t → X) : PreOrder (same π).
Proof.
  split.
  - by intros s.
  - intros s1 s2 s3 H12 H23. unfold same in *. congruence.
Qed.

Lemma bind_ret_l {A B} (a : A) (f : A → M B) s : bind (ret a) f s = f a s.
Proof. done. Qed.

Lemma bind_gets {A B} (g : State.t → A) (f : A → M B) s :
  bind (gets g) f s = f (g s) s.
Proof. done. Qed.

Lemma bind_modify {B} (g : State.t → State.t) (f : unit → M B) s :
  bind (modify g) f s = f tt (g s).
Proof. done. Qed.

Lemma bind_assoc {A B C} (m : M A) (f : A → M B) (g : B → M C) s :
  bind (bind m f) g s = bind m (λ a, bind (f a) g) s.
Proof. unfold bind. by destruct (m s) as [[a | |] s1]. Qed.

Lemma bind_must_Some {A B} (o : option A) (a : A) (f : A → M B) s :
  o = Some a → bind (must o) f s = f a s.
Proof. by intros ->. Qed.

Lemma bind_must_None {A B} (o : option A) (f : A → M B) s :
  o = None → bind (must o) f s = (Panic, s).
Proof. by intros ->. Qed.
End RunFacts.

Create HintDb prog discriminated.
Global Hint Unfold emit get_proxy modify_proxy deref store circle_at
  circle_modify Circles_index Router_Get status_at status_put slot_assign
  slot_new BackendWg_Add BackendWg_Done WgMigrate_Add WgMigrate_Done
  SetIsMigrating : prog.

(** Decomposition of a [steps] goal along the program. *)
Ltac steps_structure :=
  repeat match goal with
    | |- PreOrder _ => apply _
    | |- ∀ _, _ => intro
    | |- steps _ (ret _) => apply steps_ret
    | |- steps _ panic => apply steps_panic
    | |- steps _ stuck => apply steps_stuck
    | |- steps _ (gets _) => apply steps_gets
    | |- steps _ (must _) => apply steps_must
    | |- steps _ (bind _ _) => apply steps_bind
    | |- steps _ (forM _ _) => apply steps_forM
    | |- steps _ (foldM _ _ _) => apply steps_foldM
    | |- steps _ (with_defer _ _) => apply steps_with_defer
    | |- steps _ (goroutine _) => apply steps_goroutine
    | |- steps _ (modify _) => apply steps_modify
    | |- steps _ (match ?x with _ => _ end) => destruct x
    end.

Ltac steps_auto := autounfold with prog; steps_structure.

(** ** Start-up *)

Section StartupFacts.
Context `{BackendPkg}.

(** C9. When the configuration decodes, [NewProxy] leaves [MigrateMaxCpus]
    at 1 if the configured value is 0 and at the configured value
    otherwise. *)
Theorem NewProxy_MigrateMaxCpus (file : string) (s : State.t)
    (h : gmap loc Backend.t) (p : Proxy.t) r s' :
  decodeProxyJson file = (h, p, None) →
  NewProxy file s = (r, s') →
  Proxy.MigrateMaxCpus (State.proxy s') =
    if (Proxy.MigrateMaxCpus p =? 0)%Z then 1%Z else Proxy.MigrateMaxCpus p.
Proof.
  intros Hdec Hrun. unfold NewProxy in Hrun. rewrite Hdec in Hrun.
  rewrite bind_modify in Hrun.
  unfold modify_proxy at 1 2 3 in Hrun. rewrite !bind_modify in Hrun.
  unfold emit at 1 in Hrun. rewrite bind_modify in Hrun.
  match type of Hrun with
  | bind _ ?k ?s0 = _ =>
      assert (∀ u, steps (same maxCpus) (k u)) as Hk
  end.
  { intros u. unfold initMigration, initCircle, initBackend, ForbidQuery,
      EnsureQuery, ClusterQuery, compileInto. steps_auto; done. }
  destruct (Proxy.MigrateMaxCpus p =? 0)%Z eqn:Hz.
  - unfold modify_proxy at 1 in Hrun. rewrite bind_modify in Hrun.
    pose proof (Hk tt _ _ _ Hrun) as Hs. unfold same, maxCpus in Hs.
    rewrite Hs. reflexivity.
  - rewrite bind_ret_l in Hrun.
    pose proof (Hk tt _ _ _ Hrun) as Hs. unfold same, maxCpus in Hs.
    rewrite Hs. reflexivity.
Qed.
End StartupFacts.

Ltac run :=
  repeat first
    [ rewrite bind_assoc
    | rewrite bind_ret_l
    | rewrite bind_gets
    | rewrite bind_modify
    | erewrite bind_must_Some by eassumption
    | erewrite bind_must_None by eassumption ].

Section PlacementFacts.
Context `{BackendPkg}.

Lemma set_events_id (s : State.t) : State.set_events (State.events s) s = s.
Proof. by destruct s. Qed.

Lemma GetMachines_loop (key : string) (cs : list Circle.t) :
  ∀ (i : nat) (acc : list (option loc)) (s : State.t),
    (∀ j c, cs !! j = Some c → Proxy.Circles (State.proxy s) !! (i + j) = Some c) →
    forallb (λ c, bool_decide (is_Some (Circle.Router c))) cs = true →
    foldM (λ machines circleNum,
      r <- Router_Get circleNum key ;;
      match r.2 with
      | Some err =>
          emit (LogCircleKey (Z.of_nat circleNum) key err) ;;
          ret machines
      | None =>
          circle <- circle_at circleNum ;;
          ret (machines ++ [Circle.UrlToBackend circle !! r.1])
      end) (seq i (length cs)) acc s
    = (Ret (acc ++ omap (answer key) cs),
       State.set_events (State.events s ++ lookupLogs key i cs) s).
Proof.
  autounfold with prog.
  induction cs as [|c cs IH]; intros i acc s Hcs Hrs.
  - simpl. rewrite !app_nil_r. by rewrite set_events_id.
  - simpl in Hrs. apply andb_true_iff in Hrs as [Hr Hrs].
    apply bool_decide_eq_true in Hr as [r Hr].
    pose proof (Hcs 0 c eq_refl) as Hc. rewrite Nat.add_0_r in Hc.
    assert (∀ s', State.proxy s' = State.proxy s →
              ∀ j c', cs !! j = Some c' →
                Proxy.Circles (State.proxy s') !! (S i + j) = Some c') as Hcs'.
    { intros s' -> j c' Hj. replace (S i + j) with (i + S j) by lia.
      by apply (Hcs (S j)). }
    cbn [foldM length seq]. run.
    change (omap (answer key) (c :: cs)) with
      (match answer key c with
       | Some y => y :: omap (answer key) cs
       | None => omap (answer key) cs
       end).
    unfold answer at 1. cbn [lookupLogs]. rewrite Hr.
    destruct (consistent_Get r key) as [url [err|]] eqn:Hg; cbn [fst snd].
    + run. rewrite IH; [| by apply Hcs' | done].
      cbn. by rewrite <- !app_assoc.
    + run. rewrite IH; [| by apply Hcs' | done].
      cbn. by rewrite <- !app_assoc.
Qed.

(** C6. With the rings of the circles in place, [GetMachines key] returns,
    in the order of the circles, the pointer that the index of each circle
    holds for the name its ring gives to [key], one for each circle whose
    lookup succeeds; a circle whose lookup fails is logged and adds
    nothing, so the result is as long as there are circles that answer.
    Nothing else changes. *)
Theorem GetMachines_one_per_answering_circle (key : string) (s : State.t) :
  routersSet (State.proxy s) = true →
  let circles := Proxy.Circles (State.proxy s) in
  let machines := omap (answer key) circles in
  GetMachines key s =
    (Ret machines,
     State.set_events (State.events s ++ lookupLogs key 0 circles) s) ∧
  length machines = length (filter (λ c, is_Some (answer key c)) circles).
Proof.
  intros Hrs circles machines. split.
  - unfold GetMachines, get_proxy. rewrite bind_gets.
    apply (GetMachines_loop key circles 0 [] s); done.
  - subst machines. clear Hrs. induction circles as [|c cs IH]; [done |].
    rewrite filter_cons.
    change (omap (answer key) (c :: cs)) with
      (match answer key c with
       | Some y => y :: omap (answer key) cs
       | None => omap (answer key) cs
       end).
    destruct (answer key c) as [m|] eqn:Ha.
    + rewrite decide_True by (by eexists). simpl. by rewrite IH.
    + rewrite decide_False; [done |]. by intros [? ?].
Qed.
End PlacementFacts.

Section WriteFacts.
Context `{BackendPkg}.

Global Instance withoutEnqueue_preorder : PreOrder withoutEnqueue.
Proof.
  split.
  - intros s. split; [done |]. exists []. by rewrite app_nil_r.
  - intros s1 s2 s3 [Hh1 (e1 & He1 & Hq1)] [Hh2 (e2 & He2 & Hq2)].
    split; [congruence |]. exists (e1 ++ e2).
    rewrite He2, He1, <- app_assoc. split; [done |].
    rewrite forallb_app. by rewrite Hq1, Hq2.
Qed.

Lemma withoutEnqueue_emit (e : Event) :
  noEnqueue e = true → steps withoutEnqueue (emit e).
Proof.
  intros He. unfold emit. apply steps_modify; try apply _. intros s.
  split; [done |]. exists [e]. split; [done |]. simpl. by rewrite He.
Qed.

Lemma GetMachines_withoutEnqueue (key : string) :
  steps withoutEnqueue (GetMachines key).
Proof.
  unfold GetMachines, Router_Get, circle_at, get_proxy.
  steps_structure; by apply withoutEnqueue_emit.
Qed.
End WriteFacts.

Section DbMapFacts.
Context `{BackendPkg}.

Lemma steps_weaken {A} (R1 R2 : relation State.t) (m : M A) :
  (∀ s s', R1 s s' → R2 s s') → steps R1 m → steps R2 m.
Proof. intros HR Hm s r s' Hrun. apply HR. by eapply Hm. Qed.



Lemma ignoresDbMap_panic {A} : ignoresDbMap (@panic _ _ A).
Proof. by intros m s. Qed.














End DbMapFacts.

Ltac aside_solve :=
  split;
  [ intros w; try (by destruct w)
  | first [ by (exists []; rewrite ?app_nil_r)
          | by (eexists [_]; split; reflexivity)
          | by (eexists [_]) ] ].

Section SlotFacts.
Context `{BackendPkg}.

Global Instance extends_preorder : PreOrder extends.
Proof.
  split.
  - intros s. split; [done |]. exists []. by rewrite app_nil_r.
  - intros s1 s2 s3 [Hs1 (e1 & He1)] [Hs2 (e2 & He2)].
    split; [intros w; by rewrite Hs2 |]. exists (e1 ++ e2).
    by rewrite He2, He1, <- app_assoc.
Qed.

Global Instance aside_preorder : PreOrder aside.
Proof.
  split.
  - intros s. split; [done |]. exists []. by rewrite app_nil_r.
  - intros s1 s2 s3 [Hs1 (e1 & He1 & Hq1)] [Hs2 (e2 & He2 & Hq2)].
    split; [intros w; by rewrite Hs2 |]. exists (e1 ++ e2).
    rewrite He2, He1, <- app_assoc. split; [done |].
    rewrite forallb_app. by rewrite Hq1, Hq2.
Qed.

Lemma aside_extends s s' : aside s s' → extends s s'.
Proof. intros [Hs (evs & He & _)]. split; [done | by exists evs]. Qed.

(** On the error path [Proxy.Migrate] adds its log line and nothing else:
    the wait group of the source is as it was. *)
Lemma Migrate_on_error call e (s : State.t) :
  Circle_Migrate call = Some e →
  Migrate call s
  = (Ret tt, State.set_events (State.events s ++ [LogMigrateErr e]) s).
Proof. intros He. unfold Migrate. by rewrite He. Qed.

Lemma Migrate_aside call : steps aside (Migrate call).
Proof. unfold Migrate. steps_auto; aside_solve. Qed.

Lemma BackendWg_Wait_aside c url : steps aside (BackendWg_Wait c url).
Proof.
  unfold BackendWg_Wait. steps_auto; try aside_solve.
  by apply Migrate_aside.
Qed.

Lemma startMigrate_aside call url migrateCount :
  steps aside (startMigrate call url migrateCount).
Proof.
  unfold startMigrate, go_Migrate. steps_auto; try aside_solve.
  all: by apply BackendWg_Wait_aside.
Qed.

Lemma slot_assign_Ret w circleNum url f (s : State.t) i :
  slot w circleNum url (State.proxy s) = Some i →
  slot_assign w circleNum url f s =
    (Ret tt, State.set_proxy (slot_put w circleNum url (f i) (State.proxy s)) s).
Proof.
  unfold slot, slot_assign, status_put, status_at, get_proxy, modify_proxy,
    slot_put.
  destruct (GoInt.index (Proxy.status w (State.proxy s)) circleNum)
    as [tb|] eqn:Htb; [|done].
  intros Hi. run. done.
Qed.

Lemma slot_assign_inv w circleNum url f (s : State.t) s' :
  slot_assign w circleNum url f s = (Ret tt, s') →
  ∃ i, slot w circleNum url (State.proxy s) = Some i ∧
       s' = State.set_proxy
              (slot_put w circleNum url (f i) (State.proxy s)) s.
Proof.
  destruct (slot w circleNum url (State.proxy s)) as [i|] eqn:Hi.
  - rewrite (slot_assign_Ret _ _ _ _ _ _ Hi). intros [= <-]. by exists i.
  - revert Hi.
    unfold slot, slot_assign, status_put, status_at, get_proxy, modify_proxy.
    destruct (GoInt.index (Proxy.status w (State.proxy s)) circleNum)
      as [tb|] eqn:Htb; cbn [must]; run; [|done].
    intros ->. cbn [must]. done.
Qed.

Lemma status_set_status w tb p :
  Proxy.status w (Proxy.set_status w tb p) = tb.
Proof. by destruct w. Qed.

Lemma slot_slot_put w circleNum url i p :
  is_Some (slot w circleNum url p) →
  slot w circleNum url (slot_put w circleNum url i p) = Some i.
Proof.
  unfold slot, slot_put.
  destruct (GoInt.index (Proxy.status w p) circleNum) as [tb|] eqn:Htb;
    [|by intros [? ?]].
  intros _. rewrite status_set_status.
  apply GoInt_index_Some in Htb as [Hge Htb].
  assert (GoInt.index (<[Z.to_nat circleNum := <[url := i]> tb]>
                         (Proxy.status w p)) circleNum
          = Some (<[url := i]> tb)) as ->.
  { apply GoInt_index_Some. split; [done |].
    apply list_lookup_insert_eq. by eapply lookup_lt_Some. }
  apply lookup_insert_eq.
Qed.

Lemma Circles_slot_put w circleNum url i p :
  Proxy.Circles (slot_put w circleNum url i p) = Proxy.Circles p.
Proof.
  unfold slot_put. by destruct (GoInt.index (Proxy.status w p) circleNum).
Qed.

End SlotFacts.

Section LookupFailure.
Context `{BackendPkg}.

(** C10, amended. In the loop of [RebalanceBackend], let the ring lookup
    for a measurement fail, returning a name [target] with the error, for a
    source that has its slot and its wait group. The failure is logged and
    the measurement is not skipped: the name is compared with the URL of
    the source as after a lookup that succeeded. If they differ,
    [BMNeedMigrateCount] goes up by one ([BMNotMigrateCount] stays) and a
    migration is started whose one destination is what the index of the
    circle has under [target], nil if it has nothing there. If they are
    equal, [BMNotMigrateCount] goes up by one ([BMNeedMigrateCount] stays),
    no migration is started and the loop goes on. *)
Theorem rebalanceMeasure_failed_lookup (backend : option loc)
    (url : string) (circle : nat) (circleNum : Z) (db : string)
    (migrateCount : Z) (measure : string) (s : State.t)
    (c : Circle.t) (r : Consistent) (target : string) (e : error)
    (i : MigrationInfo.t) (n : Z) res (s' : State.t) :
  Proxy.Circles (State.proxy s) !! circle = Some c →
  Circle.Router c = Some r →
  consistent_Get r (db +:+ "," +:+ measure) = (target, Some e) →
  slot Rebalancing circleNum url (State.proxy s) = Some i →
  Circle.BackendWgMap c !! url = Some n → (0 ≤ n)%Z →
  rebalanceMeasure backend url circle circleNum db migrateCount measure s
    = (res, s') →
  if decide (target ≠ url) then
    (∃ evs, State.events s' =
       State.events s ++
       [LogRouterGet [(Circle.Name c, Circle.CircleNum c)] db measure e;
        MlogSrcDst url target db measure;
        GoMigrate
          (mkMigrateCall backend [Circle.UrlToBackend c !! target] circle
             db measure 0)] ++ evs) ∧
    (∃ i', slot Rebalancing circleNum url (State.proxy s') = Some i' ∧
       MigrationInfo.BMNeedMigrateCount i'
         = GoInt.incr (MigrationInfo.BMNeedMigrateCount i) ∧
       MigrationInfo.BMNotMigrateCount i'
         = MigrationInfo.BMNotMigrateCount i)
  else
    res = Ret migrateCount ∧
    State.events s' =
      State.events s ++
      [LogRouterGet [(Circle.Name c, Circle.CircleNum c)] db measure e] ∧
    (∃ i', slot Rebalancing circleNum url (State.proxy s') = Some i' ∧
       MigrationInfo.BMNeedMigrateCount i'
         = MigrationInfo.BMNeedMigrateCount i ∧
       MigrationInfo.BMNotMigrateCount i'
         = GoInt.incr (MigrationInfo.BMNotMigrateCount i)).
Proof.
  intros Hc Hr Hget Hslot Hwg Hn.
  unfold rebalanceMeasure.
  rewrite (bind_Ret _ _ _ _ _ (slot_assign_Ret _ _ _ _ _ _ Hslot)).
  set (s1 := State.set_proxy _ s).
  assert (Proxy.Circles (State.proxy s1) !! circle = Some c) as Hc1.
  { subst s1. cbn. by rewrite Circles_slot_put. }
  unfold Router_Get, circle_at, get_proxy. run. rewrite Hget. cbn [fst snd].
  unfold emit at 1. run.
  set (s2 := State.set_events _ s1).
  assert (slot Rebalancing circleNum url (State.proxy s2)
          = Some (MigrationInfo.set_Measurement measure i)) as Hslot2.
  { subst s2 s1. cbn. apply slot_slot_put. by eexists. }
  destruct (decide (target ≠ url)) as [Hne | Heq].
  - rewrite (bind_Ret _ _ _ _ _ (slot_assign_Ret _ _ _ _ _ _ Hslot2)).
    set (s3 := State.set_proxy _ s2).
    assert (Proxy.Circles (State.proxy s3) !! circle = Some c) as Hc3.
    { subst s3 s2. cbn. by rewrite Circles_slot_put. }
    unfold emit at 1. run.
    set (s4 := State.set_events _ s3).
    assert (Proxy.Circles (State.proxy s4) !! circle = Some c) as Hc4 by done.
    unfold startMigrate, BackendWg_Add, circle_modify, circle_at, get_proxy,
      modify_proxy, go_Migrate, emit. cbn [mc_circle]. run.
    assert ((n + 1 <? 0)%Z = false) as -> by (apply Z.ltb_ge; lia).
    run.
    match goal with
    | |- bind ?m ?k ?s5 = _ → _ =>
        assert (steps aside (bind m k)) as Htail; [|set (s6 := s5)]
    end.
    { steps_auto; try aside_solve.
      apply BackendWg_Wait_aside. }
    intros Hrun. apply Htail in Hrun as [Hst (evs & Hevs & _)].
    split.
    + exists evs. rewrite Hevs. subst s6 s4 s3 s2 s1. cbn.
      by rewrite <- !app_assoc.
    + exists (MigrationInfo.incr_BMNeedMigrateCount
                (MigrationInfo.set_Measurement measure i)).
      split; [|done].
      unfold slot. rewrite (Hst Rebalancing). subst s6 s4. cbn.
      change (slot Rebalancing circleNum url (State.proxy s3) = Some
        (MigrationInfo.incr_BMNeedMigrateCount
           (MigrationInfo.set_Measurement measure i))).
      subst s3. cbn. apply slot_slot_put. by eexists.
  - rewrite (bind_Ret _ _ _ _ _ (slot_assign_Ret _ _ _ _ _ _ Hslot2)).
    unfold ret. intros [= <- <-]. split; [done |]. split.
    + subst s2 s1. done.
    + exists (MigrationInfo.incr_BMNotMigrateCount
                (MigrationInfo.set_Measurement measure i)).
      split; [|done]. cbn. apply slot_slot_put. by eexists.
Qed.
End LookupFailure.

Section CountFacts.
Context `{BackendPkg}.

Lemma failedLookups_app evs1 evs2 :
  failedLookups (evs1 ++ evs2) = failedLookups evs1 + failedLookups evs2.
Proof. unfold failedLookups. by rewrite List.filter_app, length_app. Qed.

Lemma failedLookups_quiet evs :
  forallb (λ e, negb (isRouterLog e)) evs = true → failedLookups evs = 0.
Proof.
  unfold failedLookups. induction evs as [|e evs IH]; [done |]. simpl.
  intros [He Hq]%andb_true_iff. destruct (isRouterLog e); [done |].
  by apply IH.
Qed.

Lemma slot_extends w circleNum url s s' :
  extends s s' →
  slot w circleNum url (State.proxy s') = slot w circleNum url (State.proxy s).
Proof. intros [Hst _]. unfold slot. by rewrite Hst. Qed.

Lemma counted_aside sk w circleNum url total evs0 n s s' :
  aside s s' →
  counted sk w circleNum url total evs0 n s →
  counted sk w circleNum url total evs0 n s'.
Proof.
  intros Has (i & a & b & evs & Hi & Ha & Hb & Ht & He & Hn).
  pose proof (slot_extends w circleNum url _ _ (aside_extends _ _ Has)) as Hs.
  destruct Has as [_ (evs' & He' & Hq)].
  exists i, a, b, (evs ++ evs'). rewrite Hs.
  repeat split; try done.
  - by rewrite He', He, <- app_assoc.
  - rewrite failedLookups_app, (failedLookups_quiet evs') by done.
    destruct sk; lia.
Qed.

Lemma counted_extends w circleNum url total evs0 n s s' :
  extends s s' →
  counted false w circleNum url total evs0 n s →
  counted false w circleNum url total evs0 n s'.
Proof.
  intros Hex (i & a & b & evs & Hi & Ha & Hb & Ht & He & Hn).
  pose proof (slot_extends w circleNum url _ _ Hex) as Hs.
  destruct Hex as [_ (evs' & He')].
  exists i, a, b, (evs ++ evs'). rewrite Hs.
  repeat split; try done.
  by rewrite He', He, <- app_assoc.
Qed.

(** Triples for the steps of a worker. *)
Lemma spec_slot_assign w circleNum url f (P : State.t → Prop)
    (Q : unit → State.t → Prop) :
  (∀ s i, P s → slot w circleNum url (State.proxy s) = Some i →
     Q tt (State.set_proxy
             (slot_put w circleNum url (f i) (State.proxy s)) s)) →
  spec P (slot_assign w circleNum url f) Q (λ _, True).
Proof.
  intros HQ s r s' HP Hrun. destruct r as [[] | |]; [|done..].
  apply slot_assign_inv in Hrun as (i & Hi & ->). by apply HQ.
Qed.

Lemma spec_aside {A} (m : M A) sk w circleNum url total evs0 n :
  steps aside m →
  spec (counted sk w circleNum url total evs0 n) m
    (λ _, counted sk w circleNum url total evs0 n) (λ _, True).
Proof.
  intros Hm s r s' HP Hrun. destruct r; [|done..].
  eapply counted_aside; [by eapply Hm | done].
Qed.

Lemma spec_extends {A} (m : M A) w circleNum url total evs0 n :
  steps extends m →
  spec (counted false w circleNum url total evs0 n) m
    (λ _, counted false w circleNum url total evs0 n) (λ _, True).
Proof.
  intros Hm s r s' HP Hrun. destruct r; [|done..].
  eapply counted_extends; [by eapply Hm | done].
Qed.

Lemma counted_assign sk w circleNum url total total' evs0 n f (da db : nat) :
  (∀ i x, MigrationInfo.BMNeedMigrateCount i = GoInt.wrap x →
          MigrationInfo.BMNeedMigrateCount (f i)
            = GoInt.wrap (x + Z.of_nat da)) →
  (∀ i x, MigrationInfo.BMNotMigrateCount i = GoInt.wrap x →
          MigrationInfo.BMNotMigrateCount (f i)
            = GoInt.wrap (x + Z.of_nat db)) →
  (∀ i, MigrationInfo.BackendMeasureTotal i = total →
        MigrationInfo.BackendMeasureTotal (f i) = total') →
  spec (counted sk w circleNum url total evs0 n)
    (slot_assign w circleNum url f)
    (λ _, counted sk w circleNum url total' evs0 (n + da + db)) (λ _, True).
Proof.
  intros Hfa Hfb Hft. apply spec_slot_assign.
  intros s i (i0 & a & b & evs & Hi0 & Ha & Hb & Ht & He & Hn) Hi.
  rewrite Hi in Hi0. injection Hi0 as <-.
  exists (f i), (a + da)%nat, (b + db)%nat, evs. cbn.
  rewrite slot_slot_put by (by eexists).
  repeat split; try done.
  - rewrite (Hfa _ _ Ha). f_equal. lia.
  - rewrite (Hfb _ _ Hb). f_equal. lia.
  - by apply Hft.
  - lia.
Qed.

Lemma counted_set_Measurement sk w circleNum url total evs0 n measure :
  spec (counted sk w circleNum url total evs0 n)
    (slot_assign w circleNum url (MigrationInfo.set_Measurement measure))
    (λ _, counted sk w circleNum url total evs0 n) (λ _, True).
Proof.
  eapply spec_conseq;
    [apply (counted_assign sk w circleNum url total total evs0 n _ 0 0) | ..];
    try done.
  - intros i x Hx. cbn. rewrite Hx. f_equal. lia.
  - intros i x Hx. cbn. rewrite Hx. f_equal. lia.
  - intros [] s; cbn. by rewrite !Nat.add_0_r.
Qed.

Lemma counted_incr_Need sk w circleNum url total evs0 n :
  spec (counted sk w circleNum url total evs0 n)
    (slot_assign w circleNum url MigrationInfo.incr_BMNeedMigrateCount)
    (λ _, counted sk w circleNum url total evs0 (S n)) (λ _, True).
Proof.
  eapply spec_conseq;
    [apply (counted_assign sk w circleNum url total total evs0 n _ 1 0) | ..];
    try done.
  - intros i x Hx. cbn. rewrite Hx. apply GoInt_incr_wrap.
  - intros i x Hx. cbn. rewrite Hx. f_equal. lia.
  - intros [] s; cbn. by replace (n + 1 + 0) with (S n) by lia.
Qed.

Lemma counted_incr_Not sk w circleNum url total evs0 n :
  spec (counted sk w circleNum url total evs0 n)
    (slot_assign w circleNum url MigrationInfo.incr_BMNotMigrateCount)
    (λ _, counted sk w circleNum url total evs0 (S n)) (λ _, True).
Proof.
  eapply spec_conseq;
    [apply (counted_assign sk w circleNum url total total evs0 n _ 0 1) | ..];
    try done.
  - intros i x Hx. cbn. rewrite Hx. f_equal. lia.
  - intros i x Hx. cbn. rewrite Hx. apply GoInt_incr_wrap.
  - intros [] s; cbn. by replace (n + 0 + 1) with (S n) by lia.
Qed.

(** The bodies of the three loops over the measurements. *)
Lemma rebalanceMeasure_counted backend url circle circleNum db total evs0 n
    migrateCount measure :
  spec (counted false Rebalancing circleNum url total evs0 n)
    (rebalanceMeasure backend url circle circleNum db migrateCount measure)
    (λ _, counted false Rebalancing circleNum url total evs0 (S n))
    (λ _, True).
Proof.
  unfold rebalanceMeasure.
  eapply spec_bind; [apply counted_set_Measurement | intros ?].
  eapply spec_bind; [apply spec_extends; steps_auto | intros r].
  eapply spec_bind.
  { apply spec_extends. steps_auto; aside_solve. }
  intros ?. destruct (decide (r.1 ≠ url)).
  - eapply spec_bind; [apply counted_incr_Need | intros ?].
    eapply spec_bind; [apply spec_extends; steps_auto; aside_solve | intros ?].
    eapply spec_bind; [apply spec_extends; steps_auto | intros c].
    apply spec_aside, startMigrate_aside.
  - eapply spec_bind; [apply counted_incr_Not | intros ?].
    by apply spec_ret.
Qed.

Lemma counted_router_log w circleNum url total evs0 n cs db measure err :
  spec (counted true w circleNum url total evs0 n)
    (emit (LogRouterGet cs db measure err))
    (λ _, counted true w circleNum url total evs0 (S n)) (λ _, True).
Proof.
  intros s r s' (i & a & b & evs & Hi & Ha & Hb & Ht & He & Hn).
  unfold emit. intros [= <- <-].
  exists i, a, b, (evs ++ [LogRouterGet cs db measure err]). cbn.
  repeat split; try done.
  - by rewrite He, <- app_assoc.
  - rewrite failedLookups_app. unfold failedLookups at 2. simpl. lia.
Qed.

Lemma recoveryMeasure_counted backend url fromCircle toCircle fromCircleNum
    urls db total evs0 n migrateCount measure :
  spec (counted true Recovering fromCircleNum url total evs0 n)
    (recoveryMeasure backend url fromCircle toCircle fromCircleNum urls db
       migrateCount measure)
    (λ _, counted true Recovering fromCircleNum url total evs0 (S n))
    (λ _, True).
Proof.
  unfold recoveryMeasure.
  eapply spec_bind; [apply counted_set_Measurement | intros ?].
  eapply spec_bind; [apply spec_aside; steps_auto | intros r].
  destruct (r.2) as [err|].
  - eapply spec_bind; [apply spec_aside; steps_auto | intros f].
    eapply spec_bind; [apply spec_aside; steps_auto | intros t].
    eapply spec_bind; [apply counted_router_log | intros ?].
    by apply spec_ret.
  - destruct (urls !! r.1).
    + eapply spec_bind; [apply counted_incr_Need | intros ?].
      eapply spec_bind; [apply spec_aside; steps_auto; aside_solve | intros ?].
      eapply spec_bind; [apply spec_aside; steps_auto | intros t].
      apply spec_aside, startMigrate_aside.
    + eapply spec_bind; [apply counted_incr_Not | intros ?].
      by apply spec_ret.
Qed.

Lemma resyncTargets_extends circle circleNum db measure :
  steps extends (resyncTargets circle circleNum db measure).
Proof. unfold resyncTargets. steps_auto; aside_solve. Qed.

Lemma resyncMeasure_counted backend url circle circleNum lastSeconds db
    total evs0 n migrateCount measure :
  spec (counted false Resyncing circleNum url total evs0 n)
    (resyncMeasure backend url circle circleNum lastSeconds db
       migrateCount measure)
    (λ _, counted false Resyncing circleNum url total evs0 (S n))
    (λ _, True).
Proof.
  unfold resyncMeasure.
  eapply spec_bind; [apply counted_set_Measurement | intros ?].
  eapply spec_bind;
    [apply spec_extends, resyncTargets_extends | intros dstBackends].
  destruct (0 <? GoInt.len dstBackends)%Z.
  - eapply spec_bind; [apply counted_incr_Need | intros ?].
    eapply spec_bind; [apply spec_extends; steps_auto; aside_solve | intros ?].
    apply spec_aside, startMigrate_aside.
  - eapply spec_bind; [apply counted_incr_Not | intros ?].
    by apply spec_ret.
Qed.
End CountFacts.


Section PassFacts.
Context `{BackendPkg}.

Lemma with_defer_Ret_inv {A} (d : M unit) (m : M A) s a s' :
  with_defer d m s = (Ret a, s') →
  ∃ s1, m s = (Ret a, s1) ∧ d s1 = (Ret tt, s').
Proof.
  unfold with_defer. destruct (m s) as [[a1 | |] s1]; [| |done].
  - intros Hrun.
    apply bind_inv in Hrun as [([] & s2 & Hd & Hret) | [[_ ?] | [_ ?]]];
      [|done..].
    injection Hret as <- <-. by exists s1.
  - intros Hrun.
    apply bind_inv in Hrun as [([] & s2 & Hd & Hret) | [[_ ?] | [_ ?]]];
      done.
Qed.

Lemma ClearMigrateStatus_cleared w circleNum url s s' :
  ClearMigrateStatus w circleNum s = (Ret tt, s') →
  cleared w circleNum url (State.events s) s'.
Proof.
  unfold ClearMigrateStatus, status_put, status_at, get_proxy, modify_proxy.
  destruct (GoInt.index (Proxy.status w (State.proxy s)) circleNum)
    as [tb|] eqn:Htb; cbn [must]; run; [|done].
  intros [= <-]. split; [done |]. intros i. cbn. unfold slot.
  rewrite status_set_status.
  apply GoInt_index_Some in Htb as [Hge Htb].
  assert (GoInt.index (<[Z.to_nat circleNum := MigrationInfo.clear <$> tb]>
                         (Proxy.status w (State.proxy s))) circleNum
          = Some (MigrationInfo.clear <$> tb)) as ->.
  { apply GoInt_index_Some. split; [done |].
    apply list_lookup_insert_eq. by eapply lookup_lt_Some. }
  rewrite lookup_fmap. destruct (tb !! url) as [i0|]; [|done].
  by intros [= <-].
Qed.

Lemma spec_exists {A X} (P : X → State.t → Prop) (m : M A) Q E :
  (∀ x, spec (P x) m Q E) → spec (λ s, ∃ x, P x s) m Q E.
Proof. intros Hm s r s' [x HP]. by apply (Hm x). Qed.

Lemma counted_set_Database sk w circleNum url total evs0 n db :
  spec (counted sk w circleNum url total evs0 n)
    (slot_assign w circleNum url (MigrationInfo.set_Database db))
    (λ _, counted sk w circleNum url total evs0 n) (λ _, True).
Proof.
  eapply spec_conseq;
    [apply (counted_assign sk w circleNum url total total evs0 n _ 0 0) | ..];
    try done.
  - intros i x Hx. cbn. rewrite Hx. f_equal. lia.
  - intros i x Hx. cbn. rewrite Hx. f_equal. lia.
  - intros [] s; cbn. by rewrite !Nat.add_0_r.
Qed.

Lemma counted_set_Total sk w circleNum url total total' evs0 n :
  spec (counted sk w circleNum url total evs0 n)
    (slot_assign w circleNum url
       (MigrationInfo.set_BackendMeasureTotal total'))
    (λ _, counted sk w circleNum url total' evs0 n) (λ _, True).
Proof.
  eapply spec_conseq;
    [apply (counted_assign sk w circleNum url total total' evs0 n _ 0 0) | ..];
    try done.
  - intros i x Hx. cbn. rewrite Hx. f_equal. lia.
  - intros i x Hx. cbn. rewrite Hx. f_equal. lia.
  - intros [] s; cbn. by rewrite !Nat.add_0_r.
Qed.

Lemma scanOne_counted sk w b circleNum body db evs0 :
  (∀ total n migrateCount measure,
     spec (counted sk w circleNum (Backend.Url b) total evs0 n)
       (body db migrateCount measure)
       (λ _, counted sk w circleNum (Backend.Url b) total evs0 (S n))
       (λ _, True)) →
  spec (cleared w circleNum (Backend.Url b) evs0)
    (scanOne w b circleNum body db)
    (λ _, counted sk w circleNum (Backend.Url b)
            (GoInt.len (GetMeasurements b db)) evs0
            (length (GetMeasurements b db)))
    (λ _, True).
Proof.
  intros Hbody. unfold scanOne.
  eapply spec_bind.
  { apply (spec_slot_assign _ _ _ _ _
      (λ _ s, ∃ total, counted sk w circleNum (Backend.Url b) total evs0 0 s)).
    intros s i [He Hz] Hi. destruct (Hz i Hi) as [Hn Hm].
    exists (MigrationInfo.BackendMeasureTotal i),
      (MigrationInfo.set_CircleNum circleNum i), 0, 0, []. cbn.
    rewrite slot_slot_put by (by eexists).
    repeat split; try done; [by rewrite app_nil_r | by destruct sk]. }
  intros ?. eapply spec_bind;
    [|intros ?; apply spec_ret; intros ? Hs; exact Hs].
  cbn [foldM]. eapply spec_bind;
    [|intros ?; apply spec_ret; intros ? Hs; exact Hs].
  unfold scanDatabase.
  apply (spec_bind _ _ _
    (λ _ s, ∃ total, counted sk w circleNum (Backend.Url b) total evs0 0 s)).
  { apply spec_exists. intros total.
    eapply spec_conseq; [apply counted_set_Database | done | | done].
    intros [] s Hc. by exists total. }
  intros ?. cbn beta. eapply spec_bind.
  { apply spec_exists. intros total. apply counted_set_Total. }
  intros ?. cbn beta.
  apply (spec_foldM (body db) (GetMeasurements b db)
           (λ n _, counted sk w circleNum (Backend.Url b)
                     (GoInt.len (GetMeasurements b db)) evs0 n)).
  intros n mc measure _. apply Hbody.
Qed.

Lemma counted_sum sk w circleNum url evs0 (measures : list string) s :
  (GoInt.len measures ≤ GoInt.max_int)%Z →
  counted sk w circleNum url (GoInt.len measures) evs0 (length measures) s →
  ∃ i evs,
    slot w circleNum url (State.proxy s) = Some i ∧
    State.events s = evs0 ++ evs ∧
    (MigrationInfo.BMNeedMigrateCount i + MigrationInfo.BMNotMigrateCount i
     + (if sk then Z.of_nat (failedLookups evs) else 0)
     = MigrationInfo.BackendMeasureTotal i)%Z.
Proof.
  intros Hlen (i & a & b & evs & Hi & Ha & Hb & Ht & He & Hn).
  exists i, evs. repeat split; try done.
  unfold GoInt.len, GoInt.max_int in *.
  rewrite Ha, Hb, Ht, !GoInt_wrap_small;
    unfold GoInt.min_int, GoInt.max_int; destruct sk; lia.
Qed.
End PassFacts.
Section WorkerFacts.
Context `{BackendPkg}.

Lemma circle_at_inv (c : nat) (s : State.t) x s' :
  circle_at c s = (Ret x, s') →
  s' = s ∧ Proxy.Circles (State.proxy s) !! c = Some x.
Proof.
  unfold circle_at, get_proxy. run.
  destruct (Proxy.Circles (State.proxy s) !! c) as [x0|] eqn:Hc;
    cbn [must]; [|by (unfold panic; intros [=])].
  by intros [= <- <-].
Qed.

Lemma ClearMigrateStatus_heap w circleNum :
  steps (same State.heap) (ClearMigrateStatus w circleNum).
Proof. unfold ClearMigrateStatus. steps_auto; done. Qed.

Lemma Circles_index_id circleNum :
  steps (same (λ s, s)) (Circles_index circleNum).
Proof. steps_auto; done. Qed.

Lemma WgMigrate_Done_aside c : steps aside (WgMigrate_Done c).
Proof. steps_auto; aside_solve. Qed.

(** What the three workers share once the source is known: the scan of
    one database from a cleared table, then the deferred [Done]. *)
Lemma pass_counts sk w b circleNum body db c (s s2 s3 s' : State.t) :
  (∀ total n migrateCount measure,
     spec (counted sk w circleNum (Backend.Url b) total (State.events s) n)
       (body db migrateCount measure)
       (λ _, counted sk w circleNum (Backend.Url b) total (State.events s)
               (S n))
       (λ _, True)) →
  (GoInt.len (GetMeasurements b db) ≤ GoInt.max_int)%Z →
  cleared w circleNum (Backend.Url b) (State.events s) s2 →
  scanOne w b circleNum body db s2 = (Ret tt, s3) →
  WgMigrate_Done c s3 = (Ret tt, s') →
  ∃ i evs,
    slot w circleNum (Backend.Url b) (State.proxy s') = Some i ∧
    State.events s' = State.events s ++ evs ∧
    (MigrationInfo.BMNeedMigrateCount i + MigrationInfo.BMNotMigrateCount i
     + (if sk then Z.of_nat (failedLookups evs) else 0)
     = MigrationInfo.BackendMeasureTotal i)%Z.
Proof.
  intros Hbody Hlen Hcl Hscan Hdone.
  pose proof (scanOne_counted sk w b circleNum body db _ Hbody
                _ _ _ Hcl Hscan) as Hc. cbn in Hc.
  apply (counted_aside _ _ _ _ _ _ _ _ _ (WgMigrate_Done_aside _ _ _ _ Hdone))
    in Hc.
  by apply (counted_sum sk w circleNum _ _ (GetMeasurements b db)).
Qed.

Lemma deref_heap l b (s0 s : State.t) :
  State.heap s0 !! l = Some b → same State.heap s0 s →
  deref (Some l) s = (Ret b, s).
Proof.
  intros Hb Hheap. unfold deref. cbn [must]. run. unfold same in Hheap.
  by rewrite Hheap, Hb.
Qed.

Lemma RebalanceBackend_counts l b circleNum db (s s' : State.t) :
  State.heap s !! l = Some b →
  (GoInt.len (GetMeasurements b db) ≤ GoInt.max_int)%Z →
  RebalanceBackend (Some l) circleNum [db] s = (Ret tt, s') →
  ∃ i,
    slot Rebalancing circleNum (Backend.Url b) (State.proxy s') = Some i ∧
    (MigrationInfo.BMNeedMigrateCount i + MigrationInfo.BMNotMigrateCount i
     = MigrationInfo.BackendMeasureTotal i)%Z.
Proof.
  intros Hb Hlen Hrun. unfold RebalanceBackend in Hrun.
  apply bind_inv in Hrun as [([] & s1 & Hclear & Hrun) | [[_ ?] | [_ ?]]];
    [|done..].
  pose proof (ClearMigrateStatus_heap _ _ _ _ _ Hclear) as Hheap.
  apply (ClearMigrateStatus_cleared _ _ (Backend.Url b)) in Hclear.
  apply bind_inv in Hrun as [(c & s2 & Hidx & Hrun) | [[_ ?] | [_ ?]]];
    [|done..].
  apply Circles_index_id in Hidx. unfold same in Hidx. subst s2.
  apply with_defer_Ret_inv in Hrun as (s3 & Hbody & Hdone).
  rewrite (bind_Ret _ _ _ _ _ (deref_heap _ _ _ _ Hb Hheap)) in Hbody.
  destruct (pass_counts false Rebalancing b circleNum
              (rebalanceMeasure (Some l) (Backend.Url b) c circleNum)
              db c s s1 s3 s') as (i & evs & Hi & _ & Hsum); try done.
  - intros. apply rebalanceMeasure_counted.
  - exists i. split; [done | lia].
Qed.

Lemma ResyncBackend_counts l b circle c lastSeconds db (s s' : State.t) :
  State.heap s !! l = Some b →
  Proxy.Circles (State.proxy s) !! circle = Some c →
  (GoInt.len (GetMeasurements b db) ≤ GoInt.max_int)%Z →
  ResyncBackend (Some l) circle [db] lastSeconds s = (Ret tt, s') →
  ∃ i,
    slot Resyncing (Circle.CircleNum c) (Backend.Url b) (State.proxy s')
      = Some i ∧
    (MigrationInfo.BMNeedMigrateCount i + MigrationInfo.BMNotMigrateCount i
     = MigrationInfo.BackendMeasureTotal i)%Z.
Proof.
  intros Hb Hc Hlen Hrun. unfold ResyncBackend in Hrun.
  apply with_defer_Ret_inv in Hrun as (s3 & Hbody & Hdone).
  apply bind_inv in Hbody as [(c' & s0 & Hat & Hbody) | [[_ ?] | [_ ?]]];
    [|done..].
  apply circle_at_inv in Hat as [-> Hc']. rewrite Hc in Hc'.
  injection Hc' as <-.
  apply bind_inv in Hbody as [([] & s1 & Hclear & Hbody) | [[_ ?] | [_ ?]]];
    [|done..].
  pose proof (ClearMigrateStatus_heap _ _ _ _ _ Hclear) as Hheap.
  apply (ClearMigrateStatus_cleared _ _ (Backend.Url b)) in Hclear.
  rewrite (bind_Ret _ _ _ _ _ (deref_heap _ _ _ _ Hb Hheap)) in Hbody.
  destruct (pass_counts false Resyncing b (Circle.CircleNum c)
              (resyncMeasure (Some l) (Backend.Url b) circle
                 (Circle.CircleNum c) lastSeconds)
              db circle s s1 s3 s') as (i & evs & Hi & _ & Hsum); try done.
  - intros. apply resyncMeasure_counted.
  - exists i. split; [done | lia].
Qed.

Lemma RecoveryBackend_counts l b fromCircle toCircle c urls db
    (s s' : State.t) :
  State.heap s !! l = Some b →
  Proxy.Circles (State.proxy s) !! fromCircle = Some c →
  (GoInt.len (GetMeasurements b db) ≤ GoInt.max_int)%Z →
  RecoveryBackend (Some l) fromCircle toCircle urls [db] s = (Ret tt, s') →
  ∃ i evs,
    slot Recovering (Circle.CircleNum c) (Backend.Url b) (State.proxy s')
      = Some i ∧
    State.events s' = State.events s ++ evs ∧
    (MigrationInfo.BMNeedMigrateCount i + MigrationInfo.BMNotMigrateCount i
     + Z.of_nat (failedLookups evs)
     = MigrationInfo.BackendMeasureTotal i)%Z.
Proof.
  intros Hb Hc Hlen Hrun. unfold RecoveryBackend in Hrun.
  apply with_defer_Ret_inv in Hrun as (s3 & Hbody & Hdone).
  apply bind_inv in Hbody as [(c' & s0 & Hat & Hbody) | [[_ ?] | [_ ?]]];
    [|done..].
  apply circle_at_inv in Hat as [-> Hc']. rewrite Hc in Hc'.
  injection Hc' as <-.
  apply bind_inv in Hbody as [([] & s1 & Hclear & Hbody) | [[_ ?] | [_ ?]]];
    [|done..].
  pose proof (ClearMigrateStatus_heap _ _ _ _ _ Hclear) as Hheap.
  apply (ClearMigrateStatus_cleared _ _ (Backend.Url b)) in Hclear.
  rewrite (bind_Ret _ _ _ _ _ (deref_heap _ _ _ _ Hb Hheap)) in Hbody.
  apply (pass_counts true Recovering b (Circle.CircleNum c)
           (recoveryMeasure (Some l) (Backend.Url b) fromCircle toCircle
              (Circle.CircleNum c) urls)
           db fromCircle s s1 s3 s'); try done.
  intros. apply recoveryMeasure_counted.
Qed.

(** C4, amended. A worker that has run to its end over one database
    leaves the slot of its source with
    [BMNeedMigrateCount + BMNotMigrateCount = BackendMeasureTotal] in a
    rebalance and in a resync; in a recovery the sum falls short of
    [BackendMeasureTotal] by the measurements whose ring lookup failed, one
    logged line each. The measurements of the database are no more than an
    [int] counts, as the length of a slice is. *)
Theorem one_database_pass_counts (l : loc) (b : Backend.t) (db : string)
    (s s' : State.t) :
  State.heap s !! l = Some b →
  (GoInt.len (GetMeasurements b db) ≤ GoInt.max_int)%Z →
  (∀ circleNum,
     RebalanceBackend (Some l) circleNum [db] s = (Ret tt, s') →
     ∃ i,
       slot Rebalancing circleNum (Backend.Url b) (State.proxy s') = Some i ∧
       (MigrationInfo.BMNeedMigrateCount i
        + MigrationInfo.BMNotMigrateCount i
        = MigrationInfo.BackendMeasureTotal i)%Z) ∧
  (∀ circle c lastSeconds,
     Proxy.Circles (State.proxy s) !! circle = Some c →
     ResyncBackend (Some l) circle [db] lastSeconds s = (Ret tt, s') →
     ∃ i,
       slot Resyncing (Circle.CircleNum c) (Backend.Url b) (State.proxy s')
         = Some i ∧
       (MigrationInfo.BMNeedMigrateCount i
        + MigrationInfo.BMNotMigrateCount i
        = MigrationInfo.BackendMeasureTotal i)%Z) ∧
  (∀ fromCircle toCircle c recoveryBackendUrlMap,
     Proxy.Circles (State.proxy s) !! fromCircle = Some c →
     RecoveryBackend (Some l) fromCircle toCircle recoveryBackendUrlMap
       [db] s = (Ret tt, s') →
     ∃ i evs,
       slot Recovering (Circle.CircleNum c) (Backend.Url b) (State.proxy s')
         = Some i ∧
       State.events s' = State.events s ++ evs ∧
       (MigrationInfo.BMNeedMigrateCount i
        + MigrationInfo.BMNotMigrateCount i
        + Z.of_nat (failedLookups evs)
        = MigrationInfo.BackendMeasureTotal i)%Z).
Proof.
  intros Hb Hlen. split; [|split].
  - intros circleNum. by apply RebalanceBackend_counts.
  - intros circle c lastSeconds Hc. by apply ResyncBackend_counts.
  - intros fromCircle toCircle c urls Hc. by apply RecoveryBackend_counts.
Qed.
End WorkerFacts.

(** ** What start-up establishes *)

Section StartupInvariant.
Context `{BackendPkg}.

Global Instance keepsLayout_preorder : PreOrder keepsLayout.
Proof.
  split.
  - by intros s.
  - intros s1 s2 s3 (? & ? & ?) (? & ? & ?). repeat split; congruence.
Qed.

Lemma starting_keepsLayout dbs bks h0 ready s s' :
  keepsLayout s s' → starting dbs bks h0 ready s → starting dbs bks h0 ready s'.
Proof.
  intros (Hd & Hb & Hh) (Hd0 & Hb0 & Hdom & Hr).
  repeat split; try congruence.
  - intros l. rewrite Hh. apply Hdom.
  - intros l Hl b db. rewrite Hh. by apply Hr.
Qed.

Lemma spec_keepsLayout {A} (m : M A) dbs bks h0 ready :
  steps keepsLayout m →
  spec (starting dbs bks h0 ready) m (λ _, starting dbs bks h0 ready)
    (λ _, True).
Proof.
  intros Hm s r s' HP Hrun. destruct r; [|done..].
  eapply starting_keepsLayout; [by eapply Hm | done].
Qed.

Lemma backendLists_insert (cs : list Circle.t) (c : nat) (x y : Circle.t) :
  cs !! c = Some x → Circle.Backends y = Circle.Backends x →
  Circle.Backends <$> <[c := y]> cs = Circle.Backends <$> cs.
Proof.
  intros Hx Hy. rewrite list_fmap_insert, Hy.
  apply list_insert_id. by rewrite list_lookup_fmap, Hx.
Qed.

Lemma circle_modify_keepsLayout (c : nat) (f : Circle.t → Circle.t) :
  (∀ x, Circle.Backends (f x) = Circle.Backends x) →
  steps keepsLayout (circle_modify c f).
Proof.
  intros Hf s r s'. unfold circle_modify, circle_at, get_proxy, modify_proxy.
  run. destruct (Proxy.Circles (State.proxy s) !! c) as [x|] eqn:Hx;
    cbn [must]; run; [|by intros [= <- <-]].
  intros [= <- <-]. repeat split; try done.
  unfold backendLists. cbn. by apply (backendLists_insert _ _ x).
Qed.

Lemma spec_gets {A} (f : State.t → A) (P : State.t → Prop) E :
  spec P (gets f) (λ a s, P s ∧ a = f s) E.
Proof. intros s r s' HP [= <- <-]. done. Qed.

Lemma spec_forM {A} (body : A → M unit) (l : list A)
    (I : nat → State.t → Prop) (E : State.t → Prop) :
  (∀ n x, l !! n = Some x → spec (I n) (body x) (λ _, I (S n)) E) →
  spec (I 0) (forM l body) (λ _, I (length l)) E.
Proof.
  intros Hbody.
  assert (∀ k l', l = take k l ++ l' → k ≤ length l →
    spec (I k) (forM l' body) (λ _, I (length l)) E) as Hgen.
  { intros k l'. revert k. induction l' as [|x l' IH]; intros k Hl Hk.
    - simpl. apply spec_ret. intros s Hs.
      assert (k = length l) as <-; [|done].
      apply (f_equal length) in Hl.
      rewrite length_app, length_take in Hl. simpl in Hl. lia.
    - simpl. eapply spec_bind.
      + apply Hbody. rewrite Hl.
        rewrite lookup_app_r; rewrite length_take; [|lia].
        replace (k - k `min` length l) with 0 by lia. done.
      + intros ?. apply IH.
        * rewrite Hl at 1.
          assert (take (S k) l = take k l ++ [x]) as ->.
          { rewrite Hl at 1.
            rewrite take_app_ge; rewrite length_take; [|lia].
            replace (S k - k `min` length l) with 1 by lia.
            simpl. by rewrite take_0. }
          by rewrite <- app_assoc.
        * apply (f_equal length) in Hl.
          rewrite length_app, length_take in Hl. simpl in Hl. lia. }
  apply (Hgen 0 l); [done | lia].
Qed.

Lemma freshBuffers_keys (dbs : list string) (db : string) :
  is_Some (freshBuffers dbs !! db) → db ∈ dbs.
Proof.
  unfold freshBuffers.
  assert (∀ m : gmap string BufferCounter.t,
    is_Some (foldl (λ m db, <[db := BufferCounter.fresh]> m) m dbs !! db) →
    db ∈ dbs ∨ is_Some (m !! db)) as Hgen.
  { induction dbs as [|d dbs IH]; intros m; simpl; [by right |].
    intros Hs. apply IH in Hs as [Hin | Hs]; [left; by right |].
    destruct (decide (d = db)) as [-> | Hne]; [left; by left |].
    rewrite lookup_insert_ne in Hs by done. by right. }
  intros Hs. apply Hgen in Hs as [? | [? Hs]]; [done |].
  by rewrite lookup_empty in Hs.
Qed.

(** A write through a backend pointer, seen from [starting]: a backend
    whose buffers stay among its old ones and the databases keeps the state;
    one whose buffers are all among the databases becomes ready. *)
Lemma store_starting dbs bks h0 ready (l : loc) (f : Backend.t → Backend.t) :
  (∀ b db, is_Some (Backend.BufferMap (f b) !! db) →
     db ∈ dbs ∨ is_Some (Backend.BufferMap b !! db)) →
  spec (starting dbs bks h0 ready) (store (Some l) f)
    (λ _, starting dbs bks h0 ready) (λ _, True).
Proof.
  intros Hf s r s' (Hd & Hb & Hdom & Hr). unfold store, deref. cbn [must].
  run. destruct (State.heap s !! l) as [b|] eqn:Hl; cbn [must];
    [|by intros [= <- <-]].
  run. intros [= <- <-]. repeat split; try done; cbn.
  - intros l'. destruct (decide (l = l')) as [<- | Hne].
    + intros _. apply Hdom. by eexists.
    + rewrite lookup_insert_ne by done. apply Hdom.
  - intros l' Hl' b' db. cbn. destruct (decide (l = l')) as [<- | Hne].
    + rewrite lookup_insert_eq. intros [= <-] Hs.
      apply Hf in Hs as [? | Hs]; [done |]. by eapply Hr.
    + rewrite lookup_insert_ne by done. by apply Hr.
Qed.

Lemma store_ready dbs bks h0 ready (l : loc) (f : Backend.t → Backend.t) :
  (∀ b db, is_Some (Backend.BufferMap (f b) !! db) → db ∈ dbs) →
  spec (starting dbs bks h0 ready) (store (Some l) f)
    (λ _, starting dbs bks h0 (λ l', ready l' ∨ l' = l)) (λ _, True).
Proof.
  intros Hf s r s' (Hd & Hb & Hdom & Hr). unfold store, deref. cbn [must].
  run. destruct (State.heap s !! l) as [b|] eqn:Hl; cbn [must];
    [|by intros [= <- <-]].
  run. intros [= <- <-]. repeat split; try done; cbn.
  - intros l'. destruct (decide (l = l')) as [<- | Hne].
    + intros _. apply Hdom. by eexists.
    + rewrite lookup_insert_ne by done. apply Hdom.
  - intros l' Hl' b' db. cbn. destruct (decide (l = l')) as [<- | Hne].
    + rewrite lookup_insert_eq. intros [= <-] Hs. by eapply Hf.
    + rewrite lookup_insert_ne by done.
      destruct Hl' as [Hl' | ->]; [by apply Hr | done].
Qed.

Lemma spec_pre {A} (φ : Prop) (P : State.t → Prop) (m : M A) Q E :
  (φ → spec P m Q E) → spec (λ s, P s ∧ φ) m Q E.
Proof. intros Hm s r s' [HP Hφ]. by apply Hm. Qed.

Lemma spec_pre_weaken {A} (P P' : State.t → Prop) (m : M A) Q E :
  (∀ s, P s → P' s) → spec P' m Q E → spec P m Q E.
Proof. intros HP Hm s r s' Hs. apply Hm. by apply HP. Qed.

Lemma initBackend_starting dbs bks h0 ready (circle : nat) (l : loc) :
  spec (starting dbs bks h0 ready) (initBackend circle l)
    (λ _, starting dbs bks h0 (λ l', ready l' ∨ l' = l)) (λ _, True).
Proof.
  unfold initBackend.
  eapply spec_bind; [apply spec_keepsLayout; steps_auto; done | intros b].
  eapply spec_bind; [apply spec_keepsLayout; steps_auto; done | intros c].
  eapply spec_bind; [apply spec_keepsLayout; steps_auto; done | intros r].
  eapply spec_bind;
    [apply spec_keepsLayout, circle_modify_keepsLayout; done | intros ?].
  eapply spec_bind;
    [apply spec_keepsLayout, circle_modify_keepsLayout; done | intros ?].
  eapply spec_bind.
  { apply store_starting. intros b0 db. cbn. rewrite lookup_empty.
    by intros [? ?]. }
  intros ?. eapply spec_bind; [apply store_starting; by right | intros ?].
  eapply spec_bind; [apply store_starting; by right | intros ?].
  eapply spec_bind; [apply spec_gets | intros p].
  apply (spec_pre_weaken _
           (λ s, starting dbs bks h0 ready s ∧ Proxy.DbList p = dbs)).
  { intros s [Hs ->]. split; [done |]. by destruct Hs. }
  apply spec_pre. intros Hp.
  eapply spec_bind; [apply spec_keepsLayout; steps_auto; done | intros ?].
  eapply spec_bind.
  { apply store_ready. intros b0 db. cbn. rewrite Hp.
    apply freshBuffers_keys. }
  intros ?.
  eapply spec_bind; [apply spec_keepsLayout; steps_auto; done | intros ?].
  eapply spec_bind; [apply spec_keepsLayout; steps_auto; done | intros ?].
  apply spec_keepsLayout; steps_auto; done.
Qed.

Lemma starting_ready_mono dbs bks h0 (ready ready' : loc → Prop) s :
  (∀ l, ready' l → ready l) →
  starting dbs bks h0 ready s → starting dbs bks h0 ready' s.
Proof.
  intros Hr (Hd & Hb & Hdom & Hrd). repeat split; try done.
  intros l Hl. by apply Hrd, Hr.
Qed.

Lemma initMigration_keepsLayout (circle : nat) (circleNum : Z) :
  steps keepsLayout (initMigration circle circleNum).
Proof.
  unfold initMigration. steps_auto; try done.
  all: repeat split; try done; by destruct w.
Qed.

Lemma spec_circle_at (c : nat) (P : State.t → Prop) :
  spec P (circle_at c)
    (λ x s, P s ∧ Proxy.Circles (State.proxy s) !! c = Some x) (λ _, True).
Proof.
  intros s r s' HP Hrun. destruct r as [x | |]; [|done..].
  by apply circle_at_inv in Hrun as [-> Hx].
Qed.

(** [initCircle], for the circle at [circle] whose backends are [bl]:
    these become ready. *)
Lemma initCircle_starting dbs bks h0 ready (circle : nat) (bl : list loc) :
  bks !! circle = Some bl →
  spec (starting dbs bks h0 ready) (initCircle circle)
    (λ _, starting dbs bks h0 (λ l, ready l ∨ l ∈ bl)) (λ _, True).
Proof.
  intros Hbl. unfold initCircle.
  eapply spec_bind; [apply spec_keepsLayout; steps_auto; done | intros p].
  do 7 (eapply spec_bind;
    [apply spec_keepsLayout, circle_modify_keepsLayout; done | intros ?]).
  eapply spec_bind; [apply spec_circle_at | intros c].
  apply (spec_pre_weaken _
           (λ s, starting dbs bks h0 ready s ∧ Circle.Backends c = bl)).
  { intros s [Hs Hc]. split; [done |].
    destruct Hs as (_ & Hb & _). unfold backendLists in Hb.
    rewrite <- Hb, list_lookup_fmap, Hc in Hbl. by injection Hbl. }
  apply spec_pre. intros ->.
  eapply spec_conseq;
    [apply (spec_forM _ bl
              (λ n, starting dbs bks h0 (λ l, ready l ∨ l ∈ take n bl)))
    | | | done].
  - intros n backend Hn.
    eapply spec_bind; [apply spec_keepsLayout; steps_auto; done | intros b].
    eapply spec_bind;
      [apply spec_keepsLayout, circle_modify_keepsLayout; done | intros ?].
    eapply spec_conseq; [apply initBackend_starting | done | | done].
    intros [] s.
    apply (starting_ready_mono dbs bks h0
             (λ l', (ready l' ∨ l' ∈ take n bl) ∨ l' = backend)).
    intros l [Hl | Hl]; [by left; left |].
    rewrite (take_S_r _ _ _ Hn) in Hl.
    apply elem_of_app in Hl as [Hl | Hl]; [left; by right |].
    right. by apply list_elem_of_singleton in Hl.
  - intros s. apply (starting_ready_mono dbs bks h0 ready).
    intros l [Hl | Hl]; [done |].
    rewrite take_0 in Hl. by apply elem_of_nil in Hl.
  - intros [] s.
    apply (starting_ready_mono dbs bks h0
             (λ l, ready l ∨ l ∈ take (length bl) bl)).
    intros l [Hl | Hl]; [by left |]. right. by rewrite firstn_all.
Qed.

Lemma compileInto_keeps {X} (π : Proxy.t → X)
    (add : Regexp → Proxy.t → Proxy.t) (cmds : list string) :
  (∀ r p, π (add r p) = π p) →
  steps (same (λ s, (π (State.proxy s), State.heap s))) (compileInto add cmds).
Proof.
  intros Hadd. unfold compileInto. steps_auto; try done.
  unfold same. cbn. by rewrite Hadd.
Qed.

(** The backends of the circles at the positions below [i]. *)
Lemma circles_loop_starting dbs bks h0 :
  spec (starting dbs bks h0 (λ _, False))
    (forM (seq 0 (length bks)) (λ circleNum,
       circle_modify circleNum (Circle.set_CircleNum (Z.of_nat circleNum)) ;;
       initMigration circleNum (Z.of_nat circleNum) ;;
       initCircle circleNum))
    (λ _, starting dbs bks h0 (λ l, ∃ bl, bl ∈ bks ∧ l ∈ bl))
    (λ _, True).
Proof.
  eapply spec_conseq;
    [apply (spec_forM _ _
              (λ i, starting dbs bks h0
                      (λ l, ∃ j bl, j < i ∧ bks !! j = Some bl ∧ l ∈ bl)))
    | | | done].
  - intros i x Hx. apply lookup_seq in Hx as [-> Hi]. simpl.
    destruct (lookup_lt_is_Some_2 bks i Hi) as [bl Hbl].
    eapply spec_bind;
      [apply spec_keepsLayout, circle_modify_keepsLayout; done | intros ?].
    eapply spec_bind;
      [apply spec_keepsLayout, initMigration_keepsLayout | intros ?].
    eapply spec_conseq;
      [apply (initCircle_starting dbs bks h0
                (λ l, ∃ j bl, j < i ∧ bks !! j = Some bl ∧ l ∈ bl) i bl Hbl)
      | done | | done].
    intros [] s.
    apply (starting_ready_mono dbs bks h0
             (λ l, (∃ j bl, j < i ∧ bks !! j = Some bl ∧ l ∈ bl) ∨ l ∈ bl)).
    intros l (j & bl' & Hj & Hbl' & Hl).
    destruct (decide (j = i)) as [-> | Hne].
    + right. rewrite Hbl in Hbl'. by injection Hbl' as ->.
    + left. exists j, bl'. split; [lia | done].
  - intros s. apply (starting_ready_mono dbs bks h0 (λ _, False)).
    intros l (j & bl & Hj & _). lia.
  - intros [] s.
    apply (starting_ready_mono dbs bks h0
             (λ l, ∃ j bl, j < length (seq 0 (length bks)) ∧
                           bks !! j = Some bl ∧ l ∈ bl)).
    intros l (bl & Hbl & Hl).
    apply list_elem_of_lookup in Hbl as [j Hj].
    exists j, bl. rewrite length_seq. split; [|done].
    by eapply lookup_lt_Some.
Qed.

Lemma DbMap_loop (dbs : list string) (P : State.t → Prop) :
  (∀ s f, P s → P (State.set_proxy (Proxy.set_DbMap f (State.proxy s)) s)) →
  spec P
    (forM dbs (λ db,
       modify_proxy (λ p, Proxy.set_DbMap (<[db := true]> (Proxy.DbMap p)) p)))
    (λ _ s, P s ∧ ∀ db, db ∈ dbs →
              is_Some (Proxy.DbMap (State.proxy s) !! db))
    (λ _, True).
Proof.
  intros HP.
  eapply spec_conseq;
    [apply (spec_forM _ _
              (λ i s, P s ∧ ∀ db, db ∈ take i dbs →
                        is_Some (Proxy.DbMap (State.proxy s) !! db))
              (λ _, True))
    | | | done].
  - intros i db Hi s r s' [Hs Hin] [= <- <-]. split; [by apply HP |].
    intros db'. rewrite (take_S_r _ _ _ Hi). cbn.
    intros [Hdb' | Hdb']%elem_of_app.
    + destruct (decide (db = db')) as [-> | Hne].
      * rewrite lookup_insert_eq. by eexists.
      * rewrite lookup_insert_ne by done. by apply Hin.
    + apply list_elem_of_singleton in Hdb' as ->.
      rewrite lookup_insert_eq. by eexists.
  - intros s Hs. split; [done |]. intros db Hdb.
    rewrite take_0 in Hdb. by apply elem_of_nil in Hdb.
  - intros [] s [Hs Hin]. split; [done |]. intros db Hdb. apply Hin.
    by rewrite firstn_all.
Qed.

(** Once the configuration has decoded, with every backend the decoder
    allocated in some circle, a [NewProxy] that returns leaves the backends
    with buffers for databases of [DbMap] only. *)
Lemma NewProxy_buffersWithinDbMap (file : string) (s s' : State.t)
    (h : gmap loc Backend.t) (p : Proxy.t) :
  decodeProxyJson file = (h, p, None) →
  (∀ l, is_Some (h !! l) →
     ∃ c, c ∈ Proxy.Circles p ∧ l ∈ Circle.Backends c) →
  NewProxy file s = (Ret None, s') →
  buffersWithinDbMap s'.
Proof.
  intros Hdec Hall Hrun. unfold NewProxy in Hrun. rewrite Hdec in Hrun.
  rewrite bind_modify in Hrun.
  unfold modify_proxy at 1 2 3 in Hrun. rewrite !bind_modify in Hrun.
  unfold emit at 1 in Hrun. rewrite bind_modify in Hrun.
  set (dbs := Proxy.DbList p).
  set (bks := Circle.Backends <$> Proxy.Circles p).
  match type of Hrun with
  | ?m ?s1 = _ =>
      assert (spec (starting dbs bks h (λ _, False)) m
                (λ _ s2, starting dbs bks h (λ l, ∃ bl, bl ∈ bks ∧ l ∈ bl) s2 ∧
                   ∀ db, db ∈ dbs →
                     is_Some (Proxy.DbMap (State.proxy s2) !! db))
                (λ _, True)) as Hspec;
      [|assert (starting dbs bks h (λ _, False) s1) as Hs1]
  end.
  - eapply spec_bind.
    { apply spec_keepsLayout.
      destruct (Proxy.MigrateMaxCpus p =? 0)%Z; steps_auto; done. }
    intros ?. eapply spec_bind.
    { replace (length (Proxy.Circles p)) with (length bks)
        by (subst bks; by rewrite length_fmap).
      apply circles_loop_starting. }
    intros ?. eapply spec_bind; [apply spec_keepsLayout; steps_auto; done |].
    intros ?. eapply spec_bind.
    { apply DbMap_loop. intros s0 f. by apply starting_keepsLayout. }
    intros ?.
    assert (∀ add cmds,
      (∀ r p0, (Proxy.DbList (add r p0), Proxy.Circles (add r p0),
                Proxy.DbMap (add r p0))
               = (Proxy.DbList p0, Proxy.Circles p0, Proxy.DbMap p0)) →
      spec (λ s2, starting dbs bks h (λ l, ∃ bl, bl ∈ bks ∧ l ∈ bl) s2 ∧
              ∀ db, db ∈ dbs → is_Some (Proxy.DbMap (State.proxy s2) !! db))
        (compileInto add cmds)
        (λ _ s2, starting dbs bks h (λ l, ∃ bl, bl ∈ bks ∧ l ∈ bl) s2 ∧
              ∀ db, db ∈ dbs → is_Some (Proxy.DbMap (State.proxy s2) !! db))
        (λ _, True)) as Hcompile.
    { intros add cmds Hadd s0 r s0' [Hst Hdb] Hc. destruct r; [|done..].
      pose proof (compileInto_keeps
                    (λ p0, (Proxy.DbList p0, Proxy.Circles p0, Proxy.DbMap p0))
                    add cmds Hadd _ _ _ Hc) as Hk.
      unfold same in Hk. injection Hk as Hd Hc' Hm Hh.
      split.
      - eapply starting_keepsLayout; [|done].
        repeat split; try done. unfold backendLists. by rewrite Hc'.
      - intros db. rewrite Hm. apply Hdb. }
    eapply spec_bind; [apply Hcompile; done | intros ?].
    eapply spec_bind; [apply Hcompile; done | intros ?].
    eapply spec_bind; [apply Hcompile; done | intros ?].
    by apply spec_ret.
  - repeat split; try done.
  - specialize (Hspec _ _ _ Hs1 Hrun) as [(Hd & Hb & Hdom & Hready) Hdb].
    intros l b db Hl Hbuf. apply Hdb.
    apply (Hready l) with (b := b); [|done..].
    destruct (Hall l) as (c & Hc & Hlc); [apply Hdom; by eexists |].
    exists (Circle.Backends c). split; [|done].
    subst bks. by apply list_elem_of_fmap_2.
Qed.
End StartupInvariant.

(** ** The examples *)

Section Examples.
Import Demo Scenario.

Lemma CheckCreateDatabaseQuery_last_witness :
  CheckCreateDatabaseQuery (State.proxy (started plain)) "CREATE DATABASE x"
    = true ↔
  MatchString "CREATE DATABASE" "CREATE DATABASE x" = true.
Proof.
  apply (CheckCreateDatabaseQuery_last (State.proxy (started plain))
           "CREATE DATABASE x" "CREATE DATABASE").
  vm_compute. reflexivity.
Defined.

Lemma NewProxy_MigrateMaxCpus_witness :
  Proxy.MigrateMaxCpus (State.proxy (started plain)) =
    if (Proxy.MigrateMaxCpus twoCircles.1.2 =? 0)%Z then 1%Z
    else Proxy.MigrateMaxCpus twoCircles.1.2.
Proof.
  apply (NewProxy_MigrateMaxCpus (H1 := plain) "proxy.json" boot
           twoCircles.1.1 twoCircles.1.2
           (NewProxy (H1 := plain) "proxy.json" boot).1 (started plain)).
  - reflexivity.
  - apply surjective_pairing.
Defined.

Lemma GetMachines_one_per_answering_circle_witness :
  let s := started plain in
  let circles := Proxy.Circles (State.proxy s) in
  let machines := omap (answer "m,cpu") circles in
  GetMachines "m,cpu" s =
    (Ret machines,
     State.set_events (State.events s ++ lookupLogs "m,cpu" 0 circles) s) ∧
  length machines = length (filter (λ c, is_Some (answer "m,cpu" c)) circles).
Proof.
  apply (GetMachines_one_per_answering_circle "m,cpu" (started plain)).
  vm_compute. reflexivity.
Defined.

(** The key of the line is placed on a backend in each of the two circles;
    the enqueue to the first fails, and the second is never called: its
    buffers are as they were. *)
Lemma WriteData_failure_leaves_later_circles_out :
  let s := started diskFull in
  let r := WriteData (H1 := diskFull) (cpuLine "m") s in
  (GetMachines "m,cpu" s).1 = Ret [Some 0; Some 1] ∧
  enqueuedTo (added s r.2) = [0] ∧
  last (added s r.2)
    = Some (LogWriteToBuffer "url1"
              (LineData.mk "m" (line "cpu value=1" ++ newline) "ns")
              "disk full") ∧
  State.heap r.2 !! 1 = State.heap s !! 1.
Proof. vm_compute. repeat split. Qed.

(** C2. The code at the failing input. A holds [m1] and [m2], both to be
    moved to B, with one migration at a time; the migration of [m1] fails.
    [Proxy.Migrate] logs the error and returns without [Done]: the counter
    of the source stays at 1, the wait that follows never returns, and the
    pass is stuck with [m2] never looked at. *)
Theorem failed_Migrate_blocks_the_pass :
  let s := started failingMigration in
  let r := Rebalance (H1 := failingMigration) [Some 0] 0 ["db"] s in
  r.1 = Stuck ∧
  added s r.2 =
    [SetMLog "./log/rebalance.log" "Rebalance: ";
     MlogSrcDst "urlA" "urlB" "db" "m1";
     GoMigrate (mkMigrateCall (Some 0) [Some 1] 0 "db" "m1" 0);
     BackendWgWait 0 "urlA";
     LogMigrateErr "timeout"] ∧
  wgOf r.2 0 "urlA" = Some 1%Z ∧
  Circle.IsMigrating (circleAt r.2 0) = true.
Proof. vm_compute. repeat split. Qed.

(** Two databases with one measurement each: the counters add up to 2 and
    [BackendMeasureTotal] is 1. A recovery into a circle whose ring is
    empty: the one measurement is skipped, the counters are 0 and
    [BackendMeasureTotal] is 1. Both passes run to their end. *)
Lemma pass_counts_differ_from_total :
  (let s := started twoDatabases in
   let r := Rebalance (H1 := twoDatabases) [Some 0] 0 ["db"; "db2"] s in
   r.1 = Ret tt ∧
   needOf r.2 Rebalancing 0 "urlA" = Some 1%Z ∧
   notOf r.2 Rebalancing 0 "urlA" = Some 1%Z ∧
   totalOf r.2 Rebalancing 0 "urlA" = Some 1%Z) ∧
  (let s := started emptyTarget in
   let r := (WgMigrate_Add 0 1 ;;
             RecoveryBackend (H1 := emptyTarget) (Some 0) 0 1 ∅ ["db"]) s in
   r.1 = Ret tt ∧
   needOf r.2 Recovering 0 "urlA" = Some 0%Z ∧
   notOf r.2 Recovering 0 "urlA" = Some 0%Z ∧
   totalOf r.2 Recovering 0 "urlA" = Some 1%Z).
Proof. vm_compute. repeat split. Qed.

Lemma one_database_pass_counts_witness :
  let s := (WgMigrate_Add 0 1 (started twoSources)).2 in
  let s' := (RebalanceBackend (H1 := twoSources) (Some 0) 0 ["db"] s).2 in
  ∃ i,
    slot Rebalancing 0 (Backend.Url (backendAt s 0)) (State.proxy s')
      = Some i ∧
    (MigrationInfo.BMNeedMigrateCount i + MigrationInfo.BMNotMigrateCount i
     = MigrationInfo.BackendMeasureTotal i)%Z.
Proof.
  intros s s'.
  assert (State.heap s !! 0 = Some (backendAt s 0)) as Hb
    by (vm_compute; reflexivity).
  assert (GoInt.len (GetMeasurements (BackendPkg := twoSources)
                       (backendAt s 0%nat) "db") ≤ GoInt.max_int)%Z as Hlen
    by (vm_compute; discriminate).
  destruct (one_database_pass_counts (H1 := twoSources) 0%nat (backendAt s 0)
              "db" s s' Hb Hlen) as [Hreb _].
  apply (Hreb 0%Z). vm_compute. reflexivity.
Defined.

(** C5. The code at two failing inputs. First, a pass over A alone, which
    holds [m1] and [m2], with the migration of [m1] failing: the pass is
    stuck at the wait that follows, [m2] is placed on B by the ring and no
    migration of it is ever started. Second, a pass over the sources A and
    B whose workers run one after the other: the one measurement of A that
    the ring places elsewhere is migrated, and the worker of B, which clears
    the table of the whole circle on entry, leaves the counter of A at 0. *)
Theorem Rebalance_loses_migrations_and_counts :
  (let s := started failingMigration in
   let r := Rebalance (H1 := failingMigration) [Some 0] 0 ["db"] s in
   r.1 = Stuck ∧
   consistent_Get (routerAt s 0) "db,m2" = ("urlB", None) ∧
   migrations (added s r.2)
     = [mkMigrateCall (Some 0) [Some 1] 0 "db" "m1" 0]) ∧
  (let s := started twoSources in
   let r := Rebalance (H1 := twoSources) [Some 0; Some 1] 0 ["db"] s in
   r.1 = Ret tt ∧
   migrations (added s r.2)
     = [mkMigrateCall (Some 0) [Some 1] 0 "db" "m1" 0] ∧
   needOf r.2 Rebalancing 0 "urlA" = Some 0%Z).
Proof. vm_compute. repeat split. Qed.

Lemma rebalanceMeasure_failed_lookup_witness :
  let s := started noVnodes in
  let c := circleAt s 0 in
  let i := slotAt s Rebalancing 0 "urlA" in
  let r := rebalanceMeasure (H1 := noVnodes) (Some 0) "urlA" 0 0 "db" 0
             "m1" s in
  if decide ("" ≠ "urlA") then
    (∃ evs, State.events r.2 =
       State.events s ++
       [LogRouterGet [(Circle.Name c, Circle.CircleNum c)] "db" "m1"
          "empty circle";
        MlogSrcDst "urlA" "" "db" "m1";
        GoMigrate
          (mkMigrateCall (Some 0) [Circle.UrlToBackend c !! ""] 0 "db" "m1"
             0)] ++ evs) ∧
    (∃ i', slot Rebalancing 0 "urlA" (State.proxy r.2) = Some i' ∧
       MigrationInfo.BMNeedMigrateCount i'
         = GoInt.incr (MigrationInfo.BMNeedMigrateCount i) ∧
       MigrationInfo.BMNotMigrateCount i'
         = MigrationInfo.BMNotMigrateCount i)
  else
    r.1 = Ret 0%Z ∧
    State.events r.2 =
      State.events s ++
      [LogRouterGet [(Circle.Name c, Circle.CircleNum c)] "db" "m1"
         "empty circle"] ∧
    (∃ i', slot Rebalancing 0 "urlA" (State.proxy r.2) = Some i' ∧
       MigrationInfo.BMNeedMigrateCount i'
         = MigrationInfo.BMNeedMigrateCount i ∧
       MigrationInfo.BMNotMigrateCount i'
         = GoInt.incr (MigrationInfo.BMNotMigrateCount i)).
Proof.
  intros s c i r.
  apply (rebalanceMeasure_failed_lookup (H1 := noVnodes) (Some 0) "urlA" 0 0
           "db" 0 "m1" s c (routerAt s 0) "" "empty circle" i 0 r.1 r.2).
  - vm_compute. reflexivity.
  - vm_compute. reflexivity.
  - vm_compute. reflexivity.
  - vm_compute. reflexivity.
  - vm_compute. reflexivity.
  - lia.
  - apply surjective_pairing.
Defined.

(** C10 as it was stated, at a configuration that [NewProxy] accepts: one
    circle with an empty ring and the backends A, whose URL is empty, and
    B. The lookup fails with the empty name. For the source B the
    migration that is started has A for its destination, not nil; for the
    source A the measurement is counted as in its place and no migration
    is started. *)
Lemma failed_lookup_with_an_empty_url :
  let s := started emptyUrl in
  consistent_Get (routerAt s 0) "db,m1" = ("", Some "empty circle") ∧
  (let r := rebalanceMeasure (H1 := emptyUrl) (Some 1) "urlB" 0 0 "db" 0
              "m1" s in
   migrations (added s r.2)
   = [mkMigrateCall (Some 1) [Some 0] 0 "db" "m1" 0]) ∧
  (let r := rebalanceMeasure (H1 := emptyUrl) (Some 0) "" 0 0 "db" 0
              "m1" s in
   migrations (added s r.2) = [] ∧
   needOf r.2 Rebalancing 0 "" = Some 0%Z ∧
   notOf r.2 Rebalancing 0 "" = Some 1%Z).
Proof. vm_compute. repeat split. Qed.

Lemma twoCircles_backends_in_circles (l : loc) :
  is_Some (twoCircles.1.1 !! l) →
  ∃ c, c ∈ Proxy.Circles twoCircles.1.2 ∧ l ∈ Circle.Backends c.
Proof.
  intros [b Hl]. cbn in Hl.
  apply lookup_insert_Some in Hl as [[<- _] | [_ Hl]].
  { exists (decodedCircle "c0" [0]). split; [left | left]. }
  apply lookup_insert_Some in Hl as [[<- _] | [_ Hl]].
  { exists (decodedCircle "c1" [1]). split; [right; left | left]. }
  by rewrite lookup_empty in Hl.
Qed.

Lemma started_plain_buffersWithinDbMap :
  buffersWithinDbMap (started plain).
Proof.
  apply (NewProxy_buffersWithinDbMap (H1 := plain) "proxy.json" boot
           (started plain) twoCircles.1.1 twoCircles.1.2).
  - reflexivity.
  - apply twoCircles_backends_in_circles.
  - vm_compute. reflexivity.
Qed.

End Examples.

(** * Further properties *)

(** ** Query admission *)

Section AdmissionMore.
Context `{RegexpPkg} `{ConsistentPkg}.

(** X1. [CheckClusterQuery q] is true exactly when the clustered set is
    empty or one of its expressions matches [q]. *)
Theorem CheckClusterQuery_iff (proxy : Proxy.t) (q : string) :
  CheckClusterQuery proxy q = true ↔
    Proxy.ClusteredQuery proxy = [] ∨
    ∃ r, r ∈ Proxy.ClusteredQuery proxy ∧ MatchString r q = true.
Proof.
  unfold CheckClusterQuery. rewrite <- anyMatch_true.
  destruct (GoInt.len (Proxy.ClusteredQuery proxy) =? 0)%Z eqn:Hl; simpl.
  - apply len_eqb_0 in Hl. split; [by left | done].
  - destruct (anyMatch (Proxy.ClusteredQuery proxy) q); split; try done.
    + by right.
    + intros [He | ?]; [|done]. apply len_eqb_0 in He. congruence.
Qed.

Lemma GoInt_index_last {A} (l : list A) :
  GoInt.index l (GoInt.len l - 1) = last l.
Proof.
  unfold GoInt.index, GoInt.len. destruct l as [|x l]; [done |].
  destruct (Z.ltb_spec (Z.of_nat (length (x :: l)) - 1) 0) as [Hlt | _];
    [simpl in Hlt; lia |].
  rewrite last_lookup. f_equal. simpl. lia.
Qed.

(** X2. A query that [CheckCreateDatabaseQuery] admits is admitted by
    [CheckClusterQuery] as well, and the clustered set is then not empty:
    with an empty set the first refuses every query, which the second
    admits. *)
Theorem CheckCreateDatabaseQuery_CheckClusterQuery (proxy : Proxy.t)
    (q : string) :
  CheckCreateDatabaseQuery proxy q = true →
  CheckClusterQuery proxy q = true ∧ Proxy.ClusteredQuery proxy ≠ [].
Proof.
  intros Hc. unfold CheckCreateDatabaseQuery in Hc.
  rewrite GoInt_index_last in Hc. unfold CheckClusterQuery.
  destruct (GoInt.len (Proxy.ClusteredQuery proxy) =? 0)%Z; [done |].
  simpl in *.
  destruct (last (Proxy.ClusteredQuery proxy)) as [r|] eqn:Hlast; [|done].
  split; [|intros He; by rewrite He in Hlast].
  assert (anyMatch (Proxy.ClusteredQuery proxy) q = true) as ->; [|done].
  apply anyMatch_true. exists r. split; [|done].
  rewrite last_lookup in Hlast. by eapply list_elem_of_lookup_2.
Qed.

(** The loop of the three functions that fill the sets, when every
    command compiles and when one does not. *)
Lemma compileInto_compiled (add : Regexp → Proxy.t → Proxy.t)
    (cmds : list string) (rs : list Regexp) (s : State.t) :
  compiled cmds rs →
  compileInto add cmds s
  = (Ret tt, State.set_proxy (foldl (λ p r, add r p) (State.proxy s) rs) s).
Proof.
  intros Hc. revert s. unfold compileInto, modify_proxy.
  induction Hc as [|cmd r cmds rs Hr Hc IH]; intros s; cbn [forM foldl].
  - by destruct s.
  - rewrite Hr. run. rewrite IH. by destruct s.
Qed.

Lemma compileInto_refused (add : Regexp → Proxy.t → Proxy.t)
    (pre : list string) (bad : string) (rest : list string)
    (rs : list Regexp) (e : error) (s : State.t) :
  compiled pre rs → regexp_Compile bad = inr e →
  compileInto add (pre ++ bad :: rest) s
  = (Panic, State.set_proxy (foldl (λ p r, add r p) (State.proxy s) rs) s).
Proof.
  intros Hc Hbad. revert s. unfold compileInto, modify_proxy.
  induction Hc as [|cmd r cmds rs Hr Hc IH]; intros s; cbn [forM foldl app].
  - rewrite Hbad. by destruct s.
  - rewrite Hr. run. rewrite IH. by destruct s.
Qed.

Lemma compileInto_Ret_inv (add : Regexp → Proxy.t → Proxy.t)
    (cmds : list string) (s s' : State.t) :
  compileInto add cmds s = (Ret tt, s') → ∃ rs, compiled cmds rs.
Proof.
  revert s. unfold compileInto, modify_proxy.
  induction cmds as [|cmd cmds IH]; intros s; cbn [forM].
  - intros _. exists []. constructor.
  - destruct (regexp_Compile cmd) as [r|e] eqn:Hr; [|done].
    run. intros [rs Hrs]%IH. exists (r :: rs). by constructor.
Qed.

Lemma foldl_ForbiddenQuery (rs : list Regexp) (p : Proxy.t) :
  foldl (λ p r, Proxy.set_ForbiddenQuery (Proxy.ForbiddenQuery p ++ [r]) p)
    p rs
  = Proxy.set_ForbiddenQuery (Proxy.ForbiddenQuery p ++ rs) p.
Proof.
  revert p. induction rs as [|r rs IH]; intros p; cbn [foldl].
  - rewrite app_nil_r. by destruct p.
  - rewrite IH. cbn. by rewrite <- app_assoc.
Qed.

Lemma foldl_ObligatedQuery (rs : list Regexp) (p : Proxy.t) :
  foldl (λ p r, Proxy.set_ObligatedQuery (Proxy.ObligatedQuery p ++ [r]) p)
    p rs
  = Proxy.set_ObligatedQuery (Proxy.ObligatedQuery p ++ rs) p.
Proof.
  revert p. induction rs as [|r rs IH]; intros p; cbn [foldl].
  - rewrite app_nil_r. by destruct p.
  - rewrite IH. cbn. by rewrite <- app_assoc.
Qed.

Lemma foldl_ClusteredQuery (rs : list Regexp) (p : Proxy.t) :
  foldl (λ p r, Proxy.set_ClusteredQuery (Proxy.ClusteredQuery p ++ [r]) p)
    p rs
  = Proxy.set_ClusteredQuery (Proxy.ClusteredQuery p ++ rs) p.
Proof.
  revert p. induction rs as [|r rs IH]; intros p; cbn [foldl].
  - rewrite app_nil_r. by destruct p.
  - rewrite IH. cbn. by rewrite <- app_assoc.
Qed.

(** X3. When every command compiles, [ForbidQuery], [EnsureQuery] and
    [ClusterQuery] return, each having appended the compiled expressions to
    its set, in the order of the commands, and changed nothing else: what
    the set held before stays in front. *)
Theorem query_sets_are_appended_to (cmds : list string) (rs : list Regexp)
    (s : State.t) :
  compiled cmds rs →
  let p := State.proxy s in
  ForbidQuery cmds s
  = (Ret tt,
     State.set_proxy
       (Proxy.set_ForbiddenQuery (Proxy.ForbiddenQuery p ++ rs) p) s) ∧
  EnsureQuery cmds s
  = (Ret tt,
     State.set_proxy
       (Proxy.set_ObligatedQuery (Proxy.ObligatedQuery p ++ rs) p) s) ∧
  ClusterQuery cmds s
  = (Ret tt,
     State.set_proxy
       (Proxy.set_ClusteredQuery (Proxy.ClusteredQuery p ++ rs) p) s).
Proof.
  intros Hc p. unfold ForbidQuery, EnsureQuery, ClusterQuery.
  rewrite !(compileInto_compiled _ cmds rs s Hc).
  by rewrite foldl_ForbiddenQuery, foldl_ObligatedQuery,
    foldl_ClusteredQuery.
Qed.

(** X4. At the first command that does not compile the three functions
    panic; the expressions of the commands before it have been appended
    by then, and the commands after it are not looked at. *)
Theorem query_sets_panic_at_first_refusal (pre : list string) (bad : string)
    (rest : list string) (rs : list Regexp) (e : error) (s : State.t) :
  compiled pre rs → regexp_Compile bad = inr e →
  let p := State.proxy s in
  ForbidQuery (pre ++ bad :: rest) s
  = (Panic,
     State.set_proxy
       (Proxy.set_ForbiddenQuery (Proxy.ForbiddenQuery p ++ rs) p) s) ∧
  EnsureQuery (pre ++ bad :: rest) s
  = (Panic,
     State.set_proxy
       (Proxy.set_ObligatedQuery (Proxy.ObligatedQuery p ++ rs) p) s) ∧
  ClusterQuery (pre ++ bad :: rest) s
  = (Panic,
     State.set_proxy
       (Proxy.set_ClusteredQuery (Proxy.ClusteredQuery p ++ rs) p) s).
Proof.
  intros Hc Hbad p. unfold ForbidQuery, EnsureQuery, ClusterQuery.
  rewrite !(compileInto_refused _ pre bad rest rs e s Hc Hbad).
  by rewrite foldl_ForbiddenQuery, foldl_ObligatedQuery,
    foldl_ClusteredQuery.
Qed.
End AdmissionMore.

(** ** Start-up *)

Section StartupMore.
Context `{BackendPkg}.

Lemma bind_Ret_inv {A B} (m : M A) (f : A → M B) s b s' :
  bind m f s = (Ret b, s') →
  ∃ a s1, m s = (Ret a, s1) ∧ f a s1 = (Ret b, s').
Proof.
  intros Hrun.
  by apply bind_inv in Hrun as [(a & s1 & Hm & Hf) | [[_ ?] | [_ ?]]];
    [exists a, s1 | ..].
Qed.

(** [NewProxy] after a decoding that succeeded, by its phases. *)
Lemma NewProxy_phases (file : string) (s : State.t)
    (h : gmap loc Backend.t) (p : Proxy.t) :
  decodeProxyJson file = (h, p, None) →
  NewProxy file s
  = (circlesLoop (length (Proxy.Circles p)) ;;
     modify_proxy (Proxy.set_DbMap ∅) ;;
     dbMapLoop (Proxy.DbList p) ;;
     ForbidQuery util_ForbidCmds ;;
     EnsureQuery util_SupportCmds ;;
     ClusterQuery util_ClusterCmds ;;
     ret None) (decodedState h p s).
Proof.
  intros Hdec. unfold NewProxy. rewrite Hdec.
  rewrite bind_modify.
  unfold modify_proxy at 1 2 3. rewrite !bind_modify.
  unfold emit at 1. rewrite bind_modify.
  unfold decodedState.
  destruct (Proxy.MigrateMaxCpus p =? 0)%Z.
  - unfold modify_proxy at 1. rewrite bind_modify. reflexivity.
  - rewrite bind_ret_l. reflexivity.
Qed.

Lemma circlesLoop_same {X} (π : Proxy.t → X) (n : nat) :
  (∀ cs p, π (Proxy.set_Circles cs p) = π p) →
  (∀ w tb p, π (Proxy.set_status w tb p) = π p) →
  steps (same (λ s, π (State.proxy s))) (circlesLoop n).
Proof.
  intros Hc Hs. unfold circlesLoop, initMigration, initCircle, initBackend.
  steps_auto; unfold same; cbn; by rewrite ?Hc, ?Hs.
Qed.

Lemma dbMapLoop_same {X} (π : Proxy.t → X) (dbs : list string) :
  (∀ m p, π (Proxy.set_DbMap m p) = π p) →
  steps (same (λ s, π (State.proxy s))) (dbMapLoop dbs).
Proof.
  intros Hm. unfold dbMapLoop. steps_auto. unfold same. cbn. by rewrite Hm.
Qed.

Lemma ForbidQuery_Ret_inv (cmds : list string) (s s' : State.t) :
  ForbidQuery cmds s = (Ret tt, s') →
  ∃ rs, compiled cmds rs ∧
    s' = State.set_proxy
           (Proxy.set_ForbiddenQuery
              (Proxy.ForbiddenQuery (State.proxy s) ++ rs) (State.proxy s)) s.
Proof.
  intros Hrun. unfold ForbidQuery in *.
  destruct (compileInto_Ret_inv _ _ _ _ Hrun) as [rs Hrs]. exists rs.
  split; [done |].
  rewrite (compileInto_compiled _ _ _ _ Hrs), foldl_ForbiddenQuery in Hrun.
  by injection Hrun.
Qed.

Lemma EnsureQuery_Ret_inv (cmds : list string) (s s' : State.t) :
  EnsureQuery cmds s = (Ret tt, s') →
  ∃ rs, compiled cmds rs ∧
    s' = State.set_proxy
           (Proxy.set_ObligatedQuery
              (Proxy.ObligatedQuery (State.proxy s) ++ rs) (State.proxy s)) s.
Proof.
  intros Hrun. unfold EnsureQuery in *.
  destruct (compileInto_Ret_inv _ _ _ _ Hrun) as [rs Hrs]. exists rs.
  split; [done |].
  rewrite (compileInto_compiled _ _ _ _ Hrs), foldl_ObligatedQuery in Hrun.
  by injection Hrun.
Qed.

Lemma ClusterQuery_Ret_inv (cmds : list string) (s s' : State.t) :
  ClusterQuery cmds s = (Ret tt, s') →
  ∃ rs, compiled cmds rs ∧
    s' = State.set_proxy
           (Proxy.set_ClusteredQuery
              (Proxy.ClusteredQuery (State.proxy s) ++ rs) (State.proxy s)) s.
Proof.
  intros Hrun. unfold ClusterQuery in *.
  destruct (compileInto_Ret_inv _ _ _ _ Hrun) as [rs Hrs]. exists rs.
  split; [done |].
  rewrite (compileInto_compiled _ _ _ _ Hrs), foldl_ClusteredQuery in Hrun.
  by injection Hrun.
Qed.

(** A start-up that returns, by the states between its phases. *)
Lemma NewProxy_Ret_inv (file : string) (s s' : State.t)
    (h : gmap loc Backend.t) (p : Proxy.t) :
  decodeProxyJson file = (h, p, None) →
  NewProxy file s = (Ret None, s') →
  ∃ s1 s2 fs os cs,
    circlesLoop (length (Proxy.Circles p)) (decodedState h p s)
      = (Ret tt, s1) ∧
    dbMapLoop (Proxy.DbList p)
      (State.set_proxy (Proxy.set_DbMap ∅ (State.proxy s1)) s1)
      = (Ret tt, s2) ∧
    compiled util_ForbidCmds fs ∧ compiled util_SupportCmds os ∧
    compiled util_ClusterCmds cs ∧
    s' = State.set_proxy
           (Proxy.set_ClusteredQuery
              (Proxy.ClusteredQuery (State.proxy s2) ++ cs)
              (Proxy.set_ObligatedQuery
                 (Proxy.ObligatedQuery (State.proxy s2) ++ os)
                 (Proxy.set_ForbiddenQuery
                    (Proxy.ForbiddenQuery (State.proxy s2) ++ fs)
                    (State.proxy s2)))) s2.
Proof.
  intros Hdec Hrun. rewrite (NewProxy_phases _ _ _ _ Hdec) in Hrun.
  apply bind_Ret_inv in Hrun as ([] & s1 & Hr1 & Hrun).
  unfold modify_proxy at 1 in Hrun. rewrite bind_modify in Hrun.
  apply bind_Ret_inv in Hrun as ([] & s2 & Hr2 & Hrun).
  apply bind_Ret_inv in Hrun as ([] & s3 & Hr3 & Hrun).
  apply bind_Ret_inv in Hrun as ([] & s4 & Hr4 & Hrun).
  apply bind_Ret_inv in Hrun as ([] & s5 & Hr5 & Hrun).
  injection Hrun as <-.
  apply ForbidQuery_Ret_inv in Hr3 as (fs & Hfs & ->).
  apply EnsureQuery_Ret_inv in Hr4 as (os & Hos & ->).
  apply ClusterQuery_Ret_inv in Hr5 as (cs & Hcs & ->).
  exists s1, s2, fs, os, cs. repeat split; try done.
Qed.

(** X5. After a start-up that returns, each of the three sets of
    expressions holds what the configuration decoded to, followed by the
    expressions of the commands of [util], in their order: [ForbidCmds] in
    the forbidden set, [SupportCmds] in the obligated set, [ClusterCmds] in
    the clustered set. All of these commands compile. *)
Theorem NewProxy_query_sets (file : string) (s s' : State.t)
    (h : gmap loc Backend.t) (p : Proxy.t) :
  decodeProxyJson file = (h, p, None) →
  NewProxy file s = (Ret None, s') →
  ∃ fs os cs,
    compiled util_ForbidCmds fs ∧ compiled util_SupportCmds os ∧
    compiled util_ClusterCmds cs ∧
    querySets (State.proxy s')
    = (Proxy.ForbiddenQuery p ++ fs, Proxy.ObligatedQuery p ++ os,
       Proxy.ClusteredQuery p ++ cs).
Proof.
  intros Hdec Hrun.
  destruct (NewProxy_Ret_inv _ _ _ _ _ Hdec Hrun)
    as (s1 & s2 & fs & os & cs & Hr1 & Hr2 & Hfs & Hos & Hcs & ->).
  exists fs, os, cs. repeat split; try done.
  pose proof (circlesLoop_same querySets _ (λ _ _, eq_refl)
                (λ w _ _, ltac:(by destruct w)) _ _ _ Hr1) as Hq1.
  pose proof (dbMapLoop_same querySets _ (λ _ _, eq_refl) _ _ _ Hr2) as Hq2.
  unfold same, querySets in *. cbn in Hq1, Hq2. cbn.
  rewrite Hq1 in Hq2. injection Hq2 as -> -> ->.
  unfold decodedState. cbn. by destruct (Proxy.MigrateMaxCpus p =? 0)%Z.
Qed.

Lemma dbMapLoop_run (dbs : list string) (s : State.t) :
  dbMapLoop dbs s
  = (Ret tt,
     State.set_proxy
       (Proxy.set_DbMap
          (foldl (λ m db, <[db := true]> m) (Proxy.DbMap (State.proxy s)) dbs)
          (State.proxy s)) s).
Proof.
  revert s. unfold dbMapLoop, modify_proxy.
  induction dbs as [|db dbs IH]; intros s; cbn [forM foldl].
  - by destruct s as [? []].
  - run. rewrite IH. by destruct s.
Qed.

Lemma foldl_insert_const {V} (v : V) (ks : list string) (m : gmap string V)
    (k : string) :
  foldl (λ m k, <[k := v]> m) m ks !! k
  = if decide (k ∈ ks) then Some v else m !! k.
Proof.
  revert m. induction ks as [|d dbs IH]; intros m; cbn [foldl].
  - rewrite decide_False; [done | apply not_elem_of_nil].
  - rewrite IH. destruct (decide (k ∈ dbs)) as [Hin | Hnin].
    + rewrite decide_True; [done | by right].
    + destruct (decide (d = k)) as [-> | Hne].
      * rewrite lookup_insert_eq. rewrite decide_True; [done | left].
      * rewrite lookup_insert_ne by done.
        rewrite decide_False; [done |].
        intros [? | ?]%elem_of_cons; [congruence | done].
Qed.

(** X6. After a start-up that returns, [DbMap] holds [true] for the
    databases of [DbList] and has no other key, whatever the
    configuration decoded to in [DbMap]. *)
Theorem NewProxy_DbMap (file : string) (s s' : State.t)
    (h : gmap loc Backend.t) (p : Proxy.t) :
  decodeProxyJson file = (h, p, None) →
  NewProxy file s = (Ret None, s') →
  ∀ db, Proxy.DbMap (State.proxy s') !! db
        = if decide (db ∈ Proxy.DbList p) then Some true else None.
Proof.
  intros Hdec Hrun db.
  destruct (NewProxy_Ret_inv _ _ _ _ _ Hdec Hrun)
    as (s1 & s2 & fs & os & cs & Hr1 & Hr2 & Hfs & Hos & Hcs & ->).
  rewrite dbMapLoop_run in Hr2. injection Hr2 as <-. cbn.
  by rewrite foldl_insert_const, lookup_empty.
Qed.
End StartupMore.

(** ** What start-up leaves: the status tables *)

Section StartupTables.
Context `{BackendPkg}.

Global Instance keepsShape_preorder : PreOrder keepsShape.
Proof.
  split.
  - by intros s.
  - intros s1 s2 s3 [? ?] [? ?]. split; congruence.
Qed.

Lemma status_set_status_decide w w0 tb (p : Proxy.t) :
  Proxy.status w0 (Proxy.set_status w tb p)
  = if decide (w = w0) then tb else Proxy.status w0 p.
Proof. by destruct w, w0. Qed.

Lemma deref_Ret_inv (l : loc) (s : State.t) b s' :
  deref (Some l) s = (Ret b, s') → s' = s ∧ State.heap s !! l = Some b.
Proof.
  unfold deref. cbn [must]. run.
  destruct (State.heap s !! l) as [b0|] eqn:Hl; cbn [must];
    [|by (unfold panic; intros [=])].
  by intros [= <- <-].
Qed.

Lemma status_put_Ret_inv w (n : Z) tb (s s' : State.t) :
  status_put w n tb s = (Ret tt, s') →
  Z.to_nat n < length (Proxy.status w (State.proxy s)) ∧
  s' = State.set_proxy
         (Proxy.set_status w
            (<[Z.to_nat n := tb]> (Proxy.status w (State.proxy s)))
            (State.proxy s)) s.
Proof.
  unfold status_put, status_at, get_proxy, modify_proxy. run.
  destruct (GoInt.index (Proxy.status w (State.proxy s)) n) as [tb0|] eqn:Hn;
    cbn [must]; run; [|by (unfold panic; intros [=])].
  intros [= <-]. split; [|done].
  apply GoInt_index_Some in Hn as [_ Hn]. by eapply lookup_lt_Some.
Qed.

Lemma slot_new_Ret_inv w (n : Z) url (s s' : State.t) :
  slot_new w n url s = (Ret tt, s') →
  ∃ tb, Proxy.status w (State.proxy s) !! Z.to_nat n = Some tb ∧
    s' = State.set_proxy
           (Proxy.set_status w
              (<[Z.to_nat n := <[url := MigrationInfo.zero]> tb]>
                 (Proxy.status w (State.proxy s)))
              (State.proxy s)) s.
Proof.
  unfold slot_new, status_put, status_at, get_proxy, modify_proxy. run.
  destruct (GoInt.index (Proxy.status w (State.proxy s)) n) as [tb0|] eqn:Hn;
    cbn [must]; run; [|by (unfold panic; intros [=])].
  intros [= <-]. exists tb0. split; [|done].
  by apply GoInt_index_Some in Hn as [_ Hn].
Qed.

Lemma urlsOf_cons (h : gmap loc Backend.t) (l : loc) (bl : list loc) b :
  h !! l = Some b → urlsOf h (l :: bl) = Backend.Url b :: urlsOf h bl.
Proof. intros Hl. unfold urlsOf. simpl. by rewrite Hl. Qed.

(** The loop of [initMigration] over the backends, on the table of one
    workflow. *)
Lemma initMigration_loop w0 (i : nat) (bl : list loc) :
  ∀ (s s' : State.t) tb0,
    forM bl (λ backend,
      b <- deref (Some backend) ;;
      slot_new Rebalancing (Z.of_nat i) (Backend.Url b) ;;
      slot_new Recovering (Z.of_nat i) (Backend.Url b) ;;
      slot_new Resyncing (Z.of_nat i) (Backend.Url b)) s = (Ret tt, s') →
    Proxy.status w0 (State.proxy s) !! i = Some tb0 →
    State.heap s' = State.heap s ∧
    Proxy.Circles (State.proxy s') = Proxy.Circles (State.proxy s) ∧
    Proxy.status w0 (State.proxy s')
    = <[i := foldl (λ m u, <[u := MigrationInfo.zero]> m) tb0
               (urlsOf (State.heap s) bl)]>
        (Proxy.status w0 (State.proxy s)).
Proof.
  induction bl as [|l bl IH]; intros s s' tb0 Hrun Htb; cbn [forM] in Hrun.
  - injection Hrun as <-. repeat split. cbn. by rewrite list_insert_id.
  - apply bind_Ret_inv in Hrun as ([] & s4 & Hbody & Hrun).
    apply bind_Ret_inv in Hbody as (b & s0 & Hb & Hbody).
    apply deref_Ret_inv in Hb as [-> Hb].
    apply bind_Ret_inv in Hbody as ([] & s1 & Hs1 & Hbody).
    apply bind_Ret_inv in Hbody as ([] & s2 & Hs2 & Hs3).
    rewrite ?Nat2Z.id in *.
    apply slot_new_Ret_inv in Hs1 as (tb1 & Htb1 & ->).
    apply slot_new_Ret_inv in Hs2 as (tb2 & Htb2 & ->).
    apply slot_new_Ret_inv in Hs3 as (tb3 & Htb3 & ->).
    rewrite ?Nat2Z.id in *.
    assert (i < length (Proxy.status w0 (State.proxy s))) as Hlen
      by (by eapply lookup_lt_Some).
    specialize (IH _ _ (<[Backend.Url b := MigrationInfo.zero]> tb0) Hrun).
    destruct IH as (Hh & Hc & Hst).
    { destruct w0; cbn in *; rewrite ?list_lookup_insert_eq by done;
        congruence. }
    rewrite (urlsOf_cons _ _ _ _ Hb). cbn [foldl].
    split; [by rewrite Hh |]. split; [by rewrite Hc |].
    rewrite Hst. cbn [State.heap State.set_proxy].
    destruct w0; cbn in *; rewrite ?list_insert_insert_eq; congruence.
Qed.

Lemma initMigration_table w0 (i : nat) (s s' : State.t) c :
  Proxy.Circles (State.proxy s) !! i = Some c →
  initMigration i (Z.of_nat i) s = (Ret tt, s') →
  i < length (Proxy.status w0 (State.proxy s)) ∧
  Proxy.status w0 (State.proxy s')
  = <[i := zeroSlots (urlsOf (State.heap s) (Circle.Backends c))]>
      (Proxy.status w0 (State.proxy s)).
Proof.
  intros Hc Hrun. unfold initMigration in Hrun.
  apply bind_Ret_inv in Hrun as ([] & s1 & Hs1 & Hrun).
  apply bind_Ret_inv in Hrun as ([] & s2 & Hs2 & Hrun).
  apply bind_Ret_inv in Hrun as ([] & s3 & Hs3 & Hrun).
  apply bind_Ret_inv in Hrun as (c' & s4 & Hc' & Hrun).
  apply status_put_Ret_inv in Hs1 as (Hl1 & ->).
  apply status_put_Ret_inv in Hs2 as (Hl2 & ->).
  apply status_put_Ret_inv in Hs3 as (Hl3 & ->).
  apply circle_at_inv in Hc' as [-> Hc']. rewrite Nat2Z.id in *.
  assert (c' = c) as -> by (cbn in Hc'; congruence).
  assert (i < length (Proxy.status w0 (State.proxy s))) as Hlen
    by (destruct w0; cbn in *; by rewrite ?length_insert in * ).
  split; [done |].
  destruct (initMigration_loop w0 i _ _ _ ∅ Hrun) as (_ & _ & ->).
  { destruct w0; cbn; by rewrite list_lookup_insert_eq. }
  unfold zeroSlots.
  destruct w0; cbn; by rewrite list_insert_insert_eq.
Qed.

Lemma keepsLayout_keepsShape (s s' : State.t) :
  keepsLayout s s' → keepsShape s s'.
Proof. intros (_ & Hb & Hh). split; [done |]. unfold urls. by rewrite Hh. Qed.

Lemma circle_modify_keepsShape (c : nat) (f : Circle.t → Circle.t) :
  (∀ x, Circle.Backends (f x) = Circle.Backends x) →
  steps keepsShape (circle_modify c f).
Proof.
  intros Hf. eapply steps_weaken; [apply keepsLayout_keepsShape |].
  by apply circle_modify_keepsLayout.
Qed.

Lemma store_keepsShape (l : loc) (f : Backend.t → Backend.t) :
  (∀ b, Backend.Url (f b) = Backend.Url b) →
  steps keepsShape (store (Some l) f).
Proof.
  intros Hf s r s'. unfold store, deref. cbn [must]. run.
  destruct (State.heap s !! l) as [b|] eqn:Hl; cbn [must];
    [|by intros [= <- <-]].
  run. intros [= <- <-]. split; [done |]. unfold urls. cbn.
  rewrite fmap_insert, Hf. apply insert_id. by rewrite lookup_fmap, Hl.
Qed.

Ltac shape_leaves :=
  first
    [ apply circle_modify_keepsShape; done
    | apply store_keepsShape; done
    | eapply steps_weaken; [apply keepsLayout_keepsShape |];
      first [ apply initMigration_keepsLayout | steps_auto; done ] ].

Lemma initCircle_keepsShape (circle : nat) :
  steps keepsShape (initCircle circle).
Proof.
  unfold initCircle, initBackend. steps_structure; shape_leaves.
Qed.

Lemma initCircle_tables (circle : nat) :
  steps (same tables) (initCircle circle).
Proof. unfold initCircle, initBackend. steps_auto; done. Qed.

Lemma urlsOf_urls (s0 s : State.t) (bl : list loc) :
  urls s = urls s0 → urlsOf (State.heap s) bl = urlsOf (State.heap s0) bl.
Proof.
  intros Hu. unfold urlsOf. induction bl as [|l bl IH]; [done |].
  apply (f_equal (λ m, m !! l)) in Hu. unfold urls in Hu.
  rewrite !lookup_fmap in Hu. simpl. rewrite Hu.
  destruct (Backend.Url <$> State.heap s0 !! l); [by f_equal | done].
Qed.

(** The loop over the circles, on the table of one workflow: the circles
    done have their maps of zero slots. *)
Lemma circlesLoop_tables w0 (s0 s' : State.t) :
  circlesLoop (length (Proxy.Circles (State.proxy s0))) s0 = (Ret tt, s') →
  keepsShape s0 s' ∧
  ∀ j c, Proxy.Circles (State.proxy s0) !! j = Some c →
    Proxy.status w0 (State.proxy s') !! j
    = Some (zeroSlots (urlsOf (State.heap s0) (Circle.Backends c))).
Proof.
  intros Hrun.
  pose (I := λ (k : nat) (s : State.t),
    keepsShape s0 s ∧
    ∀ j c, j < k → Proxy.Circles (State.proxy s0) !! j = Some c →
      Proxy.status w0 (State.proxy s) !! j
      = Some (zeroSlots (urlsOf (State.heap s0) (Circle.Backends c)))).
  assert (I (length (seq 0 (length (Proxy.Circles (State.proxy s0))))) s')
    as [Hshape Hall].
  { refine (spec_forM _ _ I (λ _, True) _ s0 (Ret tt) s' _ Hrun).
    2:{ split; [reflexivity |]. intros j c Hj. lia. }
    intros k x Hx s r s2 [Hshape Hdone] Hbody.
    apply lookup_seq in Hx as [-> Hk]. simpl in Hbody.
    destruct r as [[] | |]; [|done..].
    apply bind_Ret_inv in Hbody as ([] & sa & Ha & Hbody).
    apply bind_Ret_inv in Hbody as ([] & sb & Hb & Hc).
    pose proof (circle_modify_keepsShape k
                  (Circle.set_CircleNum (Z.of_nat k)) (λ _, eq_refl)
                  _ _ _ Ha) as Hsa.
    assert (tables sa = tables s) as Hta.
    { revert Ha. generalize (Circle.set_CircleNum (Z.of_nat k)).
      intros f Ha.
      assert (steps (same tables) (circle_modify k f)) as Hsame
        by (steps_auto; done).
      apply (Hsame _ _ _ Ha). }
    pose proof (keepsLayout_keepsShape _ _
                  (initMigration_keepsLayout _ _ _ _ _ Hb)) as Hsb.
    pose proof (initCircle_keepsShape _ _ _ _ Hc) as Hsc.
    pose proof (initCircle_tables _ _ _ _ Hc) as Htc.
    assert (keepsShape s0 sa) as Hs0a by (etrans; done).
    destruct (lookup_lt_is_Some_2 (Proxy.Circles (State.proxy s0)) k Hk)
      as [c0 Hc0].
    assert (∃ ca, Proxy.Circles (State.proxy sa) !! k = Some ca ∧
                  Circle.Backends ca = Circle.Backends c0) as (ca & Hca & Hbl).
    { destruct Hs0a as [Hbk _]. unfold backendLists in Hbk.
      apply (f_equal (λ l, l !! k)) in Hbk.
      rewrite !list_lookup_fmap, Hc0 in Hbk. simpl in Hbk.
      destruct (Proxy.Circles (State.proxy sa) !! k) as [ca|]; [|done].
      exists ca. split; [done |]. by injection Hbk. }
    destruct (initMigration_table w0 k sa sb ca Hca Hb) as [Hlen Hst].
    split; [by repeat (etrans; [eassumption |]) |].
    intros j c Hj Hcj.
    assert (Proxy.status w0 (State.proxy s2)
            = Proxy.status w0 (State.proxy sb)) as ->.
    { unfold same, tables in Htc. injection Htc as ? ? ?.
      by destruct w0. }
    rewrite Hst.
    assert (Proxy.status w0 (State.proxy sa)
            = Proxy.status w0 (State.proxy s)) as Hsta.
    { unfold tables in Hta. injection Hta as ? ? ?. by destruct w0. }
    destruct (decide (j = k)) as [-> | Hne].
    - rewrite list_lookup_insert_eq by done.
      rewrite Hc0 in Hcj. injection Hcj as <-.
      rewrite Hbl. do 2 f_equal. apply urlsOf_urls. by destruct Hs0a.
    - rewrite list_lookup_insert_ne by done. rewrite Hsta.
      apply Hdone; [lia | done]. }
  split; [done |]. intros j c Hc. apply Hall; [|done].
  rewrite length_seq. by eapply lookup_lt_Some.
Qed.

Lemma decodedState_layout (h : gmap loc Backend.t) (p : Proxy.t)
    (s : State.t) :
  State.heap (decodedState h p s) = h ∧
  Proxy.Circles (State.proxy (decodedState h p s)) = Proxy.Circles p ∧
  Proxy.DbList (State.proxy (decodedState h p s)) = Proxy.DbList p ∧
  Proxy.VNodeSize (State.proxy (decodedState h p s)) = Proxy.VNodeSize p.
Proof.
  unfold decodedState. cbn. by destruct (Proxy.MigrateMaxCpus p =? 0)%Z.
Qed.

(** A start-up that returns: the state its loop over the circles leaves
    has the heap, the circles and the tables of the final one. *)
Lemma NewProxy_Ret_circles (file : string) (s s' : State.t)
    (h : gmap loc Backend.t) (p : Proxy.t) :
  decodeProxyJson file = (h, p, None) →
  NewProxy file s = (Ret None, s') →
  ∃ s1,
    circlesLoop (length (Proxy.Circles (State.proxy (decodedState h p s))))
      (decodedState h p s) = (Ret tt, s1) ∧
    State.heap s' = State.heap s1 ∧
    Proxy.Circles (State.proxy s') = Proxy.Circles (State.proxy s1) ∧
    (∀ w, Proxy.status w (State.proxy s')
          = Proxy.status w (State.proxy s1)).
Proof.
  intros Hdec Hrun.
  destruct (NewProxy_Ret_inv _ _ _ _ _ Hdec Hrun)
    as (s1 & s2 & fs & os & cs & Hr1 & Hr2 & Hfs & Hos & Hcs & ->).
  exists s1. rewrite dbMapLoop_run in Hr2. injection Hr2 as <-.
  destruct (decodedState_layout h p s) as (_ & -> & _).
  repeat split; try done.
Qed.

(** X7. After a start-up that returns, each of the three status tables
    has, at the position of each circle, one slot under the URL of each
    backend of the circle, with every field zero, and no other slot. *)
Theorem NewProxy_slots (file : string) (s s' : State.t)
    (h : gmap loc Backend.t) (p : Proxy.t) :
  decodeProxyJson file = (h, p, None) →
  NewProxy file s = (Ret None, s') →
  ∀ w i c url, Proxy.Circles p !! i = Some c →
    slot w (Z.of_nat i) url (State.proxy s')
    = if decide (url ∈ urlsOf h (Circle.Backends c))
      then Some MigrationInfo.zero else None.
Proof.
  intros Hdec Hrun w i c url Hc.
  destruct (NewProxy_Ret_circles _ _ _ _ _ Hdec Hrun)
    as (s1 & Hloop & _ & _ & Hst).
  destruct (circlesLoop_tables w _ _ Hloop) as [_ Htb].
  destruct (decodedState_layout h p s) as (Hh & Hcs & _).
  specialize (Htb i c). rewrite Hcs, Hh in Htb. specialize (Htb Hc).
  unfold slot. rewrite Hst.
  assert (GoInt.index (Proxy.status w (State.proxy s1)) (Z.of_nat i)
          = Some (zeroSlots (urlsOf h (Circle.Backends c)))) as ->.
  { apply GoInt_index_Some. split; [lia |]. by rewrite Nat2Z.id. }
  unfold zeroSlots. by rewrite foldl_insert_const, lookup_empty.
Qed.
End StartupTables.

(** ** What start-up leaves: the backends *)

Section StartupBackends.
Context `{BackendPkg}.

Lemma circle_modify_Ret_inv (c : nat) (f : Circle.t → Circle.t)
    (s s' : State.t) :
  circle_modify c f s = (Ret tt, s') →
  ∃ x, Proxy.Circles (State.proxy s) !! c = Some x ∧
    s' = State.set_proxy
           (Proxy.set_Circles (<[c := f x]> (Proxy.Circles (State.proxy s)))
              (State.proxy s)) s.
Proof.
  unfold circle_modify, circle_at, get_proxy, modify_proxy. run.
  destruct (Proxy.Circles (State.proxy s) !! c) as [x|] eqn:Hx;
    cbn [must]; run; [|by (unfold panic; intros [=])].
  intros [= <-]. by exists x.
Qed.

Lemma store_Ret_inv (l : loc) (f : Backend.t → Backend.t) (s s' : State.t) :
  store (Some l) f s = (Ret tt, s') →
  ∃ b, State.heap s !! l = Some b ∧
    s' = State.set_heap (<[l := f b]> (State.heap s)) s.
Proof.
  unfold store, deref. cbn [must]. run.
  destruct (State.heap s !! l) as [b|] eqn:Hl; cbn [must];
    [|by (unfold panic; intros [=])].
  run. intros [= <-]. by exists b.
Qed.

Lemma emit_Ret_inv (e : Event) (s s' : State.t) r :
  emit e s = (r, s') →
  r = Ret tt ∧ s' = State.set_events (State.events s ++ [e]) s.
Proof. by intros [= <- <-]. Qed.

(** [initBackend], by what it reads and what it leaves. *)
Lemma initBackend_Ret_inv (circle : nat) (l : loc) (s s' : State.t) :
  initBackend circle l s = (Ret tt, s') →
  ∃ x b r,
    Proxy.Circles (State.proxy s) !! circle = Some x ∧
    State.heap s !! l = Some b ∧
    Circle.Router x = Some r ∧
    State.heap s'
    = <[l := initialised (Proxy.DbList (State.proxy s)) b]> (State.heap s) ∧
    Proxy.Circles (State.proxy s')
    = <[circle :=
          Circle.set_UrlToBackend
            (<[Backend.Url b := l]> (Circle.UrlToBackend x))
            (Circle.set_Router (Some (consistent_Add (Backend.Url b) r)) x)]>
        (Proxy.Circles (State.proxy s)) ∧
    Proxy.DbList (State.proxy s') = Proxy.DbList (State.proxy s) ∧
    Proxy.VNodeSize (State.proxy s') = Proxy.VNodeSize (State.proxy s).
Proof.
  intros Hrun. unfold initBackend in Hrun.
  apply bind_Ret_inv in Hrun as (b & s0 & Hb & Hrun).
  apply deref_Ret_inv in Hb as [-> Hb].
  apply bind_Ret_inv in Hrun as (x & s0 & Hx & Hrun).
  apply circle_at_inv in Hx as [-> Hx].
  destruct (Circle.Router x) as [r|] eqn:Hr;
    [|by (revert Hrun; cbn [must]; unfold bind, panic)].
  cbn [must] in Hrun. rewrite bind_ret_l in Hrun.
  apply bind_Ret_inv in Hrun as ([] & s1 & Hs1 & Hrun).
  apply circle_modify_Ret_inv in Hs1 as (x1 & Hx1 & ->).
  apply bind_Ret_inv in Hrun as ([] & s2 & Hs2 & Hrun).
  apply circle_modify_Ret_inv in Hs2 as (x2 & Hx2 & ->).
  apply bind_Ret_inv in Hrun as ([] & s3 & Hs3 & Hrun).
  apply store_Ret_inv in Hs3 as (b3 & Hb3 & ->).
  apply bind_Ret_inv in Hrun as ([] & s4 & Hs4 & Hrun).
  apply store_Ret_inv in Hs4 as (b4 & Hb4 & ->).
  apply bind_Ret_inv in Hrun as ([] & s5 & Hs5 & Hrun).
  apply store_Ret_inv in Hs5 as (b5 & Hb5 & ->).
  unfold get_proxy in Hrun. rewrite bind_gets in Hrun.
  apply bind_Ret_inv in Hrun as ([] & s6 & Hs6 & Hrun).
  apply emit_Ret_inv in Hs6 as [_ ->].
  apply bind_Ret_inv in Hrun as ([] & s7 & Hs7 & Hrun).
  apply store_Ret_inv in Hs7 as (b7 & Hb7 & ->).
  apply bind_Ret_inv in Hrun as ([] & s8 & Hs8 & Hrun).
  apply emit_Ret_inv in Hs8 as [_ ->].
  apply bind_Ret_inv in Hrun as ([] & s9 & Hs9 & Hrun).
  apply emit_Ret_inv in Hs9 as [_ ->].
  apply emit_Ret_inv in Hrun as [_ ->].
  cbn in *.
  assert (circle < length (Proxy.Circles (State.proxy s))) as Hlen
    by (by eapply lookup_lt_Some).
  rewrite Hx in Hx1. injection Hx1 as <-.
  rewrite list_lookup_insert_eq in Hx2 by done. injection Hx2 as <-.
  rewrite Hb in Hb3. injection Hb3 as <-.
  rewrite lookup_insert_eq in Hb4. injection Hb4 as <-.
  rewrite lookup_insert_eq in Hb5. injection Hb5 as <-.
  rewrite lookup_insert_eq in Hb7. injection Hb7 as <-.
  exists x, b, r. repeat split; try done.
  - by rewrite !insert_insert_eq.
  - by rewrite list_insert_insert_eq.
Qed.

Lemma insert_as_alter (h : gmap loc Backend.t) (l : loc)
    (f : Backend.t → Backend.t) b :
  h !! l = Some b → <[l := f b]> h = alter f l h.
Proof.
  intros Hl. apply map_eq. intros k. destruct (decide (k = l)) as [-> | Hne].
  - by rewrite lookup_insert_eq, lookup_alter_eq, Hl.
  - by rewrite lookup_insert_ne, lookup_alter_ne.
Qed.

Lemma urlsOf_ext (h1 h2 : gmap loc Backend.t) (bl : list loc) :
  Backend.Url <$> h1 = Backend.Url <$> h2 → urlsOf h1 bl = urlsOf h2 bl.
Proof.
  intros Hu. unfold urlsOf. induction bl as [|l bl IH]; [done |].
  apply (f_equal (λ m, m !! l)) in Hu.
  rewrite !lookup_fmap in Hu. simpl. rewrite Hu.
  destruct (Backend.Url <$> h2 !! l); [by f_equal | done].
Qed.

Lemma urls_insert (h : gmap loc Backend.t) (l : loc) b b' :
  h !! l = Some b → Backend.Url b' = Backend.Url b →
  Backend.Url <$> <[l := b']> h = Backend.Url <$> h.
Proof.
  intros Hl Hu. rewrite fmap_insert, Hu. apply insert_id.
  by rewrite lookup_fmap, Hl.
Qed.

(** The loop of [initCircle] over the backends: the heap and the circle
    it leaves. *)
Lemma initCircle_loop (circle : nat) (bl : list loc) :
  ∀ (s s' : State.t) x,
    forM bl (λ backend,
      b <- deref (Some backend) ;;
      circle_modify circle (λ c,
        Circle.set_BackendWgMap
          (<[Backend.Url b := 0%Z]> (Circle.BackendWgMap c)) c) ;;
      initBackend circle backend) s = (Ret tt, s') →
    Proxy.Circles (State.proxy s) !! circle = Some x →
    State.heap s'
    = foldl (λ hh l, alter (initialised (Proxy.DbList (State.proxy s))) l hh)
        (State.heap s) bl ∧
    Proxy.Circles (State.proxy s')
    = <[circle := foldl indexBackend x (zip (urlsOf (State.heap s) bl) bl)]>
        (Proxy.Circles (State.proxy s)) ∧
    Proxy.DbList (State.proxy s') = Proxy.DbList (State.proxy s) ∧
    Proxy.VNodeSize (State.proxy s') = Proxy.VNodeSize (State.proxy s) ∧
    ∀ l, l ∈ bl → is_Some (State.heap s !! l).
Proof.
  induction bl as [|l bl IH]; intros s s' x Hrun Hx; cbn [forM] in Hrun.
  - injection Hrun as <-. repeat split; try done.
    + cbn. by rewrite list_insert_id.
    + by intros l ?%elem_of_nil.
  - apply bind_Ret_inv in Hrun as ([] & s2 & Hbody & Hrun).
    apply bind_Ret_inv in Hbody as (b & s0 & Hb & Hbody).
    apply deref_Ret_inv in Hb as [-> Hb].
    apply bind_Ret_inv in Hbody as ([] & s1 & Hs1 & Hs2).
    apply circle_modify_Ret_inv in Hs1 as (x1 & Hx1 & ->).
    rewrite Hx in Hx1. injection Hx1 as <-.
    assert (circle < length (Proxy.Circles (State.proxy s))) as Hlen
      by (by eapply lookup_lt_Some).
    apply initBackend_Ret_inv in Hs2
      as (x2 & b2 & r & Hx2 & Hb2 & Hr & Hh2 & Hc2 & Hd2 & Hv2).
    cbn in Hx2, Hb2, Hh2, Hc2, Hd2, Hv2.
    rewrite list_lookup_insert_eq in Hx2 by done. injection Hx2 as <-.
    rewrite Hb in Hb2. injection Hb2 as <-.
    rewrite list_insert_insert_eq in Hc2.
    cbn in Hr.
    assert (Circle.set_UrlToBackend
              (<[Backend.Url b := l]>
                 (Circle.UrlToBackend
                    (Circle.set_BackendWgMap
                       (<[Backend.Url b := 0%Z]> (Circle.BackendWgMap x)) x)))
              (Circle.set_Router (Some (consistent_Add (Backend.Url b) r))
                 (Circle.set_BackendWgMap
                    (<[Backend.Url b := 0%Z]> (Circle.BackendWgMap x)) x))
            = indexBackend x (Backend.Url b, l)) as Hstep.
    { unfold indexBackend. cbn. by rewrite Hr. }
    rewrite Hstep in Hc2.
    destruct (IH s2 s' (indexBackend x (Backend.Url b, l)) Hrun)
      as (Hh & Hc & Hd & Hv & Hin).
    { rewrite Hc2. by apply list_lookup_insert_eq. }
    rewrite Hd2 in Hh. rewrite Hh2 in Hh.
    rewrite (insert_as_alter _ _ _ _ Hb) in Hh.
    rewrite (urlsOf_ext (State.heap s2) (State.heap s)) in Hc.
    2:{ rewrite Hh2. by apply (urls_insert _ _ b). }
    rewrite Hc2, list_insert_insert_eq in Hc.
    rewrite (urlsOf_cons _ _ _ _ Hb). cbn [zip zip_with foldl].
    repeat split; try done; try congruence.
    intros l' [-> | Hl']%elem_of_cons; [by eexists |].
    specialize (Hin l' Hl'). rewrite Hh2 in Hin.
    destruct (decide (l' = l)) as [-> | Hne]; [by eexists |].
    by rewrite lookup_insert_ne in Hin.
Qed.

Lemma foldl_indexBackend (uls : list (string * loc)) (x : Circle.t) :
  foldl indexBackend x uls
  = Circle.mk (Circle.Name x) (Circle.CircleNum x) (Circle.Backends x)
      (foldl (λ r ul, consistent_Add ul.1 <$> r) (Circle.Router x) uls)
      (foldl (λ m ul, <[ul.1 := ul.2]> m) (Circle.UrlToBackend x) uls)
      (foldl (λ m ul, <[ul.1 := 0%Z]> m) (Circle.BackendWgMap x) uls)
      (Circle.WgMigrate x) (Circle.ReadyMigrating x) (Circle.IsMigrating x).
Proof.
  revert x. induction uls as [|ul uls IH]; intros x; cbn [foldl].
  - by destruct x.
  - by rewrite IH.
Qed.

(** [initCircle], for a circle that has been given its number. *)
Lemma initCircle_Ret_inv (circle : nat) (s s' : State.t) c :
  initCircle circle s = (Ret tt, s') →
  Proxy.Circles (State.proxy s) !! circle = Some c →
  Circle.CircleNum c = Z.of_nat circle →
  let bl := Circle.Backends c in
  State.heap s'
  = foldl (λ hh l, alter (initialised (Proxy.DbList (State.proxy s))) l hh)
      (State.heap s) bl ∧
  Proxy.Circles (State.proxy s')
  = <[circle :=
        foldl indexBackend
          (emptyCircle (Proxy.VNodeSize (State.proxy s)) circle c)
          (zip (urlsOf (State.heap s) bl) bl)]>
      (Proxy.Circles (State.proxy s)) ∧
  Proxy.DbList (State.proxy s') = Proxy.DbList (State.proxy s) ∧
  Proxy.VNodeSize (State.proxy s') = Proxy.VNodeSize (State.proxy s) ∧
  ∀ l, l ∈ bl → is_Some (State.heap s !! l).
Proof.
  intros Hrun Hc Hnum bl. unfold initCircle in Hrun.
  unfold get_proxy in Hrun. rewrite bind_gets in Hrun.
  assert (circle < length (Proxy.Circles (State.proxy s))) as Hlen
    by (by eapply lookup_lt_Some).
  do 7 (apply bind_Ret_inv in Hrun as ([] & ? & Hm & Hrun);
        apply circle_modify_Ret_inv in Hm as (? & Hx & ->);
        cbn in Hx;
        first [ rewrite Hc in Hx
              | rewrite list_lookup_insert_eq in Hx
                  by (by rewrite ?length_insert) ];
        injection Hx as <-).
  apply bind_Ret_inv in Hrun as (c' & s0 & Hc' & Hrun).
  apply circle_at_inv in Hc' as [-> Hc'].
  cbn in Hc'. rewrite !list_insert_insert_eq in Hc'.
  rewrite list_lookup_insert_eq in Hc' by done. injection Hc' as <-.
  cbn [Circle.Backends Circle.set_IsMigrating Circle.set_ReadyMigrating
       Circle.set_WgMigrate Circle.set_BackendWgMap Circle.set_UrlToBackend
       Circle.set_Router] in Hrun.
  eapply initCircle_loop in Hrun as (Hh & Hcs & Hd & Hv & Hin).
  2:{ cbn. rewrite !list_insert_insert_eq.
      by apply list_lookup_insert_eq. }
  cbn in Hh, Hcs, Hd, Hv, Hin. rewrite !list_insert_insert_eq in Hcs.
  repeat split; try done.
  rewrite Hcs. do 2 f_equal. unfold emptyCircle.
  destruct c. cbn in *. by rewrite Hnum.
Qed.

Lemma initMigration_installation (circle : nat) (circleNum : Z) :
  steps (same installation) (initMigration circle circleNum).
Proof.
  unfold initMigration. steps_auto; try done.
  all: unfold same, installation; cbn; by destruct w.
Qed.

(** The loop of [NewProxy] over the circles: the heap and the circles it
    leaves. *)
Lemma circlesLoop_Ret_inv (s0 s' : State.t) :
  circlesLoop (length (Proxy.Circles (State.proxy s0))) s0 = (Ret tt, s') →
  let dbs := Proxy.DbList (State.proxy s0) in
  let v := Proxy.VNodeSize (State.proxy s0) in
  State.heap s'
  = foldl (λ hh l, alter (initialised dbs) l hh) (State.heap s0)
      (concat (backendLists s0)) ∧
  length (Proxy.Circles (State.proxy s'))
  = length (Proxy.Circles (State.proxy s0)) ∧
  (∀ j c, Proxy.Circles (State.proxy s0) !! j = Some c →
     Proxy.Circles (State.proxy s') !! j
     = Some (initialisedCircle v (State.heap s0) j c)) ∧
  ∀ l, l ∈ concat (backendLists s0) → is_Some (State.heap s0 !! l).
Proof.
  intros Hrun dbs v.
  pose (I := λ (k : nat) (s : State.t),
    Proxy.DbList (State.proxy s) = dbs ∧
    Proxy.VNodeSize (State.proxy s) = v ∧
    urls s = urls s0 ∧
    State.heap s
    = foldl (λ hh l, alter (initialised dbs) l hh) (State.heap s0)
        (concat (take k (backendLists s0))) ∧
    length (Proxy.Circles (State.proxy s))
    = length (Proxy.Circles (State.proxy s0)) ∧
    (∀ j c, Proxy.Circles (State.proxy s0) !! j = Some c →
       Proxy.Circles (State.proxy s) !! j
       = Some (if decide (j < k)
               then initialisedCircle v (State.heap s0) j c else c)) ∧
    ∀ l, l ∈ concat (take k (backendLists s0)) →
      is_Some (State.heap s0 !! l)).
  assert (I (length (seq 0 (length (Proxy.Circles (State.proxy s0))))) s')
    as (_ & _ & _ & Hheap & Hlen & Hall & Hpres).
  { refine (spec_forM _ _ I (λ _, True) _ s0 (Ret tt) s' _ Hrun).
    2:{ repeat split; try done. rewrite take_0. by intros l ?%elem_of_nil. }
    intros k x Hx s r s2 (Hd & Hv & Hu & Hh & Hl & Hcs & Hp) Hbody.
    apply lookup_seq in Hx as [-> Hk]. simpl in Hbody.
    destruct r as [[] | |]; [|done..].
    apply bind_Ret_inv in Hbody as ([] & sa & Ha & Hbody).
    apply bind_Ret_inv in Hbody as ([] & sb & Hb & Hc).
    destruct (lookup_lt_is_Some_2 (Proxy.Circles (State.proxy s0)) k Hk)
      as [c0 Hc0].
    pose proof (Hcs k c0 Hc0) as Hck.
    rewrite decide_False in Hck by lia.
    apply circle_modify_Ret_inv in Ha as (x & Hxk & ->).
    rewrite Hck in Hxk. injection Hxk as <-.
    pose proof (initMigration_installation _ _ _ _ _ Hb) as Hib.
    unfold same, installation in Hib. cbn in Hib.
    injection Hib as Hcb Hhb Hdb Hvb.
    assert (k < length (Proxy.Circles (State.proxy s))) as Hks by lia.
    eapply initCircle_Ret_inv in Hc as (Hh2 & Hc2 & Hd2 & Hv2 & Hin2).
    2:{ rewrite Hcb. by apply list_lookup_insert_eq. }
    2:{ done. }
    cbn [Circle.Backends Circle.set_CircleNum] in Hh2, Hc2, Hin2.
    rewrite Hcb, Hhb, Hdb, Hvb in *. rewrite list_insert_insert_eq in Hc2.
    assert (backendLists s0 !! k = Some (Circle.Backends c0)) as Hbk
      by (unfold backendLists; by rewrite list_lookup_fmap, Hc0).
    repeat split.
    - congruence.
    - congruence.
    - unfold urls. rewrite Hh2. rewrite Hd.
      clear -Hu. unfold urls in Hu. revert Hu.
      generalize (State.heap s). generalize (Circle.Backends c0).
      induction l as [|l bl IH]; intros hh Hu; [done |]. cbn [foldl].
      apply IH. rewrite <- Hu. apply map_eq. intros l'.
      rewrite !lookup_fmap.
      destruct (decide (l' = l)) as [-> | Hne].
      + rewrite lookup_alter_eq. by destruct (hh !! l).
      + by rewrite lookup_alter_ne.
    - rewrite Hh2, Hh, Hd. rewrite (take_S_r _ _ _ Hbk).
      rewrite concat_app, foldl_app. cbn [concat]. by rewrite app_nil_r.
    - rewrite Hc2, length_insert. done.
    - intros j c Hj. rewrite Hc2.
      destruct (decide (j = k)) as [-> | Hne].
      + rewrite list_lookup_insert_eq by done.
        rewrite decide_True by lia.
        rewrite Hc0 in Hj. injection Hj as <-.
        unfold initialisedCircle. rewrite Hv. do 3 f_equal.
        apply urlsOf_ext. apply Hu.
      + rewrite list_lookup_insert_ne by done. rewrite (Hcs j c Hj).
        destruct (decide (j < k)), (decide (j < S k)); try done; lia.
    - intros l. rewrite (take_S_r _ _ _ Hbk), concat_app. cbn [concat].
      rewrite app_nil_r. intros [Hl' | Hl']%elem_of_app; [by apply Hp |].
      specialize (Hin2 l Hl').
      apply (f_equal (λ m, m !! l)) in Hu. unfold urls in Hu.
      rewrite !lookup_fmap in Hu.
      destruct Hin2 as [b Hb']. rewrite Hb' in Hu.
      destruct (State.heap s0 !! l); [by eexists | done]. }
  rewrite length_seq in *.
  assert (take (length (Proxy.Circles (State.proxy s0))) (backendLists s0)
          = backendLists s0) as Htake
    by (apply firstn_all2; unfold backendLists; by rewrite length_fmap).
  rewrite Htake in *.
  split; [done |]. split; [done |]. split; [|done].
  intros j c Hc. rewrite (Hall j c Hc).
  rewrite decide_True; [done |]. by eapply lookup_lt_Some.
Qed.

Lemma elem_of_concat_Backends (cs : list Circle.t) (l : loc) :
  l ∈ concat (Circle.Backends <$> cs) ↔
  ∃ c, c ∈ cs ∧ l ∈ Circle.Backends c.
Proof.
  induction cs as [|c cs IH]; simpl.
  - split; [by intros ?%elem_of_nil | by intros (c & ?%elem_of_nil & _)].
  - rewrite elem_of_app, IH. split.
    + intros [Hl | (c' & Hc' & Hl)]; [exists c | exists c'];
        (split; [by constructor | done]).
    + intros (c' & [-> | Hc']%elem_of_cons & Hl); [by left |].
      right. by exists c'.
Qed.

(** A start-up that returns, by the heap and the circles it leaves. *)
Lemma NewProxy_Ret_closed (file : string) (s s' : State.t)
    (h : gmap loc Backend.t) (p : Proxy.t) :
  decodeProxyJson file = (h, p, None) →
  NewProxy file s = (Ret None, s') →
  State.heap s'
  = foldl (λ hh l, alter (initialised (Proxy.DbList p)) l hh) h
      (concat (Circle.Backends <$> Proxy.Circles p)) ∧
  length (Proxy.Circles (State.proxy s')) = length (Proxy.Circles p) ∧
  (∀ j c, Proxy.Circles p !! j = Some c →
     Proxy.Circles (State.proxy s') !! j
     = Some (initialisedCircle (Proxy.VNodeSize p) h j c)) ∧
  ∀ c l, c ∈ Proxy.Circles p → l ∈ Circle.Backends c → is_Some (h !! l).
Proof.
  intros Hdec Hrun.
  destruct (NewProxy_Ret_circles _ _ _ _ _ Hdec Hrun)
    as (s1 & Hloop & Hh & Hcs & _).
  apply circlesLoop_Ret_inv in Hloop as (Hh1 & Hl1 & Hc1 & Hp1).
  destruct (decodedState_layout h p s) as (Hh0 & Hc0 & Hd0 & Hv0).
  unfold backendLists in *. rewrite Hh0, Hc0, Hd0, Hv0 in *.
  rewrite Hh, Hcs. repeat split; try done.
  intros c l Hc Hl. apply Hp1. apply elem_of_concat_Backends. by exists c.
Qed.

Lemma foldl_alter_lookup (f : Backend.t → Backend.t) (ls : list loc)
    (h : gmap loc Backend.t) (l : loc) :
  (∀ b, f (f b) = f b) →
  foldl (λ hh l, alter f l hh) h ls !! l
  = if decide (l ∈ ls) then f <$> h !! l else h !! l.
Proof.
  intros Hf. revert h. induction ls as [|a ls IH]; intros h; cbn [foldl].
  - rewrite decide_False; [done | apply not_elem_of_nil].
  - rewrite IH. destruct (decide (l = a)) as [-> | Hne].
    + rewrite lookup_alter_eq.
      rewrite (decide_True (P := a ∈ a :: ls)) by left.
      destruct (decide (a ∈ ls)); [|done].
      destruct (h !! a); simpl; [by rewrite Hf | done].
    + rewrite lookup_alter_ne by done.
      destruct (decide (l ∈ ls)) as [Hin | Hnin].
      * rewrite decide_True; [done | by right].
      * rewrite decide_False; [done |].
        intros [? | ?]%elem_of_cons; done.
Qed.

Lemma freshLocks_elem (dbs : list string) (db : string) :
  db ∈ freshLocks dbs ↔ db ∈ dbs.
Proof.
  unfold freshLocks.
  assert (∀ m : gset string,
    db ∈ foldl (λ m db, {[db]} ∪ m) m dbs ↔ db ∈ dbs ∨ db ∈ m) as Hgen.
  { induction dbs as [|d dbs IH]; intros m; cbn [foldl].
    - split; [by right | by intros [?%elem_of_nil | ?]].
    - rewrite IH, elem_of_cons, elem_of_union, elem_of_singleton. tauto. }
  rewrite Hgen. split; [|by left].
  by intros [? | ?%elem_of_empty].
Qed.

(** X8. After a start-up that returns, every backend of a circle is
    active and has, for each database of [DbList] and for no other, an
    empty buffer with its counter at zero and a lock; its name and its URL
    are those of the configuration. A backend of no circle is as the
    decoder left it. *)
Theorem NewProxy_backends (file : string) (s s' : State.t)
    (h : gmap loc Backend.t) (p : Proxy.t) :
  decodeProxyJson file = (h, p, None) →
  NewProxy file s = (Ret None, s') →
  (∀ c l, c ∈ Proxy.Circles p → l ∈ Circle.Backends c →
     ∃ b b', h !! l = Some b ∧ State.heap s' !! l = Some b' ∧
       Backend.Name b' = Backend.Name b ∧ Backend.Url b' = Backend.Url b ∧
       Backend.Active b' = true ∧
       (∀ db, Backend.BufferMap b' !! db
              = if decide (db ∈ Proxy.DbList p)
                then Some BufferCounter.fresh else None) ∧
       (∀ db, db ∈ Backend.LockDbMap b' ↔ db ∈ Proxy.DbList p)) ∧
  (∀ l, (∀ c, c ∈ Proxy.Circles p → l ∉ Circle.Backends c) →
     State.heap s' !! l = h !! l).
Proof.
  intros Hdec Hrun.
  destruct (NewProxy_Ret_closed _ _ _ _ _ Hdec Hrun) as (Hh & _ & _ & Hp).
  split.
  - intros c l Hc Hl. destruct (Hp c l Hc Hl) as [b Hb].
    exists b, (initialised (Proxy.DbList p) b).
    split; [done |]. split.
    { rewrite Hh, foldl_alter_lookup by done.
      rewrite decide_True; [by rewrite Hb |].
      apply elem_of_concat_Backends. by exists c. }
    repeat split; try done.
    + intros db. cbn. unfold freshBuffers.
      by rewrite foldl_insert_const, lookup_empty.
    + cbn. by intros ?%freshLocks_elem.
    + cbn. by intros ?%freshLocks_elem.
  - intros l Hl. rewrite Hh, foldl_alter_lookup by done.
    rewrite decide_False; [done |].
    intros (c & Hc & Hlc)%elem_of_concat_Backends. by apply (Hl c).
Qed.
End StartupBackends.

(** ** What start-up leaves: the circles *)

Section StartupCircles.
Context `{BackendPkg}.

Lemma urlsOf_length (h : gmap loc Backend.t) (bl : list loc) :
  (∀ l, l ∈ bl → is_Some (h !! l)) → length (urlsOf h bl) = length bl.
Proof.
  induction bl as [|l bl IH]; intros Hp; [done |].
  destruct (Hp l) as [b Hb]; [left |].
  rewrite (urlsOf_cons _ _ _ _ Hb). simpl. f_equal. apply IH.
  intros l' Hl'. apply Hp. by right.
Qed.

Lemma zip_urlsOf_elem (h : gmap loc Backend.t) (bl : list loc) u l :
  (∀ l, l ∈ bl → is_Some (h !! l)) →
  (u, l) ∈ zip (urlsOf h bl) bl →
  l ∈ bl ∧ ∃ b, h !! l = Some b ∧ Backend.Url b = u.
Proof.
  induction bl as [|l0 bl IH]; intros Hp Hin.
  - by apply elem_of_nil in Hin.
  - destruct (Hp l0) as [b Hb]; [left |].
    rewrite (urlsOf_cons _ _ _ _ Hb) in Hin. cbn [zip zip_with] in Hin.
    apply elem_of_cons in Hin as [[= -> ->] | Hin].
    + split; [left | by exists b].
    + destruct IH as [Hl Hb']; [|done |].
      { intros l' Hl'. apply Hp. by right. }
      split; [by right | done].
Qed.

Lemma foldl_insert_fst {V} (v : V) (uls : list (string * loc))
    (m : gmap string V) :
  foldl (λ m ul, <[ul.1 := v]> m) m uls
  = foldl (λ m u, <[u := v]> m) m uls.*1.
Proof.
  revert m. induction uls as [|ul uls IH]; intros m; [done |].
  cbn [foldl fmap list_fmap]. apply IH.
Qed.

Lemma foldl_Router (uls : list (string * loc)) (r0 : Consistent) :
  foldl (λ r ul, consistent_Add ul.1 <$> r) (Some r0) uls
  = Some (foldl (λ r u, consistent_Add u r) r0 uls.*1).
Proof.
  revert r0. induction uls as [|ul uls IH]; intros r0; [done |].
  cbn [foldl fmap list_fmap]. apply IH.
Qed.

Lemma foldl_index_Some (uls : list (string * loc)) (m : gmap string loc)
    u l :
  foldl (λ m ul, <[ul.1 := ul.2]> m) m uls !! u = Some l →
  (u, l) ∈ uls ∨ m !! u = Some l.
Proof.
  revert m. induction uls as [|[u0 l0] uls IH]; intros m; cbn [foldl].
  - by right.
  - intros [Hin | Hm]%IH; [left; by right |].
    cbn in Hm. destruct (decide (u0 = u)) as [-> | Hne].
    + rewrite lookup_insert_eq in Hm. injection Hm as ->. left. left.
    + rewrite lookup_insert_ne in Hm by done. by right.
Qed.

Lemma foldl_index_is_Some (uls : list (string * loc))
    (m : gmap string loc) u :
  u ∈ uls.*1 ∨ is_Some (m !! u) →
  is_Some (foldl (λ m ul, <[ul.1 := ul.2]> m) m uls !! u).
Proof.
  revert m. induction uls as [|[u0 l0] uls IH]; intros m; cbn [foldl].
  - by intros [?%elem_of_nil | ?].
  - cbn [fmap list_fmap fst]. intros Hin. apply IH. cbn.
    destruct (decide (u0 = u)) as [-> | Hne].
    + right. rewrite lookup_insert_eq. by eexists.
    + rewrite lookup_insert_ne by done.
      destruct Hin as [[? | ?]%elem_of_cons | ?]; [congruence | by left |].
      by right.
Qed.

(** X9. After a start-up that returns, the circles are those of the
    configuration, each with its position as [CircleNum], its name and its
    backends; no circle is migrating or ready to, the wait group of each
    circle is at zero, and each circle has one wait group per URL of its
    backends, at zero, and no other. *)
Theorem NewProxy_circles (file : string) (s s' : State.t)
    (h : gmap loc Backend.t) (p : Proxy.t) :
  decodeProxyJson file = (h, p, None) →
  NewProxy file s = (Ret None, s') →
  length (Proxy.Circles (State.proxy s')) = length (Proxy.Circles p) ∧
  ∀ i c, Proxy.Circles p !! i = Some c →
    ∃ c', Proxy.Circles (State.proxy s') !! i = Some c' ∧
      Circle.Name c' = Circle.Name c ∧
      Circle.CircleNum c' = Z.of_nat i ∧
      Circle.Backends c' = Circle.Backends c ∧
      Circle.WgMigrate c' = 0%Z ∧
      Circle.ReadyMigrating c' = false ∧
      Circle.IsMigrating c' = false ∧
      ∀ url, Circle.BackendWgMap c' !! url
             = if decide (url ∈ urlsOf h (Circle.Backends c))
               then Some 0%Z else None.
Proof.
  intros Hdec Hrun.
  destruct (NewProxy_Ret_closed _ _ _ _ _ Hdec Hrun) as (_ & Hl & Hcs & Hp).
  split; [done |]. intros i c Hc. eexists. split; [by apply Hcs |].
  unfold initialisedCircle. rewrite foldl_indexBackend. cbn.
  repeat split; try done.
  intros url. rewrite foldl_insert_fst, foldl_insert_const, lookup_empty.
  rewrite fst_zip; [done |]. rewrite urlsOf_length; [done |].
  intros l Hl'. apply (Hp c); [|done]. by eapply list_elem_of_lookup_2.
Qed.

(** X10. After a start-up that returns, the ring of each circle is a new
    ring with [VNodeSize] replicas to which the URLs of the backends of the
    circle have been added in order; the index of the circle has an entry
    for each of these URLs, and each entry leads to a backend of the circle
    that has this URL. *)
Theorem NewProxy_routing (file : string) (s s' : State.t)
    (h : gmap loc Backend.t) (p : Proxy.t) :
  decodeProxyJson file = (h, p, None) →
  NewProxy file s = (Ret None, s') →
  ∀ i c, Proxy.Circles p !! i = Some c →
    ∃ c', Proxy.Circles (State.proxy s') !! i = Some c' ∧
      Circle.Router c'
      = Some (foldl (λ r u, consistent_Add u r)
                (set_NumberOfReplicas (Proxy.VNodeSize p) consistent_New)
                (urlsOf h (Circle.Backends c))) ∧
      (∀ url, url ∈ urlsOf h (Circle.Backends c) →
         is_Some (Circle.UrlToBackend c' !! url)) ∧
      (∀ url l, Circle.UrlToBackend c' !! url = Some l →
         l ∈ Circle.Backends c ∧
         ∃ b, h !! l = Some b ∧ Backend.Url b = url).
Proof.
  intros Hdec Hrun i c Hc.
  destruct (NewProxy_Ret_closed _ _ _ _ _ Hdec Hrun) as (_ & Hl & Hcs & Hp).
  assert (∀ l, l ∈ Circle.Backends c → is_Some (h !! l)) as Hpc.
  { intros l Hl'. apply (Hp c); [|done]. by eapply list_elem_of_lookup_2. }
  eexists. split; [by apply Hcs |].
  unfold initialisedCircle. rewrite foldl_indexBackend. cbn.
  assert ((zip (urlsOf h (Circle.Backends c)) (Circle.Backends c)).*1
          = urlsOf h (Circle.Backends c)) as Hfst.
  { apply fst_zip. by rewrite urlsOf_length. }
  split; [|split].
  - by rewrite foldl_Router, Hfst.
  - intros url Hurl. apply foldl_index_is_Some. left. by rewrite Hfst.
  - intros url l [Hin | Hm]%foldl_index_Some.
    + by apply zip_urlsOf_elem in Hin.
    + by rewrite lookup_empty in Hm.
Qed.
End StartupCircles.

(** ** The write path of a proxy in service *)

Section Service.
Context `{BackendPkg}.

Lemma initialisedCircle_inService (v : Z) (h h' : gmap loc Backend.t)
    (i : nat) (c : Circle.t) :
  answersMembers →
  (∀ l, l ∈ Circle.Backends c → is_Some (h !! l)) →
  (∀ l, is_Some (h !! l) → is_Some (h' !! l)) →
  ∃ r, Circle.Router (initialisedCircle v h i c) = Some r ∧
    ∀ key url, consistent_Get r key = (url, None) →
      ∃ l, Circle.UrlToBackend (initialisedCircle v h i c) !! url = Some l ∧
           is_Some (h' !! l).
Proof.
  intros Hring Hp Hh'.
  unfold initialisedCircle. rewrite foldl_indexBackend. cbn.
  assert ((zip (urlsOf h (Circle.Backends c)) (Circle.Backends c)).*1
          = urlsOf h (Circle.Backends c)) as Hfst.
  { apply fst_zip. by rewrite urlsOf_length. }
  rewrite foldl_Router, Hfst. eexists. split; [done |].
  intros key url Hget. apply Hring in Hget.
  destruct (foldl_index_is_Some
              (zip (urlsOf h (Circle.Backends c)) (Circle.Backends c)) ∅ url)
    as [l Hl]; [left; by rewrite Hfst |].
  exists l. split; [done |].
  apply foldl_index_Some in Hl as [Hin | Hm];
    [|by rewrite lookup_empty in Hm].
  apply zip_urlsOf_elem in Hin as [_ (b & Hb & _)]; [|done].
  apply Hh'. by eexists.
Qed.

Lemma NewProxy_Ret_inService (file : string) (s s' : State.t)
    (h : gmap loc Backend.t) (p : Proxy.t) :
  answersMembers →
  decodeProxyJson file = (h, p, None) →
  NewProxy file s = (Ret None, s') →
  inService s'.
Proof.
  intros Hring Hdec Hrun c' Hc'.
  destruct (NewProxy_Ret_closed _ _ _ _ _ Hdec Hrun) as (Hh & Hl & Hcs & Hp).
  apply list_elem_of_lookup in Hc' as [i Hi].
  destruct (lookup_lt_is_Some_2 (Proxy.Circles p) i) as [c Hc].
  { rewrite <- Hl. by eapply lookup_lt_Some. }
  rewrite (Hcs i c Hc) in Hi. injection Hi as <-.
  apply initialisedCircle_inService; [done | |].
  - intros l Hl'. apply (Hp c); [|done]. by eapply list_elem_of_lookup_2.
  - intros l [b Hb]. rewrite Hh, foldl_alter_lookup by done.
    destruct (decide _); rewrite Hb; by eexists.
Qed.

(** X11. With a ring that answers with its members, a start-up that
    returns leaves the proxy in service: every circle has its ring, and
    whatever name a ring gives to a key, the index of the circle leads
    from it to a backend. *)
Theorem NewProxy_inService (file : string) (s s' : State.t)
    (h : gmap loc Backend.t) (p : Proxy.t) :
  answersMembers →
  decodeProxyJson file = (h, p, None) →
  NewProxy file s = (Ret None, s') →
  inService s'.
Proof. apply NewProxy_Ret_inService. Qed.

Lemma inService_routersSet (s : State.t) :
  inService s → routersSet (State.proxy s) = true.
Proof.
  intros Hs. unfold routersSet. revert Hs. unfold inService.
  generalize (Proxy.Circles (State.proxy s)). intros cs.
  induction cs as [|c cs IH]; intros Hs; [done |]. simpl.
  apply andb_true_iff. split.
  - destruct (Hs c) as (r & Hr & _); [left |].
    apply bool_decide_eq_true. by eexists.
  - apply IH. intros c' Hc'. apply Hs. by right.
Qed.

Lemma GetMachines_run (key : string) (s : State.t) :
  routersSet (State.proxy s) = true →
  GetMachines key s
  = (Ret (omap (answer key) (Proxy.Circles (State.proxy s))),
     State.set_events
       (State.events s
        ++ lookupLogs key 0 (Proxy.Circles (State.proxy s))) s).
Proof.
  intros Hrs. unfold GetMachines, get_proxy. rewrite bind_gets.
  apply (GetMachines_loop key (Proxy.Circles (State.proxy s)) 0 [] s); done.
Qed.

(** The machines of a proxy in service are backends of the heap. *)
Lemma inService_machines (key : string) (s : State.t) :
  inService s →
  ∃ ls, omap (answer key) (Proxy.Circles (State.proxy s)) = Some <$> ls ∧
    ∀ l, l ∈ ls → is_Some (State.heap s !! l).
Proof.
  intros Hs. revert Hs. unfold inService.
  generalize (Proxy.Circles (State.proxy s)). intros cs.
  induction cs as [|c cs IH]; intros Hs.
  - exists []. split; [done | by intros l ?%elem_of_nil].
  - destruct IH as (ls & Hls & Hin).
    { intros c' Hc'. apply Hs. by right. }
    destruct (Hs c) as (r & Hr & Hget); [left |].
    change (omap (answer key) (c :: cs)) with
      (match answer key c with
       | Some y => y :: omap (answer key) cs
       | None => omap (answer key) cs
       end).
    unfold answer at 1. rewrite Hr.
    destruct (consistent_Get r key) as [url [e|]] eqn:Hg; cbn [fst snd].
    + by exists ls.
    + destruct (Hget key url Hg) as (l & Hl & Hb). rewrite Hl.
      exists (l :: ls). split; [by rewrite Hls |].
      by intros l' [-> | ?]%elem_of_cons; [|apply Hin].
Qed.

(** The loop of [WriteData] over backends of the heap. *)
Lemma writeToBackends_present (ls : list loc) (data : LineData.t) :
  ∀ s : State.t, (∀ l, l ∈ ls → is_Some (State.heap s !! l)) →
    ∃ s', writeToBackends (Some <$> ls) data s = (Ret tt, s') ∧
      State.proxy s' = State.proxy s ∧
      (∀ l, is_Some (State.heap s !! l) → is_Some (State.heap s' !! l)) ∧
      ∃ evs, State.events s' = State.events s ++ evs ∧
        (noFailure evs → enqueuedTo evs = ls).
Proof.
  induction ls as [|l ls IH]; intros s Hp.
  - exists s. repeat split; try done. exists []. by rewrite app_nil_r.
  - destruct (Hp l) as [b Hb]; [left |].
    cbn [fmap list_fmap writeToBackends].
    unfold get_proxy, call_WriteDataToBuffer, deref, emit. cbn [must].
    run.
    cbn [State.heap State.set_heap State.set_events State.events
         State.proxy State.inflight].
    destruct (WriteDataToBuffer b data (Proxy.FlushSize (State.proxy s)))
      as [b' [err|]] eqn:Hw; cbn [fst snd].
    + run. cbn [State.heap State.set_heap State.set_events].
      rewrite lookup_insert_eq. cbn [must]. run.
      eexists. split; [done |]. cbn. repeat split.
      * intros l' Hl'. destruct (decide (l = l')) as [<- | Hne];
          [rewrite lookup_insert_eq; by eexists |].
        by rewrite lookup_insert_ne.
      * eexists. split; [by rewrite <- app_assoc |].
        intros Hnf. exfalso. eapply Hnf. left.
    + match goal with
      | |- ∃ s', writeToBackends _ _ ?s1 = _ ∧ _ =>
          destruct (IH s1) as (s' & Hrun & Hpr & Hh & evs & Hevs & Hen)
      end.
      { intros l' Hl'. cbn. destruct (decide (l = l')) as [<- | Hne];
          [rewrite lookup_insert_eq; by eexists |].
        rewrite lookup_insert_ne by done. apply Hp. by right. }
      exists s'. split; [done |]. cbn in Hpr, Hh, Hevs. repeat split.
      * done.
      * intros l' Hl'. apply Hh.
        destruct (decide (l = l')) as [<- | Hne];
          [rewrite lookup_insert_eq; by eexists |].
        by rewrite lookup_insert_ne.
      * eexists. split; [by rewrite Hevs, <- app_assoc |].
        intros Hnf. cbn. f_equal. apply Hen.
        intros l' d f e Hin. eapply Hnf. right. exact Hin.
Qed.

Lemma inService_heap (s s' : State.t) :
  State.proxy s' = State.proxy s →
  (∀ l, is_Some (State.heap s !! l) → is_Some (State.heap s' !! l)) →
  inService s → inService s'.
Proof.
  intros Hp Hh Hs c Hc. rewrite Hp in Hc.
  destruct (Hs c Hc) as (r & Hr & Hget). exists r. split; [done |].
  intros key url Hg. destruct (Hget key url Hg) as (l & Hl & Hb).
  exists l. split; [done | by apply Hh].
Qed.

(** X12. In service, [WriteData] returns, whatever it is given: it
    does not panic. It leaves the proxy as it was and in service. *)
Theorem WriteData_returns_in_service (data : LineData.t) (s : State.t) :
  inService s →
  ∃ data' s', WriteData data s = (Ret data', s') ∧
    State.proxy s' = State.proxy s ∧ inService s'.
Proof.
  intros Hs. unfold WriteData.
  set (data1 := LineData.set_Line _ data).
  destruct (ScanKey (LineData.Line data1)) as [measure [err|]]; cbn [fst snd].
  { unfold emit. run. eexists _, _. split; [done |]. split; [done |].
    by apply (inService_heap s). }
  rewrite (bind_Ret _ _ _ _ _
             (GetMachines_run _ _ (inService_routersSet _ Hs))).
  destruct (inService_machines (LineData.Db data1 +:+ "," +:+ measure) s Hs)
    as (ls & -> & Hls).
  destruct (GoInt.len (Some <$> ls) <? 1)%Z.
  { unfold emit. run. eexists _, _. split; [done |]. split; [done |].
    by apply (inService_heap s). }
  match goal with
  | |- ∃ data' s', bind (writeToBackends _ ?d) _ ?s1 = _ ∧ _ =>
      destruct (writeToBackends_present ls d s1 Hls)
        as (s' & Hrun & Hp & Hh & _)
  end.
  rewrite (bind_Ret _ _ _ _ _ Hrun). eexists _, s'. split; [done |].
  split; [done |]. by apply (inService_heap s).
Qed.

(** X13. In service, a [WriteData] whose line has a key and none of
    whose enqueues failed has called [WriteDataToBuffer] once on the
    backend of each circle whose ring answers for the key, in the order of
    the circles, and on no other. *)
Theorem WriteData_reaches_every_circle (data : LineData.t) (s : State.t)
    r (s' : State.t) :
  inService s →
  let line := LineToNano (LineData.Line data) (LineData.Precision data) in
  (ScanKey line).2 = None →
  WriteData data s = (r, s') →
  ∃ evs, State.events s' = State.events s ++ evs ∧
    (noFailure evs →
     Some <$> enqueuedTo evs
     = omap (answer (LineData.Db data +:+ "," +:+ (ScanKey line).1))
         (Proxy.Circles (State.proxy s))).
Proof.
  intros Hs line Hscan. unfold WriteData. cbv zeta.
  change (LineData.Line
            (LineData.set_Line
               (LineToNano (LineData.Line data) (LineData.Precision data))
               data)) with line.
  fold line. rewrite Hscan.
  rewrite (bind_Ret _ _ _ _ _
             (GetMachines_run _ _ (inService_routersSet _ Hs))).
  change (LineData.Db (LineData.set_Line line data)) with (LineData.Db data).
  destruct (inService_machines
              (LineData.Db data +:+ "," +:+ (ScanKey line).1) s Hs)
    as (ls & Hms & Hls).
  rewrite Hms.
  assert (enqueuedTo
            (lookupLogs (LineData.Db data +:+ "," +:+ (ScanKey line).1) 0
               (Proxy.Circles (State.proxy s))) = []) as Hlogs.
  { generalize 0. generalize (Proxy.Circles (State.proxy s)).
    induction l as [|c cs IH]; intros n; [done |]. cbn [lookupLogs].
    unfold enqueuedTo in *. rewrite omap_app, IH, app_nil_r.
    destruct (Circle.Router c) as [r0|]; [|done].
    by destruct ((consistent_Get r0 _).2). }
  destruct (GoInt.len (Some <$> ls) <? 1)%Z eqn:Hlen.
  { unfold emit. run. intros [= <- <-]. cbn.
    eexists. split; [by rewrite <- app_assoc |]. intros _.
    unfold enqueuedTo in *. rewrite omap_app, Hlogs. cbn.
    unfold GoInt.len in Hlen. rewrite length_fmap in Hlen.
    apply Z.ltb_lt in Hlen. destruct ls; [done | simpl in Hlen; lia]. }
  match goal with
  | |- bind (writeToBackends _ ?d) _ ?s1 = _ → _ =>
      destruct (writeToBackends_present ls d s1 Hls)
        as (s2 & Hrun & _ & _ & evs & Hevs & Hen)
  end.
  rewrite (bind_Ret _ _ _ _ _ Hrun). intros [= <- <-].
  cbn in Hevs. eexists. split; [by rewrite Hevs, <- app_assoc |].
  intros Hnf. unfold enqueuedTo in *. rewrite omap_app, Hlogs. cbn.
  f_equal. apply Hen. intros l d f e Hin. eapply Hnf.
  apply elem_of_app. right. exact Hin.
Qed.

Global Instance enqueues_preorder (P : LineData.t → Prop) :
  PreOrder (enqueues P).
Proof.
  split.
  - intros s. exists []. split; [by rewrite app_nil_r |].
    by intros l d f e ?%elem_of_nil.
  - intros s1 s2 s3 (e1 & He1 & Hp1) (e2 & He2 & Hp2). exists (e1 ++ e2).
    split; [by rewrite He2, He1, <- app_assoc |].
    intros l d f e [Hin | Hin]%elem_of_app; [by eapply Hp1 | by eapply Hp2].
Qed.

Lemma withoutEnqueue_enqueues (P : LineData.t → Prop) (s s' : State.t) :
  withoutEnqueue s s' → enqueues P s s'.
Proof.
  intros [_ (evs & Hevs & Hq)]. exists evs. split; [done |].
  intros l d f e Hin. exfalso. clear Hevs.
  induction evs as [|e0 evs IH]; [by apply elem_of_nil in Hin |].
  simpl in Hq. apply andb_true_iff in Hq as [Hq0 Hq].
  apply elem_of_cons in Hin as [<- | Hin]; [done | by apply IH].
Qed.

Lemma writeToBackends_enqueues (backends : list (option loc))
    (data : LineData.t) :
  steps (enqueues (λ d, d = data)) (writeToBackends backends data).
Proof.
  induction backends as [|backend rest IH]; cbn [writeToBackends].
  - apply steps_ret; apply _.
  - apply steps_bind; [apply _ | apply steps_gets; apply _ | intros p].
    apply steps_bind; [apply _ | | intros [err|]]; [| |done].
    + unfold call_WriteDataToBuffer, deref. steps_structure.
      * exists []. split; [by rewrite app_nil_r |].
        by intros ? ? ? ? ?%elem_of_nil.
      * unfold emit. apply steps_modify. intros s.
        eexists [_]. split; [done |].
        by intros ? ? ? ? [= _ -> _ _]%list_elem_of_singleton.
    + eapply steps_weaken; [apply withoutEnqueue_enqueues |].
      unfold deref. steps_structure. by apply withoutEnqueue_emit.
Qed.

Lemma HasSuffix_newline (line : list byte) :
  HasSuffix (line ++ newline) newline = true.
Proof.
  unfold HasSuffix, newline. rewrite length_app. simpl.
  replace (length line + 1 - 1) with (length line) by lia.
  rewrite drop_app_length. simpl.
  destruct (length line + 1) eqn:Hl; [lia | done].
Qed.

(** X14. The [LineData] of every enqueue of a [WriteData] is the one
    it was given with its line brought to nanoseconds and ended by a
    newline: no line goes to a buffer without a newline at its end, and one
    that has it is given no second one. *)
Theorem WriteData_enqueues_whole_lines (data : LineData.t) :
  HasSuffix (LineData.Line (written data)) newline = true ∧
  steps (enqueues (λ d, d = written data)) (WriteData data).
Proof.
  split.
  { unfold written. cbn.
    destruct (HasSuffix (LineToNano _ _) newline) eqn:Hs; [done |].
    apply HasSuffix_newline. }
  unfold WriteData.
  set (data1 := LineData.set_Line _ data).
  destruct (ScanKey (LineData.Line data1)) as [measure [err|]]; cbn [fst snd].
  - eapply steps_weaken; [apply withoutEnqueue_enqueues |].
    steps_structure. by apply withoutEnqueue_emit.
  - apply steps_bind; [apply _ | |intros backends].
    + eapply steps_weaken; [apply withoutEnqueue_enqueues |].
      apply GetMachines_withoutEnqueue.
    + destruct (GoInt.len backends <? 1)%Z.
      * eapply steps_weaken; [apply withoutEnqueue_enqueues |].
        steps_structure. by apply withoutEnqueue_emit.
      * apply steps_bind; [apply _ | | intros _; apply steps_ret; apply _].
        assert ((if negb (HasSuffix (LineData.Line data1) newline)
                 then LineData.set_Line (LineData.Line data1 ++ newline) data1
                 else data1) = written data) as ->;
          [|apply writeToBackends_enqueues].
        unfold written, data1. cbn.
        by destruct (HasSuffix (LineToNano _ _) newline).
Qed.
Lemma app_inv_nil {A} (l evs : list A) : l = l ++ evs → evs = [].
Proof.
  intros Heq. symmetry. apply (app_inv_head l). by rewrite app_nil_r.
Qed.

(** The loop that ends [WriteData], in a run one of whose enqueues
    failed. *)
Lemma writeToBackends_failure (backends : list (option loc))
    (data : LineData.t) :
  ∀ (s : State.t) r (s' : State.t) (evs : list Event) (l : loc)
    (d : LineData.t) (f : Z) (err : error),
    writeToBackends backends data s = (r, s') →
    State.events s' = State.events s ++ evs →
    CallWriteDataToBuffer l d f (Some err) ∈ evs →
    ∃ before after b,
      backends = (Some <$> before) ++ Some l :: after ∧
      State.heap s' !! l = Some b ∧
      d = data ∧ f = Proxy.FlushSize (State.proxy s) ∧
      evs = ((λ l', CallWriteDataToBuffer l' data f None) <$> before)
            ++ [CallWriteDataToBuffer l data f (Some err);
                LogWriteToBuffer (Backend.Url b) data err] ∧
      r = Ret tt.
Proof.
  induction backends as [|backend rest IH];
    intros s r s' evs l d f err Hrun Hevs Hin.
  - inversion Hrun; subst. apply app_inv_nil in Hevs. subst.
    by apply elem_of_nil in Hin.
  - cbn [writeToBackends] in Hrun.
    unfold get_proxy, call_WriteDataToBuffer, deref, emit in Hrun.
    revert Hrun. run. destruct backend as [l0|]; cbn [must].
    2:{ intros [= <- <-]. apply app_inv_nil in Hevs. subst.
        by apply elem_of_nil in Hin. }
    run. destruct (State.heap s !! l0) as [b|] eqn:Hb; cbn [must].
    2:{ intros [= <- <-]. apply app_inv_nil in Hevs. subst.
        by apply elem_of_nil in Hin. }
    run. cbn [State.heap State.set_heap State.set_events State.events
              State.proxy State.inflight].
    destruct (WriteDataToBuffer b data (Proxy.FlushSize (State.proxy s)))
      as [b' [err0|]] eqn:Hw; cbn [fst snd].
    + run. cbn [State.heap State.set_heap State.set_events State.events
                State.proxy State.inflight].
      rewrite lookup_insert_eq. cbn [must]. run. unfold ret.
      intros [= <- <-]. cbn in Hevs. rewrite <- app_assoc in Hevs.
      apply app_inv_head in Hevs. subst evs.
      apply elem_of_cons in Hin as [Hin | Hin];
        [|by apply list_elem_of_singleton in Hin].
      injection Hin as -> -> -> ->.
      exists [], rest, b'. cbn. by rewrite lookup_insert_eq.
    + intros Hrun.
      match type of Hrun with
      | writeToBackends _ _ ?s1 = _ => set (s1' := s1) in *
      end.
      destruct (writeToBackends_enqueues rest data _ _ _ Hrun)
        as (evs2 & Hevs2 & _).
      assert (evs = CallWriteDataToBuffer l0 data
                      (Proxy.FlushSize (State.proxy s)) None :: evs2)
        as ->.
      { apply (app_inv_head (State.events s)). rewrite <- Hevs, Hevs2.
        subst s1'. cbn. by rewrite <- app_assoc. }
      apply elem_of_cons in Hin as [Hin | Hin]; [done |].
      destruct (IH _ _ _ _ _ _ _ _ Hrun Hevs2 Hin)
        as (before & after & b0 & -> & Hb0 & -> & -> & -> & ->).
      exists (l0 :: before), after, b0. by subst s1'.
Qed.

(** C1, amended. In a run of [WriteData] on a proxy whose circles have
    their rings, let an enqueue fail at the backend [l]. Then [l] is the
    backend of a circle that answers for the key of the line; the backends
    of the answering circles before it have been called before, each once,
    in the order of the circles, with the same write, and none of these
    calls failed; the failed call is followed by the line that logs it,
    with the URL of [l], and by nothing else: [WriteData] returns there,
    and the backends of the circles after it are not called. *)
Theorem WriteData_stops_at_first_failure (data : LineData.t)
    (s : State.t) r (s' : State.t) (evs : list Event) (l : loc)
    (d : LineData.t) (f : Z) (err : error) :
  routersSet (State.proxy s) = true →
  WriteData data s = (r, s') →
  State.events s' = State.events s ++ evs →
  CallWriteDataToBuffer l d f (Some err) ∈ evs →
  let line := LineToNano (LineData.Line data) (LineData.Precision data) in
  let key := LineData.Db data +:+ "," +:+ (ScanKey line).1 in
  let circles := Proxy.Circles (State.proxy s) in
  ∃ before after b,
    omap (answer key) circles = (Some <$> before) ++ Some l :: after ∧
    State.heap s' !! l = Some b ∧
    d = written data ∧ f = Proxy.FlushSize (State.proxy s) ∧
    evs = lookupLogs key 0 circles
          ++ ((λ l', CallWriteDataToBuffer l' d f None) <$> before)
          ++ [CallWriteDataToBuffer l d f (Some err);
              LogWriteToBuffer (Backend.Url b) d err] ∧
    r = Ret d.
Proof.
  intros Hrs Hrun Hevs Hin line key circles. revert Hrun.
  unfold WriteData.
  set (data1 := LineData.set_Line _ data).
  change (LineData.Line data1) with line.
  change (LineData.Db data1) with (LineData.Db data). fold key.
  destruct (ScanKey line) as [measure [err0|]] eqn:Hscan; cbn [fst snd].
  { unfold emit. run. intros [= <- <-]. cbn in Hevs.
    apply app_inv_head in Hevs. subst evs.
    by apply list_elem_of_singleton in Hin. }
  rewrite (bind_Ret _ _ _ _ _ (GetMachines_run key s Hrs)). fold circles.
  set (s1 := State.set_events _ s).
  assert (∀ l' d' f' e', CallWriteDataToBuffer l' d' f' e'
                           ∉ lookupLogs key 0 circles) as Hlogs.
  { intros l' d' f' e'. generalize 0. induction circles as [|c cs IHc];
      intros k; cbn [lookupLogs]; [apply not_elem_of_nil |].
    intros [Hc | Hc]%elem_of_app; [|by eapply IHc].
    destruct (Circle.Router c) as [r0|]; [|by apply elem_of_nil in Hc].
    destruct (consistent_Get r0 key).2; [|by apply elem_of_nil in Hc].
    by apply list_elem_of_singleton in Hc. }
  destruct (GoInt.len (omap (answer key) circles) <? 1)%Z.
  { unfold emit. run. intros [= <- <-]. cbn in Hevs.
    rewrite <- app_assoc in Hevs. apply app_inv_head in Hevs. subst evs.
    apply elem_of_app in Hin as [Hin | Hin]; [by apply Hlogs in Hin |].
    by apply list_elem_of_singleton in Hin. }
  assert ((if negb (HasSuffix line newline)
           then LineData.set_Line (line ++ newline) data1
           else data1) = written data) as ->.
  { unfold written, data1. fold line. cbn.
    by destruct (HasSuffix line newline). }
  intros Hrun.
  apply bind_inv in Hrun
    as [([] & s2 & Hloop & Hrun) | [[Hloop ->] | [Hloop ->]]].
  1: unfold ret in Hrun; injection Hrun as <- <-.
  all: destruct (writeToBackends_enqueues _ _ _ _ _ Hloop)
         as (evs2 & Hevs2 & _);
       assert (evs = lookupLogs key 0 circles ++ evs2) as Hsplit
         by (apply (app_inv_head (State.events s)); rewrite <- Hevs, Hevs2;
             subst s1; cbn; by rewrite <- app_assoc);
       rewrite Hsplit in Hin;
       apply elem_of_app in Hin as [Hin | Hin]; [by apply Hlogs in Hin |];
       destruct (writeToBackends_failure _ _ _ _ _ _ _ _ _ _
                   Hloop Hevs2 Hin)
         as (before & after & b & Hm & Hb & -> & -> & -> & Hr);
       try discriminate Hr.
  exists before, after, b. by rewrite Hsplit.
Qed.
End Service.

(** ** The workflows: status tables and throttle *)

Section WorkflowMore.
Context `{BackendPkg}.

(** X15. A [ClearMigrateStatus] that returns has cleared every slot of
    the circle in the table of the workflow, the slots of the other
    backends of the circle with that of the caller: the database, the
    measurement and the three counts are zero, the circle number stays. The
    slots of the other circles and of the other workflows, the circles and
    the backends are as they were, and nothing is logged. *)
Theorem ClearMigrateStatus_clears_the_circle (w : Workflow) (circleNum : Z)
    (s s' : State.t) :
  ClearMigrateStatus w circleNum s = (Ret tt, s') →
  (∀ url, slot w circleNum url (State.proxy s')
          = MigrationInfo.clear <$> slot w circleNum url (State.proxy s)) ∧
  (∀ w' n url, w' ≠ w ∨ n ≠ circleNum →
     slot w' n url (State.proxy s') = slot w' n url (State.proxy s)) ∧
  installation s' = installation s ∧
  State.events s' = State.events s.
Proof.
  unfold ClearMigrateStatus, status_put, status_at, get_proxy, modify_proxy.
  destruct (GoInt.index (Proxy.status w (State.proxy s)) circleNum)
    as [tb|] eqn:Htb; cbn [must]; run; [|done].
  intros [= <-]. apply GoInt_index_Some in Htb as [Hge Htb].
  assert (Z.to_nat circleNum < length (Proxy.status w (State.proxy s)))
    as Hlen by (by eapply lookup_lt_Some).
  split; [|split; [|split]].
  - intros url. unfold slot. cbn. rewrite status_set_status.
    assert (GoInt.index (<[Z.to_nat circleNum := MigrationInfo.clear <$> tb]>
                           (Proxy.status w (State.proxy s))) circleNum
            = Some (MigrationInfo.clear <$> tb)) as ->.
    { apply GoInt_index_Some. split; [done |].
      by apply list_lookup_insert_eq. }
    assert (GoInt.index (Proxy.status w (State.proxy s)) circleNum = Some tb)
      as -> by (by apply GoInt_index_Some).
    by rewrite lookup_fmap.
  - intros w' n url Hne. unfold slot. cbn.
    rewrite status_set_status_decide.
    destruct (decide (w = w')) as [<- | Hw]; [|done].
    destruct Hne as [? | Hn]; [done |].
    unfold GoInt.index. destruct (n <? 0)%Z eqn:Hn0; [done |].
    apply Z.ltb_ge in Hn0. rewrite list_lookup_insert_ne; [done | lia].
  - unfold installation. cbn. by destruct w.
  - done.
Qed.

Lemma Migrate_inflight (call : MigrateCall) :
  steps (same (λ s, (State.inflight s, maxCpus s))) (Migrate call).
Proof. unfold Migrate. steps_auto; done. Qed.

Lemma BackendWg_Wait_Ret_inv (c : nat) (url : string) (s s' : State.t) :
  BackendWg_Wait c url s = (Ret tt, s') →
  State.inflight s' = [] ∧ maxCpus s' = maxCpus s.
Proof.
  intros Hrun. unfold BackendWg_Wait in Hrun.
  apply bind_Ret_inv in Hrun as (x & s0 & Hx & Hrun).
  apply circle_at_inv in Hx as [-> Hx].
  apply bind_Ret_inv in Hrun as (n0 & s0 & Hn0 & Hrun).
  destruct (Circle.BackendWgMap x !! url); [|done].
  injection Hn0 as <- <-.
  apply bind_Ret_inv in Hrun as ([] & s1 & Hs1 & Hrun).
  apply emit_Ret_inv in Hs1 as [_ ->].
  rewrite bind_gets in Hrun. rewrite bind_modify in Hrun.
  apply bind_Ret_inv in Hrun as ([] & s2 & Hs2 & Hrun).
  assert (steps (same (λ s, (State.inflight s, maxCpus s)))
            (forM (State.inflight s) Migrate)) as Hloop.
  { apply steps_forM; [apply _ |]. intros call. apply Migrate_inflight. }
  apply Hloop in Hs2. unfold same in Hs2. cbn in Hs2.
  injection Hs2 as Hi Hm.
  assert (State.inflight s' = State.inflight s2 ∧ maxCpus s' = maxCpus s2)
    as [-> ->]; [|done].
  assert (steps (same (λ s, (State.inflight s, maxCpus s)))
            (x <- circle_at c ;;
             n <- must (Circle.BackendWgMap x !! url) ;;
             if (n =? 0)%Z then ret tt else stuck)) as Hrest
    by (steps_auto; done).
  apply Hrest in Hrun. unfold same in Hrun. by injection Hrun.
Qed.

(** X16. Let [MigrateMaxCpus] be positive and let the migrations in
    flight be as many as the count of migrations started leaves when
    divided by [MigrateMaxCpus]. A [startMigrate] that returns has counted
    one migration more and leaves this so: after each start, fewer than
    [MigrateMaxCpus] migrations are in flight. *)
Theorem startMigrate_throttles (call : MigrateCall) (url : string)
    (migrateCount : Z) (s : State.t) (migrateCount' : Z) (s' : State.t) :
  (0 < maxCpus s)%Z →
  (0 ≤ migrateCount < GoInt.max_int)%Z →
  Z.of_nat (length (State.inflight s)) = (migrateCount `mod` maxCpus s)%Z →
  startMigrate call url migrateCount s = (Ret migrateCount', s') →
  migrateCount' = (migrateCount + 1)%Z ∧
  maxCpus s' = maxCpus s ∧
  Z.of_nat (length (State.inflight s')) = (migrateCount' `mod` maxCpus s)%Z ∧
  (Z.of_nat (length (State.inflight s')) < maxCpus s)%Z.
Proof.
  intros Hmax Hmc Hfl Hrun. unfold startMigrate in Hrun.
  assert (GoInt.incr migrateCount = (migrateCount + 1)%Z) as Hincr.
  { unfold GoInt.incr, GoInt.add. apply GoInt_wrap_small.
    unfold GoInt.min_int, GoInt.max_int in *. lia. }
  rewrite Hincr in Hrun.
  apply bind_Ret_inv in Hrun as ([] & s1 & Hs1 & Hrun).
  assert (steps (same (λ s, (State.inflight s, maxCpus s)))
            (BackendWg_Add (mc_circle call) url 1)) as Hadd
    by (steps_auto; done).
  apply Hadd in Hs1. unfold same in Hs1. injection Hs1 as Hi1 Hm1.
  unfold go_Migrate, emit, get_proxy in Hrun. revert Hrun. run.
  intros Hrun.
  cbn [State.proxy State.set_inflight State.set_events] in Hrun.
  fold (maxCpus s1) in Hrun. rewrite Hm1 in Hrun.
  unfold GoInt.rem in Hrun.
  destruct (maxCpus s =? 0)%Z eqn:Hz; [apply Z.eqb_eq in Hz; lia |].
  cbn [must] in Hrun. rewrite bind_ret_l in Hrun.
  rewrite Z.rem_mod_nonneg in Hrun by lia.
  assert (0 ≤ migrateCount `mod` maxCpus s < maxCpus s)%Z as Hr
    by (apply Z.mod_pos_bound; lia).
  assert (0 ≤ (migrateCount + 1) `mod` maxCpus s < maxCpus s)%Z as Hr'
    by (apply Z.mod_pos_bound; lia).
  destruct ((migrateCount + 1) `mod` maxCpus s =? 0)%Z eqn:Hw.
  - apply Z.eqb_eq in Hw.
    apply bind_Ret_inv in Hrun as ([] & s2 & Hs2 & Hrun).
    injection Hrun as <- <-.
    apply BackendWg_Wait_Ret_inv in Hs2 as [Hi2 Hm2].
    unfold maxCpus in Hm2 at 2. cbn in Hm2. fold (maxCpus s1) in Hm2.
    rewrite Hi2, Hw. simpl. repeat split; [congruence | lia].
  - apply Z.eqb_neq in Hw. rewrite bind_ret_l in Hrun.
    injection Hrun as <- <-. cbn. fold (maxCpus s1).
    rewrite Hi1, length_app. simpl.
    assert ((migrateCount + 1) `mod` maxCpus s
            = migrateCount `mod` maxCpus s + 1)%Z as Hstep.
    { pose proof (Z.div_mod migrateCount (maxCpus s)) as Hdm.
      symmetry.
      apply (Z.mod_unique_pos _ _ (migrateCount `div` maxCpus s)).
      - split; [lia |].
        destruct (decide (migrateCount `mod` maxCpus s + 1 = maxCpus s)%Z)
          as [Heq | ?]; [|lia].
        exfalso. apply Hw.
        replace (migrateCount + 1)%Z
          with (migrateCount `div` maxCpus s * maxCpus s + maxCpus s)%Z
          by lia.
        rewrite Z.add_comm, Z_mod_plus_full. apply Z_mod_same_full.
      - lia. }
    repeat split; [done | lia | lia].
Qed.
End WorkflowMore.

(** ** The workers when no migration fails *)

Section Liveness.
Context `{BackendPkg}.

Lemma total_ret {A} (a : A) (P : State.t → Prop) Q :
  (∀ s, P s → Q a s) → total P (ret a) Q.
Proof. intros HQ s Hs. exists a, s. split; [done | by apply HQ]. Qed.

Lemma total_bind {A B} (m : M A) (f : A → M B) P Q1 Q :
  total P m Q1 → (∀ a, total (Q1 a) (f a) Q) → total P (bind m f) Q.
Proof.
  intros Hm Hf s Hs. destruct (Hm s Hs) as (a & s1 & Hrun & H1s).
  destruct (Hf a s1 H1s) as (b & s' & Hrun' & Hs').
  exists b, s'. split; [|done]. by rewrite (bind_Ret _ _ _ _ _ Hrun).
Qed.

Lemma total_conseq {A} (m : M A) (P P' : State.t → Prop)
    (Q Q' : A → State.t → Prop) :
  total P' m Q' → (∀ s, P s → P' s) → (∀ a s, Q' a s → Q a s) →
  total P m Q.
Proof.
  intros Hm HP HQ s Hs. destruct (Hm s (HP s Hs)) as (a & s' & Hrun & Hs').
  exists a, s'. split; [done | by apply HQ].
Qed.

Lemma total_foldM {A B} (body : B → A → M B) (l : list A)
    (I : State.t → Prop) :
  (∀ b x, x ∈ l → total I (body b x) (λ _, I)) →
  ∀ b, total I (foldM body l b) (λ _, I).
Proof.
  induction l as [|x l IH]; intros Hbody b; cbn [foldM].
  - by apply total_ret.
  - eapply total_bind; [apply Hbody; left |].
    apply IH. intros b' x' Hx'. apply Hbody. by right.
Qed.

Lemma total_gets {A} (g : State.t → A) (P : State.t → Prop) :
  total P (gets g) (λ a s, P s ∧ a = g s).
Proof. intros s Hs. by exists (g s), s. Qed.

Lemma total_pre {A} (φ : Prop) (P : State.t → Prop) (m : M A) Q :
  (φ → total P m Q) → total (λ s, P s ∧ φ) m Q.
Proof. intros Hm s [Hs Hφ]. by apply Hm. Qed.

Lemma total_with_defer {A} (d : M unit) (m : M A) P Q Q' :
  total P m Q → (∀ a, total (Q a) d (λ _, Q' a)) →
  total P (with_defer d m) Q'.
Proof.
  intros Hm Hd s Hs. destruct (Hm s Hs) as (a & s1 & Hrun & H1s).
  destruct (Hd a s1 H1s) as ([] & s' & Hrun' & Hs').
  exists a, s'. split; [|done]. unfold with_defer. rewrite Hrun.
  by rewrite (bind_Ret _ _ _ _ _ Hrun').
Qed.

Lemma total_frame {A} (m : M A) (I : State.t → Prop) (f : State.t → A)
    (g : State.t → State.t) :
  (∀ s, m s = (Ret (f s), g s)) → (∀ s, I s → I (g s)) →
  total I m (λ _, I).
Proof. intros Hm Hg s Hs. exists (f s), (g s). split; [done | by apply Hg]. Qed.

Lemma routersSet_insert (cs : list Circle.t) (c : nat) (x y : Circle.t) :
  cs !! c = Some x → Circle.Router y = Circle.Router x →
  forallb (λ c, bool_decide (is_Some (Circle.Router c))) (<[c := y]> cs)
  = forallb (λ c, bool_decide (is_Some (Circle.Router c))) cs.
Proof.
  revert c. induction cs as [|c0 cs IH]; intros [|c] Hx Hr; try done.
  - simpl in *. injection Hx as ->. by rewrite Hr.
  - simpl in *. by rewrite (IH c).
Qed.

Lemma circle_modify_Ret (c : nat) (f : Circle.t → Circle.t) (s : State.t) x :
  Proxy.Circles (State.proxy s) !! c = Some x →
  circle_modify c f s
  = (Ret tt,
     State.set_proxy
       (Proxy.set_Circles (<[c := f x]> (Proxy.Circles (State.proxy s)))
          (State.proxy s)) s).
Proof.
  intros Hx. unfold circle_modify, circle_at, get_proxy, modify_proxy.
  run. done.
Qed.

Section source.
Variables (w : Workflow) (circle : nat) (circleNum : Z) (l : loc)
  (url : string) (N : nat).

Local Abbreviation ready := (sourceReady w circle circleNum l url N).
Local Abbreviation atRest := (workerReady w circle circleNum l url N).

(** A step on the wait group of the source. *)
Lemma BackendWg_Add_ready (n delta : Z) (s : State.t) :
  (0 ≤ n + delta)%Z → ready n s →
  ∃ s', BackendWg_Add circle url delta s = (Ret tt, s') ∧
    ready (n + delta) s' ∧ State.inflight s' = State.inflight s ∧
    State.events s' = State.events s.
Proof.
  intros Hge (Hrs & Hlen & Hmax & Hslot & c & b & Hc & Hb & Hu & Hnum & Hwg
              & Hwm).
  unfold BackendWg_Add, circle_at, get_proxy. run.
  destruct (n + delta <? 0)%Z eqn:Hlt; [apply Z.ltb_lt in Hlt; lia |].
  rewrite (circle_modify_Ret _ _ _ _ Hc). eexists. split; [done |].
  split; [|done].
  assert (circle < length (Proxy.Circles (State.proxy s))) as Hlt'
    by (by eapply lookup_lt_Some).
  split; [|split; [|split; [|split]]]; cbn.
  - unfold routersSet in *. cbn. by rewrite (routersSet_insert _ _ c).
  - by rewrite length_insert.
  - done.
  - done.
  - eexists _, b. split; [by apply list_lookup_insert_eq |].
    repeat split; try done. cbn. by rewrite lookup_insert_eq.
Qed.

Lemma Migrate_ready (call : MigrateCall) (n : Z) (s : State.t) :
  neverFails → mc_backend call = Some l → mc_circle call = circle →
  (0 ≤ n)%Z → ready (n + 1) s →
  ∃ s', Migrate call s = (Ret tt, s') ∧ ready n s' ∧
    State.inflight s' = State.inflight s.
Proof.
  intros Hnf Hbk Hci Hn Hr. unfold Migrate. rewrite Hnf, Hbk, Hci.
  pose proof Hr as (_ & _ & _ & _ & c & b & Hc & Hb & Hu & _).
  unfold deref. cbn [must]. run. rewrite Hu. unfold BackendWg_Done.
  destruct (BackendWg_Add_ready (n + 1) (-1) s) as (s' & Hrun & Hr' & Hi & _);
    [lia | done |].
  exists s'. split; [done |].
  replace (n + 1 + -1)%Z with n in Hr' by lia. done.
Qed.

Lemma Migrate_loop_ready (calls : list MigrateCall) :
  neverFails →
  Forall (λ call, mc_backend call = Some l ∧ mc_circle call = circle) calls →
  ∀ (n : Z) (s : State.t), (0 ≤ n)%Z →
    ready (n + Z.of_nat (length calls)) s →
    ∃ s', forM calls Migrate s = (Ret tt, s') ∧ ready n s' ∧
      State.inflight s' = State.inflight s.
Proof.
  intros Hnf Hown. induction Hown as [|call calls [Hbk Hci] Hown IH];
    intros n s Hn Hr; cbn [forM].
  - exists s. split; [done |]. split; [|done].
    by replace (n + Z.of_nat (length (@nil MigrateCall)))%Z with n in Hr
      by (simpl; lia).
  - destruct (Migrate_ready call (n + Z.of_nat (length calls)) s)
      as (s1 & Hrun & Hr1 & Hi1); try done; [lia | |].
    { by replace (n + Z.of_nat (length calls) + 1)%Z
        with (n + Z.of_nat (length (call :: calls)))%Z by (simpl; lia). }
    destruct (IH n s1 Hn Hr1) as (s' & Hrun' & Hr' & Hi').
    exists s'. split; [by rewrite (bind_Ret _ _ _ _ _ Hrun) |].
    split; [done | congruence].
Qed.

Lemma ready_frame (n : Z) (s s' : State.t) :
  State.proxy s' = State.proxy s → State.heap s' = State.heap s →
  ready n s → ready n s'.
Proof.
  intros Hp Hh. unfold sourceReady, maxCpus. by rewrite Hp, Hh.
Qed.

Lemma BackendWg_Wait_ready :
  neverFails → total atRest (BackendWg_Wait circle url) (λ _, atRest).
Proof.
  intros Hnf s [Hr Hown]. unfold BackendWg_Wait.
  pose proof Hr as (_ & _ & _ & _ & c & b & Hc & Hb & Hu & _ & Hwg & _).
  unfold circle_at at 1, get_proxy, emit. run.
  match goal with
  | |- ∃ a s', bind (forM _ _) _ ?s1 = _ ∧ _ =>
      destruct (Migrate_loop_ready (State.inflight s) Hnf Hown 0 s1)
        as (s2 & Hrun & Hr2 & Hi2); [lia | | ]
  end.
  { by apply (ready_frame _ s). }
  rewrite (bind_Ret _ _ _ _ _ Hrun).
  pose proof Hr2 as (_ & _ & _ & _ & c2 & b2 & Hc2 & _ & _ & _ & Hwg2 & _).
  unfold circle_at, get_proxy. run.
  exists tt, s2. split; [done |]. cbn in Hi2. split.
  - by rewrite Hi2.
  - rewrite Hi2. constructor.
Qed.

Lemma startMigrate_ready (call : MigrateCall) (migrateCount : Z) :
  neverFails → mc_backend call = Some l → mc_circle call = circle →
  total atRest (startMigrate call url migrateCount) (λ _, atRest).
Proof.
  intros Hnf Hbk Hci s [Hr Hown]. unfold startMigrate. rewrite Hci.
  destruct (BackendWg_Add_ready (Z.of_nat (length (State.inflight s))) 1 s)
    as (s1 & Hrun & Hr1 & Hi1 & He1); [lia | done |].
  rewrite (bind_Ret _ _ _ _ _ Hrun).
  unfold go_Migrate, emit, get_proxy. run.
  match goal with
  | |- ∃ a s', bind _ _ ?s2 = _ ∧ _ => assert (atRest s2) as Hs2
  end.
  { split.
    - cbn. rewrite Hi1, length_app. simpl.
      replace (Z.of_nat (length (State.inflight s) + 1))
        with (Z.of_nat (length (State.inflight s)) + 1)%Z by lia.
      by apply (ready_frame _ s1).
    - cbn. rewrite Hi1. apply Forall_app. split; [done |].
      by repeat constructor. }
  pose proof Hr1 as (_ & _ & Hmax & _).
  unfold GoInt.rem. cbn [State.proxy State.set_inflight State.set_events].
  fold (maxCpus s1).
  destruct (maxCpus s1 =? 0)%Z eqn:Hz; [by apply Z.eqb_eq in Hz |].
  cbn [must]. run.
  destruct (Z.rem (GoInt.incr migrateCount) (maxCpus s1) =? 0)%Z.
  - destruct (BackendWg_Wait_ready Hnf _ Hs2) as ([] & s3 & Hrun3 & Hs3).
    rewrite (bind_Ret _ _ _ _ _ Hrun3). by eexists _, s3.
  - run. by eexists _, _.
Qed.

Lemma slot_assign_ready (f : MigrationInfo.t → MigrationInfo.t) :
  total atRest (slot_assign w circleNum url f) (λ _, atRest).
Proof.
  intros s [Hr Hown].
  pose proof Hr as (Hrs & Hlen & Hmax & [i Hi] & c & b & Hc & Hrest).
  rewrite (slot_assign_Ret _ _ _ _ _ _ Hi). eexists tt, _. split; [done |].
  split; [|done]. cbn.
  assert (∀ p, Proxy.MigrateMaxCpus (slot_put w circleNum url (f i) p)
               = Proxy.MigrateMaxCpus p) as Hmc.
  { intros p. unfold slot_put.
    destruct (GoInt.index (Proxy.status w p) circleNum); [|done].
    by destruct w. }
  split; [|split; [|split; [|split]]]; cbn.
  - unfold routersSet. by rewrite Circles_slot_put.
  - by rewrite Circles_slot_put.
  - unfold maxCpus. cbn. by rewrite Hmc.
  - rewrite slot_slot_put by (by eexists). by eexists.
  - exists c, b. by rewrite Circles_slot_put.
Qed.

Lemma emit_ready (e : Event) : total atRest (emit e) (λ _, atRest).
Proof.
  intros s [Hr Hown]. eexists tt, _. split; [done |].
  split; [|done]. by apply (ready_frame _ s).
Qed.

Lemma Router_Get_ready (c : nat) (key : string) :
  c < N → total atRest (Router_Get c key) (λ _, atRest).
Proof.
  intros Hc s [Hr Hown]. pose proof Hr as (Hrs & Hlen & _).
  destruct (lookup_lt_is_Some_2 (Proxy.Circles (State.proxy s)) c)
    as [x Hx]; [lia |].
  assert (is_Some (Circle.Router x)) as [r Hrx].
  { unfold routersSet in Hrs. rewrite forallb_forall in Hrs.
    eapply bool_decide_eq_true_1, Hrs.
    by apply list_elem_of_In, list_elem_of_lookup_2 with c. }
  unfold Router_Get, circle_at, get_proxy. run. by eexists _, s.
Qed.

Lemma circle_at_ready (c : nat) :
  c < N → total atRest (circle_at c) (λ _, atRest).
Proof.
  intros Hc s [Hr Hown]. pose proof Hr as (Hrs & Hlen & _).
  destruct (lookup_lt_is_Some_2 (Proxy.Circles (State.proxy s)) c)
    as [x Hx]; [lia |].
  unfold circle_at, get_proxy. run. rewrite Hx.
  exists x, s. split; [done | by split].
Qed.

Lemma deref_ready :
  total atRest (deref (Some l)) (λ b s, atRest s ∧ Backend.Url b = url).
Proof.
  intros s [Hr Hown].
  pose proof Hr as (_ & _ & _ & _ & c & b & Hc & Hb & Hu & _).
  unfold deref. cbn [must]. run. rewrite Hb.
  exists b, s. split; [done |]. split; [by split | done].
Qed.

Lemma circle_lt (s : State.t) : atRest s → circle < N.
Proof.
  intros [(_ & <- & _ & _ & c & b & Hc & _) _]. by eapply lookup_lt_Some.
Qed.

Lemma total_atRest {A} (m : M A) Q :
  (circle < N → total atRest m Q) → total atRest m Q.
Proof. intros Hm s Hs. apply Hm; [by eapply circle_lt | done]. Qed.

Lemma scanDatabase_ready (b : Backend.t)
    (body : string → Z → string → M Z) (migrateCount : Z) (db : string) :
  Backend.Url b = url →
  (∀ migrateCount measure,
     total atRest (body db migrateCount measure) (λ _, atRest)) →
  total atRest (scanDatabase w b circleNum body migrateCount db)
    (λ _, atRest).
Proof.
  intros Hu Hbody. unfold scanDatabase. rewrite Hu.
  eapply total_bind; [apply slot_assign_ready | intros ?].
  eapply total_bind; [apply slot_assign_ready | intros ?].
  apply total_foldM. intros mc measure ?. apply Hbody.
Qed.

Lemma ClearMigrateStatus_ready :
  total atRest (ClearMigrateStatus w circleNum) (λ _, atRest).
Proof.
  intros s [Hr Hown].
  pose proof Hr as (Hrs & Hlen & Hmax & [i Hi] & c & b & Hc & Hrest).
  unfold ClearMigrateStatus, status_put, status_at, get_proxy, modify_proxy.
  unfold slot in Hi.
  destruct (GoInt.index (Proxy.status w (State.proxy s)) circleNum)
    as [tb|] eqn:Htb; [|done].
  run. eexists tt, _. split; [done |]. split; [|done].
  apply GoInt_index_Some in Htb as [Hge Htb].
  split; [|split; [|split; [|split]]]; cbn.
  - unfold routersSet. by destruct w.
  - by destruct w.
  - unfold maxCpus. by destruct w.
  - unfold slot. rewrite status_set_status.
    assert (GoInt.index (<[Z.to_nat circleNum := MigrationInfo.clear <$> tb]>
                           (Proxy.status w (State.proxy s))) circleNum
            = Some (MigrationInfo.clear <$> tb)) as ->.
    { apply GoInt_index_Some. split; [done |].
      apply list_lookup_insert_eq. by eapply lookup_lt_Some. }
    rewrite lookup_fmap, Hi. by eexists.
  - exists c, b. by destruct w.
Qed.

Lemma WgMigrate_Done_ready :
  total atRest (WgMigrate_Done circle) (λ _ _, True).
Proof.
  intros s [Hr Hown].
  pose proof Hr as (_ & _ & _ & _ & c & b & Hc & _ & _ & _ & _ & Hwm).
  unfold WgMigrate_Done, WgMigrate_Add, circle_at, get_proxy. run.
  destruct (Circle.WgMigrate c + -1 <? 0)%Z eqn:Hlt;
    [apply Z.ltb_lt in Hlt; lia |].
  rewrite (circle_modify_Ret _ _ _ _ Hc). by eexists tt, _.
Qed.

End source.

Lemma rebalanceMeasure_ready (circle : nat) (circleNum : Z) (l : loc)
    (url : string) (N : nat) (db : string) (migrateCount : Z)
    (measure : string) :
  neverFails →
  total (workerReady Rebalancing circle circleNum l url N)
    (rebalanceMeasure (Some l) url circle circleNum db migrateCount measure)
    (λ _, workerReady Rebalancing circle circleNum l url N).
Proof.
  intros Hnf. apply total_atRest. intros Hlt. unfold rebalanceMeasure.
  eapply total_bind; [apply slot_assign_ready | intros ?].
  eapply total_bind; [by apply Router_Get_ready | intros r].
  eapply total_bind.
  { instantiate (1 := λ _, workerReady Rebalancing circle circleNum l url N).
    destruct (r.2).
    - eapply total_bind; [by apply circle_at_ready | intros c].
      apply emit_ready.
    - by apply total_ret. }
  intros ?. destruct (decide (r.1 ≠ url)).
  - eapply total_bind; [apply slot_assign_ready | intros ?].
    eapply total_bind; [apply emit_ready | intros ?].
    eapply total_bind; [by apply circle_at_ready | intros c].
    by apply startMigrate_ready.
  - eapply total_bind; [apply slot_assign_ready | intros ?].
    by apply total_ret.
Qed.

Lemma recoveryMeasure_ready (fromCircle toCircle : nat) (fromCircleNum : Z)
    (l : loc) (url : string) (N : nat)
    (recoveryBackendUrlMap : gmap string bool) (db : string)
    (migrateCount : Z) (measure : string) :
  neverFails → toCircle < N →
  total (workerReady Recovering fromCircle fromCircleNum l url N)
    (recoveryMeasure (Some l) url fromCircle toCircle fromCircleNum
       recoveryBackendUrlMap db migrateCount measure)
    (λ _, workerReady Recovering fromCircle fromCircleNum l url N).
Proof.
  intros Hnf Hto. apply total_atRest. intros Hlt. unfold recoveryMeasure.
  eapply total_bind; [apply slot_assign_ready | intros ?].
  eapply total_bind; [by apply Router_Get_ready | intros r].
  destruct (r.2).
  { eapply total_bind; [by apply circle_at_ready | intros f].
    eapply total_bind; [by apply circle_at_ready | intros t].
    eapply total_bind; [apply emit_ready | intros ?].
    by apply total_ret. }
  destruct (recoveryBackendUrlMap !! r.1).
  - eapply total_bind; [apply slot_assign_ready | intros ?].
    eapply total_bind; [apply emit_ready | intros ?].
    eapply total_bind; [by apply circle_at_ready | intros c].
    by apply startMigrate_ready.
  - eapply total_bind; [apply slot_assign_ready | intros ?].
    by apply total_ret.
Qed.

Lemma resyncTargets_ready (circle : nat) (circleNum : Z) (l : loc)
    (url : string) (N : nat) (db measure : string) :
  total (workerReady Resyncing circle circleNum l url N)
    (resyncTargets circle circleNum db measure)
    (λ _, workerReady Resyncing circle circleNum l url N).
Proof.
  apply total_atRest. intros Hlt s Hs. unfold resyncTargets, get_proxy.
  rewrite bind_gets.
  pose proof Hs as [(_ & Hlen & _) _].
  refine (total_foldM _ _ _ _ [] s Hs).
  intros dst toCircle [_ Hto]%elem_of_seq. rewrite Hlen in Hto. simpl in Hto.
  eapply total_bind; [by apply circle_at_ready | intros t].
  destruct (decide (Circle.CircleNum t ≠ circleNum)); [|by apply total_ret].
  eapply total_bind; [by apply Router_Get_ready | intros r].
  destruct (r.2); [|by apply total_ret].
  eapply total_bind; [by apply circle_at_ready | intros c].
  eapply total_bind; [apply emit_ready | intros ?].
  by apply total_ret.
Qed.

Lemma resyncMeasure_ready (circle : nat) (circleNum : Z) (l : loc)
    (url : string) (N : nat) (lastSeconds : Z) (db : string)
    (migrateCount : Z) (measure : string) :
  neverFails →
  total (workerReady Resyncing circle circleNum l url N)
    (resyncMeasure (Some l) url circle circleNum lastSeconds db migrateCount
       measure)
    (λ _, workerReady Resyncing circle circleNum l url N).
Proof.
  intros Hnf. unfold resyncMeasure.
  eapply total_bind; [apply slot_assign_ready | intros ?].
  eapply total_bind; [apply resyncTargets_ready | intros dst].
  destruct (0 <? GoInt.len dst)%Z.
  - eapply total_bind; [apply slot_assign_ready | intros ?].
    eapply total_bind; [apply emit_ready | intros ?].
    by apply startMigrate_ready.
  - eapply total_bind; [apply slot_assign_ready | intros ?].
    by apply total_ret.
Qed.

Lemma circle_at_source w (circle : nat) (circleNum : Z) (l : loc)
    (url : string) (N : nat) :
  total (workerReady w circle circleNum l url N) (circle_at circle)
    (λ c s, workerReady w circle circleNum l url N s ∧
            Circle.CircleNum c = circleNum).
Proof.
  intros s Hs.
  pose proof Hs as [(_ & _ & _ & _ & c & b & Hc & _ & _ & Hnum & _) _].
  unfold circle_at, get_proxy. run. rewrite Hc.
  exists c, s. split; [reflexivity |]. split; assumption.
Qed.

(** The part of a worker that follows the clearing of the table. *)
Lemma pass_ready w (circle : nat) (circleNum : Z) (l : loc) (url : string)
    (N : nat) (body : string → string → Z → string → M Z)
    (databases : list string) :
  (∀ db migrateCount measure,
     total (workerReady w circle circleNum l url N)
       (body url db migrateCount measure)
       (λ _, workerReady w circle circleNum l url N)) →
  total (workerReady w circle circleNum l url N)
    (b <- deref (Some l) ;;
     slot_assign w circleNum (Backend.Url b)
       (MigrationInfo.set_CircleNum circleNum) ;;
     _ <- foldM (scanDatabase w b circleNum (body (Backend.Url b)))
            databases 0%Z ;;
     ret tt)
    (λ _, workerReady w circle circleNum l url N).
Proof.
  intros Hbody.
  eapply total_bind; [apply deref_ready | intros b].
  apply total_pre. intros Hu. rewrite Hu.
  eapply total_bind; [apply slot_assign_ready | intros ?].
  eapply total_bind;
    [apply total_foldM; intros mc db ?;
     apply scanDatabase_ready; [done | intros; apply Hbody] |].
  intros ?. by apply total_ret.
Qed.

(** X17. When no migration fails, the three workers run to their end:
    from a state in which the rings are in place, [MigrateMaxCpus] is not
    zero, the source has its slot in the table of the workflow, no
    migration is in flight on the wait group of the source and the wait
    group of the circle counts the worker, [RebalanceBackend],
    [RecoveryBackend] and [ResyncBackend] return, over any databases. *)
Theorem workers_return_when_no_migration_fails (circle : nat) (l : loc)
    (url : string) (N : nat) (databases : list string) (s : State.t) :
  neverFails →
  (∀ w, workerReady w circle (Z.of_nat circle) l url N s) →
  (∃ s', RebalanceBackend (Some l) (Z.of_nat circle) databases s
         = (Ret tt, s')) ∧
  (∀ toCircle urlMap, toCircle < N →
     ∃ s', RecoveryBackend (Some l) circle toCircle urlMap databases s
           = (Ret tt, s')) ∧
  (∀ lastSeconds,
     ∃ s', ResyncBackend (Some l) circle databases lastSeconds s
           = (Ret tt, s')).
Proof.
  intros Hnf Hs.
  split; [|split].
  - assert (total (workerReady Rebalancing circle (Z.of_nat circle) l url N)
              (RebalanceBackend (Some l) (Z.of_nat circle) databases)
              (λ _ _, True)) as Ht;
      [|destruct (Ht s (Hs Rebalancing)) as ([] & s' & Hrun & _);
        by exists s'].
    unfold RebalanceBackend.
    eapply total_bind; [apply ClearMigrateStatus_ready | intros ?].
    eapply total_bind.
    { instantiate (1 := λ c s0,
        workerReady Rebalancing circle (Z.of_nat circle) l url N s0 ∧
        c = circle).
      intros s0 Hs0. pose proof Hs0 as [(_ & _ & _ & _ & c & b & Hc & _) _].
      unfold Circles_index, get_proxy. run.
      assert (GoInt.index (Proxy.Circles (State.proxy s0)) (Z.of_nat circle)
              = Some c) as ->.
      { apply GoInt_index_Some. split; [lia |]. by rewrite Nat2Z.id. }
      cbn [must]. run. rewrite Nat2Z.id. by exists circle, s0. }
    intros c. apply total_pre. intros ->.
    eapply total_with_defer;
      [|intros ?; apply WgMigrate_Done_ready].
    apply (pass_ready Rebalancing circle (Z.of_nat circle) l url N
             (λ u, rebalanceMeasure (Some l) u circle (Z.of_nat circle))).
    intros db mc measure. by apply rebalanceMeasure_ready.
  - intros toCircle urlMap Hto.
    assert (total (workerReady Recovering circle (Z.of_nat circle) l url N)
              (RecoveryBackend (Some l) circle toCircle urlMap databases)
              (λ _ _, True)) as Ht;
      [|destruct (Ht s (Hs Recovering)) as ([] & s' & Hrun & _);
        by exists s'].
    unfold RecoveryBackend.
    eapply total_with_defer;
      [|intros ?; apply WgMigrate_Done_ready].
    eapply total_bind; [apply circle_at_source | intros f].
    apply total_pre. intros ->.
    eapply total_bind; [apply ClearMigrateStatus_ready | intros ?].
    apply (pass_ready Recovering circle (Z.of_nat circle) l url N
             (λ u, recoveryMeasure (Some l) u circle toCircle
                     (Z.of_nat circle) urlMap)).
    intros db mc measure. by apply recoveryMeasure_ready.
  - intros lastSeconds.
    assert (total (workerReady Resyncing circle (Z.of_nat circle) l url N)
              (ResyncBackend (Some l) circle databases lastSeconds)
              (λ _ _, True)) as Ht;
      [|destruct (Ht s (Hs Resyncing)) as ([] & s' & Hrun & _);
        by exists s'].
    unfold ResyncBackend.
    eapply total_with_defer;
      [|intros ?; apply WgMigrate_Done_ready].
    eapply total_bind; [apply circle_at_source | intros c].
    apply total_pre. intros ->.
    eapply total_bind; [apply ClearMigrateStatus_ready | intros ?].
    apply (pass_ready Resyncing circle (Z.of_nat circle) l url N
             (λ u, resyncMeasure (Some l) u circle (Z.of_nat circle)
                     lastSeconds)).
    intros db mc measure. by apply resyncMeasure_ready.
Qed.
End Liveness.

(** ** What the workers migrate *)

Section Migrations.
Context `{BackendPkg}.

Global Instance quiet_preorder : PreOrder quiet.
Proof.
  split.
  - intros s. repeat split. exists []. by rewrite app_nil_r.
  - intros s1 s2 s3 (Hw1 & Hh1 & e1 & He1 & Hq1) (Hw2 & Hh2 & e2 & He2 & Hq2).
    split; [congruence |]. split; [congruence |]. exists (e1 ++ e2).
    rewrite He2, He1, <- app_assoc. split; [done |].
    rewrite forallb_app. by rewrite Hq1, Hq2.
Qed.

Global Instance migrates_preorder P : PreOrder (migrates P).
Proof.
  split.
  - intros s. repeat split. exists []. split; [by rewrite app_nil_r |].
    by intros call ?%elem_of_nil.
  - intros s1 s2 s3 (Hw1 & Hh1 & e1 & He1 & Hp1) (Hw2 & Hh2 & e2 & He2 & Hp2).
    split; [congruence |]. split; [congruence |]. exists (e1 ++ e2).
    rewrite He2, He1, <- app_assoc. split; [done |].
    intros call [Hin | Hin]%elem_of_app; [by apply Hp1 |].
    rewrite <- Hw1. by apply Hp2.
Qed.

Lemma quiet_migrates P (s s' : State.t) : quiet s s' → migrates P s s'.
Proof.
  intros (Hw & Hh & evs & Hevs & Hq). split; [done |]. split; [done |].
  exists evs. split; [done |]. intros call Hin. exfalso. clear Hevs.
  induction evs as [|e evs IH]; [by apply elem_of_nil in Hin |].
  simpl in Hq. apply andb_true_iff in Hq as [Hq0 Hq].
  apply elem_of_cons in Hin as [<- | Hin]; [done | by apply IH].
Qed.

Lemma quiet_emit (e : Event) : isGoMigrate e = false → steps quiet (emit e).
Proof.
  intros He. unfold emit. apply steps_modify. intros s.
  repeat split. exists [e]. split; [done |]. simpl. by rewrite He.
Qed.

Lemma quiet_proxy (s : State.t) (p : Proxy.t) :
  Proxy.Circles p = Proxy.Circles (State.proxy s) →
  quiet s (State.set_proxy p s).
Proof.
  intros Hc. split; [|split; [done |]].
  - unfold wiring. cbn. by rewrite Hc.
  - exists []. by rewrite app_nil_r.
Qed.

Lemma circle_modify_quiet (c : nat) (f : Circle.t → Circle.t) :
  (∀ x, (Circle.CircleNum (f x), Circle.Router (f x),
         Circle.UrlToBackend (f x))
        = (Circle.CircleNum x, Circle.Router x, Circle.UrlToBackend x)) →
  steps quiet (circle_modify c f).
Proof.
  intros Hf s r s'. unfold circle_modify, circle_at, get_proxy, modify_proxy.
  run. destruct (Proxy.Circles (State.proxy s) !! c) as [x|] eqn:Hx;
    cbn [must]; run; [|intros [= <- <-]; reflexivity].
  intros [= <- <-]. split; [|split; [done |]].
  - unfold wiring. cbn. rewrite list_fmap_insert, Hf.
    apply list_insert_id. by rewrite list_lookup_fmap, Hx.
  - exists []. by rewrite app_nil_r.
Qed.

Lemma status_put_quiet w circleNum tb : steps quiet (status_put w circleNum tb).
Proof.
  unfold status_put, status_at, get_proxy, modify_proxy. steps_structure.
  apply quiet_proxy. by destruct w.
Qed.

Lemma slot_assign_quiet w circleNum url f :
  steps quiet (slot_assign w circleNum url f).
Proof.
  unfold slot_assign, status_at, get_proxy. steps_structure.
  apply status_put_quiet.
Qed.

Lemma ClearMigrateStatus_quiet w circleNum :
  steps quiet (ClearMigrateStatus w circleNum).
Proof.
  unfold ClearMigrateStatus, status_at, get_proxy. steps_structure.
  apply status_put_quiet.
Qed.

Lemma BackendWg_Add_quiet c url delta : steps quiet (BackendWg_Add c url delta).
Proof.
  unfold BackendWg_Add, circle_at, get_proxy. steps_structure.
  by apply circle_modify_quiet.
Qed.

Lemma WgMigrate_Add_quiet c delta : steps quiet (WgMigrate_Add c delta).
Proof.
  unfold WgMigrate_Add, circle_at, get_proxy. steps_structure.
  by apply circle_modify_quiet.
Qed.

Lemma Migrate_quiet call : steps quiet (Migrate call).
Proof.
  unfold Migrate, deref, BackendWg_Done. steps_structure.
  - by apply quiet_emit.
  - apply BackendWg_Add_quiet.
Qed.

Lemma BackendWg_Wait_quiet c url : steps quiet (BackendWg_Wait c url).
Proof.
  unfold BackendWg_Wait, circle_at, get_proxy. steps_structure.
  - by apply quiet_emit.
  - repeat split. exists []. by rewrite app_nil_r.
  - apply Migrate_quiet.
Qed.

(** [startMigrate] starts the migration it is given and no other. *)
Lemma startMigrate_migrates call url migrateCount :
  steps (migrates (λ _ call', call' = call))
    (startMigrate call url migrateCount).
Proof.
  unfold startMigrate, go_Migrate, get_proxy. steps_structure.
  - eapply steps_weaken; [apply quiet_migrates | apply BackendWg_Add_quiet].
  - unfold emit. apply steps_modify. intros s. repeat split.
    eexists [_]. split; [done |].
    by intros call' [= ->]%list_elem_of_singleton.
  - repeat split. exists []. split; [by rewrite app_nil_r |].
    by intros call' ?%elem_of_nil.
  - eapply steps_weaken; [apply quiet_migrates | apply BackendWg_Wait_quiet].
Qed.

(** A run from a state that a run in [R] has led to. *)
Lemma spec_after {A} (R : relation State.t) `{!PreOrder R} (s0 : State.t)
    (m : M A) :
  steps R m → spec (R s0) m (λ _, R s0) (R s0).
Proof.
  intros Hm s r s' HR Hrun.
  assert (R s0 s') by (etrans; [done | by eapply Hm]). by destruct r.
Qed.

Lemma spec_quiet {A} P (s0 : State.t) (m : M A) :
  steps quiet m → spec (migrates P s0) m (λ _, migrates P s0) (migrates P s0).
Proof.
  intros Hm. apply spec_after; [apply _ |].
  eapply steps_weaken; [apply quiet_migrates | done].
Qed.

Lemma steps_of_spec {A} (R : relation State.t) `{!PreOrder R} (m : M A) :
  (∀ s0, spec (R s0) m (λ _, R s0) (R s0)) → steps R m.
Proof.
  intros Hm s r s' Hrun. specialize (Hm s s r s' (reflexivity s) Hrun).
  by destruct r.
Qed.

Lemma steps_foldM_elem {A B} (R : relation State.t) `{!PreOrder R}
    (body : B → A → M B) (l : list A) (b : B) :
  (∀ b x, x ∈ l → steps R (body b x)) → steps R (foldM body l b).
Proof.
  revert b. induction l as [|x l IH]; intros b Hb; simpl.
  - by apply steps_ret.
  - apply steps_bind; [done | apply Hb; left | intros b'].
    apply IH. intros b'' x' Hx'. apply Hb. by right.
Qed.

Lemma migrates_close P (call : MigrateCall) (s0 s1 s' : State.t) :
  migrates P s0 s1 → migrates (λ _ call', call' = call) s1 s' →
  P (wiring s0) call → migrates P s0 s'.
Proof.
  intros (Hw1 & Hh1 & e1 & He1 & Hp1) (Hw2 & Hh2 & e2 & He2 & Hp2) HP.
  split; [congruence |]. split; [congruence |]. exists (e1 ++ e2).
  rewrite He2, He1, <- app_assoc. split; [done |].
  intros call' [Hin | Hin]%elem_of_app; [by apply Hp1 |].
  by rewrite (Hp2 call' Hin).
Qed.

(** The wiring of the circle a run in [migrates] reads. *)
Lemma spec_circle_at_wiring P (s0 : State.t) (c : nat) :
  spec (migrates P s0) (circle_at c)
    (λ x s, migrates P s0 s ∧
       wiring s0 !! c
       = Some (Circle.CircleNum x, Circle.Router x, Circle.UrlToBackend x))
    (migrates P s0).
Proof.
  intros s r s' HR Hrun. destruct r as [x | |].
  - apply circle_at_inv in Hrun as [-> Hx]. split; [done |].
    destruct HR as (Hw & _). rewrite <- Hw. unfold wiring.
    by rewrite list_lookup_fmap, Hx.
  - revert Hrun. unfold circle_at, get_proxy. run.
    destruct (Proxy.Circles (State.proxy s) !! c); cbn [must]; [done |].
    by intros [= <-].
  - revert Hrun. unfold circle_at, get_proxy. run.
    by destruct (Proxy.Circles (State.proxy s) !! c).
Qed.

Lemma spec_Router_Get_wiring P (s0 : State.t) (c : nat) (key : string) :
  spec (migrates P s0) (Router_Get c key)
    (λ r s, migrates P s0 s ∧
       ∃ n ro idx, wiring s0 !! c = Some (n, Some ro, idx) ∧
         r = consistent_Get ro key)
    (migrates P s0).
Proof.
  unfold Router_Get.
  eapply spec_bind; [apply spec_circle_at_wiring | intros x].
  intros s r s' [HR Hx]. destruct (Circle.Router x) as [ro|] eqn:Hro;
    cbn [must]; run; [|by intros [= <- <-]].
  intros [= <- <-]. split; [done |]. by eexists _, ro, _.
Qed.

Lemma rebalanceMeasure_migrates (l : loc) (url : string) (circle : nat)
    (circleNum : Z) (databases : list string)
    (measurements : string → list string) (db : string) (migrateCount : Z)
    (measure : string) :
  db ∈ databases → measure ∈ measurements db →
  steps (migrates (rebalanceCall l url circle databases measurements))
    (rebalanceMeasure (Some l) url circle circleNum db migrateCount measure).
Proof.
  intros Hdb Hme. apply steps_of_spec; [apply _ |]. intros s0.
  unfold rebalanceMeasure.
  eapply spec_bind; [apply spec_quiet, slot_assign_quiet | intros ?].
  eapply spec_bind; [apply spec_Router_Get_wiring | intros r].
  apply (spec_pre_weaken _
    (λ s, migrates (rebalanceCall l url circle databases measurements) s0 s ∧
          ∃ n ro idx, wiring s0 !! circle = Some (n, Some ro, idx) ∧
            r = consistent_Get ro (db +:+ "," +:+ measure))); [done |].
  apply spec_pre. intros (n & ro & idx & HW & ->).
  apply (spec_bind _ _ _
    (λ _, migrates (rebalanceCall l url circle databases measurements) s0)).
  { apply spec_quiet.
    destruct ((consistent_Get ro (db +:+ "," +:+ measure)).2).
    - unfold circle_at, get_proxy. steps_structure. by apply quiet_emit.
    - apply steps_ret; apply _. }
  intros ?. destruct (decide _) as [Hne | Heq].
  - eapply spec_bind; [apply spec_quiet, slot_assign_quiet | intros ?].
    eapply spec_bind; [apply spec_quiet; by apply quiet_emit | intros ?].
    eapply spec_bind; [apply spec_circle_at_wiring | intros c].
    intros s r s' [HR Hc] Hrun.
    apply startMigrate_migrates in Hrun.
    assert (migrates (rebalanceCall l url circle databases measurements)
              s0 s') as Hfin; [|by destruct r].
    eapply migrates_close; [done | done |].
    repeat split; try done. cbn.
    exists n, ro, idx. split; [done |]. split; [done |].
    rewrite HW in Hc. by injection Hc as _ _ ->.
  - eapply spec_bind; [apply spec_quiet, slot_assign_quiet | intros ?].
    apply spec_quiet. apply steps_ret; apply _.
Qed.

Lemma recoveryMeasure_migrates (l : loc) (url : string)
    (fromCircle toCircle : nat) (fromCircleNum : Z)
    (urlMap : gmap string bool) (databases : list string)
    (measurements : string → list string) (db : string) (migrateCount : Z)
    (measure : string) :
  db ∈ databases → measure ∈ measurements db →
  steps (migrates (recoveryCall l fromCircle toCircle urlMap databases
                     measurements))
    (recoveryMeasure (Some l) url fromCircle toCircle fromCircleNum urlMap
       db migrateCount measure).
Proof.
  intros Hdb Hme. apply steps_of_spec; [apply _ |]. intros s0.
  unfold recoveryMeasure.
  eapply spec_bind; [apply spec_quiet, slot_assign_quiet | intros ?].
  eapply spec_bind; [apply spec_Router_Get_wiring | intros r].
  apply (spec_pre_weaken _
    (λ s, migrates (recoveryCall l fromCircle toCircle urlMap databases
                      measurements) s0 s ∧
          ∃ n ro idx, wiring s0 !! toCircle = Some (n, Some ro, idx) ∧
            r = consistent_Get ro (db +:+ "," +:+ measure))); [done |].
  apply spec_pre. intros (n & ro & idx & HW & ->).
  destruct (consistent_Get ro (db +:+ "," +:+ measure)) as [target [err|]]
    eqn:Hget; cbn [fst snd].
  { apply spec_quiet. unfold circle_at, get_proxy. steps_structure.
    by apply quiet_emit. }
  destruct (urlMap !! target) as [v|] eqn:Hurl.
  - eapply spec_bind; [apply spec_quiet, slot_assign_quiet | intros ?].
    eapply spec_bind; [apply spec_quiet; by apply quiet_emit | intros ?].
    eapply spec_bind; [apply spec_circle_at_wiring | intros c].
    intros s r s' [HR Hc] Hrun.
    apply startMigrate_migrates in Hrun.
    assert (migrates (recoveryCall l fromCircle toCircle urlMap databases
                        measurements) s0 s') as Hfin; [|by destruct r].
    eapply migrates_close; [done | done |].
    repeat split; try done. cbn.
    exists n, ro, idx, target. split; [done |]. split; [done |].
    split; [by eexists |].
    rewrite HW in Hc. by injection Hc as _ _ ->.
  - eapply spec_bind; [apply spec_quiet, slot_assign_quiet | intros ?].
    apply spec_quiet. apply steps_ret; apply _.
Qed.

Lemma resyncDestinations_snoc (circleNum : Z) (key : string)
    (W : list (Z * option Consistent * gmap string loc)) (n : nat) t :
  W !! n = Some t →
  resyncDestinations circleNum key (take (S n) W)
  = resyncDestinations circleNum key (take n W)
    ++ resyncDestinations circleNum key [t].
Proof.
  intros Ht. rewrite (take_S_r _ _ _ Ht). unfold resyncDestinations.
  by rewrite omap_app.
Qed.

Lemma resyncDestinations_one (circleNum : Z) (key : string) (n : Z)
    (r : option Consistent) (idx : gmap string loc) :
  resyncDestinations circleNum key [(n, r, idx)]
  = match (if decide (n ≠ circleNum) then
             match r with
             | Some ro =>
                 match (consistent_Get ro key).2 with
                 | None => Some (idx !! (consistent_Get ro key).1)
                 | Some _ => None
                 end
             | None => None
             end
           else None) with
    | Some d => [d]
    | None => []
    end.
Proof.
  unfold resyncDestinations. simpl.
  by destruct (if decide (n ≠ circleNum) then _ else _).
Qed.

(** The destinations [resyncTargets] collects. *)
Lemma resyncTargets_wiring P (s0 : State.t) (circle : nat) (circleNum : Z)
    (db measure : string) :
  spec (migrates P s0) (resyncTargets circle circleNum db measure)
    (λ dst s, migrates P s0 s ∧
       dst = resyncDestinations circleNum (db +:+ "," +:+ measure)
               (wiring s0))
    (migrates P s0).
Proof.
  unfold resyncTargets, get_proxy.
  intros s r s' HR. rewrite bind_gets.
  assert (length (Proxy.Circles (State.proxy s)) = length (wiring s0)) as Hlen.
  { destruct HR as (<- & _). unfold wiring. by rewrite length_fmap. }
  rewrite Hlen. clear Hlen. revert s r s' HR.
  change (spec (migrates P s0)
    (foldM (λ dstBackends toCircle,
       t <- circle_at toCircle ;;
       if decide (Circle.CircleNum t ≠ circleNum) then
         r <- Router_Get toCircle (db +:+ "," +:+ measure) ;;
         match r.2 with
         | Some err =>
             c <- circle_at circle ;;
             emit (LogRouterGet [(Circle.Name c, Circle.CircleNum c);
                                 (Circle.Name t, Circle.CircleNum t)]
                     db measure err) ;;
             ret dstBackends
         | None => ret (dstBackends ++ [Circle.UrlToBackend t !! r.1])
         end
       else ret dstBackends) (seq 0 (length (wiring s0))) [])
    (λ dst s, migrates P s0 s ∧
       dst = resyncDestinations circleNum (db +:+ "," +:+ measure)
               (wiring s0))
    (migrates P s0)).
  eapply spec_conseq;
    [apply (spec_foldM _ _
              (λ n dst s, migrates P s0 s ∧
                 dst = resyncDestinations circleNum (db +:+ "," +:+ measure)
                         (take n (wiring s0)))
              (migrates P s0))
    | | | done].
  - intros n dst x Hx. apply lookup_seq in Hx as [-> Hn]. simpl.
    apply spec_pre. intros ->.
    eapply spec_bind; [apply spec_circle_at_wiring | intros t].
    apply spec_pre. intros Ht.
    rewrite (resyncDestinations_snoc _ _ _ _ _ Ht).
    rewrite resyncDestinations_one.
    destruct (decide (Circle.CircleNum t ≠ circleNum)) as [Hne | Heq].
    2:{ apply spec_ret. intros s Hs. split; [done |].
        by rewrite app_nil_r. }
    eapply spec_bind; [apply spec_Router_Get_wiring | intros r].
    apply (spec_pre_weaken _
      (λ s, migrates P s0 s ∧
            ∃ n0 ro idx, wiring s0 !! n = Some (n0, Some ro, idx) ∧
              r = consistent_Get ro (db +:+ "," +:+ measure))); [done |].
    apply spec_pre. intros (n0 & ro & idx & HW & ->).
    rewrite Ht in HW. injection HW as _ Hro _. rewrite Hro.
    destruct ((consistent_Get ro (db +:+ "," +:+ measure)).2) as [err|].
    + eapply spec_bind.
      { apply spec_quiet. unfold circle_at, get_proxy. steps_structure. }
      intros c. eapply spec_bind; [apply spec_quiet; by apply quiet_emit |].
      intros ?. apply spec_ret. intros s Hs. split; [done |].
      by rewrite app_nil_r.
    + apply spec_ret. by intros s Hs.
  - intros s Hs. split; [done |]. by rewrite take_0.
  - intros dst s [Hs ->]. split; [done |].
    by rewrite length_seq, firstn_all.
Qed.

Lemma resyncMeasure_migrates (l : loc) (url : string) (circle : nat)
    (circleNum : Z) (lastSeconds : Z) (databases : list string)
    (measurements : string → list string) (db : string) (migrateCount : Z)
    (measure : string) :
  db ∈ databases → measure ∈ measurements db →
  steps (migrates (resyncCall l circle circleNum lastSeconds databases
                     measurements))
    (resyncMeasure (Some l) url circle circleNum lastSeconds db migrateCount
       measure).
Proof.
  intros Hdb Hme. apply steps_of_spec; [apply _ |]. intros s0.
  unfold resyncMeasure.
  eapply spec_bind; [apply spec_quiet, slot_assign_quiet | intros ?].
  eapply spec_bind; [apply resyncTargets_wiring | intros dst].
  apply spec_pre. intros ->.
  destruct (0 <? GoInt.len _)%Z eqn:Hlen.
  - eapply spec_bind; [apply spec_quiet, slot_assign_quiet | intros ?].
    eapply spec_bind; [apply spec_quiet; by apply quiet_emit | intros ?].
    intros s r s' HR Hrun.
    apply startMigrate_migrates in Hrun.
    assert (migrates (resyncCall l circle circleNum lastSeconds databases
                        measurements) s0 s') as Hfin; [|by destruct r].
    eapply migrates_close; [done | done |].
    repeat split; try done. cbn. intros Hnil. rewrite Hnil in Hlen.
    done.
  - eapply spec_bind; [apply spec_quiet, slot_assign_quiet | intros ?].
    apply spec_quiet. apply steps_ret; apply _.
Qed.

Lemma spec_deref_heap P (s0 : State.t) (l : loc) :
  spec (migrates P s0) (deref (Some l))
    (λ b s, migrates P s0 s ∧ State.heap s0 !! l = Some b)
    (migrates P s0).
Proof.
  intros s r s' HR Hrun. destruct r as [b | |].
  - apply deref_Ret_inv in Hrun as [-> Hb]. split; [done |].
    destruct HR as (_ & <- & _). done.
  - revert Hrun. unfold deref. cbn [must]. run.
    destruct (State.heap s !! l); cbn [must]; [done | by intros [= <-]].
  - revert Hrun. unfold deref. cbn [must]. run.
    by destruct (State.heap s !! l).
Qed.

Lemma spec_with_defer_after {A} (R : relation State.t) `{!PreOrder R}
    (s0 : State.t) (d : M unit) (m : M A) :
  spec (R s0) m (λ _, R s0) (R s0) → steps R d →
  spec (R s0) (with_defer d m) (λ _, R s0) (R s0).
Proof.
  intros Hm Hd s r s' HR Hrun. unfold with_defer in Hrun.
  destruct (m s) as [[a | |] s1] eqn:Hms.
  - pose proof (Hm s _ _ HR Hms) as H1s. cbn in H1s.
    assert (R s0 s'); [|by destruct r].
    etrans; [exact H1s |].
    eapply (steps_bind R d (λ _, ret a)); [done | | done].
    intros ?. by apply steps_ret.
  - pose proof (Hm s _ _ HR Hms) as H1s. cbn in H1s.
    assert (R s0 s'); [|by destruct r].
    etrans; [exact H1s |].
    eapply (steps_bind R d (λ _, panic)); [done | | done].
    intros ?. by apply steps_panic.
  - injection Hrun as <- <-. apply (Hm s _ _ HR Hms).
Qed.

(** The part of a worker that follows the clearing of the table, for a
    source whose backend the heap held at the start. *)
Lemma pass_migrates P w (s0 : State.t) (l : loc) (b : Backend.t)
    (circleNum : Z) (body : string → string → Z → string → M Z)
    (databases : list string) :
  State.heap s0 !! l = Some b →
  (∀ db migrateCount measure,
     db ∈ databases → measure ∈ GetMeasurements b db →
     steps (migrates P) (body (Backend.Url b) db migrateCount measure)) →
  spec (migrates P s0)
    (b <- deref (Some l) ;;
     slot_assign w circleNum (Backend.Url b)
       (MigrationInfo.set_CircleNum circleNum) ;;
     _ <- foldM (scanDatabase w b circleNum (body (Backend.Url b)))
            databases 0%Z ;;
     ret tt)
    (λ _, migrates P s0) (migrates P s0).
Proof.
  intros Hb Hbody.
  eapply spec_bind; [apply spec_deref_heap | intros b'].
  apply spec_pre. rewrite Hb. intros [= <-].
  apply spec_after; [apply _ |].
  apply steps_bind; [apply _ | |intros ?].
  { eapply steps_weaken; [apply quiet_migrates | apply slot_assign_quiet]. }
  apply steps_bind; [apply _ | |intros ?; apply steps_ret; apply _].
  apply steps_foldM_elem; [apply _ |]. intros mc db Hdb.
  unfold scanDatabase.
  apply steps_bind; [apply _ | |intros ?].
  { eapply steps_weaken; [apply quiet_migrates | apply slot_assign_quiet]. }
  apply steps_bind; [apply _ | |intros ?].
  { eapply steps_weaken; [apply quiet_migrates | apply slot_assign_quiet]. }
  apply steps_foldM_elem; [apply _ |]. intros mc' measure Hme.
  by apply Hbody.
Qed.

(** X18. Every migration a [RebalanceBackend] starts, however it ends,
    is of a measurement that the source holds in one of the databases and
    that the ring of the circle gives to a URL other than that of the
    source; its one destination is the backend the index of the circle has
    under that URL, and it has no limit of time. The rings, the indices and
    the backends are left as they were. *)
Theorem RebalanceBackend_migrates_the_misplaced (l : loc) (b : Backend.t)
    (circle : nat) (databases : list string) (s : State.t) res
    (s' : State.t) :
  State.heap s !! l = Some b →
  RebalanceBackend (Some l) (Z.of_nat circle) databases s = (res, s') →
  migrates
    (rebalanceCall l (Backend.Url b) circle databases (GetMeasurements b))
    s s'.
Proof.
  intros Hb Hrun.
  set (P := rebalanceCall l (Backend.Url b) circle databases
              (GetMeasurements b)).
  assert (spec (migrates P s)
            (RebalanceBackend (Some l) (Z.of_nat circle) databases)
            (λ _, migrates P s) (migrates P s)) as Hspec.
  { unfold RebalanceBackend.
    eapply spec_bind; [apply spec_quiet, ClearMigrateStatus_quiet |].
    intros ?. unfold Circles_index, get_proxy.
    intros s1 r1 s1' HR. rewrite bind_assoc, bind_gets.
    destruct (GoInt.index (Proxy.Circles (State.proxy s1)) (Z.of_nat circle));
      cbn [must]; run; [|intros [= <- <-]; done].
    rewrite Nat2Z.id. revert s1 r1 s1' HR.
    change (spec (migrates P s)
      (with_defer (WgMigrate_Done circle)
         (b <- deref (Some l) ;;
          slot_assign Rebalancing (Z.of_nat circle) (Backend.Url b)
            (MigrationInfo.set_CircleNum (Z.of_nat circle)) ;;
          _ <- foldM
            (scanDatabase Rebalancing b (Z.of_nat circle)
               (rebalanceMeasure (Some l) (Backend.Url b) circle
                  (Z.of_nat circle)))
            databases 0%Z ;;
          ret tt))
      (λ _, migrates P s) (migrates P s)).
    apply spec_with_defer_after; [apply _ | |].
    - apply (pass_migrates P Rebalancing s l b (Z.of_nat circle)
               (λ u, rebalanceMeasure (Some l) u circle (Z.of_nat circle))
               databases Hb).
      intros db mc measure Hdb Hme. by apply rebalanceMeasure_migrates.
    - eapply steps_weaken; [apply quiet_migrates |].
      apply WgMigrate_Add_quiet. }
  specialize (Hspec s res s' (reflexivity s) Hrun). by destruct res.
Qed.

Lemma circle_at_quiet (c : nat) : steps quiet (circle_at c).
Proof. unfold circle_at, get_proxy. steps_structure. Qed.

(** X19. Every migration a [RecoveryBackend] starts, however it ends,
    is of a measurement that the source holds in one of the databases and
    for which the ring of the circle recovered answers, without error,
    with a URL of the map of URLs it was given; its one destination is the
    backend the index of that circle has under the URL, and it has no
    limit of time. *)
Theorem RecoveryBackend_migrates_to_the_listed (l : loc) (b : Backend.t)
    (fromCircle toCircle : nat) (urlMap : gmap string bool)
    (databases : list string) (s : State.t) res (s' : State.t) :
  State.heap s !! l = Some b →
  RecoveryBackend (Some l) fromCircle toCircle urlMap databases s
  = (res, s') →
  migrates
    (recoveryCall l fromCircle toCircle urlMap databases (GetMeasurements b))
    s s'.
Proof.
  intros Hb Hrun.
  set (P := recoveryCall l fromCircle toCircle urlMap databases
              (GetMeasurements b)).
  assert (spec (migrates P s)
            (RecoveryBackend (Some l) fromCircle toCircle urlMap databases)
            (λ _, migrates P s) (migrates P s)) as Hspec.
  { unfold RecoveryBackend.
    apply spec_with_defer_after; [apply _ | |].
    - eapply spec_bind; [apply spec_quiet, circle_at_quiet | intros f].
      eapply spec_bind; [apply spec_quiet, ClearMigrateStatus_quiet |].
      intros ?.
      apply (pass_migrates P Recovering s l b (Circle.CircleNum f)
               (λ u, recoveryMeasure (Some l) u fromCircle toCircle
                       (Circle.CircleNum f) urlMap)
               databases Hb).
      intros db mc measure Hdb Hme. by apply recoveryMeasure_migrates.
    - eapply steps_weaken; [apply quiet_migrates |].
      apply WgMigrate_Add_quiet. }
  specialize (Hspec s res s' (reflexivity s) Hrun). by destruct res.
Qed.

(** X20. Every migration a [ResyncBackend] starts, however it ends, is
    of a measurement that the source holds in one of the databases, with
    the limit of time it was given; its destinations are, in the order of
    the circles, the backend that the index of each circle of another
    number has for the answer of its ring, the circles whose ring gives an
    error being left out, and they are at least one. The circle of the
    source is never among them. *)
Theorem ResyncBackend_migrates_to_the_other_circles (l : loc)
    (b : Backend.t) (circle : nat) (c : Circle.t) (databases : list string)
    (lastSeconds : Z) (s : State.t) res (s' : State.t) :
  State.heap s !! l = Some b →
  Proxy.Circles (State.proxy s) !! circle = Some c →
  ResyncBackend (Some l) circle databases lastSeconds s = (res, s') →
  migrates
    (resyncCall l circle (Circle.CircleNum c) lastSeconds databases
       (GetMeasurements b))
    s s'.
Proof.
  intros Hb Hc Hrun.
  set (P := resyncCall l circle (Circle.CircleNum c) lastSeconds databases
              (GetMeasurements b)).
  assert (spec (migrates P s)
            (ResyncBackend (Some l) circle databases lastSeconds)
            (λ _, migrates P s) (migrates P s)) as Hspec.
  { unfold ResyncBackend.
    apply spec_with_defer_after; [apply _ | |].
    - eapply spec_bind; [apply spec_circle_at_wiring | intros c'].
      apply spec_pre. unfold wiring at 1.
      rewrite list_lookup_fmap, Hc. simpl. intros [= Hnum _ _].
      rewrite <- Hnum.
      eapply spec_bind; [apply spec_quiet, ClearMigrateStatus_quiet |].
      intros ?.
      apply (pass_migrates P Resyncing s l b (Circle.CircleNum c)
               (λ u, resyncMeasure (Some l) u circle (Circle.CircleNum c)
                       lastSeconds)
               databases Hb).
      intros db mc measure Hdb Hme. by apply resyncMeasure_migrates.
    - eapply steps_weaken; [apply quiet_migrates |].
      apply WgMigrate_Add_quiet. }
  specialize (Hspec s res s' (reflexivity s) Hrun). by destruct res.
Qed.
End Migrations.

(** ** The dispatchers *)

Section DispatcherFacts.
Context `{BackendPkg}.

Lemma bind_ext_on {A B} (m : M A) (f g : A → M B) (s : State.t) :
  (∀ a s1, m s = (Ret a, s1) → f a s1 = g a s1) →
  bind m f s = bind m g s.
Proof. intros Hfg. unfold bind. destruct (m s) as [[a | |] s1]; auto. Qed.

Lemma with_defer_ext_on {A} (d : M unit) (m m' : M A) (s : State.t) :
  m s = m' s → with_defer d m s = with_defer d m' s.
Proof. intros Hm. unfold with_defer. by rewrite Hm. Qed.

Lemma Circles_index_DbList circleNum :
  steps (same (λ s, Proxy.DbList (State.proxy s))) (Circles_index circleNum).
Proof. steps_auto; done. Qed.

Lemma SetIsMigrating_DbList c b :
  steps (same (λ s, Proxy.DbList (State.proxy s))) (SetIsMigrating c b).
Proof. steps_auto; done. Qed.

Lemma if_same {A} (b : bool) (x : A) : (if b then x else x) = x.
Proof. by destruct b. Qed.

(** X21. Given no database, the three dispatchers work on the
    databases of [DbList]: [Rebalance], [Recovery] and [Resync] do with an
    empty list what they do with [DbList] itself. *)
Theorem dispatchers_default_to_DbList (s : State.t) :
  (∀ backends circleNum,
     Rebalance backends circleNum [] s
     = Rebalance backends circleNum (Proxy.DbList (State.proxy s)) s) ∧
  (∀ fromCircleNum toCircleNum urls,
     Recovery fromCircleNum toCircleNum urls [] s
     = Recovery fromCircleNum toCircleNum urls
         (Proxy.DbList (State.proxy s)) s) ∧
  (∀ lastSeconds,
     Resync [] lastSeconds s
     = Resync (Proxy.DbList (State.proxy s)) lastSeconds s).
Proof.
  split; [|split].
  - intros backends circleNum. unfold Rebalance.
    unfold emit at 1 3. rewrite !bind_modify.
    apply bind_ext_on. intros circle s1 Hs1.
    apply Circles_index_DbList in Hs1.
    apply bind_ext_on. intros [] s2 Hs2.
    apply SetIsMigrating_DbList in Hs2.
    unfold get_proxy. rewrite !bind_gets.
    unfold same in *. cbn in Hs1. rewrite Hs2, Hs1.
    by rewrite if_same.
  - intros fromCircleNum toCircleNum urls. unfold Recovery.
    unfold emit at 1 3. rewrite !bind_modify.
    apply bind_ext_on. intros fromCircle s1 Hs1.
    apply Circles_index_DbList in Hs1.
    apply bind_ext_on. intros toCircle s2 Hs2.
    apply Circles_index_DbList in Hs2.
    apply bind_ext_on. intros [] s3 Hs3.
    apply SetIsMigrating_DbList in Hs3.
    apply bind_ext_on. intros [] s4 Hs4.
    apply SetIsMigrating_DbList in Hs4.
    apply with_defer_ext_on, with_defer_ext_on.
    unfold get_proxy. rewrite !bind_gets.
    unfold same in *. cbn in Hs1. rewrite Hs4, Hs3, Hs2, Hs1.
    by rewrite if_same.
  - intros lastSeconds. unfold Resync.
    unfold emit at 1 4. rewrite !bind_modify.
    unfold get_proxy. rewrite !bind_gets. cbn [State.proxy State.set_events].
    by rewrite if_same.
Qed.
End DispatcherFacts.

(** ** What the workers leave standing *)

Section Standing.
Context `{BackendPkg}.

Lemma standing_proxy (s : State.t) (p : Proxy.t) :
  withoutWaitGroups <$> Proxy.Circles p
  = withoutWaitGroups <$> Proxy.Circles (State.proxy s) →
  Proxy.set_status Rebalancing []
    (Proxy.set_status Recovering []
       (Proxy.set_status Resyncing [] (Proxy.set_Circles [] p)))
  = Proxy.set_status Rebalancing []
      (Proxy.set_status Recovering []
         (Proxy.set_status Resyncing []
            (Proxy.set_Circles [] (State.proxy s)))) →
  same standing s (State.set_proxy p s).
Proof. intros Hc Hp. unfold same, standing. cbn. by rewrite Hc, Hp. Qed.

Lemma circle_modify_standing (c : nat) (f : Circle.t → Circle.t) :
  (∀ x, withoutWaitGroups (f x) = withoutWaitGroups x) →
  steps (same standing) (circle_modify c f).
Proof.
  intros Hf s r s'. unfold circle_modify, circle_at, get_proxy, modify_proxy.
  run. destruct (Proxy.Circles (State.proxy s) !! c) as [x|] eqn:Hx;
    cbn [must]; run; [|by intros [= <- <-]].
  intros [= <- <-]. apply standing_proxy; [|done]. cbn.
  rewrite list_fmap_insert, Hf.
  apply list_insert_id. by rewrite list_lookup_fmap, Hx.
Qed.

Lemma status_put_standing w circleNum tb :
  steps (same standing) (status_put w circleNum tb).
Proof.
  unfold status_put, status_at, get_proxy, modify_proxy. steps_structure.
  apply standing_proxy; by destruct w.
Qed.

Lemma emit_standing e : steps (same standing) (emit e).
Proof. unfold emit. by apply steps_modify. Qed.

Ltac standing_leaves :=
  first
    [ apply status_put_standing
    | apply emit_standing
    | apply circle_modify_standing; done
    | done ].

Lemma slot_assign_standing w circleNum url f :
  steps (same standing) (slot_assign w circleNum url f).
Proof.
  unfold slot_assign, status_at, get_proxy. steps_structure; standing_leaves.
Qed.

Lemma BackendWg_Add_standing c url delta :
  steps (same standing) (BackendWg_Add c url delta).
Proof.
  unfold BackendWg_Add, circle_at, get_proxy.
  steps_structure; standing_leaves.
Qed.

Lemma WgMigrate_Add_standing c delta :
  steps (same standing) (WgMigrate_Add c delta).
Proof.
  unfold WgMigrate_Add, circle_at, get_proxy.
  steps_structure; standing_leaves.
Qed.

Lemma Migrate_standing call : steps (same standing) (Migrate call).
Proof.
  unfold Migrate, deref, BackendWg_Done. steps_structure;
    first [apply BackendWg_Add_standing | standing_leaves].
Qed.

Lemma BackendWg_Wait_standing c url :
  steps (same standing) (BackendWg_Wait c url).
Proof.
  unfold BackendWg_Wait, circle_at, get_proxy. steps_structure;
    first [apply Migrate_standing | standing_leaves].
Qed.

Lemma startMigrate_standing call url migrateCount :
  steps (same standing) (startMigrate call url migrateCount).
Proof.
  unfold startMigrate, go_Migrate, get_proxy. steps_structure;
    first [ apply BackendWg_Add_standing | apply BackendWg_Wait_standing
          | standing_leaves ].
Qed.

Ltac standing_worker :=
  steps_structure;
  first [ apply slot_assign_standing | apply startMigrate_standing
        | apply WgMigrate_Add_standing | standing_leaves ].

Lemma ClearMigrateStatus_standing w circleNum :
  steps (same standing) (ClearMigrateStatus w circleNum).
Proof.
  unfold ClearMigrateStatus, status_at, get_proxy.
  steps_structure; standing_leaves.
Qed.

Lemma RebalanceBackend_standing backend circleNum databases :
  steps (same standing) (RebalanceBackend backend circleNum databases).
Proof.
  unfold RebalanceBackend, scanDatabase, rebalanceMeasure, Circles_index,
    WgMigrate_Done, Router_Get, circle_at, deref, get_proxy.
  steps_structure;
    first [ apply ClearMigrateStatus_standing | apply slot_assign_standing
          | apply startMigrate_standing | apply WgMigrate_Add_standing
          | standing_leaves ].
Qed.

Lemma RecoveryBackend_standing backend fromCircle toCircle urlMap databases :
  steps (same standing)
    (RecoveryBackend backend fromCircle toCircle urlMap databases).
Proof.
  unfold RecoveryBackend, scanDatabase, recoveryMeasure,
    WgMigrate_Done, Router_Get, circle_at, deref, get_proxy.
  steps_structure;
    first [ apply ClearMigrateStatus_standing | apply slot_assign_standing
          | apply startMigrate_standing | apply WgMigrate_Add_standing
          | standing_leaves ].
Qed.

Lemma ResyncBackend_standing backend circle databases lastSeconds :
  steps (same standing) (ResyncBackend backend circle databases lastSeconds).
Proof.
  unfold ResyncBackend, scanDatabase, resyncMeasure, resyncTargets,
    WgMigrate_Done, Router_Get, circle_at, deref, get_proxy.
  steps_structure;
    first [ apply ClearMigrateStatus_standing | apply slot_assign_standing
          | apply startMigrate_standing | apply WgMigrate_Add_standing
          | standing_leaves ].
Qed.

(** X22. Whatever its end, a worker of any of the three workflows
    changes nothing of the circles but their wait groups: the name, the
    number, the backends, the ring, the index and the two flags of every
    circle stay, and so do the backends themselves and the fields of the
    proxy other than the status tables. *)
Theorem workers_leave_the_installation_standing :
  (∀ backend circleNum databases,
     steps (same standing) (RebalanceBackend backend circleNum databases)) ∧
  (∀ backend fromCircle toCircle urlMap databases,
     steps (same standing)
       (RecoveryBackend backend fromCircle toCircle urlMap databases)) ∧
  (∀ backend circle databases lastSeconds,
     steps (same standing)
       (ResyncBackend backend circle databases lastSeconds)).
Proof.
  split; [|split]; intros.
  - apply RebalanceBackend_standing.
  - apply RecoveryBackend_standing.
  - apply ResyncBackend_standing.
Qed.
End Standing.

(** ** The migrating flags of the dispatchers *)

Section Flags.
Context `{BackendPkg}.

Lemma standing_migrating (s s' : State.t) (c : nat) :
  same standing s s' → migrating s' c = migrating s c.
Proof.
  unfold same, standing, migrating. intros [= Hc _ _].
  apply (f_equal (λ l, Circle.IsMigrating <$> l !! c)) in Hc.
  by rewrite !list_lookup_fmap, <- !option_fmap_compose in Hc.
Qed.

Lemma SetIsMigrating_inv (c : nat) (b : bool) (s : State.t) r s' :
  SetIsMigrating c b s = (r, s') →
  match r with
  | Ret _ =>
      migrating s' c = Some b ∧
      ∀ c', c' ≠ c → migrating s' c' = migrating s c'
  | Panic => s' = s
  | Stuck => False
  end.
Proof.
  unfold SetIsMigrating, circle_modify, circle_at, get_proxy, modify_proxy.
  run. destruct (Proxy.Circles (State.proxy s) !! c) as [x|] eqn:Hx;
    cbn [must]; run; intros [= <- <-]; [|done].
  unfold migrating. cbn. split.
  - rewrite list_lookup_insert_eq; [done|]. by eapply lookup_lt_Some.
  - intros c' Hc'. by rewrite list_lookup_insert_ne.
Qed.

Lemma SetIsMigrating_Ret (c : nat) (b b0 : bool) (s : State.t) :
  migrating s c = Some b0 →
  ∃ s', SetIsMigrating c b s = (Ret tt, s').
Proof.
  unfold migrating. intros Hc.
  destruct (Proxy.Circles (State.proxy s) !! c) as [x|] eqn:Hx; [|done].
  eexists. unfold SetIsMigrating. by apply circle_modify_Ret.
Qed.

Lemma WgMigrate_Wait_standing {A} c (f : A → M unit) (l : list A) :
  (∀ a, steps (same standing) (f a)) →
  steps (same standing) (WgMigrate_Wait c (map f l)).
Proof.
  intros Hf. unfold WgMigrate_Wait, circle_at, get_proxy.
  apply steps_bind; [apply _| |steps_structure; done].
  induction l as [|a l IH]; cbn [map forM]; [apply steps_ret; apply _|].
  apply steps_bind; [apply _| |done]. by apply steps_goroutine.
Qed.

(** X23. [Rebalance] leaves the migrating flag of its circle cleared when
    it returns, and set when it is stuck waiting for its workers. *)
Theorem Rebalance_flag (backends : list (option loc)) (circleNum : Z)
    (databases : list string) (s : State.t) r s' :
  Rebalance backends circleNum databases s = (r, s') →
  match r with
  | Ret _ => migrating s' (Z.to_nat circleNum) = Some false
  | Stuck => migrating s' (Z.to_nat circleNum) = Some true
  | Panic => True
  end.
Proof.
  unfold Rebalance, emit, Circles_index, get_proxy. run. cbn [State.proxy State.set_events].
  set (s0 := State.set_events _ s).
  destruct (GoInt.index (Proxy.Circles (State.proxy s)) circleNum)
    as [x|] eqn:Hx; cbn [must]; run; [|by intros [= <- <-]].
  set (c := Z.to_nat circleNum).
  intros Hrun.
  apply bind_inv in Hrun as [([] & s1 & Hset & Hrun) | [[_ ->] | [Hst ->]]];
    [|done|by apply SetIsMigrating_inv in Hst].
  apply SetIsMigrating_inv in Hset as [Hflag _].
  revert Hrun. run. intros Hrun.
  assert (∀ s2, same standing s1 s2 → migrating s2 c = Some true) as Hkeep.
  { intros s2 Hs2. by rewrite (standing_migrating _ _ c Hs2). }
  apply bind_inv in Hrun as [([] & s2 & Hadd & Hrun) | [[_ ->] | [Hst ->]]];
    [|done|]; cycle 1.
  { apply Hkeep. revert Hst. apply steps_forM; [apply _|].
    intros ?. apply WgMigrate_Add_standing. }
  assert (same standing s1 s2) as Hs2.
  { revert Hadd. apply steps_forM; [apply _|].
    intros ?. apply WgMigrate_Add_standing. }
  apply bind_inv in Hrun as [([] & s3 & Hwait & Hrun) | [[_ ->] | [Hst ->]]];
    [|done|]; cycle 1.
  { apply Hkeep. etrans; [exact Hs2|]. revert Hst.
    apply WgMigrate_Wait_standing. intros ?. apply RebalanceBackend_standing. }
  apply bind_inv in Hrun as [([] & s4 & Hset & Hrun) | [[_ ->] | [Hst ->]]];
    [|done|by apply SetIsMigrating_inv in Hst].
  apply SetIsMigrating_inv in Hset as [Hflag' _].
  revert Hrun. unfold modify. by intros [= <- <-].
Qed.

Lemma defer_SetIsMigrating_inv {A} (c : nat) (m : M A) (s : State.t) r s' :
  with_defer (SetIsMigrating c false) m s = (r, s') →
  match r with
  | Ret a =>
      ∃ s1, m s = (Ret a, s1) ∧ migrating s' c = Some false ∧
        ∀ c', c' ≠ c → migrating s' c' = migrating s1 c'
  | Panic => True
  | Stuck => m s = (Stuck, s')
  end.
Proof.
  unfold with_defer. destruct (m s) as [[a| |] s1] eqn:Hm; intros Hrun.
  - apply bind_inv in Hrun as [([] & s2 & Hset & Hrun) | [[_ ->] | [Hst ->]]];
      [|done|by apply SetIsMigrating_inv in Hst].
    apply SetIsMigrating_inv in Hset as [Hc Hc'].
    revert Hrun. unfold ret. intros [= <- <-]. by exists s1.
  - apply bind_inv in Hrun as [([] & s2 & Hset & Hrun) | [[_ ->] | [Hst ->]]];
      [|done|by apply SetIsMigrating_inv in Hst].
    revert Hrun. unfold panic. by intros [= <- <-].
  - by injection Hrun as <- <-.
Qed.

(** X24. [Recovery] leaves the migrating flags of its two circles cleared
    when it returns, by its deferred calls, and set when it is stuck
    waiting for its workers. *)
Theorem Recovery_flags (fromCircleNum toCircleNum : Z)
    (recoveryBackendUrls databases : list string) (s : State.t) r s' :
  Recovery fromCircleNum toCircleNum recoveryBackendUrls databases s
  = (r, s') →
  match r with
  | Ret _ =>
      migrating s' (Z.to_nat fromCircleNum) = Some false ∧
      migrating s' (Z.to_nat toCircleNum) = Some false
  | Stuck =>
      migrating s' (Z.to_nat fromCircleNum) = Some true ∧
      migrating s' (Z.to_nat toCircleNum) = Some true
  | Panic => True
  end.
Proof.
  unfold Recovery, emit, Circles_index, get_proxy. run.
  cbn [State.proxy State.set_events].
  destruct (GoInt.index (Proxy.Circles (State.proxy s)) fromCircleNum)
    as [xf|] eqn:Hxf; cbn [must]; run; [|by intros [= <- <-]].
  cbn [State.proxy State.set_events].
  destruct (GoInt.index (Proxy.Circles (State.proxy s)) toCircleNum)
    as [xt|] eqn:Hxt; cbn [must]; run; [|by intros [= <- <-]].
  set (cf := Z.to_nat fromCircleNum). set (ct := Z.to_nat toCircleNum).
  intros Hrun.
  apply bind_inv in Hrun as [([] & s1 & Hset & Hrun) | [[_ ->] | [Hst ->]]];
    [|done|by apply SetIsMigrating_inv in Hst].
  apply SetIsMigrating_inv in Hset as [Hf1 _].
  apply bind_inv in Hrun as [([] & s2 & Hset & Hrun) | [[_ ->] | [Hst ->]]];
    [|done|by apply SetIsMigrating_inv in Hst].
  apply SetIsMigrating_inv in Hset as [Ht2 Hf2].
  assert (migrating s2 cf = Some true) as Hf2'.
  { destruct (decide (cf = ct)) as [->|Hne]; [done|]. by rewrite Hf2. }
  clear Hf1 Hf2 s1.
  match type of Hrun with
  | with_defer _ (with_defer _ ?m) _ = _ =>
      assert (steps (same standing) m) as Hbody
  end.
  { unfold circle_at, get_proxy. steps_structure;
      first [ done | apply WgMigrate_Add_standing | apply emit_standing
            | apply WgMigrate_Wait_standing; intros ?;
              apply RecoveryBackend_standing ]. }
  apply defer_SetIsMigrating_inv in Hrun. destruct r as [[]| |]; [|done|].
  - destruct Hrun as (s3 & Hrun & Hf3 & Hother). split; [done|].
    apply defer_SetIsMigrating_inv in Hrun as (s4 & _ & Ht4 & _).
    destruct (decide (ct = cf)) as [Heq|Hne]; [by rewrite Heq|].
    by rewrite Hother.
  - apply defer_SetIsMigrating_inv in Hrun. apply Hbody in Hrun.
    by rewrite !(standing_migrating _ _ _ Hrun).
Qed.
End Flags.

(** ** Administration of the backends *)

Section AdministrationFacts.
Context `{AdminPkg}.

Lemma foldl_snoc_Some {A} (l : list A) (acc : list (option A)) :
  foldl (λ res v, res ++ [Some v]) acc l = acc ++ (Some <$> l).
Proof.
  revert acc. induction l as [|a l IH]; intros acc; cbn.
  - by rewrite app_nil_r.
  - by rewrite IH, <- app_assoc.
Qed.

Lemma GoInt_index_lookup {A} (l : list A) (i : Z) (x : A) :
  GoInt.index l i = Some x → l !! Z.to_nat i = Some x.
Proof. unfold GoInt.index. by destruct (i <? 0)%Z. Qed.

Lemma GoInt_index_out_of_range {A} (l : list A) (i : Z) :
  (i < 0 ∨ GoInt.len l ≤ i)%Z → GoInt.index l i = None.
Proof.
  unfold GoInt.index, GoInt.len. intros Hi.
  destruct (i <? 0)%Z eqn:Hneg; [done|]. apply Z.ltb_ge in Hneg.
  apply lookup_ge_None. lia.
Qed.

(** X25. [AddBackend] adds nothing: for a circle number in range it
    returns, with a nil error and the state as it was, the backends of the
    circle's index, each once, whatever the order. *)
Theorem AddBackend_lists_the_index (circleNum : Z) (s : State.t)
    (c : Circle.t) :
  GoInt.index (Proxy.Circles (State.proxy s)) circleNum = Some c →
  ∃ res, AddBackend circleNum s = (Ret (res, None), s) ∧
    length res = size (Circle.UrlToBackend c) ∧
    ∀ b, b ∈ res ↔
         ∃ url l, Circle.UrlToBackend c !! url = Some l ∧ b = Some l.
Proof.
  intros Hc. pose proof (GoInt_index_lookup _ _ _ Hc) as Hc'.
  exists (Some <$> indexed c). split; [|split].
  - unfold AddBackend, Circles_index, circle_at, get_proxy. run.
    by rewrite foldl_snoc_Some.
  - unfold indexed. by rewrite !length_fmap, length_map_to_list.
  - intros b. unfold indexed. rewrite list_elem_of_fmap. split.
    + intros (l & -> & ([url l'] & -> & Hl)%list_elem_of_fmap).
      apply elem_of_map_to_list in Hl. by exists url, l'.
    + intros (url & l & Hl & ->). exists l. split; [done|].
      apply list_elem_of_fmap. exists (url, l). split; [done|].
      by apply elem_of_map_to_list.
Qed.

Lemma DeleteBackend_loop (backendUrls : list string)
    (acc : list (option loc)) (s : State.t) :
  ∃ ls s',
    foldM (λ res v,
             l <- newBackend (Backend.mk "" v false ∅ ∅) ;;
             ret (res ++ [Some l])) backendUrls acc s
    = (Ret (acc ++ (Some <$> ls)), s') ∧
    State.proxy s' = State.proxy s ∧
    State.inflight s' = State.inflight s ∧
    State.events s' = State.events s ∧
    NoDup ls ∧
    Forall2 (λ l v, State.heap s !! l = None ∧
                    State.heap s' !! l = Some (Backend.mk "" v false ∅ ∅))
      ls backendUrls ∧
    ∀ l, l ∉ ls → State.heap s' !! l = State.heap s !! l.
Proof.
  revert acc s. induction backendUrls as [|v urls IH]; intros acc s.
  - exists [], s. cbn. rewrite app_nil_r. repeat split; try done.
    apply NoDup_nil_2.
  - set (l := fresh (dom (State.heap s))).
    set (b := Backend.mk "" v false ∅ ∅).
    set (s1 := State.set_heap (<[l := b]> (State.heap s)) s).
    destruct (IH (acc ++ [Some l]) s1)
      as (ls & s' & Hrun & Hp & Hi & He & Hnd & Hall & Hframe).
    assert (State.heap s !! l = None) as Hfresh.
    { apply not_elem_of_dom, is_fresh. }
    assert (l ∉ ls) as Hl.
    { intros Hin. apply list_elem_of_lookup in Hin as [i Hi'].
      destruct (Forall2_lookup_l _ _ _ _ _ Hall Hi') as (v' & _ & Hnone & _).
      revert Hnone. unfold s1. cbn. by rewrite lookup_insert_eq. }
    exists (l :: ls), s'. split; [|repeat split; try done].
    + cbn [foldM]. unfold bind at 1. unfold bind at 1.
      unfold newBackend at 1. fold l b s1. unfold ret at 1.
      rewrite Hrun. by rewrite <- app_assoc.
    + by apply NoDup_cons_2.
    + apply Forall2_cons. split.
      * split; [done|]. rewrite (Hframe l Hl). unfold s1. cbn.
        by rewrite lookup_insert_eq.
      * eapply Forall2_impl; [exact Hall|]. intros l' v' [Hnone Hsome].
        split; [|done]. revert Hnone. unfold s1. cbn.
        destruct (decide (l' = l)) as [->|Hne];
          [by rewrite lookup_insert_eq | by rewrite lookup_insert_ne].
    + intros l' Hl'. apply not_elem_of_cons in Hl' as [Hne Hl'].
      rewrite (Hframe l' Hl'). unfold s1. cbn. by rewrite lookup_insert_ne.
Qed.

(** X26. [DeleteBackend] deletes nothing: it returns, with a nil error,
    one new backend per URL, in the order of the URLs, each at an address
    of its own that held nothing and now holds a backend with that URL and
    nothing else set; the backends there were and the proxy stay as they
    were. *)
Theorem DeleteBackend_builds_new_backends (backendUrls : list string)
    (s : State.t) :
  ∃ ls s',
    DeleteBackend backendUrls s = (Ret (Some <$> ls, None), s') ∧
    State.proxy s' = State.proxy s ∧
    NoDup ls ∧
    Forall2 (λ l v, State.heap s !! l = None ∧
                    State.heap s' !! l = Some (Backend.mk "" v false ∅ ∅))
      ls backendUrls ∧
    ∀ l, l ∉ ls → State.heap s' !! l = State.heap s !! l.
Proof.
  destruct (DeleteBackend_loop backendUrls [] s)
    as (ls & s' & Hrun & Hp & _ & _ & Hnd & Hall & Hframe).
  exists ls, s'. split; [|done].
  unfold DeleteBackend. unfold bind at 1. by rewrite Hrun.
Qed.

Lemma circle_at_Ret (c : nat) (x : Circle.t) (s : State.t) :
  Proxy.Circles (State.proxy s) !! c = Some x → circle_at c s = (Ret x, s).
Proof. intros Hx. unfold circle_at, get_proxy. run. by rewrite Hx. Qed.

Lemma queryCircles_cons (circle : nat) (rest : list nat) (req : Request)
    (body : list byte) (out : list Outcall) (c : Circle.t) (s : State.t) :
  Proxy.Circles (State.proxy s) !! circle = Some c →
  queryCircles (circle :: rest) req body out s
  = match (Circle_QueryCluster c req).2 with
    | Some err =>
        (Ret (out ++ [CallQueryCluster circle (Some err)], ([], Some err)), s)
    | None =>
        queryCircles rest req (Circle_QueryCluster c req).1
          (out ++ [CallQueryCluster circle None]) s
    end.
Proof.
  intros Hc. cbn [queryCircles]. unfold bind at 1.
  rewrite (circle_at_Ret _ _ _ Hc).
  by destruct (Circle_QueryCluster c req).2.
Qed.

Lemma queryCircles_all (req : Request) (s : State.t) (cs : list Circle.t) :
  ∀ (k : nat) (body : list byte) (out : list Outcall),
    (∀ j c, cs !! j = Some c →
            Proxy.Circles (State.proxy s) !! (k + j) = Some c) →
    (∀ c, c ∈ cs → (Circle_QueryCluster c req).2 = None) →
    queryCircles (seq k (length cs)) req body out s
    = (Ret (out ++ imap (λ j _, CallQueryCluster (k + j) None) cs,
            (default body
               (last ((λ c, (Circle_QueryCluster c req).1) <$> cs)),
             None)), s).
Proof.
  induction cs as [|c cs IH]; intros k body out Hat Hok.
  - cbn. by rewrite app_nil_r.
  - cbn [length seq]. rewrite (queryCircles_cons _ _ _ _ _ c).
    2:{ specialize (Hat 0 c eq_refl). by rewrite Nat.add_0_r in Hat. }
    rewrite (Hok c) by left. rewrite IH.
    + cbn [imap fmap list_fmap]. rewrite Nat.add_0_r, <- app_assoc.
      cbn [app]. do 3 f_equal.
      * do 2 f_equal. apply imap_ext. intros j ? _. cbn. f_equal. lia.
      * f_equal. rewrite last_cons.
        by destruct (last _).
    + intros j c' Hj. replace (S k + j) with (k + S j) by lia. by apply Hat.
    + intros c' Hc'. apply Hok. by right.
Qed.

(** X27. When the query succeeds on every circle, [CreateDatabase] has
    queried the circles in their order, each once, and returns the body the
    last one answered with a nil error; with no circle it returns a nil
    body and a nil error. The state is as it was. *)
Theorem CreateDatabase_queries_every_circle (req : Request)
    (out : list Outcall) (s : State.t) :
  (∀ c, c ∈ Proxy.Circles (State.proxy s) →
        (Circle_QueryCluster c req).2 = None) →
  CreateDatabase req out s
  = (Ret (out ++ imap (λ i _, CallQueryCluster i None)
                   (Proxy.Circles (State.proxy s)),
          (default []
             (last ((λ c, (Circle_QueryCluster c req).1)
                      <$> Proxy.Circles (State.proxy s))),
           None)), s).
Proof.
  intros Hok. unfold CreateDatabase, get_proxy. run.
  by rewrite (queryCircles_all req s (Proxy.Circles (State.proxy s)) 0).
Qed.

Lemma queryCircles_first_error (req : Request) (s : State.t)
    (c : Circle.t) (e : error) (after : list Circle.t)
    (before : list Circle.t) :
  ∀ (k : nat) (body : list byte) (out : list Outcall),
    (∀ j c', (before ++ c :: after) !! j = Some c' →
             Proxy.Circles (State.proxy s) !! (k + j) = Some c') →
    (∀ c', c' ∈ before → (Circle_QueryCluster c' req).2 = None) →
    (Circle_QueryCluster c req).2 = Some e →
    queryCircles (seq k (length (before ++ c :: after))) req body out s
    = (Ret (out ++ imap (λ j _, CallQueryCluster (k + j) None) before
                ++ [CallQueryCluster (k + length before) (Some e)],
            ([], Some e)), s).
Proof.
  induction before as [|c0 before IH]; intros k body out Hat Hok He.
  - cbn [app length seq]. rewrite (queryCircles_cons _ _ _ _ _ c).
    2:{ specialize (Hat 0 c eq_refl). by rewrite Nat.add_0_r in Hat. }
    rewrite He. cbn. by rewrite Nat.add_0_r.
  - cbn [app length seq]. rewrite (queryCircles_cons _ _ _ _ _ c0).
    2:{ specialize (Hat 0 c0 eq_refl). by rewrite Nat.add_0_r in Hat. }
    rewrite (Hok c0) by left. rewrite IH; [| |by intros; apply Hok; right|done].
    + cbn [imap length]. rewrite Nat.add_0_r, <- !app_assoc. cbn [app].
      replace (S k + length before) with (k + S (length before)) by lia.
      rewrite (imap_ext (λ j _, CallQueryCluster (S k + j) None)
                 ((λ j _, CallQueryCluster (k + j) None) ∘ S) before);
        [done|].
      intros j ? _. cbn. f_equal. lia.
    + intros j c' Hj. replace (S k + j) with (k + S j) by lia. by apply Hat.
Qed.

(** X28. [CreateDatabase] stops at the first circle whose query fails:
    the circles before it have been queried in their order, the ones after
    it are not, and the result is that error with a nil body, whatever the
    circles before answered. The state is as it was. *)
Theorem CreateDatabase_stops_at_the_first_error (req : Request)
    (out : list Outcall) (s : State.t) (before after : list Circle.t)
    (c : Circle.t) (e : error) :
  Proxy.Circles (State.proxy s) = before ++ c :: after →
  (∀ c', c' ∈ before → (Circle_QueryCluster c' req).2 = None) →
  (Circle_QueryCluster c req).2 = Some e →
  CreateDatabase req out s
  = (Ret (out ++ imap (λ i _, CallQueryCluster i None) before
              ++ [CallQueryCluster (length before) (Some e)],
          ([], Some e)), s).
Proof.
  intros Hcs Hok He. unfold CreateDatabase, get_proxy. run. rewrite Hcs.
  rewrite (queryCircles_first_error req s c e after before 0); try done.
  intros j c' Hj. by rewrite Hcs.
Qed.

Lemma drops_app (out1 out2 : list Outcall) :
  drops (out1 ++ out2) = drops out1 ++ drops out2.
Proof. unfold drops. apply omap_app. Qed.

Lemma withCount_lookup (i : nat) (k : Z) (s : State.t) (c : Circle.t) :
  Proxy.Circles (State.proxy s) !! i = Some c →
  Proxy.Circles (State.proxy (withCount i k s)) !! i
  = Some (Circle.set_WgMigrate k c).
Proof. intros Hc. unfold withCount. cbn. by rewrite list_lookup_alter_eq, Hc. Qed.

Lemma withCount_id (i : nat) (s : State.t) (c : Circle.t) :
  Proxy.Circles (State.proxy s) !! i = Some c →
  withCount i (Circle.WgMigrate c) s = s.
Proof.
  intros Hc. unfold withCount.
  assert (alter (Circle.set_WgMigrate (Circle.WgMigrate c)) i
            (Proxy.Circles (State.proxy s))
          = Proxy.Circles (State.proxy s)) as ->.
  { apply list_eq. intros j. destruct (decide (j = i)) as [->|Hne].
    - rewrite list_lookup_alter_eq, Hc. cbn. by destruct c.
    - by rewrite list_lookup_alter_ne. }
  destruct s as [h p fl evs]. by destruct p.
Qed.

Lemma WgMigrate_Add_withCount (i : nat) (k delta : Z) (s : State.t)
    (c : Circle.t) :
  Proxy.Circles (State.proxy s) !! i = Some c →
  (0 ≤ k + delta)%Z →
  WgMigrate_Add i delta (withCount i k s)
  = (Ret tt, withCount i (k + delta) s).
Proof.
  intros Hc Hk. unfold WgMigrate_Add. unfold bind at 1.
  rewrite (circle_at_Ret _ _ _ (withCount_lookup i k s c Hc)). cbn.
  destruct (k + delta <? 0)%Z eqn:Hneg; [apply Z.ltb_lt in Hneg; lia|].
  rewrite (circle_modify_Ret _ _ _ _ (withCount_lookup i k s c Hc)).
  unfold withCount. cbn.
  assert (<[i := Circle.set_WgMigrate (k + delta) (Circle.set_WgMigrate k c)]>
            (alter (Circle.set_WgMigrate k) i
               (Proxy.Circles (State.proxy s)))
          = alter (Circle.set_WgMigrate (k + delta)) i
              (Proxy.Circles (State.proxy s))) as ->; [|done].
  apply list_eq. intros j. destruct (decide (j = i)) as [->|Hne].
  - rewrite list_lookup_insert_eq, list_lookup_alter_eq, Hc; [done|].
    rewrite length_alter. by eapply lookup_lt_Some.
  - by rewrite list_lookup_insert_ne, !list_lookup_alter_ne.
Qed.

Lemma WgMigrate_Add_loop {A} (i : nat) (l : list A) (k : Z) (s : State.t)
    (c : Circle.t) :
  Proxy.Circles (State.proxy s) !! i = Some c →
  (0 ≤ k)%Z →
  forM l (λ _, WgMigrate_Add i 1) (withCount i k s)
  = (Ret tt, withCount i (k + GoInt.len l) s).
Proof.
  intros Hc. revert k. unfold GoInt.len.
  induction l as [|a l IH]; intros k Hk; cbn [forM length].
  - by rewrite Z.add_0_r.
  - unfold bind at 1. rewrite (WgMigrate_Add_withCount i k 1 s c) by (done || lia).
    rewrite IH by lia. do 2 f_equal. lia.
Qed.

Lemma Router_Get_Ret (i : nat) (key : string) (s : State.t) (c : Circle.t)
    (r : Consistent) :
  Proxy.Circles (State.proxy s) !! i = Some c →
  Circle.Router c = Some r →
  Router_Get i key s = (Ret (consistent_Get r key), s).
Proof.
  intros Hc Hr. unfold Router_Get. unfold bind at 1.
  rewrite (circle_at_Ret _ _ _ Hc). by rewrite Hr.
Qed.

Lemma deref_Ret (l : loc) (b : Backend.t) (s : State.t) :
  State.heap s !! l = Some b → deref (Some l) s = (Ret b, s).
Proof. intros Hb. unfold deref. cbn [must]. run. by rewrite Hb. Qed.

Lemma clearMeasure_run (i : nat) (l : loc) (db measure : string)
    (out : list Outcall) (s : State.t) (c : Circle.t) (r : Consistent)
    (b : Backend.t) :
  Proxy.Circles (State.proxy s) !! i = Some c →
  Circle.Router c = Some r →
  State.heap s !! l = Some b →
  ∃ out', clearMeasure i (Some l) db out measure s = (Ret out', s) ∧
    drops out'
    = drops out
      ++ (if misplaced r (Backend.Url b) db measure
          then [(l, db, measure)] else []).
Proof.
  intros Hc Hr Hb. unfold clearMeasure, misplaced. cbv zeta.
  unfold bind at 1. rewrite (Router_Get_Ret _ _ _ _ _ Hc Hr).
  destruct (consistent_Get r (db +:+ "," +:+ measure)) as [target [err|]];
    cbn [fst snd].
  - eexists. split; [done|]. by rewrite drops_app.
  - unfold bind at 1. rewrite (deref_Ret _ _ _ Hb).
    destruct (decide (target ≠ Backend.Url b)) as [Hne|Heq].
    + rewrite bool_decide_eq_true_2 by done. cbn [must]. run.
      destruct (Backend_DropMeasurement b db measure); eexists;
        (split; [done|]); rewrite !drops_app; cbn; by rewrite ?app_nil_r.
    + rewrite bool_decide_eq_false_2 by done. eexists. split; [done|].
      by rewrite app_nil_r.
Qed.

Lemma clearMeasure_loop (i : nat) (l : loc) (db : string) (s : State.t)
    (c : Circle.t) (r : Consistent) (b : Backend.t)
    (measures : list string) :
  Proxy.Circles (State.proxy s) !! i = Some c →
  Circle.Router c = Some r →
  State.heap s !! l = Some b →
  ∀ out, ∃ out',
    foldM (clearMeasure i (Some l) db) measures out s = (Ret out', s) ∧
    drops out'
    = drops out
      ++ ((λ measure, (l, db, measure))
            <$> filter (λ measure, misplaced r (Backend.Url b) db measure)
                  measures).
Proof.
  intros Hc Hr Hb. induction measures as [|m measures IH]; intros out.
  - exists out. cbn. by rewrite app_nil_r.
  - destruct (clearMeasure_run i l db m out s c r b Hc Hr Hb)
      as (out1 & Hrun1 & Hd1).
    destruct (IH out1) as (out' & Hrun & Hd).
    exists out'. split.
    + cbn [foldM]. unfold bind at 1. by rewrite Hrun1.
    + rewrite Hd, Hd1, <- app_assoc. f_equal. rewrite filter_cons.
      destruct (misplaced r (Backend.Url b) db m) eqn:Hm.
      * destruct (decide _) as [?|Hn]; [done | by destruct Hn].
      * destruct (decide _) as [Hy|?]; [by destruct Hy | done].
Qed.

Lemma clearCircle_run (i : nat) (l : loc) (dbs : list string)
    (out : list Outcall) (k : Z) (s : State.t) (c : Circle.t)
    (r : Consistent) (b : Backend.t) :
  Proxy.Circles (State.proxy s) !! i = Some c →
  Circle.Router c = Some r →
  State.heap s !! l = Some b →
  (1 ≤ k)%Z →
  ∃ out',
    clearCircle i (Some l) dbs out (withCount i k s)
    = (Ret out', withCount i (k - 1) s) ∧
    drops out' = drops out ++ misplacedOn (State.heap s) r dbs l.
Proof.
  intros Hc Hr Hb Hk. unfold misplacedOn. rewrite Hb.
  pose proof (withCount_lookup i k s c Hc) as Hc'.
  assert (∀ out, ∃ out',
            foldM (λ out db,
                     b <- deref (Some l) ;;
                     let measures := GetMeasurements b db in
                     let out := out ++ [PrintfLen (GoInt.len measures) db] in
                     foldM (clearMeasure i (Some l) db) measures out)
              dbs out (withCount i k s)
            = (Ret out', withCount i k s) ∧
            drops out'
            = drops out
              ++ (dbs ≫= λ db,
                    (λ measure, (l, db, measure))
                      <$> filter (λ measure,
                                    misplaced r (Backend.Url b) db measure)
                            (GetMeasurements b db))) as Hloop.
  { clear out. induction dbs as [|db dbs IH]; intros out.
    - exists out. cbn. by rewrite app_nil_r.
    - destruct (clearMeasure_loop i l db (withCount i k s) _ r b
                  (GetMeasurements b db) Hc' Hr Hb
                  (out ++ [PrintfLen (GoInt.len (GetMeasurements b db)) db]))
        as (out1 & Hrun1 & Hd1).
      destruct (IH out1) as (out' & Hrun & Hd).
      exists out'. split.
      + cbn [foldM]. unfold bind at 1. unfold bind at 1.
        rewrite (deref_Ret l b) by done. cbv zeta. by rewrite Hrun1.
      + rewrite Hd, Hd1, drops_app. cbn [drops omap]. cbn.
        by rewrite app_nil_r, <- app_assoc. }
  destruct (Hloop out) as (out' & Hrun & Hd).
  exists out'. split; [|done].
  unfold clearCircle, with_defer. cbv beta zeta in Hrun |- *. rewrite Hrun.
  unfold bind at 1. unfold WgMigrate_Done.
  rewrite (WgMigrate_Add_withCount i k (-1) s c) by (done || lia).
  done.
Qed.

(** X29. [Clear] on a circle in range that has its ring, whose backends
    all exist and whose wait group is at rest returns a nil error and
    leaves the state as it was; what it has dropped is, for each backend
    of the circle, the measurements of the databases given that the ring
    places on another URL than the backend's, each once, and nothing
    else: a measurement whose lookup fails is not dropped. *)
Theorem Clear_drops_the_misplaced (dbs : list string) (circleNum : Z)
    (out : list Outcall) (s : State.t) (c : Circle.t) (r : Consistent) :
  GoInt.index (Proxy.Circles (State.proxy s)) circleNum = Some c →
  Circle.Router c = Some r →
  Circle.WgMigrate c = 0%Z →
  (∀ l, l ∈ Circle.Backends c → is_Some (State.heap s !! l)) →
  ∃ out',
    Clear dbs circleNum out s = (Ret (out', None), s) ∧
    drops out'
    ≡ₚ drops out ++ (Circle.Backends c ≫= misplacedOn (State.heap s) r dbs).
Proof.
  intros Hc Hr Hwg Hbs. apply GoInt_index_lookup in Hc as Hc'.
  set (i := Z.to_nat circleNum) in *.
  assert (∀ bs k out,
            (0 ≤ k)%Z →
            (∀ l, l ∈ bs → is_Some (State.heap s !! l)) →
            ∃ out',
              foldM (λ out backend, clearCircle i (Some backend) dbs out)
                bs out (withCount i (k + GoInt.len bs) s)
              = (Ret out', withCount i k s) ∧
              drops out'
              = drops out ++ (bs ≫= misplacedOn (State.heap s) r dbs))
    as Hloop.
  { unfold GoInt.len. clear out Hbs.
    induction bs as [|l bs IH]; intros k out Hk Hbs.
    - exists out. cbn. by rewrite Z.add_0_r, app_nil_r.
    - destruct (Hbs l) as [b Hb]; [by left|].
      destruct (clearCircle_run i l dbs out (k + Z.of_nat (length (l :: bs)))
                  s c r b Hc' Hr Hb) as (out1 & Hrun1 & Hd1).
      { cbn [length]. lia. }
      destruct (IH k out1) as (out' & Hrun & Hd); [done| |].
      { intros l' Hl'. apply Hbs. by right. }
      exists out'. split.
      + cbn [foldM]. unfold bind at 1. rewrite Hrun1.
        replace (k + Z.of_nat (length (l :: bs)) - 1)%Z
          with (k + Z.of_nat (length bs))%Z by (cbn [length]; lia).
        done.
      + rewrite Hd, Hd1, <- app_assoc. done. }
  destruct (Hloop (Circle.Backends c) 0%Z out) as (out' & Hrun & Hd);
    [done..|].
  exists out'. split; [|by rewrite Hd].
  unfold Clear, Circles_index, get_proxy. run.
  fold i. unfold bind at 1. rewrite (circle_at_Ret _ _ _ Hc').
  rewrite <- (withCount_id i s c Hc') at 1. rewrite Hwg.
  unfold bind at 1.
  rewrite (WgMigrate_Add_loop i (Circle.Backends c) 0 s c Hc') by done.
  unfold bind at 1. rewrite Hrun.
  unfold WgMigrate_Wait. cbn [forM]. run. unfold bind at 1.
  rewrite (circle_at_Ret _ _ _ (withCount_lookup i 0 s c Hc')). cbn.
  rewrite <- Hwg. by rewrite (withCount_id i s c Hc').
Qed.

Lemma Circles_index_Panic (circleNum : Z) (s : State.t) :
  GoInt.index (Proxy.Circles (State.proxy s)) circleNum = None →
  Circles_index circleNum s = (Panic, s).
Proof. intros Hi. unfold Circles_index, get_proxy. by run. Qed.

Lemma Circles_index_Ret (circleNum : Z) (s : State.t) (c : Circle.t) :
  GoInt.index (Proxy.Circles (State.proxy s)) circleNum = Some c →
  Circles_index circleNum s = (Ret (Z.to_nat circleNum), s).
Proof. intros Hi. unfold Circles_index, get_proxy. by run. Qed.

(** X30. With a circle number that is negative or not below the number
    of circles, [AddBackend] and [Clear] panic with the state as it was,
    and [Rebalance] and [Recovery], for either of its two circle numbers,
    panic having done nothing but set their log: no flag is set and no
    worker is started. *)
Theorem circle_number_out_of_range (circleNum : Z) (s : State.t) :
  (circleNum < 0 ∨ GoInt.len (Proxy.Circles (State.proxy s)) ≤ circleNum)%Z →
  AddBackend circleNum s = (Panic, s) ∧
  (∀ dbs out, Clear dbs circleNum out s = (Panic, s)) ∧
  (∀ backends databases,
     Rebalance backends circleNum databases s
     = (Panic,
        State.set_events
          (State.events s ++ [SetMLog "./log/rebalance.log" "Rebalance: "])
          s)) ∧
  (∀ otherCircleNum recoveryBackendUrls databases,
     Recovery circleNum otherCircleNum recoveryBackendUrls databases s
     = (Panic,
        State.set_events
          (State.events s ++ [SetMLog "./log/recovery.log" "Recovery: "])
          s) ∧
     Recovery otherCircleNum circleNum recoveryBackendUrls databases s
     = (Panic,
        State.set_events
          (State.events s ++ [SetMLog "./log/recovery.log" "Recovery: "])
          s)).
Proof.
  intros Hi%GoInt_index_out_of_range.
  split; [|split; [|split]].
  - unfold AddBackend. unfold bind at 1.
    by rewrite Circles_index_Panic.
  - intros dbs out. unfold Clear. unfold bind at 1.
    by rewrite Circles_index_Panic.
  - intros backends databases. unfold Rebalance, emit. rewrite bind_modify.
    unfold bind at 1. by rewrite Circles_index_Panic.
  - intros otherCircleNum recoveryBackendUrls databases.
    unfold Recovery, emit. rewrite !bind_modify. split.
    + unfold bind at 1. by rewrite Circles_index_Panic.
    + unfold bind at 1.
      set (s0 := State.set_events _ s).
      destruct (GoInt.index (Proxy.Circles (State.proxy s0)) otherCircleNum)
        as [c|] eqn:Hc.
      * rewrite (Circles_index_Ret _ _ _ Hc). unfold bind at 1.
        by rewrite Circles_index_Panic.
      * by rewrite Circles_index_Panic.
Qed.
End AdministrationFacts.

(** ** Further examples *)

Section FurtherExamples.
Import Demo Scenario Site.

Lemma CheckCreateDatabaseQuery_CheckClusterQuery_witness :
  CheckClusterQuery (State.proxy (started plain)) "CREATE DATABASE x" = true ∧
  Proxy.ClusteredQuery (State.proxy (started plain)) ≠ [].
Proof.
  apply (CheckCreateDatabaseQuery_CheckClusterQuery
           (State.proxy (started plain)) "CREATE DATABASE x").
  vm_compute. reflexivity.
Defined.

Lemma query_sets_are_appended_to_witness :
  let s := started plain in
  let p := State.proxy s in
  ForbidQuery ["DROP SERIES"] s
  = (Ret tt,
     State.set_proxy
       (Proxy.set_ForbiddenQuery (Proxy.ForbiddenQuery p ++ ["DROP SERIES"])
          p) s) ∧
  EnsureQuery ["DROP SERIES"] s
  = (Ret tt,
     State.set_proxy
       (Proxy.set_ObligatedQuery (Proxy.ObligatedQuery p ++ ["DROP SERIES"])
          p) s) ∧
  ClusterQuery ["DROP SERIES"] s
  = (Ret tt,
     State.set_proxy
       (Proxy.set_ClusteredQuery (Proxy.ClusteredQuery p ++ ["DROP SERIES"])
          p) s).
Proof.
  intros s p.
  apply (query_sets_are_appended_to (H := regexpPkg)
           ["DROP SERIES"] ["DROP SERIES"] s).
  repeat constructor.
Defined.

Lemma query_sets_panic_at_first_refusal_witness :
  let p := State.proxy strictBoot in
  ForbidQuery (["DROP"] ++ "(" :: ["SHOW"]) strictBoot
  = (Panic,
     State.set_proxy
       (Proxy.set_ForbiddenQuery (Proxy.ForbiddenQuery p ++ ["DROP"]) p)
       strictBoot) ∧
  EnsureQuery (["DROP"] ++ "(" :: ["SHOW"]) strictBoot
  = (Panic,
     State.set_proxy
       (Proxy.set_ObligatedQuery (Proxy.ObligatedQuery p ++ ["DROP"]) p)
       strictBoot) ∧
  ClusterQuery (["DROP"] ++ "(" :: ["SHOW"]) strictBoot
  = (Panic,
     State.set_proxy
       (Proxy.set_ClusteredQuery (Proxy.ClusteredQuery p ++ ["DROP"]) p)
       strictBoot).
Proof.
  intros p.
  apply (query_sets_panic_at_first_refusal (H := strictRegexp)
           ["DROP"] "(" ["SHOW"] ["DROP"] "missing closing )" strictBoot).
  - repeat constructor.
  - reflexivity.
Defined.
Lemma started_plain_returns :
  NewProxy (H1 := plain) "proxy.json" boot = (Ret None, started plain).
Proof. vm_compute. reflexivity. Qed.

Lemma NewProxy_query_sets_witness :
  ∃ fs os cs,
    compiled (util_ForbidCmds (BackendPkg := plain)) fs ∧
    compiled (util_SupportCmds (BackendPkg := plain)) os ∧
    compiled (util_ClusterCmds (BackendPkg := plain)) cs ∧
    querySets (State.proxy (started plain))
    = (Proxy.ForbiddenQuery twoCircles.1.2 ++ fs,
       Proxy.ObligatedQuery twoCircles.1.2 ++ os,
       Proxy.ClusteredQuery twoCircles.1.2 ++ cs).
Proof.
  apply (NewProxy_query_sets (H1 := plain) "proxy.json" boot (started plain)
           twoCircles.1.1 twoCircles.1.2).
  - reflexivity.
  - apply started_plain_returns.
Defined.

Lemma NewProxy_DbMap_witness :
  Proxy.DbMap (State.proxy (started plain)) !! "m"
  = (if decide ("m" ∈ Proxy.DbList twoCircles.1.2) then Some true else None) ∧
  Proxy.DbMap (State.proxy (started plain)) !! "other"
  = (if decide ("other" ∈ Proxy.DbList twoCircles.1.2)
     then Some true else None).
Proof.
  split;
    apply (NewProxy_DbMap (H1 := plain) "proxy.json" boot (started plain)
             twoCircles.1.1 twoCircles.1.2);
    first [ apply started_plain_returns | reflexivity ].
Defined.

Lemma NewProxy_slots_witness :
  slot Recovering 1 "url2" (State.proxy (started plain))
  = (if decide ("url2" ∈ urlsOf twoCircles.1.1 [1])
     then Some MigrationInfo.zero else None) ∧
  slot Recovering 1 "url1" (State.proxy (started plain))
  = (if decide ("url1" ∈ urlsOf twoCircles.1.1 [1])
     then Some MigrationInfo.zero else None).
Proof.
  split;
    apply (NewProxy_slots (H1 := plain) "proxy.json" boot (started plain)
             twoCircles.1.1 twoCircles.1.2 eq_refl started_plain_returns
             Recovering 1%nat (decodedCircle "c1" [1]));
    reflexivity.
Defined.

Lemma NewProxy_backends_witness :
  (∀ c l, c ∈ Proxy.Circles twoCircles.1.2 → l ∈ Circle.Backends c →
     ∃ b b', twoCircles.1.1 !! l = Some b ∧
       State.heap (started plain) !! l = Some b' ∧
       Backend.Name b' = Backend.Name b ∧ Backend.Url b' = Backend.Url b ∧
       Backend.Active b' = true ∧
       (∀ db, Backend.BufferMap b' !! db
              = if decide (db ∈ Proxy.DbList twoCircles.1.2)
                then Some BufferCounter.fresh else None) ∧
       (∀ db, db ∈ Backend.LockDbMap b' ↔ db ∈ Proxy.DbList twoCircles.1.2)) ∧
  (∀ l, (∀ c, c ∈ Proxy.Circles twoCircles.1.2 → l ∉ Circle.Backends c) →
     State.heap (started plain) !! l = twoCircles.1.1 !! l).
Proof.
  apply (NewProxy_backends (H1 := plain) "proxy.json" boot (started plain)
           twoCircles.1.1 twoCircles.1.2).
  - reflexivity.
  - apply started_plain_returns.
Defined.

Lemma NewProxy_circles_witness :
  length (Proxy.Circles (State.proxy (started plain)))
  = length (Proxy.Circles twoCircles.1.2) ∧
  ∀ i c, Proxy.Circles twoCircles.1.2 !! i = Some c →
    ∃ c', Proxy.Circles (State.proxy (started plain)) !! i = Some c' ∧
      Circle.Name c' = Circle.Name c ∧
      Circle.CircleNum c' = Z.of_nat i ∧
      Circle.Backends c' = Circle.Backends c ∧
      Circle.WgMigrate c' = 0%Z ∧
      Circle.ReadyMigrating c' = false ∧
      Circle.IsMigrating c' = false ∧
      ∀ url, Circle.BackendWgMap c' !! url
             = if decide (url ∈ urlsOf twoCircles.1.1 (Circle.Backends c))
               then Some 0%Z else None.
Proof.
  apply (NewProxy_circles (H1 := plain) "proxy.json" boot (started plain)
           twoCircles.1.1 twoCircles.1.2).
  - reflexivity.
  - apply started_plain_returns.
Defined.

Lemma NewProxy_routing_witness :
  ∃ c', Proxy.Circles (State.proxy (started plain)) !! 1%nat = Some c' ∧
    Circle.Router c'
    = Some (foldl (λ r u, consistent_Add u r)
              (set_NumberOfReplicas (Proxy.VNodeSize twoCircles.1.2)
                 consistent_New)
              (urlsOf twoCircles.1.1 [1])) ∧
    (∀ url, url ∈ urlsOf twoCircles.1.1 [1] →
       is_Some (Circle.UrlToBackend c' !! url)) ∧
    (∀ url l, Circle.UrlToBackend c' !! url = Some l →
       l ∈ [1] ∧ ∃ b, twoCircles.1.1 !! l = Some b ∧ Backend.Url b = url).
Proof.
  apply (NewProxy_routing (H1 := plain) "proxy.json" boot (started plain)
           twoCircles.1.1 twoCircles.1.2 eq_refl started_plain_returns
           1%nat (decodedCircle "c1" [1])).
  reflexivity.
Defined.

Lemma ring_members (us : list string) (r : ring) :
  members (foldl (λ r u, consistent_Add u r) r us) ⊆ members r ++ us.
Proof.
  revert r. induction us as [|u us IH]; intros r; cbn [foldl].
  - by rewrite app_nil_r.
  - etrans; [apply IH|]. cbn. destruct (0 <? replicas r)%Z; cbn.
    + by rewrite <- app_assoc.
    + intros x [Hx|Hx]%elem_of_app; apply elem_of_app; [by left|].
      right. by right.
Qed.

Lemma ring_answersMembers : answersMembers (H0 := consistentPkg).
Proof.
  intros v us key url Hget. cbn in Hget. unfold ring_Get in Hget.
  destruct (members _ !! _) as [u|] eqn:Hm; [|discriminate].
  injection Hget as <-. apply list_elem_of_lookup_2, ring_members in Hm.
  by cbn in Hm.
Qed.
Lemma NewProxy_inService_witness : inService (started plain).
Proof.
  apply (NewProxy_inService (H1 := plain) "proxy.json" boot (started plain)
           twoCircles.1.1 twoCircles.1.2).
  - apply ring_answersMembers.
  - reflexivity.
  - apply started_plain_returns.
Defined.

Lemma started_plain_inService : inService (started plain).
Proof.
  apply (NewProxy_Ret_inService (H1 := plain) "proxy.json" boot
           (started plain) twoCircles.1.1 twoCircles.1.2).
  - apply ring_answersMembers.
  - reflexivity.
  - apply started_plain_returns.
Qed.

Lemma WriteData_returns_in_service_witness :
  let s := started plain in
  ∃ data' s', WriteData (H1 := plain) (cpuLine "m") s = (Ret data', s') ∧
    State.proxy s' = State.proxy s ∧ inService s'.
Proof.
  intros s.
  apply (WriteData_returns_in_service (H1 := plain) (cpuLine "m") s).
  apply started_plain_inService.
Defined.

Lemma WriteData_reaches_every_circle_witness :
  let s := started plain in
  let data := cpuLine "m" in
  let r := WriteData (H1 := plain) data s in
  let line :=
    LineToNano (BackendPkg := plain) (LineData.Line data)
      (LineData.Precision data) in
  ∃ evs, State.events r.2 = State.events s ++ evs ∧
    (noFailure evs →
     Some <$> enqueuedTo evs
     = omap (answer (LineData.Db data +:+ ","
                       +:+ (ScanKey (BackendPkg := plain) line).1))
         (Proxy.Circles (State.proxy s))).
Proof.
  intros s data r line.
  apply (WriteData_reaches_every_circle (H1 := plain) data s r.1 r.2).
  - apply started_plain_inService.
  - vm_compute. reflexivity.
  - apply surjective_pairing.
Defined.

Lemma ClearMigrateStatus_clears_the_circle_witness :
  let s := started plain in
  let s' := (ClearMigrateStatus Recovering 1 s).2 in
  (∀ url, slot Recovering 1 url (State.proxy s')
          = MigrationInfo.clear <$> slot Recovering 1 url (State.proxy s)) ∧
  (∀ w' n url, w' ≠ Recovering ∨ n ≠ 1%Z →
     slot w' n url (State.proxy s') = slot w' n url (State.proxy s)) ∧
  installation s' = installation s ∧
  State.events s' = State.events s.
Proof.
  intros s s'.
  apply (ClearMigrateStatus_clears_the_circle Recovering 1 s s').
  vm_compute. reflexivity.
Defined.

Lemma startMigrate_throttles_witness :
  let s := started twoSources in
  let call := mkMigrateCall (Some 0) [Some 1] 0 "db" "m1" 0 in
  let s' := (startMigrate (H1 := twoSources) call "urlA" 0 s).2 in
  1%Z = (0 + 1)%Z ∧
  maxCpus s' = maxCpus s ∧
  Z.of_nat (length (State.inflight s')) = (1 `mod` maxCpus s)%Z ∧
  (Z.of_nat (length (State.inflight s')) < maxCpus s)%Z.
Proof.
  intros s call s'.
  apply (startMigrate_throttles (H1 := twoSources) call "urlA" 0 s 1 s').
  - vm_compute. reflexivity.
  - vm_compute. split; [discriminate | reflexivity].
  - vm_compute. reflexivity.
  - vm_compute. reflexivity.
Defined.
Lemma twoSources_workerReady (w : Workflow) :
  workerReady w 0 (Z.of_nat 0) 0 "urlA" 1
    (WgMigrate_Add 0 1 (started twoSources)).2.
Proof.
  set (s := (WgMigrate_Add 0 1 (started twoSources)).2).
  assert (State.inflight s = []) as Hnone by (vm_compute; reflexivity).
  unfold workerReady. rewrite Hnone. split; [|constructor].
  unfold sourceReady. split; [vm_compute; reflexivity|].
  split; [vm_compute; reflexivity|].
  split; [vm_compute; discriminate|].
  split; [destruct w; vm_compute; eexists; reflexivity|].
  exists (circleAt s 0), (backendAt s 0).
  do 5 (split; [vm_compute; reflexivity|]). vm_compute. reflexivity.
Qed.

Lemma workers_return_when_no_migration_fails_witness :
  let s := (WgMigrate_Add 0 1 (started twoSources)).2 in
  (∃ s', RebalanceBackend (H1 := twoSources) (Some 0) (Z.of_nat 0) ["db"] s
         = (Ret tt, s')) ∧
  (∀ toCircle urlMap, toCircle < 1 →
     ∃ s', RecoveryBackend (H1 := twoSources) (Some 0) 0 toCircle urlMap
             ["db"] s
           = (Ret tt, s')) ∧
  (∀ lastSeconds,
     ∃ s', ResyncBackend (H1 := twoSources) (Some 0) 0 ["db"] lastSeconds s
           = (Ret tt, s')).
Proof.
  intros s.
  apply (workers_return_when_no_migration_fails (H1 := twoSources)
           0 0 "urlA" 1 ["db"] s).
  - intros call. reflexivity.
  - apply twoSources_workerReady.
Defined.

Lemma RebalanceBackend_migrates_the_misplaced_witness :
  let s := (WgMigrate_Add 0 1 (started twoSources)).2 in
  let r := RebalanceBackend (H1 := twoSources) (Some 0) (Z.of_nat 0) ["db"] s in
  migrates
    (rebalanceCall 0 (Backend.Url (backendAt s 0)) 0 ["db"]
       (GetMeasurements (BackendPkg := twoSources) (backendAt s 0)))
    s r.2.
Proof.
  intros s r.
  apply (RebalanceBackend_migrates_the_misplaced (H1 := twoSources)
           0 (backendAt s 0) 0 ["db"] s r.1 r.2).
  - vm_compute. reflexivity.
  - apply surjective_pairing.
Defined.

Lemma RecoveryBackend_migrates_to_the_listed_witness :
  let s := (WgMigrate_Add 0 1 (started oneMeasurement)).2 in
  let r :=
    RecoveryBackend (H1 := oneMeasurement) (Some 0) 0 1 {["url2" := true]}
      ["m"] s in
  migrates
    (recoveryCall 0 0 1 {["url2" := true]} ["m"]
       (GetMeasurements (BackendPkg := oneMeasurement) (backendAt s 0)))
    s r.2.
Proof.
  intros s r.
  apply (RecoveryBackend_migrates_to_the_listed (H1 := oneMeasurement)
           0 (backendAt s 0) 0 1 {["url2" := true]} ["m"] s r.1 r.2).
  - vm_compute. reflexivity.
  - apply surjective_pairing.
Defined.

Lemma ResyncBackend_migrates_to_the_other_circles_witness :
  let s := (WgMigrate_Add 0 1 (started oneMeasurement)).2 in
  let r := ResyncBackend (H1 := oneMeasurement) (Some 0) 0 ["m"] 60 s in
  migrates
    (resyncCall 0 0 (Circle.CircleNum (circleAt s 0)) 60 ["m"]
       (GetMeasurements (BackendPkg := oneMeasurement) (backendAt s 0)))
    s r.2.
Proof.
  intros s r.
  apply (ResyncBackend_migrates_to_the_other_circles (H1 := oneMeasurement)
           0 (backendAt s 0) 0 (circleAt s 0) ["m"] 60 s r.1 r.2).
  - vm_compute. reflexivity.
  - vm_compute. reflexivity.
  - apply surjective_pairing.
Defined.

(** The workers of the three workflows on these installations: what they
    started. *)
Lemma workers_started :
  (let s := (WgMigrate_Add 0 1 (started oneMeasurement)).2 in
   migrations
     (added s (RecoveryBackend (H1 := oneMeasurement) (Some 0) 0 1
                 {["url2" := true]} ["m"] s).2)
   = [mkMigrateCall (Some 0) [Some 1] 0 "m" "cpu" 0] ∧
   migrations
     (added s (ResyncBackend (H1 := oneMeasurement) (Some 0) 0 ["m"] 60 s).2)
   = [mkMigrateCall (Some 0) [Some 1] 0 "m" "cpu" 60]).
Proof. vm_compute. repeat split. Qed.

Lemma Rebalance_flag_witness :
  (let s := started twoSources in
   migrating
     (Rebalance (H1 := twoSources) [Some 0; Some 1] 0 ["db"] s).2 0
   = Some false) ∧
  (let s := started failingMigration in
   migrating (Rebalance (H1 := failingMigration) [Some 0] 0 ["db"] s).2 0
   = Some true).
Proof.
  split; intros s.
  - pose proof (Rebalance_flag (H1 := twoSources) [Some 0; Some 1] 0 ["db"] s
                  _ _ (surjective_pairing _)) as Hflag.
    assert ((Rebalance (H1 := twoSources) [Some 0; Some 1] 0 ["db"] s).1
            = Ret tt) as Hr by (vm_compute; reflexivity).
    rewrite Hr in Hflag. exact Hflag.
  - pose proof (Rebalance_flag (H1 := failingMigration) [Some 0] 0 ["db"] s
                  _ _ (surjective_pairing _)) as Hflag.
    assert ((Rebalance (H1 := failingMigration) [Some 0] 0 ["db"] s).1
            = Stuck) as Hr by (vm_compute; reflexivity).
    rewrite Hr in Hflag. exact Hflag.
Defined.

Lemma Recovery_flags_witness :
  let s := started oneMeasurement in
  let r := Recovery (H1 := oneMeasurement) 0 1 ["url2"] ["m"] s in
  migrating r.2 0 = Some false ∧ migrating r.2 1 = Some false.
Proof.
  intros s r.
  pose proof (Recovery_flags (H1 := oneMeasurement) 0 1 ["url2"] ["m"] s
                _ _ (surjective_pairing _)) as Hflags.
  assert ((Recovery (H1 := oneMeasurement) 0 1 ["url2"] ["m"] s).1 = Ret tt)
    as Hr by (vm_compute; reflexivity).
  rewrite Hr in Hflags. exact Hflags.
Defined.
Lemma AddBackend_lists_the_index_witness :
  let s := started plain in
  let c := circleAt s 1 in
  ∃ res, AddBackend 1 s = (Ret (res, None), s) ∧
    length res = size (Circle.UrlToBackend c) ∧
    ∀ b, b ∈ res ↔
         ∃ url l, Circle.UrlToBackend c !! url = Some l ∧ b = Some l.
Proof.
  intros s c. apply (AddBackend_lists_the_index 1 s c).
  vm_compute. reflexivity.
Defined.

Lemma CreateDatabase_queries_every_circle_witness :
  let s := started plain in
  CreateDatabase (H2 := admin plain answering) "CREATE DATABASE x" [] s
  = (Ret ([] ++ imap (λ i _, CallQueryCluster i None)
                  (Proxy.Circles (State.proxy s)),
          (default []
             (last ((λ c, (answering c "CREATE DATABASE x").1)
                      <$> Proxy.Circles (State.proxy s))),
           None)), s).
Proof.
  intros s.
  apply (CreateDatabase_queries_every_circle (H2 := admin plain answering)
           "CREATE DATABASE x" [] s).
  intros c _. reflexivity.
Defined.

Lemma CreateDatabase_stops_at_the_first_error_witness :
  let s := started emptyTarget in
  CreateDatabase (H2 := admin emptyTarget secondUnreachable)
    "CREATE DATABASE x" [] s
  = (Ret ([] ++ imap (λ i _, CallQueryCluster i None) [circleAt s 0]
             ++ [CallQueryCluster (length [circleAt s 0])
                   (Some "unreachable")],
          ([], Some "unreachable")), s).
Proof.
  intros s.
  apply (CreateDatabase_stops_at_the_first_error
           (H2 := admin emptyTarget secondUnreachable)
           "CREATE DATABASE x" [] s [circleAt s 0] [] (circleAt s 1)
           "unreachable").
  - vm_compute. reflexivity.
  - intros c' Hc'. apply list_elem_of_singleton in Hc'. rewrite Hc'.
    vm_compute. reflexivity.
  - vm_compute. reflexivity.
Defined.

Lemma Clear_drops_the_misplaced_witness :
  let s := started twoSources in
  ∃ out',
    Clear (H2 := admin twoSources answering) ["db"] 0 [] s
    = (Ret (out', None), s) ∧
    drops out'
    ≡ₚ drops []
       ++ (Circle.Backends (circleAt s 0)
             ≫= misplacedOn (H1 := twoSources) (State.heap s) (routerAt s 0)
                  ["db"]).
Proof.
  intros s.
  apply (Clear_drops_the_misplaced (H2 := admin twoSources answering)
           ["db"] 0 [] s (circleAt s 0) (routerAt s 0)).
  - vm_compute. reflexivity.
  - vm_compute. reflexivity.
  - vm_compute. reflexivity.
  - intros l Hl. apply list_elem_of_In in Hl. vm_compute in Hl.
    destruct Hl as [<- | [<- | []]]; vm_compute; eexists; reflexivity.
Defined.

(** On this installation [Clear] drops the one measurement that is not in
    its place, [m1] on A, and leaves [m2] on B. *)
Lemma Clear_drops_m1 :
  let s := started twoSources in
  let r := Clear (H2 := admin twoSources answering) ["db"] 0 [] s in
  drops (match r.1 with Ret x => x.1 | _ => [] end) = [(0, "db", "m1")].
Proof. vm_compute. reflexivity. Qed.

Lemma circle_number_out_of_range_witness :
  let s := started plain in
  AddBackend 2 s = (Panic, s) ∧
  (∀ dbs out,
     Clear (H2 := admin plain answering) dbs 2 out s = (Panic, s)) ∧
  (∀ backends databases,
     Rebalance (H1 := plain) backends 2 databases s
     = (Panic,
        State.set_events
          (State.events s ++ [SetMLog "./log/rebalance.log" "Rebalance: "])
          s)) ∧
  (∀ otherCircleNum recoveryBackendUrls databases,
     Recovery (H1 := plain) 2 otherCircleNum recoveryBackendUrls databases s
     = (Panic,
        State.set_events
          (State.events s ++ [SetMLog "./log/recovery.log" "Recovery: "])
          s) ∧
     Recovery (H1 := plain) otherCircleNum 2 recoveryBackendUrls databases s
     = (Panic,
        State.set_events
          (State.events s ++ [SetMLog "./log/recovery.log" "Recovery: "])
          s)).
Proof.
  intros s.
  apply (circle_number_out_of_range (H2 := admin plain answering) 2 s).
  right. vm_compute. discriminate.
Defined.
Lemma WriteData_stops_at_first_failure_witness :
  let s := started secondDiskFull in
  let data := cpuLine "m" in
  let r := WriteData (H1 := secondDiskFull) data s in
  let d := written (H1 := secondDiskFull) data in
  let line :=
    LineToNano (BackendPkg := secondDiskFull) (LineData.Line data)
      (LineData.Precision data) in
  let key :=
    LineData.Db data +:+ ","
      +:+ (ScanKey (BackendPkg := secondDiskFull) line).1 in
  let circles := Proxy.Circles (State.proxy s) in
  ∃ before after b,
    omap (answer key) circles = (Some <$> before) ++ Some 1 :: after ∧
    State.heap r.2 !! 1 = Some b ∧
    d = written (H1 := secondDiskFull) data ∧
    0%Z = Proxy.FlushSize (State.proxy s) ∧
    added s r.2
    = lookupLogs key 0 circles
      ++ ((λ l', CallWriteDataToBuffer l' d 0 None) <$> before)
      ++ [CallWriteDataToBuffer 1 d 0 (Some "disk full");
          LogWriteToBuffer (Backend.Url b) d "disk full"] ∧
    r.1 = Ret d.
Proof.
  intros s data r d line key circles.
  apply (WriteData_stops_at_first_failure (H1 := secondDiskFull) data s
           r.1 r.2 (added s r.2) 1 d 0 "disk full").
  - vm_compute. reflexivity.
  - apply surjective_pairing.
  - vm_compute. reflexivity.
  - vm_compute. right. left.
Defined.

(** On this installation the write reaches the backend of the first
    circle before the enqueue at the second fails. *)
Lemma WriteData_reaches_the_circles_before :
  let s := started secondDiskFull in
  let r := WriteData (H1 := secondDiskFull) (cpuLine "m") s in
  enqueuedTo (added s r.2) = [0; 1] ∧
  last (added s r.2)
  = Some (LogWriteToBuffer "url2"
            (LineData.mk "m" (line "cpu value=1" ++ newline) "ns")
            "disk full").
Proof. vm_compute. repeat split. Qed.
End FurtherExamples.
